(* ===== verification/_CoqProject ===== *)
-Q . S2P
Prelude.v
Enums.v
Text.v
Paths.v
CNum.v
Stream.v
Scores.v
Data.v
FileOps.v
FilesSpec.v
TaskGraph.v
TdOrder.v
State.v
Logs.v
Specjudge.v
Push.v
PushBuild.v
PushRows.v
PushGraph.v
Handlers.v
HandlerFacts.v
WorkLoop.v
LoopInv.v
LoopSafe.v
Scenario.v
LoopSpec.v
ExecuteSpec.v
ScoringSpec.v
SummarySpec.v
MessageSpec.v
Sandbox.v
SandboxSpec.v
TaskRunner.v
RunnerSpec.v
SandboxExec.v
DefaultScoring.v
DefaultScoringSpec.v
ServerQueue.v
QueueSpec.v
Base64.v
Cpuset.v
ServerMessages.v
Reporting.v
Effects.v
EffectsSpec.v
Isolation.v
OutputSpec.v
Links.v
Lifecycle.v
LinkSafe.v
DiskInv.v
BoxInv.v
MachineRun.v
RunSpec.v
ScoringFiles.v
ExecuteFiles.v
FlowSpec.v
Connection.v
ConnectionSpec.v
TestdataSync.v
Download.v
SyncSpec.v
Locks.v
LocksSpec.v
ServerSubmit.v
SubmitSpec.v
Settings.v
