(* ===== verification/Prelude.v ===== *)
(** * A verification library for tioj-judge

    tioj-judge is an online-judge client: it fetches submissions from a web
    server, turns each into a graph of tasks (compile, execute, score,
    summarise), runs the tasks in sandboxes and reports verdicts.

    ** The program and its model

    - _The judge_ (src/tioj/submission.cpp). Its global variables are the record
      [State.Judge]; its functions are written in the state-and-fault monad
      [State.M], with the C++ failures (an index out of range, a missing key, an
      escaping exception) as values of [Data.fault]. [Data] has the records of
      include/tioj/submission.h, [Enums] the enumerations and their names,
      [Scores], [CNum] and [Stream] the fixed-point scores, [long double] and text
      input the program computes with. [TaskGraph] is the dependency graph with its
      ready queue; [TdOrder] and [Push] are [PushSubmission]; [Specjudge] reads what
      special judges report; [Handlers] has the Setup* and Finalize* functions;
      [WorkLoop] composes them into the labelled transition system of [WorkLoop].
    - _The sandbox side_ (src/tioj/tasks.cpp, sandbox*.cpp). [TaskRunner] builds the
      command line and limits of each kind of task and manages the pools of users
      and CPUs; [Sandbox] is the options record with its byte format and cjail's
      context, [SandboxExec] the exchange of options and result between the
      process of a task and the sandbox program. [Paths] has every path function of paths.cpp.
    - _The default scoring program_ (tools/default-scoring.cpp) is [DefaultScoring].
    - _The server side_ (src/server_io.cpp and what it uses). [ServerMessages]
      builds the requests and reads the incoming messages; [ServerQueue] is the
      request queue with its sender thread, [Connection] that thread on a
      websocket connection that opens and closes (websocket.h); [ServerSubmit] is
      the way of a submission from its JSON document to [PushSubmission], with
      [Base64] for the code and [TestdataSync] and [Download] (http_utils.h) for the
      test data and their database (database.h).
    - _The disk_ (src/tioj/utils.cpp). [FileOps] has the file operations, on a disk of
      files, links, owners and mounts. The handlers log the operations they make and
      ask questions about files; [Effects] performs the ones and answers the others
      on a disk, so that every handler runs on it ([Effects.on_disk]), and
      [Effects.machine_step] is the work loop with the disk, the sandboxed programs
      and everything else that writes to it.
    - _The locks of the test data_ (paths.cpp and where they are taken) are [Locks]:
      threads that copy and replace test data, one file operation at a time.
    - _The start_ (src/main.cpp, cpuset.cpp) is [Settings] and [Cpuset].

    Interaction: the worker thread runs [WorkLoop]; the receiving threads push into
    it ([ServerSubmit.System]); the judge calls back the reporter, whose
    requests go through the queue to the connection; its file operations change the
    disk the sandboxed programs work on.

    ** What is shown

    - Scheduler. [LoopInv] and [LoopSafe] have the invariant and its preservation,
      [LoopSpec] the theorems: no step of a reachable state is undefined, tasks
      run after what they depend on and by priority, the loop makes progress and
      terminates, every submission is reported once, a push creates exactly the
      expected graph ([PushBuild], [PushRows], [PushGraph]).
    - Handlers. [ExecuteSpec], [ScoringSpec], [SummarySpec], [MessageSpec]: verdicts
      case by case, the exact effect of each Finalize* function, totals and group
      scores, cancelled groups; [Specjudge]: ranges of whatever a judge writes.
    - Sandboxing. [RunnerSpec], [SandboxSpec], [SandboxExec], [Paths]: tasks that
      run together share neither user, CPU nor box; a result is a failure or
      what cjail returned for the options of the task, whatever call fails;
      every task is returned once; limits are real limits.
    - Files. [FilesSpec]: what each operation changes, for any failure; [EffectsSpec]
      (with [Logs], a calculus of what handlers log): every handler's operations stay
      in the directories of its task; [Isolation]: a step that follows no link touches
      only the boxes of its task; [Links], [LinkSafe]: which operations make,
      move and follow links; [Lifecycle]: a task waits, runs and is gone, and
      owns no box of another task meanwhile; from these [DiskInv] and
      [BoxInv] have invariants of the disk in every run of the machine, and
      [RunSpec] the theorems, for submissions that are not judged between their stages
      and have no summary program: no step touches the box of a task it is not about,
      the judge changes nothing through a link, boxes are empty when their tasks start;
      [OutputSpec]: taking out a program's output follows nothing the program
      planted, and cleans up; [ExecuteFiles], [ScoringFiles]: what a program and a
      special judge find in their boxes; [FlowSpec]: the way of an output from
      the program to its judge, in every run. [MachineRun] has a checker for
      runs and a concrete one. [LocksSpec]: the test data locks block nothing
      and give a scoring an input and an answer that belong together.
    - Scoring program. [DefaultScoringSpec]: the comparisons against reference
      relations, and the way of a verdict from the program into the judge.
    - Server side. [SubmitSpec]: parsed submissions are well typed, and the judge
      inside the server refines the work loop; [Reporting]: judge and reporter
      composed; [SyncSpec]: test data are what the server announced, after any
      number of failures; [QueueSpec]: the queue refines a mailbox, and where it
      does not; [ConnectionSpec]: what survives a lost connection.
    - [LoopSpec.superseded_result_reported], [ScoringSpec.skipped_judge_rejects],
      [QueueSpec.queue_races], [SandboxExec.lost_task_passes], [ConnectionSpec.reconnect_loses_requests],
      [OutputSpec.planted_link_followed], [LocksSpec.versions_mixed] and [LocksSpec.half_updated] state
      where the code does not do what it means to; [LoopSpec.first_reference_dangles] and
      [LoopSpec.failed_runs_overwrite] what [LoopSpec.loop_safe] leaves out.

    ** Conventions

    Integers are [Z], kept in range by [to_int], [to_long] and the like where the
    code can leave it; signed arithmetic wraps there, although its overflow is
    undefined in C++: in [tmpfs_size], [record_usage], [sum_testdata] and
    [RunExecute], whose operands come from the server, the kernel or a special judge.
    No theorem claims that these do not overflow; [RunnerSpec.execute_limits] and
    [ExecuteSpec.tmpfs_size_room] have ranges in which they are exact. A vector is a list, a hash map a [gmap]; iteration orders
    the language leaves open are not relied upon. An allocation failure is not
    modelled. Fuel occurs in loops over text (its length plus a constant) and
    over ranges of CPUs (their number plus one), which the lemmas show to be
    enough; the inner loop of the decompression takes its fuel as an argument.

    Assumptions of the theorems, where they are used: [kMaxParallel] is positive;
    what [PushSubmission] asks of its caller ([WorkLoop.push_ok], established for
    submissions from the server by [SubmitSpec.parse_typed]); handles and file
    descriptors that are open are different (so at most one running task is one
    [RunTask] failed to start, with -1; [LoopSpec.failed_runs_overwrite] has two); internal ids stay below 2^31; the
    roots of boxes and of submissions are apart ([Isolation.roots_ok]); a path
    names its node directly, that is, only its last component may be a link; a
    sandboxed program changes only what is inside its working directory (and a
    special judge's directory for temporary files; [Effects.program_effect]),
    since the directories above belong to root. In runs of the machine
    the box directory of a new submission does not exist. The judge takes over two
    kinds of files without looking at them, what a special judge leaves between stages and
    the compiled summary program, and follows a link there
    ([OutputSpec.planted_link_followed]): the theorems of [RunSpec] are about runs without
    submissions that have them ([RunSpec.links_checked]), [FlowSpec.judged_output]
    assumes that the programs in question leave no links ([DiskInv.env_ok]).
    The target is a 64-bit little-endian one with 80-bit [long double].

    Third-party code is a parameter: JSON text ([Data.JsonText]) and conversions
    ([ServerSubmit.JsonGet]), the ini file ([Settings.Ini]), zstd
    ([Download.Zstd]), the HTTP and websocket libraries (what they deliver is
    chosen by the environment), SQLite (a finite map), the sandbox (in
    the judge its [cjail_result] is arbitrary; in [SandboxExec] cjail is a
    function of its context).

    ** Not modelled

    The logger (locks of a third-party logger around fork), the TLS and thread
    set-up of the websocket library, formatting of requests for the
    log, the test programs and build files. Interleaving inside an operation is
    modelled for the request queue and the test data; elsewhere an operation of
    the judge is one step. Links in the middle of a path and file contents
    that change while they are copied are not. Enumeration values outside of their
    enumeration, which [DealOneSubmission] casts without a check, leave the model
    ([BadEnum]).

    ** Plan

    Next: reading through links (the sources of copies, the files of a Kattis judge), and
    the arithmetic of times and limits without overflow from bounds on what the
    server and the judges give.
*)

From stdpp Require Export base tactics fin_sets gmap strings list sorting pretty.
From Stdlib Require Export ZArith Lia Ascii.

Declare Scope tioj_scope.
Delimit Scope tioj_scope with tioj.

#[global] Open Scope Z_scope.

(** ** Machine integers

    [int], [long] and [unsigned int] are [Z] kept in range by an explicit
    wrap-around ([int] is 32 bits, [long] 64 bits on the supported target). *)

Definition wrap_signed (w z : Z) : Z := (z + 2 ^ (w - 1)) `mod` 2 ^ w - 2 ^ (w - 1).
Definition wrap_unsigned (w z : Z) : Z := z `mod` 2 ^ w.

Abbreviation to_int := (wrap_signed 32).
Abbreviation to_long := (wrap_signed 64).
Abbreviation to_uint := (wrap_unsigned 32).

Definition in_signed (w z : Z) : Prop := - 2 ^ (w - 1) <= z < 2 ^ (w - 1).
Abbreviation is_int := (in_signed 32).
Abbreviation is_long := (in_signed 64).

Definition LONG_MAX : Z := 2 ^ 63 - 1.
Definition LONG_MIN : Z := - 2 ^ 63.

Lemma wrap_signed_range w z : 0 < w -> in_signed w (wrap_signed w z).
Proof.
  intros Hw. unfold in_signed, wrap_signed.
  assert (Hp : 2 ^ w = 2 * 2 ^ (w - 1))
    by (rewrite <- Z.pow_succ_r by lia; f_equal; lia).
  pose proof (Z.mod_pos_bound (z + 2 ^ (w - 1)) (2 ^ w)) as Hb.
  assert (0 < 2 ^ (w - 1)) by (apply Z.pow_pos_nonneg; lia). lia.
Qed.

Lemma wrap_signed_id w z : 0 < w -> in_signed w z -> wrap_signed w z = z.
Proof.
  intros Hw [Hl Hh]. unfold wrap_signed.
  assert (Hp : 2 ^ w = 2 * 2 ^ (w - 1))
    by (rewrite <- Z.pow_succ_r by lia; f_equal; lia).
  rewrite Z.mod_small; lia.
Qed.

Lemma wrap_signed_mod w z : 0 < w -> (wrap_signed w z) `mod` 2 ^ w = z `mod` 2 ^ w.
Proof.
  intros Hw. unfold wrap_signed.
  rewrite Zminus_mod_idemp_l. f_equal. lia.
Qed.

(** Side conditions of the lemmas above, and their main use: arithmetic that stays in
    range is exact. *)
Ltac in_width :=
  solve [ lia | assumption
        | unfold in_signed in *; change (2 ^ (64 - 1)) with 9223372036854775808 in *;
          change (2 ^ (32 - 1)) with 2147483648 in *; lia ].
Ltac no_wrap w z := rewrite (wrap_signed_id w z) by in_width.
