(* ===== verification/Enums.v ===== *)
(** * Enumerations and their name tables

    The enumerations of include/tioj/submission.h and include/tioj/tasks.h
    (built there with X-macros) and the conversions of src/tioj/utils.cpp. *)

From S2P Require Import Prelude.

Inductive SpecjudgeType :=
  SJ_NORMAL | SPECJUDGE_OLD | SPECJUDGE_NEW | SPECJUDGE_POLYGON | SPECJUDGE_KATTIS | SJ_SKIP.

Inductive InterlibType := INTERLIB_NONE | INTERLIB_INCLUDE.

Inductive SummaryType := SUMMARY_NONE | SUMMARY_CUSTOM.

Inductive Compiler :=
  GCC_CPP_98 | GCC_CPP_11 | GCC_CPP_14 | GCC_CPP_17 | GCC_CPP_20
| GCC_C_90 | GCC_C_99 | GCC_C_11 | GCC_C_17
| RUSTC_RUST_2021 | HASKELL | PYTHON2 | PYTHON3 | COMPILER_CUSTOM.

Inductive Verdict :=
  NUL
| AC | WA | TLE | MLE | OLE | RE | SIG | JRE | EE
| CE | CLE | JCE | JE.

Inductive TaskType := COMPILE | EXECUTE | SCORING | SUMMARY.

Inductive CompileSubtask := USERPROG | SPECJUDGE | CS_SUMMARY | PROBPROG.

#[export] Instance SpecjudgeType_eq_dec : EqDecision SpecjudgeType.
Proof. solve_decision. Defined.
#[export] Instance InterlibType_eq_dec : EqDecision InterlibType.
Proof. solve_decision. Defined.
#[export] Instance SummaryType_eq_dec : EqDecision SummaryType.
Proof. solve_decision. Defined.
#[export] Instance Compiler_eq_dec : EqDecision Compiler.
Proof. solve_decision. Defined.
#[export] Instance Verdict_eq_dec : EqDecision Verdict.
Proof. solve_decision. Defined.
#[export] Instance TaskType_eq_dec : EqDecision TaskType.
Proof. solve_decision. Defined.
#[export] Instance CompileSubtask_eq_dec : EqDecision CompileSubtask.
Proof. solve_decision. Defined.

(** The enumerators in declaration order; [(int)x] is the position. *)
Definition all_verdicts : list Verdict :=
  [NUL; AC; WA; TLE; MLE; OLE; RE; SIG; JRE; EE; CE; CLE; JCE; JE].

Definition all_compilers : list Compiler :=
  [GCC_CPP_98; GCC_CPP_11; GCC_CPP_14; GCC_CPP_17; GCC_CPP_20; GCC_C_90; GCC_C_99;
   GCC_C_11; GCC_C_17; RUSTC_RUST_2021; HASKELL; PYTHON2; PYTHON3; COMPILER_CUSTOM].

Definition all_compile_subtasks : list CompileSubtask :=
  [USERPROG; SPECJUDGE; CS_SUMMARY; PROBPROG].

Definition Verdict_to_nat (v : Verdict) : nat :=
  match v with
  | NUL => 0 | AC => 1 | WA => 2 | TLE => 3 | MLE => 4 | OLE => 5 | RE => 6 | SIG => 7
  | JRE => 8 | EE => 9 | CE => 10 | CLE => 11 | JCE => 12 | JE => 13
  end.

Definition Compiler_to_nat (c : Compiler) : nat :=
  match c with
  | GCC_CPP_98 => 0 | GCC_CPP_11 => 1 | GCC_CPP_14 => 2 | GCC_CPP_17 => 3
  | GCC_CPP_20 => 4 | GCC_C_90 => 5 | GCC_C_99 => 6 | GCC_C_11 => 7 | GCC_C_17 => 8
  | RUSTC_RUST_2021 => 9 | HASKELL => 10 | PYTHON2 => 11 | PYTHON3 => 12
  | COMPILER_CUSTOM => 13
  end.

Definition CompileSubtask_to_Z (s : CompileSubtask) : Z :=
  match s with USERPROG => 0 | SPECJUDGE => 1 | CS_SUMMARY => 2 | PROBPROG => 3 end.

(** [(CompileSubtask)i]; a value outside the enumeration is undefined. *)
Definition CompileSubtask_of_Z (i : Z) : option CompileSubtask :=
  match i with
  | 0 => Some USERPROG | 1 => Some SPECJUDGE | 2 => Some CS_SUMMARY | 3 => Some PROBPROG
  | _ => None
  end.

Definition verdict_lt (a b : Verdict) : bool := (Verdict_to_nat a <? Verdict_to_nat b)%nat.

(** [std::max] on the enumeration: the second argument only when the first
    is strictly less. *)
Definition verdict_max (a b : Verdict) : Verdict := if verdict_lt a b then b else a.

Definition VerdictToDesc (v : Verdict) : string :=
  match v with
  | NUL => "nil"
  | AC => "Accepted"
  | WA => "Wrong Answer"
  | TLE => "Time Limit Exceeded"
  | MLE => "Memory Limit Exceeded"
  | OLE => "Output Limit Exceeded"
  | RE => "Runtime Error (exited with nonzero status)"
  | SIG => "Runtime Error (exited with signal)"
  | JRE => "Judge Runtime Error"
  | EE => "Execution Error"
  | CE => "Compile Error"
  | CLE => "Compilation Limit Exceeded"
  | JCE => "Judge Compilation Error"
  | JE => "Judge Error"
  end.

Definition kVerdictAbrTable : list string :=
  [""; "AC"; "WA"; "TLE"; "MLE"; "OLE"; "RE"; "SIG"; "JRE"; "EE"; "CE"; "CLE"; "JCE"; "JE"].

Definition VerdictToAbr (v : Verdict) : string :=
  default "" (kVerdictAbrTable !! Verdict_to_nat v).

(** The [for] loops of the table searches: the first index in [lo, hi) whose
    entry is [str]. *)
Fixpoint table_scan (table : list string) (str : string) (lo n : nat) : option nat :=
  match n with
  | O => None
  | S n' =>
      if bool_decide (table !! lo = Some str) then Some lo
      else table_scan table str (S lo) n'
  end.

Definition AbrToVerdict (str : string) (runtime_only : bool) : Verdict :=
  let ac := Verdict_to_nat AC in
  let ce := Verdict_to_nat CE in
  let je := Verdict_to_nat JE in
  match table_scan kVerdictAbrTable str ac (ce - ac) with
  | Some i => default NUL (all_verdicts !! i)
  | None =>
      if runtime_only then NUL
      else if bool_decide (str = "ER") then JCE
      else
        match table_scan kVerdictAbrTable str ce (je + 1 - ce) with
        | Some i => default NUL (all_verdicts !! i)
        | None => NUL
        end
  end.

Definition kCompilerNameTable : list string :=
  ["c++98"; "c++11"; "c++14"; "c++17"; "c++20"; "c90"; "c99"; "c11"; "c17";
   "rust 2021"; "haskell"; "python2"; "python3"; "custom"].

Definition CompilerName (c : Compiler) : string :=
  default "" (kCompilerNameTable !! Compiler_to_nat c).

Definition GetCompiler (str : string) : Compiler :=
  match table_scan kCompilerNameTable str 0 (length kCompilerNameTable) with
  | Some i => default GCC_CPP_14 (all_compilers !! i)
  | None => GCC_CPP_14
  end.

Definition TaskTypeName (t : TaskType) : string :=
  match t with
  | COMPILE => "COMPILE" | EXECUTE => "EXECUTE" | SCORING => "SCORING" | SUMMARY => "SUMMARY"
  end.

Definition CompileSubtaskName (s : CompileSubtask) : string :=
  match s with
  | USERPROG => "USERPROG" | SPECJUDGE => "SPECJUDGE" | CS_SUMMARY => "SUMMARY"
  | PROBPROG => "PROBPROG"
  end.

Definition SpecjudgeTypeName (t : SpecjudgeType) : string :=
  match t with
  | SJ_NORMAL => "NORMAL" | SPECJUDGE_OLD => "SPECJUDGE_OLD"
  | SPECJUDGE_NEW => "SPECJUDGE_NEW" | SPECJUDGE_POLYGON => "SPECJUDGE_POLYGON"
  | SPECJUDGE_KATTIS => "SPECJUDGE_KATTIS" | SJ_SKIP => "SKIP"
  end.

Definition InterlibTypeName (t : InterlibType) : string :=
  match t with INTERLIB_NONE => "NONE" | INTERLIB_INCLUDE => "INCLUDE" end.

(** ** Properties *)

Lemma table_scan_Some table str lo n i :
  table_scan table str lo n = Some i ->
  (lo <= i < lo + n)%nat /\ table !! i = Some str.
Proof.
  revert lo. induction n as [|n IH]; intros lo; simpl; [done|].
  case_bool_decide as Hd.
  - intros [= <-]. split; [lia|done].
  - intros [? ?]%IH. split; [lia|done].
Qed.

Lemma verdict_max_lub a b :
  Verdict_to_nat (verdict_max a b) = Nat.max (Verdict_to_nat a) (Verdict_to_nat b).
Proof.
  unfold verdict_max, verdict_lt.
  destruct (Nat.ltb_spec (Verdict_to_nat a) (Verdict_to_nat b)); lia.
Qed.

Lemma Verdict_to_nat_inj a b : Verdict_to_nat a = Verdict_to_nat b -> a = b.
Proof. destruct a, b; done. Qed.

Lemma CompileSubtask_of_to_Z s : CompileSubtask_of_Z (CompileSubtask_to_Z s) = Some s.
Proof. by destruct s. Qed.

(** Reading back the abbreviation the judge prints for a verdict gives
    the verdict again; with [runtime_only] the verdicts of a compilation (and
    the older spelling "ER", which stands for JCE) are not recognised and
    give NUL.  No other string is ever taken for a verdict. *)
Theorem AbrToVerdict_spec (str : string) (runtime_only : bool) :
  (forall v, AbrToVerdict (VerdictToAbr v) runtime_only =
        if runtime_only && negb (verdict_lt v CE) then NUL else v) /\
  (AbrToVerdict str runtime_only <> NUL ->
     VerdictToAbr (AbrToVerdict str runtime_only) = str \/
     (str = "ER" /\ runtime_only = false /\ AbrToVerdict str runtime_only = JCE)).
Proof.
  split.
  - intros []; by destruct runtime_only.
  - unfold AbrToVerdict.
    destruct (table_scan kVerdictAbrTable str _ (_ - Verdict_to_nat AC)) as [i|] eqn:E1.
    + apply table_scan_Some in E1 as [Hi Ht]. intros _. left. simpl in Hi.
      do 10 (destruct i as [|i]; [first [lia|simpl in Ht; by simplify_eq]|]). lia.
    + destruct runtime_only; [done|]. case_bool_decide; [by right|].
      destruct (table_scan kVerdictAbrTable str _ (_ - Verdict_to_nat CE)) as [i|] eqn:E2; [|done].
      apply table_scan_Some in E2 as [Hi Ht]. intros _. left. simpl in Hi.
      do 14 (destruct i as [|i]; [first [lia|simpl in Ht; by simplify_eq]|]). lia.
Qed.

(** A runtime verdict never means a failed compilation. *)
Lemma AbrToVerdict_runtime str : verdict_lt (AbrToVerdict str true) CE = true.
Proof.
  unfold AbrToVerdict.
  destruct (table_scan _ _ _ _) as [i|] eqn:E1; [|done].
  apply table_scan_Some in E1 as [Hi _]. simpl in Hi.
  do 10 (destruct i as [|i]; [first [lia|reflexivity]|]). lia.
Qed.

Lemma GetCompiler_CompilerName c : GetCompiler (CompilerName c) = c.
Proof. by destruct c. Qed.
