(* ===== verification/Text.v ===== *)
(** * Text helpers

    What the program uses of the C++ string library: [std::to_string] on
    integers, zero padding, decimal digits, and the list view of a string that
    the parsers work on.  A [std::string] is a [string]: a list of bytes. *)

From S2P Require Import Prelude.

(** [std::to_string] of an integer. *)
Definition to_string (z : Z) : string := pretty z.

(** [std::string(n, c)]. *)
Fixpoint string_repeat (n : nat) (c : ascii) : string :=
  match n with O => "" | S n' => String c (string_repeat n' c) end.

Definition is_digit (c : ascii) : bool :=
  (48 <=? Z.of_nat (nat_of_ascii c)) && (Z.of_nat (nat_of_ascii c) <=? 57).
Definition digit_val (c : ascii) : Z := Z.of_nat (nat_of_ascii c) - 48.

(** [isspace] of the C locale. *)
Definition is_space (c : ascii) : bool :=
  bool_decide (nat_of_ascii c ∈ [32; 9; 10; 11; 12; 13]%nat).

Fixpoint string_forall (P : ascii -> bool) (s : string) : bool :=
  match s with EmptyString => true | String c s' => P c && string_forall P s' end.

(** The value of a digit string read from the left, starting from [acc]. *)
Fixpoint digits_value (acc : Z) (s : string) : Z :=
  match s with
  | EmptyString => acc
  | String c s' => digits_value (10 * acc + digit_val c) s'
  end.

(** The substring of [n] characters from position [m] (clipped at the end). *)
Abbreviation substr := String.substring.

(** ** Strings and lists of characters *)

Lemma string_app_nil_l (a : string) : "" +:+ a = a.
Proof. done. Qed.

Lemma string_app_cons c (a b : string) : String c a +:+ b = String c (a +:+ b).
Proof. done. Qed.

Create Rewrite HintDb text.
#[export] Hint Rewrite string_app_nil_l string_app_cons : text.

Lemma string_app_assoc (a b c : string) : (a +:+ b) +:+ c = a +:+ (b +:+ c).
Proof. induction a as [|x a IH]; [done|]. autorewrite with text; simpl. by rewrite IH. Qed.

Lemma string_app_nil_r (a : string) : a +:+ "" = a.
Proof. induction a as [|x a IH]; [done|]. autorewrite with text; simpl. by rewrite IH. Qed.

Lemma string_length_app (a b : string) :
  String.length (a +:+ b) = (String.length a + String.length b)%nat.
Proof. induction a as [|x a IH]; [done|]. autorewrite with text; simpl. by rewrite IH. Qed.

Lemma string_app_inj_length (a b c d : string) :
  String.length a = String.length c -> a +:+ b = c +:+ d -> a = c /\ b = d.
Proof.
  revert c. induction a as [|x a IH]; intros [|y c]; autorewrite with text; simpl;
    intros Hl Heq; try lia.
  - done.
  - injection Heq as -> Heq. injection Hl as Hl.
    destruct (IH c Hl Heq) as [-> ->]. done.
Qed.

Lemma string_forall_app P (a b : string) :
  string_forall P (a +:+ b) = string_forall P a && string_forall P b.
Proof.
  induction a as [|x a IH]; [done|]. autorewrite with text; simpl.
  by rewrite IH, andb_assoc.
Qed.

Lemma string_forall_repeat P n c :
  P c = true -> string_forall P (string_repeat n c) = true.
Proof. intros H. induction n as [|n IH]; simpl; [done|]. by rewrite H, IH. Qed.

Lemma string_forall_impl (P Q : ascii -> bool) s :
  (forall c, P c = true -> Q c = true) ->
  string_forall P s = true -> string_forall Q s = true.
Proof.
  intros HPQ. induction s as [|c s IH]; simpl; [done|].
  rewrite !andb_true_iff. intros [? ?]. eauto.
Qed.

(** Splitting at the first character that satisfies a predicate is unambiguous. *)
Lemma string_split_unique (P : ascii -> bool) (a b c d : string) (x y : ascii) :
  string_forall P a = true -> string_forall P c = true ->
  P x = false -> P y = false ->
  a +:+ String x b = c +:+ String y d -> a = c /\ x = y /\ b = d.
Proof.
  intros Ha Hc Hx Hy. revert c Ha Hc.
  induction a as [|z a IH]; intros [|w c]; autorewrite with text; simpl; intros Ha Hc Heq.
  - by injection Heq.
  - injection Heq as -> _. apply andb_true_iff in Hc as [Hw _]. congruence.
  - injection Heq as -> _. apply andb_true_iff in Ha as [Hw _]. congruence.
  - injection Heq as -> Heq.
    apply andb_true_iff in Ha as [_ Ha]. apply andb_true_iff in Hc as [_ Hc].
    destruct (IH c Ha Hc Heq) as (-> & -> & ->). done.
Qed.

Lemma string_split_no_end (P : ascii -> bool) (a b c : string) (x : ascii) :
  string_forall P c = true -> P x = false -> a +:+ String x b <> c.
Proof.
  intros Hc Hx <-. rewrite string_forall_app in Hc. simpl in Hc.
  rewrite Hx, andb_false_r in Hc. done.
Qed.

(** ** Decimal printing *)

Lemma pretty_N_char_digit x : is_digit (pretty_N_char x) = true.
Proof. unfold pretty_N_char. by repeat case_match. Qed.

Lemma digit_val_pretty x : (x < 10)%N -> digit_val (pretty_N_char x) = Z.of_N x.
Proof.
  intros Hx.
  assert (x = 0 \/ x = 1 \/ x = 2 \/ x = 3 \/ x = 4 \/ x = 5 \/ x = 6 \/ x = 7
          \/ x = 8 \/ x = 9)%N as Hc by lia.
  by repeat destruct Hc as [->|Hc]; subst.
Qed.

Lemma pretty_N_go_digits x s :
  string_forall is_digit s = true -> string_forall is_digit (pretty_N_go x s) = true.
Proof.
  revert s. induction (N.lt_wf_0 x) as [x _ IH]; intros s Hs.
  destruct (decide (x = 0)%N) as [->|Hx]; [done|].
  rewrite pretty_N_go_step by lia. apply IH; [apply N.div_lt; lia|].
  simpl. by rewrite pretty_N_char_digit.
Qed.

Lemma pretty_N_go_value x s :
  digits_value 0 (pretty_N_go x s) = digits_value (Z.of_N x) s.
Proof.
  revert s. induction (N.lt_wf_0 x) as [x _ IH]; intros s.
  destruct (decide (x = 0)%N) as [->|Hx]; [done|].
  rewrite pretty_N_go_step by lia. rewrite IH by (apply N.div_lt; lia).
  simpl. f_equal. rewrite digit_val_pretty by (apply N.mod_lt; lia).
  pose proof (N.div_mod x 10). lia.
Qed.

Lemma to_string_digits z : 0 <= z -> string_forall is_digit (to_string z) = true.
Proof.
  intros Hz. destruct z as [|p|p]; [done| |lia].
  unfold to_string, pretty, pretty_Z, pretty, pretty_positive, pretty, pretty_N.
  case_decide; [done|]. by apply pretty_N_go_digits.
Qed.

Lemma to_string_value z : 0 <= z -> digits_value 0 (to_string z) = z.
Proof.
  intros Hz. destruct z as [|p|p]; [done| |lia].
  unfold to_string, pretty, pretty_Z, pretty, pretty_positive, pretty, pretty_N.
  case_decide; [done|]. rewrite pretty_N_go_value. done.
Qed.

Lemma to_string_inj x y : to_string x = to_string y -> x = y.
Proof. apply pretty_Z_inj. Qed.

Lemma to_string_neg z : 0 < z -> to_string (- z) = String "-" (to_string z).
Proof. intros Hz. destruct z as [|p|p]; [lia|done|lia]. Qed.

Lemma pretty_N_go_length k x s :
  (x < 10 ^ N.of_nat k)%N -> (String.length (pretty_N_go x s) <= k + String.length s)%nat.
Proof.
  revert x s. induction k as [|k IH]; intros x s Hx.
  - simpl in Hx. by assert (x = 0%N) as -> by lia.
  - destruct (decide (x = 0)%N) as [->|Hne]; [simpl; rewrite pretty_N_go_0; lia|].
    rewrite pretty_N_go_step by lia.
    etrans; [apply IH|simpl; lia].
    apply N.Div0.div_lt_upper_bound. rewrite Nat2N.inj_succ, N.pow_succ_r' in Hx. done.
Qed.

Lemma digits_value_acc a s :
  digits_value a s = a * 10 ^ Z.of_nat (String.length s) + digits_value 0 s.
Proof.
  revert a. induction s as [|c s IH]; intros a; [simpl; lia|].
  cbn [digits_value String.length]. rewrite IH, (IH (10 * 0 + _)).
  rewrite Nat2Z.inj_succ, Z.pow_succ_r by lia. lia.
Qed.

Lemma digits_value_app a b :
  digits_value 0 (a +:+ b) = digits_value 0 a * 10 ^ Z.of_nat (String.length b) + digits_value 0 b.
Proof.
  rewrite <- digits_value_acc. generalize 0.
  induction a as [|c a IH]; intros z; [done|]. simpl. autorewrite with text. apply IH.
Qed.

Lemma digits_value_bound s : string_forall is_digit s = true ->
  0 <= digits_value 0 s < 10 ^ Z.of_nat (String.length s).
Proof.
  induction s as [|c s IH]; [done|]. cbn [string_forall digits_value String.length].
  intros [Hc Hs]%andb_true_iff. specialize (IH Hs). rewrite digits_value_acc.
  assert (0 <= digit_val c <= 9).
  { unfold is_digit in Hc. unfold digit_val.
    apply andb_true_iff in Hc as [?%Z.leb_le ?%Z.leb_le]. lia. }
  rewrite Nat2Z.inj_succ, Z.pow_succ_r by lia. nia.
Qed.

(** The decimal form of [z] has at most [k] characters iff [z < 10^k]. *)
Lemma to_string_length k z : 0 <= z -> (0 < k)%nat ->
  (String.length (to_string z) <= k)%nat <-> z < 10 ^ Z.of_nat k.
Proof.
  intros Hz Hk. split.
  - intros Hl. rewrite <- (to_string_value z) by done.
    destruct (digits_value_bound (to_string z)) as [_ Hb]; [by apply to_string_digits|].
    eapply Z.lt_le_trans; [exact Hb|]. apply Z.pow_le_mono_r; lia.
  - intros Hlt. destruct z as [|p|p]; [simpl; lia| |lia].
    unfold to_string, pretty, pretty_Z, pretty, pretty_positive, pretty, pretty_N.
    case_decide; [simpl; lia|]. etrans; [apply (pretty_N_go_length k)|simpl; lia].
    apply N2Z.inj_lt. rewrite N2Z.inj_pow, nat_N_Z. exact Hlt.
Qed.

Lemma to_string_nonempty z : to_string z <> "".
Proof.
  destruct z as [|p|p]; [done| |].
  2:{ change (Zneg p) with (- Zpos p). by rewrite to_string_neg by lia. }
  intros E. pose proof (to_string_value (Zpos p) ltac:(lia)) as Hv. by rewrite E in Hv.
Qed.

(** [PadInt] of src/tioj/paths.cpp and src/paths.cpp. *)
Definition PadInt (x : Z) (width : nat) : string :=
  let ret := to_string x in
  if (String.length ret <? width)%nat
  then string_repeat (width - String.length ret) "0" +:+ ret
  else ret.

Lemma digits_value_zeros n s : digits_value 0 (string_repeat n "0" +:+ s) = digits_value 0 s.
Proof. induction n as [|n IH]; [done|]. simpl. autorewrite with text. apply IH. Qed.

Lemma PadInt_digits x w : 0 <= x -> string_forall is_digit (PadInt x w) = true.
Proof.
  intros Hx. unfold PadInt. case_match; [|by apply to_string_digits].
  rewrite string_forall_app, to_string_digits by done.
  by rewrite string_forall_repeat.
Qed.

Lemma PadInt_value x w : 0 <= x -> digits_value 0 (PadInt x w) = x.
Proof.
  intros Hx. unfold PadInt. case_match; [|by apply to_string_value].
  by rewrite digits_value_zeros, to_string_value.
Qed.

Lemma PadInt_inj x y w : 0 <= x -> 0 <= y -> PadInt x w = PadInt y w -> x = y.
Proof.
  intros Hx Hy Heq.
  rewrite <- (PadInt_value x w), <- (PadInt_value y w) by done. by rewrite Heq.
Qed.

Lemma is_digit_spec c : is_digit c = true -> c <> "/"%char /\ c <> "_"%char /\ c <> "-"%char.
Proof. intros H. split_and!; intros ->; done. Qed.
