(* ===== verification/Paths.v ===== *)
(** * Paths

    src/tioj/paths.cpp, src/paths.cpp and the test-data pool paths of
    src/server_io.cpp: where every file of a judging run lives, outside and
    inside the sandbox boxes. *)

From S2P Require Import Prelude Enums Text.

(** [std::filesystem::path::operator/] on POSIX: an absolute right operand
    replaces the left one; otherwise a separator is added when the left
    operand ends in a file name. *)
Fixpoint has_filename (p : string) : bool :=
  match p with
  | EmptyString => false
  | String c EmptyString => negb (bool_decide (c = "/"%char))
  | String _ p' => has_filename p'
  end.

Definition is_absolute (p : string) : bool :=
  match p with String c _ => bool_decide (c = "/"%char) | EmptyString => false end.

Definition path_append (p q : string) : string :=
  if is_absolute q then q
  else if has_filename p then p +:+ "/" +:+ q
  else p +:+ q.

Infix "//" := path_append (at level 40, left associativity) : tioj_scope.
Open Scope tioj_scope.

(** The configured roots: [kBoxRoot], [kSubmissionRoot], [internal::kDataDir]
    and [kTestdataRoot]. *)
Class PathRoots := {
  kBoxRoot : string;
  kSubmissionRoot : string;
  kDataDir : string;
  kTestdataRoot : string;
}.

Definition kWorkdirRelative : string := "workdir".

Definition Workdir (path : string) : string := path // kWorkdirRelative.

Definition CodeExtension (lang : Compiler) : string :=
  match lang with
  | GCC_CPP_98 | GCC_CPP_11 | GCC_CPP_14 | GCC_CPP_17 | GCC_CPP_20 => ".cpp"
  | GCC_C_90 | GCC_C_99 | GCC_C_11 | GCC_C_17 => ".c"
  | RUSTC_RUST_2021 => ".rs"
  | HASKELL => ".hs"
  | PYTHON2 | PYTHON3 => ".py"
  | COMPILER_CUSTOM => ""
  end.

Definition ProgramExtension (lang : Compiler) : string :=
  match lang with
  | GCC_CPP_98 | GCC_CPP_11 | GCC_CPP_14 | GCC_CPP_17 | GCC_CPP_20
  | GCC_C_90 | GCC_C_99 | GCC_C_11 | GCC_C_17 => ""
  | RUSTC_RUST_2021 => ""
  | HASKELL => ""
  | PYTHON2 | PYTHON3 => ".pyc"
  | COMPILER_CUSTOM => ""
  end.

Definition CompileCodeName (subtask : CompileSubtask) (lang : Compiler) : string :=
  let extension := CodeExtension lang in
  match subtask with
  | USERPROG => "prog" +:+ extension
  | SPECJUDGE => "judge" +:+ extension
  | CS_SUMMARY => "summary" +:+ extension
  | PROBPROG => "prob_prog" +:+ extension
  end.

Definition CompileResultName (subtask : CompileSubtask) (lang : Compiler) : string :=
  let extension := ProgramExtension lang in
  match subtask with
  | USERPROG => "prog" +:+ extension
  | SPECJUDGE => "judge" +:+ extension
  | CS_SUMMARY => "summary" +:+ extension
  | PROBPROG => "prob_prog" +:+ extension
  end.

Definition InterlibName (problem_id : Z) : string := "lib" +:+ PadInt problem_id 4 +:+ ".h".

Definition BoxRoot (root : string) (inside_box : bool) : string :=
  if inside_box then "/" else root.

(** File modes, as octal values. *)
Definition perms_all : Z := 511.          (* 0777 *)
Definition perms_owner_all : Z := 448.    (* 0700 *)
Definition perms_owner_rw : Z := 384.     (* 0600 *)
Definition kPerm666 : Z := 438.           (* 0666 *)

Section Paths.
Context `{PathRoots}.

Definition SubmissionRunPath (id : Z) : string := kBoxRoot // PadInt id 6.

Definition CompileBoxPath (id : Z) (subtask : CompileSubtask) : string :=
  SubmissionRunPath id // ("compile" +:+ to_string (CompileSubtask_to_Z subtask)).
Definition CompileBoxInput (id : Z) (subtask : CompileSubtask) (lang : Compiler)
    (inside_box : bool) : string :=
  Workdir (BoxRoot (CompileBoxPath id subtask) inside_box) // CompileCodeName subtask lang.
Definition CompileBoxInterlib (id problem_id : Z) (inside_box : bool) : string :=
  Workdir (BoxRoot (CompileBoxPath id USERPROG) inside_box) // InterlibName problem_id.
Definition CompileBoxInterlibImpl (id : Z) (lang : Compiler) (inside_box : bool) : string :=
  Workdir (BoxRoot (CompileBoxPath id USERPROG) inside_box)
    // ("interlib" +:+ CodeExtension lang).
Definition CompileBoxMessage (id : Z) (subtask : CompileSubtask) (inside_box : bool) : string :=
  Workdir (BoxRoot (CompileBoxPath id subtask) inside_box) // "message".
Definition CompileBoxOutput (id : Z) (subtask : CompileSubtask) (lang : Compiler)
    (inside_box : bool) : string :=
  Workdir (BoxRoot (CompileBoxPath id subtask) inside_box) // CompileResultName subtask lang.

Definition ExecuteBoxPath (id td stage : Z) : string :=
  SubmissionRunPath id // ("execute" +:+ PadInt td 3 +:+ "_" +:+ PadInt stage 2).
Definition ExecuteBoxProgram (id td stage : Z) (lang : Compiler) (inside_box : bool) : string :=
  Workdir (BoxRoot (ExecuteBoxPath id td stage) inside_box) // ("prog" +:+ ProgramExtension lang).
Definition ExecuteBoxProgramPerm (lang : Compiler) (strict : bool) : Z :=
  if negb strict then perms_all
  else
    match lang with
    | GCC_CPP_98 | GCC_CPP_11 | GCC_CPP_14 | GCC_CPP_17 | GCC_CPP_20
    | GCC_C_90 | GCC_C_99 | GCC_C_11 | GCC_C_17 => Z.lor (Z.lor perms_owner_all 8) 1
    | RUSTC_RUST_2021 => Z.lor (Z.lor perms_owner_all 8) 1
    | HASKELL => Z.lor (Z.lor perms_owner_all 8) 1
    | PYTHON2 | PYTHON3 | COMPILER_CUSTOM =>
        Z.lor (Z.lor (Z.lor (Z.lor perms_owner_all 32) 8) 4) 1
    end.
Definition ExecuteBoxTdStrictPath (id td stage : Z) (inside_box : bool) : string :=
  BoxRoot (ExecuteBoxPath id td stage) inside_box // "td".
Definition ExecuteBoxInput (id td stage : Z) (strict inside_box : bool) : string :=
  if strict then ExecuteBoxTdStrictPath id td stage inside_box // "input"
  else Workdir (BoxRoot (ExecuteBoxPath id td stage) inside_box) // "input".
Definition ExecuteBoxOutput (id td stage : Z) (strict inside_box : bool) : string :=
  if strict then ExecuteBoxTdStrictPath id td stage inside_box // "output"
  else Workdir (BoxRoot (ExecuteBoxPath id td stage) inside_box) // "output".
Definition ExecuteBoxError (id td stage : Z) (inside_box : bool) : string :=
  Workdir (BoxRoot (ExecuteBoxPath id td stage) inside_box) // "error".
Definition ExecuteBoxFinalOutput (id td stage : Z) : string :=
  ExecuteBoxPath id td stage // "output".

Definition ScoringBoxPath (id td stage : Z) : string :=
  SubmissionRunPath id // ("scoring" +:+ PadInt td 3 +:+ "_" +:+ PadInt stage 2).
Definition ScoringBoxProgram (id td stage : Z) (lang : Compiler) (inside_box : bool) : string :=
  Workdir (BoxRoot (ScoringBoxPath id td stage) inside_box) // ("prog" +:+ ProgramExtension lang).
Definition ScoringBoxUserCode (id td stage : Z) (lang : Compiler) (inside_box : bool) : string :=
  Workdir (BoxRoot (ScoringBoxPath id td stage) inside_box) // ("code" +:+ CodeExtension lang).
Definition ScoringBoxUserOutput (id td stage : Z) (inside_box : bool) : string :=
  Workdir (BoxRoot (ScoringBoxPath id td stage) inside_box) // "user_output".
Definition ScoringBoxTdInput (id td stage : Z) (inside_box : bool) : string :=
  Workdir (BoxRoot (ScoringBoxPath id td stage) inside_box) // "td_input".
Definition ScoringBoxTdOutput (id td stage : Z) (inside_box : bool) : string :=
  Workdir (BoxRoot (ScoringBoxPath id td stage) inside_box) // "td_output".
Definition ScoringBoxMetaFile (id td stage : Z) (inside_box : bool) : string :=
  Workdir (BoxRoot (ScoringBoxPath id td stage) inside_box) // "meta".
Definition ScoringBoxOutput (id td stage : Z) (inside_box : bool) : string :=
  Workdir (BoxRoot (ScoringBoxPath id td stage) inside_box) // "output".
Definition ScoringBoxTempdir (id td stage : Z) (inside_box : bool) : string :=
  BoxRoot (ScoringBoxPath id td stage) inside_box // "tmp".

Definition SummaryBoxPath (id : Z) : string := SubmissionRunPath id // "summary".
Definition SummaryBoxProgram (id : Z) (lang : Compiler) (inside_box : bool) : string :=
  Workdir (BoxRoot (SummaryBoxPath id) inside_box) // ("prog" +:+ ProgramExtension lang).
Definition SummaryBoxUserCode (id : Z) (lang : Compiler) (inside_box : bool) : string :=
  Workdir (BoxRoot (SummaryBoxPath id) inside_box) // ("code" +:+ CodeExtension lang).
Definition SummaryBoxCEMessage (id : Z) (inside_box : bool) : string :=
  Workdir (BoxRoot (SummaryBoxPath id) inside_box) // "ce_message".
Definition SummaryBoxMetaFile (id : Z) (inside_box : bool) : string :=
  Workdir (BoxRoot (SummaryBoxPath id) inside_box) // "meta".
Definition SummaryBoxOutput (id : Z) (inside_box : bool) : string :=
  Workdir (BoxRoot (SummaryBoxPath id) inside_box) // "output".

Definition DefaultScoringPath : string := kDataDir // "default-scoring".
Definition SpecjudgeHeadersPath : string := kDataDir // "judge-headers".

(** These take an [int]: a caller's [long] is truncated. *)
Definition SubmissionCodePath (id : Z) : string := kSubmissionRoot // PadInt (to_int id) 6.
Definition SubmissionUserCode (id : Z) : string := SubmissionCodePath id // "prog".
Definition SubmissionProblemProgCode (id : Z) : string := SubmissionCodePath id // "prob_prog".
Definition SubmissionJudgeCode (id : Z) : string := SubmissionCodePath id // "judge".
Definition SubmissionSummaryCode (id : Z) : string := SubmissionCodePath id // "summary".
Definition SubmissionInterlibCode (id : Z) : string := SubmissionCodePath id // "interlib".
Definition SubmissionInterlibImplCode (id : Z) : string :=
  SubmissionCodePath id // "interlib_impl".

(** src/paths.cpp *)
Definition TdRoot : string := kTestdataRoot // "testdata".
Definition TdPath (prob : Z) : string := TdRoot // PadInt prob 4.
Definition TdInput (prob td : Z) : string := TdPath prob // ("input" +:+ PadInt td 3).
Definition TdAnswer (prob td : Z) : string := TdPath prob // ("output" +:+ PadInt td 3).

(** src/server_io.cpp; [fmt]'s [{:04d}] pads a non-negative number like
    [PadInt].  Division of a [long] truncates. *)
Definition TdPool : string := kTestdataRoot // "td-pool".
Definition TdPoolDir (id : Z) : string := TdPool // PadInt (Z.quot id 100) 4.
Definition TdPoolPath (id : Z) (is_input is_temp : bool) : string :=
  let name := PadInt id 6 +:+ "." +:+ (if is_input then "in" else "out") in
  TdPoolDir id // (if is_temp then name +:+ ".tmp" else name).
End Paths.

(** ** Separation of the boxes

    The directories of one run, as data, and what it means for a file to lie
    in one. *)

Inductive Box :=
| BoxCompile (id : Z) (subtask : CompileSubtask)
| BoxExecute (id td stage : Z)
| BoxScoring (id td stage : Z)
| BoxSummary (id : Z).

Definition box_valid (b : Box) : Prop :=
  match b with
  | BoxCompile id _ => 0 <= id
  | BoxExecute id td stage | BoxScoring id td stage => 0 <= id /\ 0 <= td /\ 0 <= stage
  | BoxSummary id => 0 <= id
  end.

Definition box_path `{PathRoots} (b : Box) : string :=
  match b with
  | BoxCompile id subtask => CompileBoxPath id subtask
  | BoxExecute id td stage => ExecuteBoxPath id td stage
  | BoxScoring id td stage => ScoringBoxPath id td stage
  | BoxSummary id => SummaryBoxPath id
  end.

(** [q] is [p] or lies below the directory [p]. *)
Definition under (p q : string) : Prop := q = p \/ exists r, q = p +:+ "/" +:+ r.

Definition no_slash (c : ascii) : bool := negb (bool_decide (c = "/"%char)).

Lemma digit_no_slash c : is_digit c = true -> no_slash c = true.
Proof. intros [Hc _]%is_digit_spec. unfold no_slash. by rewrite bool_decide_false. Qed.

Lemma digits_no_slash s : string_forall is_digit s = true -> string_forall no_slash s = true.
Proof. apply string_forall_impl, digit_no_slash. Qed.

Lemma has_filename_app p c q : has_filename (p +:+ String c q) = has_filename (String c q).
Proof.
  induction p as [|x p IH]; [done|]. rewrite string_app_cons, <- IH.
  by destruct p.
Qed.

Lemma has_filename_no_slash p : p <> "" -> string_forall no_slash p = true -> has_filename p = true.
Proof.
  induction p as [|c p IH]; [done|]. intros _. simpl. rewrite andb_true_iff. intros [Hc Hp].
  destruct p; [done|]. by apply IH.
Qed.

Lemma is_absolute_no_slash p : string_forall no_slash p = true -> is_absolute p = false.
Proof.
  destruct p as [|c p]; [done|]. simpl. rewrite andb_true_iff. intros [Hc _].
  unfold no_slash in Hc. by apply negb_true_iff in Hc.
Qed.

Lemma path_append_rel p q :
  is_absolute q = false -> has_filename p = true -> p // q = p +:+ "/" +:+ q.
Proof. unfold path_append. by intros -> ->. Qed.

(** Characters of a name that a path component can hold. *)
Definition component (s : string) : Prop := s <> "" /\ string_forall no_slash s = true.

Lemma component_append p s : component s -> exists p', p // s = p' +:+ s /\ (p' = p \/ p' = p +:+ "/").
Proof.
  intros [_ Hs]. unfold path_append. rewrite is_absolute_no_slash by done.
  case_match; [|by eauto]. exists (p +:+ "/"). rewrite string_app_assoc. eauto.
Qed.

Lemma component_has_filename p s : component s -> has_filename (p +:+ s) = true.
Proof.
  intros [Hne Hs]. destruct s as [|c s]; [done|].
  rewrite has_filename_app. by apply has_filename_no_slash.
Qed.

Lemma component_PadInt x w : 0 <= x -> component (PadInt x w).
Proof.
  intros Hx. split; [|by apply digits_no_slash, PadInt_digits].
  intros He. pose proof (PadInt_value x w Hx) as Hv. rewrite He in Hv. simpl in Hv. subst x.
  unfold PadInt in He. simpl in He. destruct (_ <? _)%nat eqn:E; [|done].
  destruct w as [|[|w]]; [done..|]. simpl in He. done.
Qed.

Lemma component_app p s : string_forall no_slash p = true -> component s -> component (p +:+ s).
Proof.
  intros Hp [Hne Hs]. split; [|by rewrite string_forall_app, Hp, Hs].
  destruct p; [done|]. by rewrite string_app_cons.
Qed.

Create HintDb paths.
#[export] Hint Resolve component_PadInt component_app digits_no_slash PadInt_digits
  component_has_filename : paths.

Section Separation.
Context `{PathRoots}.

Definition box_id (b : Box) : Z :=
  match b with
  | BoxCompile id _ | BoxExecute id _ _ | BoxScoring id _ _ | BoxSummary id => id
  end.

Definition box_name (b : Box) : string :=
  match b with
  | BoxCompile _ subtask => "compile" +:+ to_string (CompileSubtask_to_Z subtask)
  | BoxExecute _ td stage => "execute" +:+ PadInt td 3 +:+ "_" +:+ PadInt stage 2
  | BoxScoring _ td stage => "scoring" +:+ PadInt td 3 +:+ "_" +:+ PadInt stage 2
  | BoxSummary _ => "summary"
  end.

Lemma box_path_name b : box_path b = SubmissionRunPath (box_id b) // box_name b.
Proof. by destruct b. Qed.

Lemma pair_component td stage :
  0 <= td -> 0 <= stage -> component (PadInt td 3 +:+ "_" +:+ PadInt stage 2).
Proof.
  intros. apply component_app; [auto with paths|].
  apply (component_app "_"); [done|]. auto with paths.
Qed.

Lemma box_name_component b : box_valid b -> component (box_name b).
Proof.
  destruct b as [id s|id td st|id td st|id]; simpl.
  - intros _. by destruct s.
  - intros (? & ? & ?). apply (component_app "execute"); [done|]. by apply pair_component.
  - intros (? & ? & ?). apply (component_app "scoring"); [done|]. by apply pair_component.
  - done.
Qed.

Lemma box_valid_id b : box_valid b -> 0 <= box_id b.
Proof. destruct b; simpl; lia. Qed.

Lemma pair_name_inj td st td' st' :
  0 <= td -> 0 <= st -> 0 <= td' -> 0 <= st' ->
  PadInt td 3 +:+ "_" +:+ PadInt st 2 = PadInt td' 3 +:+ "_" +:+ PadInt st' 2 ->
  td = td' /\ st = st'.
Proof.
  intros Htd Hst Htd' Hst' Heq.
  apply (string_split_unique is_digit) in Heq as (H1 & _ & H2); try done;
    try by apply PadInt_digits.
  split; eapply PadInt_inj; eauto.
Qed.

Lemma box_name_inj b b' :
  box_valid b -> box_valid b' -> box_id b = box_id b' -> box_name b = box_name b' -> b = b'.
Proof.
  destruct b as [id s|id td st|id td st|id], b' as [id' s'|id' td' st'|id' td' st'|id'];
    intros Hv Hv' Hid Hn; simpl in Hid; subst id'; try done.
  - f_equal. by destruct s, s'.
  - destruct Hv as (? & ? & ?), Hv' as (? & ? & ?). simpl in Hn.
    apply string_app_inj_length in Hn as [_ Hn]; [|done].
    by apply pair_name_inj in Hn as [-> ->].
  - destruct Hv as (? & ? & ?), Hv' as (? & ? & ?). simpl in Hn.
    apply string_app_inj_length in Hn as [_ Hn]; [|done].
    by apply pair_name_inj in Hn as [-> ->].
Qed.

(** The common shape of every box path: the root, the padded identifier and
    the box name, separated by single slashes. *)
Lemma box_path_shape :
  exists root, forall b, box_valid b ->
    box_path b = root +:+ PadInt (box_id b) 6 +:+ "/" +:+ box_name b.
Proof.
  exists (if has_filename kBoxRoot then kBoxRoot +:+ "/" else kBoxRoot). intros b Hb.
  pose proof (component_PadInt (box_id b) 6 (box_valid_id b Hb)) as Hid.
  pose proof (box_name_component b Hb) as Hn.
  rewrite box_path_name. unfold SubmissionRunPath.
  rewrite path_append_rel.
  - unfold path_append. rewrite is_absolute_no_slash by apply Hid.
    by destruct (has_filename kBoxRoot); rewrite !string_app_assoc.
  - apply is_absolute_no_slash, Hn.
  - destruct (component_append kBoxRoot _ Hid) as (p' & -> & _).
    by apply component_has_filename.
Qed.

Lemma under_tail p q : under p q -> exists t, q = p +:+ t /\ (t = "" \/ exists r, t = "/" +:+ r).
Proof.
  intros [->|[r ->]]; [exists ""|exists ("/" +:+ r)].
  - rewrite string_app_nil_r. auto.
  - eauto.
Qed.

Lemma name_tail_unique a b t u :
  string_forall no_slash a = true -> string_forall no_slash b = true ->
  (t = "" \/ exists r, t = "/" +:+ r) -> (u = "" \/ exists r, u = "/" +:+ r) ->
  a +:+ t = b +:+ u -> a = b.
Proof.
  intros Ha Hb [->|[r ->]] [->|[r' ->]]; rewrite ?string_app_nil_r; intros Heq; try done.
  - exfalso. symmetry in Heq. by eapply string_split_no_end in Heq.
  - exfalso. by eapply string_split_no_end in Heq.
  - by eapply string_split_unique in Heq as [? _].
Qed.

(** The boxes of a run are separate directory trees: no file lies in
    the boxes of two different tasks, so removing, unmounting or writing one
    task's box cannot touch another's (also across submissions). *)
Theorem boxes_disjoint b b' q :
  box_valid b -> box_valid b' -> under (box_path b) q -> under (box_path b') q -> b = b'.
Proof.
  intros Hb Hb' Hq Hq'. destruct box_path_shape as [root Hroot].
  rewrite Hroot in Hq, Hq' by done.
  apply under_tail in Hq as (t & -> & Ht), Hq' as (t' & Heq & Ht').
  rewrite !string_app_assoc in Heq. apply string_app_inj_length in Heq as [_ Heq]; [|done].
  pose proof (box_valid_id b Hb). pose proof (box_valid_id b' Hb').
  apply (string_split_unique is_digit) in Heq as (Hid & _ & Heq); try done;
    try by apply PadInt_digits.
  apply PadInt_inj in Hid; [|done..].
  eapply name_tail_unique in Heq; eauto; try (by apply box_name_component).
  by apply box_name_inj.
Qed.
End Separation.

(** ** Paths inside a box

    A box is the root directory of the sandboxed program: a path computed with
    [inside_box] names, inside the sandbox, the same file as the path computed
    without it names outside. *)

Section Inside.
Context `{PathRoots}.

Lemma component_rel p s : component s -> has_filename p = true -> p // s = p +:+ "/" +:+ s.
Proof. intros [_ Hs] Hp. apply path_append_rel; [by apply is_absolute_no_slash|done]. Qed.

Lemma inside_file box d s :
  component d -> component s -> has_filename box = true ->
  (BoxRoot box false // d) // s = box +:+ ((BoxRoot box true // d) // s).
Proof.
  intros Hd Hs Hbox. unfold BoxRoot.
  assert ("/" // d = "/" +:+ d) as ->.
  { unfold path_append. by rewrite is_absolute_no_slash by apply Hd. }
  rewrite (component_rel box) by done.
  rewrite (component_rel _ s), (component_rel ("/" +:+ d) s);
    rewrite <- ?string_app_assoc; auto with paths; by rewrite !string_app_assoc.
Qed.

Lemma inside_dir box d :
  component d -> has_filename box = true ->
  BoxRoot box false // d = box +:+ (BoxRoot box true // d).
Proof.
  intros Hd Hbox. unfold BoxRoot. rewrite component_rel by done.
  unfold path_append. by rewrite is_absolute_no_slash by apply Hd.
Qed.

Lemma box_path_has_filename b : box_valid b -> has_filename (box_path b) = true.
Proof.
  intros Hb. pose proof (box_name_component b Hb) as Hn. rewrite box_path_name.
  destruct (component_append (SubmissionRunPath (box_id b)) _ Hn) as (p' & -> & _).
  by apply component_has_filename.
Qed.

Lemma component_extension p l : component p -> component (p +:+ CodeExtension l).
Proof. intros [Hne Hs]. split; [by destruct p|]. rewrite string_forall_app, Hs. by destruct l. Qed.

Lemma component_prog_extension p l : component p -> component (p +:+ ProgramExtension l).
Proof. intros [Hne Hs]. split; [by destruct p|]. rewrite string_forall_app, Hs. by destruct l. Qed.

Lemma component_code_name s l : component (CompileCodeName s l).
Proof. destruct s; simpl; by apply component_extension. Qed.

Lemma component_result_name s l : component (CompileResultName s l).
Proof. destruct s; simpl; by apply component_prog_extension. Qed.

Hint Resolve component_code_name component_result_name component_extension
  component_prog_extension : paths.

(** Every path handed to a sandboxed program is the outside path of the
    same file with the box directory removed: the program compiled, its
    source, input, output and error files, the special judge's files. *)
Theorem inside_paths_same_file id td stage subtask lang strict :
  0 <= id -> 0 <= td -> 0 <= stage ->
  let cbox := CompileBoxPath id subtask in
  let ebox := ExecuteBoxPath id td stage in
  let sbox := ScoringBoxPath id td stage in
  let mbox := SummaryBoxPath id in
  CompileBoxInput id subtask lang false = cbox +:+ CompileBoxInput (-1) subtask lang true /\
  CompileBoxOutput id subtask lang false = cbox +:+ CompileBoxOutput (-1) subtask lang true /\
  ExecuteBoxProgram id td stage lang false
    = ebox +:+ ExecuteBoxProgram (-1) (-1) (-1) lang true /\
  ExecuteBoxInput id td stage strict false
    = ebox +:+ ExecuteBoxInput (-1) (-1) (-1) strict true /\
  ExecuteBoxOutput id td stage strict false
    = ebox +:+ ExecuteBoxOutput (-1) (-1) (-1) strict true /\
  ScoringBoxProgram id td stage lang false
    = sbox +:+ ScoringBoxProgram (-1) (-1) (-1) lang true /\
  ScoringBoxUserOutput id td stage false
    = sbox +:+ ScoringBoxUserOutput (-1) (-1) (-1) true /\
  ScoringBoxTdInput id td stage false = sbox +:+ ScoringBoxTdInput (-1) (-1) (-1) true /\
  ScoringBoxTdOutput id td stage false = sbox +:+ ScoringBoxTdOutput (-1) (-1) (-1) true /\
  ScoringBoxMetaFile id td stage false = sbox +:+ ScoringBoxMetaFile (-1) (-1) (-1) true /\
  ScoringBoxOutput id td stage false = sbox +:+ ScoringBoxOutput (-1) (-1) (-1) true /\
  ScoringBoxTempdir id td stage false = sbox +:+ ScoringBoxTempdir (-1) (-1) (-1) true /\
  SummaryBoxMetaFile id false = mbox +:+ SummaryBoxMetaFile (-1) true /\
  SummaryBoxOutput id false = mbox +:+ SummaryBoxOutput (-1) true.
Proof.
  intros Hid Htd Hst cbox ebox sbox mbox.
  assert (has_filename cbox = true) by (by apply (box_path_has_filename (BoxCompile id subtask))).
  assert (has_filename ebox = true) by (by apply (box_path_has_filename (BoxExecute id td stage))).
  assert (has_filename sbox = true) by (by apply (box_path_has_filename (BoxScoring id td stage))).
  assert (has_filename mbox = true) by (by apply (box_path_has_filename (BoxSummary id))).
  assert (component kWorkdirRelative) by done.
  destruct strict; split_and!;
    first [ by apply inside_dir | apply inside_file; solve [done | auto with paths | by apply component_extension | by apply component_prog_extension] ].
Qed.
End Inside.

#[local] Instance example_roots : PathRoots := {|
  kBoxRoot := "/tmp/tioj_box";
  kSubmissionRoot := "/tmp/tioj_submissions";
  kDataDir := "/var/lib/tioj-judge";
  kTestdataRoot := "/var/lib/tioj-judge";
|}.

Lemma boxes_disjoint_witness :
  BoxExecute 7 3 0 = BoxExecute 7 3 0 /\
  under (box_path (BoxExecute 7 3 0)) (ExecuteBoxInput 7 3 0 false false).
Proof.
  split.
  - apply (boxes_disjoint _ _ (ExecuteBoxInput 7 3 0 false false)); simpl; try lia;
      right; by exists "workdir/input".
  - right. by exists "workdir/input".
Defined.

Lemma inside_paths_same_file_witness :
  ExecuteBoxInput 7 3 0 true false = ExecuteBoxPath 7 3 0 +:+ ExecuteBoxInput (-1) (-1) (-1) true true.
Proof. apply (inside_paths_same_file 7 3 0 USERPROG GCC_CPP_17 true); lia. Defined.
