(* ===== verification/CNum.v ===== *)
(** * Floating point

    [double] and the x87 [long double] as the formats of 53 and 64 bits of
    precision of the Standard Library's [SpecFloat] (round to nearest even),
    with the conversions the program uses. *)

From S2P Require Import Prelude.
From Stdlib Require Import SpecFloat.

Abbreviation ld_prec := 64.
Abbreviation ld_emax := 16384.
Abbreviation dbl_prec := 53.
Abbreviation dbl_emax := 1024.

#[export] Instance spec_float_eq_dec : EqDecision spec_float.
Proof. solve_decision. Defined.

Definition ld_of_Z (z : Z) : spec_float := binary_normalize ld_prec ld_emax z 0 false.
Definition dbl_of_Z (z : Z) : spec_float := binary_normalize dbl_prec dbl_emax z 0 false.

(** Change of format, rounding when the new one is narrower. *)
Definition convert (prec emax : Z) (x : spec_float) : spec_float :=
  match x with
  | S754_finite s m e => binary_round prec emax s m e
  | _ => x
  end.
Definition ld_of_dbl : spec_float -> spec_float := convert ld_prec ld_emax.
Definition dbl_of_ld : spec_float -> spec_float := convert dbl_prec dbl_emax.

Definition ld_mul := SFmul ld_prec ld_emax.
Definition ld_add := SFadd ld_prec ld_emax.
Definition ld_sub := SFsub ld_prec ld_emax.
Definition ld_div := SFdiv ld_prec ld_emax.
Definition dbl_mul := SFmul dbl_prec dbl_emax.
Definition dbl_sub := SFsub dbl_prec dbl_emax.
Definition dbl_div := SFdiv dbl_prec dbl_emax.

(** [m * 2^e] truncated, and rounded half away from zero. *)
Definition mant_trunc (m : positive) (e : Z) : Z :=
  if 0 <=? e then Zpos m * 2 ^ e else Zpos m / 2 ^ (- e).
Definition mant_round (m : positive) (e : Z) : Z :=
  if 0 <=? e then Zpos m * 2 ^ e else (Zpos m + 2 ^ (- e - 1)) / 2 ^ (- e).

Definition with_sign (s : bool) (z : Z) : Z := if s then - z else z.

(** Conversion to [long]; a value out of range or NaN gives [LONG_MIN], the
    "integer indefinite" of the x86-64 target. *)
Definition to_long_or_indefinite (z : Z) : Z :=
  if (LONG_MIN <=? z) && (z <=? LONG_MAX) then z else LONG_MIN.

(** [(long)x]. *)
Definition float_to_long (x : spec_float) : Z :=
  match x with
  | S754_zero _ => 0
  | S754_finite s m e => to_long_or_indefinite (with_sign s (mant_trunc m e))
  | _ => LONG_MIN
  end.

(** [std::lround(x)]. *)
Definition lround (x : spec_float) : Z :=
  match x with
  | S754_zero _ => 0
  | S754_finite s m e => to_long_or_indefinite (with_sign s (mant_round m e))
  | _ => LONG_MIN
  end.

(** ** Rounding never passes a representable bound *)

Lemma iter_pos_iter {A} (f : A -> A) p x : iter_pos f p x = Pos.iter f x p.
Proof.
  revert x. induction p as [p IH|p IH|]; intros x; simpl; rewrite ?IH.
  - by rewrite !Pos.iter_swap.
  - done.
  - done.
Qed.

(** What [n] right shifts keep: the quotient, and whether a bit was lost. *)
Definition shr_inv (m0 : Z) (n : Z) (mrs : shr_record) : Prop :=
  shr_m mrs = m0 / 2 ^ n /\
  (loc_of_shr_record mrs = loc_Exact <-> m0 = shr_m mrs * 2 ^ n).

Lemma loc_exact_iff m r s :
  loc_of_shr_record (Build_shr_record m r s) = loc_Exact <-> r = false /\ s = false.
Proof. destruct r, s; simpl; intuition congruence. Qed.

Lemma shr_1_half m r s :
  0 <= m ->
  exists r' s', shr_1 (Build_shr_record m r s) = Build_shr_record (m / 2) r' s' /\
    (r' = false /\ s' = false <-> (r = false /\ s = false) /\ m = 2 * (m / 2)).
Proof.
  intros Hm. destruct m as [|[p|p|]|p]; simpl; [| | | |lia].
  - exists false, (r || s). split; [done|]. destruct r, s; simpl; intuition congruence.
  - assert (Z.pos p~1 / 2 = Z.pos p) as ->.
    { rewrite (Pos2Z.inj_xI p). symmetry. by apply Z.div_unique with 1; lia. }
    exists true, (r || s). split; [done|]. intuition (congruence || lia).
  - assert (Z.pos p~0 / 2 = Z.pos p) as ->.
    { rewrite (Pos2Z.inj_xO p). symmetry. by apply Z.div_unique with 0; lia. }
    exists false, (r || s). split; [done|]. destruct r, s; simpl; intuition congruence.
  - exists true, (r || s). split; [done|]. simpl. intuition (congruence || lia).
Qed.

Lemma shr_1_inv m0 n mrs :
  0 <= m0 -> 0 <= n -> shr_inv m0 n mrs -> shr_inv m0 (n + 1) (shr_1 mrs).
Proof.
  intros Hm0 Hn [Hq Hx]. destruct mrs as [m r s]. simpl in Hq, Hx.
  assert (Hp : 2 ^ (n + 1) = 2 * 2 ^ n) by (rewrite Z.pow_add_r by lia; lia).
  assert (H2 : 0 < 2 ^ n) by (apply Z.pow_pos_nonneg; lia).
  assert (Hpos : 0 <= m) by (rewrite Hq; apply Z.div_pos; lia).
  destruct (shr_1_half m r s Hpos) as (r' & s' & -> & Hex).
  unfold shr_inv. rewrite loc_exact_iff, Hex. simpl. split.
  - by rewrite Hp, Z.mul_comm, <- Z.div_div, <- Hq by lia.
  - rewrite <- (loc_exact_iff m). unfold loc_of_shr_record. rewrite Hx, Hp. split.
    + intros [-> Heven]. rewrite Heven at 1. lia.
    + intros ->. assert (m = 2 * (m / 2)) as Heven.
      { rewrite Hq at 1. symmetry. apply Z.div_unique with 0; lia. }
      split; [|done]. lia.
Qed.

Lemma shr_spec m e n :
  0 <= m -> exists mrs' e', shr (shr_record_of_loc m loc_Exact) e n = (mrs', e') /\
    e' = e + Z.max 0 n /\ shr_inv m (Z.max 0 n) mrs'.
Proof.
  intros Hm. assert (H0 : shr_inv m 0 (shr_record_of_loc m loc_Exact)).
  { split; simpl; rewrite ?Z.div_1_r; [done|]. split; [lia|done]. }
  destruct n as [|p|p]; simpl; [by eauto with lia| |by eauto with lia].
  eexists _, _. split; [done|]. split; [lia|].
  rewrite iter_pos_iter.
  induction p as [|p IH] using Pos.peano_ind.
  - by apply (shr_1_inv m 0).
  - rewrite Pos.iter_succ, Pos2Z.inj_succ, <- Z.add_1_r. by apply shr_1_inv; [|lia|].
Qed.

Lemma round_nearest_even_bounds m l :
  m <= round_nearest_even m l <= m + 1 /\ (l = loc_Exact -> round_nearest_even m l = m).
Proof. destruct l as [|[]]; simpl; try (split; [lia|done]). case_match; split; try done; lia. Qed.

(** The rounded quotient is at most any integer that bounds the exact one. *)
Lemma rounded_le m n mrs b :
  0 <= m -> 0 <= n -> shr_inv m n mrs -> m <= b * 2 ^ n ->
  0 <= round_nearest_even (shr_m mrs) (loc_of_shr_record mrs) <= b.
Proof.
  intros Hm Hn [Hq Hx] Hb.
  destruct (round_nearest_even_bounds (shr_m mrs) (loc_of_shr_record mrs)) as [Hr Hre].
  assert (H2 : 0 < 2 ^ n) by (apply Z.pow_pos_nonneg; lia).
  assert (Hpos : 0 <= shr_m mrs) by (rewrite Hq; apply Z.div_pos; lia).
  split; [lia|].
  assert (Hdm : m = 2 ^ n * shr_m mrs + m `mod` 2 ^ n) by (rewrite Hq; apply Z_div_mod_eq_full).
  pose proof (Z.mod_pos_bound m (2 ^ n) H2) as Hmod.
  destruct (decide (m = shr_m mrs * 2 ^ n)) as [He|He].
  - rewrite Hre by (by apply Hx). nia.
  - assert (m `mod` 2 ^ n <> 0) by lia. nia.
Qed.

Lemma digits2_pos_log2 p : Zpos (digits2_pos p) = Z.log2 (Zpos p) + 1.
Proof.
  induction p as [p IH|p IH|]; simpl digits2_pos.
  - rewrite Pos2Z.inj_succ, IH, (Pos2Z.inj_xI p), Z.log2_succ_double; lia.
  - rewrite Pos2Z.inj_succ, IH, (Pos2Z.inj_xO p), Z.log2_double; lia.
  - done.
Qed.

Lemma digits_le_bound m e b :
  0 < b -> e <= 0 -> 0 <= m <= b * 2 ^ (- e) -> Zdigits2 m + e <= Z.max e (Z.log2 b + 1).
Proof.
  intros Hb He Hm. destruct m as [|p|p]; [simpl; lia| |lia].
  simpl. rewrite digits2_pos_log2.
  pose proof (Z.log2_le_mono _ _ (proj2 Hm)) as Hl.
  rewrite Z.log2_mul_pow2 in Hl by lia. lia.
Qed.

(** [m * 2^e <= b], without fractions. *)
Definition mag_le (m e b : Z) : Prop := m * 2 ^ Z.max 0 e <= b * 2 ^ Z.max 0 (- e).

Lemma mag_le_shift m e b n :
  0 <= m -> 0 <= n -> e <= 0 -> m <= b * 2 ^ (- e) -> mag_le (m / 2 ^ n) (e + n) b.
Proof.
  intros Hm Hn He Hb. unfold mag_le.
  assert (H2 : 0 < 2 ^ n) by (apply Z.pow_pos_nonneg; lia).
  assert (Hq : m / 2 ^ n * 2 ^ n <= m) by (rewrite Z.mul_comm; by apply Z.mul_div_le).
  destruct (decide (e + n <= 0)) as [Hen|Hen].
  - rewrite Z.max_l, Z.max_r, Z.mul_1_r by lia.
    replace (2 ^ (- e)) with (2 ^ (- (e + n)) * 2 ^ n) in Hb by (rewrite <- Z.pow_add_r; f_equal; lia).
    nia.
  - rewrite Z.max_r, Z.max_l, Z.mul_1_r by lia.
    assert (0 < 2 ^ (- e)) by (apply Z.pow_pos_nonneg; lia).
    replace (2 ^ n) with (2 ^ (e + n) * 2 ^ (- e)) in Hq at 2 by (rewrite <- Z.pow_add_r; f_equal; lia).
    nia.
Qed.

(** A correctly rounded [long double] stays below an integer bound that
    fits the 64-bit mantissa. *)
Lemma binary_round_aux_bound s p e b :
  e <= 0 -> 0 < b < 2 ^ 63 -> Zpos p <= b * 2 ^ (- e) ->
  match binary_round_aux ld_prec ld_emax s (Zpos p) e loc_Exact with
  | S754_zero s' => s' = s
  | S754_finite s' m' e' => s' = s /\ mag_le (Zpos m') e' b
  | _ => False
  end.
Proof.
  intros He Hb Hp. unfold binary_round_aux, shr_fexp.
  set (n1 := fexp _ _ _ - e).
  destruct (shr_spec (Zpos p) e n1) as (mrs & e1 & -> & He1 & Hinv); [lia|].
  assert (Hlb : Z.log2 b < 63) by (apply Z.log2_lt_pow2; lia).
  assert (Hd : Zdigits2 (Zpos p) + e <= Z.max e (Z.log2 b + 1)) by (apply digits_le_bound; lia).
  assert (He1le : e1 <= 0) by (subst e1 n1; unfold fexp, emin; lia).
  set (r := round_nearest_even _ _).
  assert (Hr : 0 <= r <= b * 2 ^ (- e1)).
  { apply (rounded_le (Zpos p) (Z.max 0 n1)); [lia|lia|done|].
    replace (b * 2 ^ (- e1) * 2 ^ Z.max 0 n1) with (b * 2 ^ (- e)); [done|].
    rewrite <- Z.mul_assoc, <- Z.pow_add_r by lia. do 2 f_equal. lia. }
  set (n2 := fexp _ _ _ - e1).
  destruct (shr_spec r e1 n2) as (mrs2 & e2 & -> & He2 & Hinv2 & _); [lia|].
  assert (Hd2 : Zdigits2 r + e1 <= Z.max e1 (Z.log2 b + 1)) by (apply digits_le_bound; lia).
  assert (Hmag : mag_le (shr_m mrs2) e2 b).
  { rewrite Hinv2, He2. apply mag_le_shift; lia. }
  assert (0 <= shr_m mrs2) by (rewrite Hinv2; apply Z.div_pos; [lia|apply Z.pow_pos_nonneg; lia]).
  destruct (shr_m mrs2) as [|m2|m2] eqn:Em; [done| |lia].
  assert (e2 <= ld_emax - ld_prec) as Hle by (subst e2 n2; unfold fexp, emin; lia).
  apply Z.leb_le in Hle. by rewrite Hle.
Qed.

Lemma mant_round_le m e b : 0 <= b -> mag_le (Zpos m) e b -> 0 <= mant_round m e <= b.
Proof.
  intros Hb Hm. unfold mag_le in Hm. unfold mant_round. case_match eqn:Hc.
  - apply Z.leb_le in Hc. rewrite Z.max_r, (Z.max_l 0 (- e)), Z.mul_1_r in Hm by lia.
    split; [|done]. apply Z.mul_nonneg_nonneg; [lia|]. apply Z.pow_nonneg; lia.
  - apply Z.leb_gt in Hc. rewrite Z.max_l, Z.max_r, Z.mul_1_r in Hm by lia.
    assert (Hpow : 2 ^ (- e) = 2 * 2 ^ (- e - 1))
      by (rewrite <- Z.pow_succ_r by lia; f_equal; lia).
    assert (0 < 2 ^ (- e - 1)) by (apply Z.pow_pos_nonneg; lia).
    split; [apply Z.div_pos; lia|].
    apply Z.lt_succ_r, Z.div_lt_upper_bound; [lia|]. nia.
Qed.

(** ** The operations give canonical numbers *)

Section Valid.
Context (prec emax : Z).
Hypothesis Hprec : 1 < prec.
Hypothesis Hemax : prec < emax.

Lemma Zdigits2_log2 m : 0 < m -> Zdigits2 m = Z.log2 m + 1.
Proof. destruct m; [lia| |lia]. intros _. simpl. apply digits2_pos_log2. Qed.

Lemma Zdigits2_nonneg m : 0 <= Zdigits2 m.
Proof. destruct m; simpl; lia. Qed.

Lemma Zdigits2_shift m n : 0 <= m -> 0 <= n -> Zdigits2 (m / 2 ^ n) = Z.max 0 (Zdigits2 m - n).
Proof.
  intros Hm Hn. destruct (decide (m = 0)) as [->|Hne].
  { rewrite Z.div_0_l by (apply Z.pow_nonzero; lia). simpl. lia. }
  rewrite (Zdigits2_log2 m) by lia.
  destruct (decide (n <= Z.log2 m)) as [Hl|Hl].
  - assert (0 < m / 2 ^ n).
    { apply Z.div_str_pos. split; [apply Z.pow_pos_nonneg; lia|].
      etrans; [apply Z.pow_le_mono_r; [lia|exact Hl]|]. by apply Z.log2_spec; lia. }
    rewrite Zdigits2_log2 by done. rewrite <- Z.shiftr_div_pow2 by lia.
    rewrite Z.log2_shiftr by lia. lia.
  - rewrite Z.div_small; [simpl; lia|]. split; [lia|].
    apply Z.log2_lt_pow2; lia.
Qed.

(** Rounding up adds a digit only when it reaches a power of two. *)
Lemma Zdigits2_incr m : 0 <= m ->
  Zdigits2 (m + 1) = Zdigits2 m \/ (Zdigits2 (m + 1) = Zdigits2 m + 1 /\ m + 1 = 2 ^ Zdigits2 m).
Proof.
  intros Hm. destruct (decide (m = 0)) as [->|Hne]; [by right|].
  rewrite !Zdigits2_log2 by lia.
  destruct (Z.log2_spec m ltac:(lia)) as [H1 H2].
  destruct (decide (m + 1 = 2 ^ Z.succ (Z.log2 m))) as [He|He].
  - right. rewrite He at 1. rewrite Z.log2_pow2 by (pose proof (Z.log2_nonneg m); lia).
    rewrite He, <- Z.add_1_r. split; [lia|done].
  - left. f_equal. apply Z.log2_unique; [apply Z.log2_nonneg|lia].
Qed.

Lemma shr_spec_loc m e n l : 0 <= m ->
  exists mrs' e', shr (shr_record_of_loc m l) e n = (mrs', e') /\
    e' = e + Z.max 0 n /\ shr_m mrs' = m / 2 ^ Z.max 0 n.
Proof.
  intros Hm. assert (H0 : shr_m (shr_record_of_loc m l) = m / 2 ^ 0).
  { rewrite Z.div_1_r. by destruct l as [|[]]. }
  destruct n as [|p|p]; simpl; [by eauto with lia| |by eauto with lia].
  eexists _, _. split; [done|]. split; [lia|]. rewrite iter_pos_iter.
  induction p as [|p IH] using Pos.peano_ind.
  - destruct (shr_record_of_loc m l) as [m' r s]. simpl in H0. rewrite Z.div_1_r in H0. subst m'.
    destruct (shr_1_half m r s Hm) as (r' & s' & E & _).
    change (Pos.iter shr_1 ?x 1%positive) with (shr_1 x). by rewrite E.
  - rewrite Pos.iter_succ. destruct (Pos.iter shr_1 (shr_record_of_loc m l) p) as [m' r s].
    simpl in IH. assert (0 <= m') as Hp by (rewrite IH; apply Z.div_pos; [lia|apply Z.pow_pos_nonneg; lia]).
    destruct (shr_1_half m' r s Hp) as (r' & s' & -> & _). simpl. rewrite IH.
    rewrite Z.div_div by first [lia | apply Z.pow_nonzero; lia | apply Z.pow_pos_nonneg; lia].
    f_equal. rewrite !Z.max_r by lia. rewrite Pos2Z.inj_succ, Z.pow_succ_r by lia. lia.
Qed.

(** Rounding a mantissa with enough digits gives a canonical number. *)
Lemma binary_round_aux_valid s m e l :
  0 <= m -> e <= fexp prec emax (Zdigits2 m + e) ->
  valid_binary prec emax (binary_round_aux prec emax s m e l) = true.
Proof using Hprec Hemax.
  intros Hm He. unfold binary_round_aux, shr_fexp.
  set (n1 := fexp _ _ _ - e) in *.
  destruct (shr_spec_loc m e n1 l Hm) as (mrs & e1 & -> & He1 & Hm1).
  rewrite Z.max_r in He1, Hm1 by (subst n1; lia).
  assert (Hd1 : Zdigits2 (shr_m mrs) = Z.max 0 (Zdigits2 m - n1))
    by (rewrite Hm1; apply Zdigits2_shift; subst n1; lia).
  assert (Hp1 : 0 <= shr_m mrs)
    by (rewrite Hm1; apply Z.div_pos; [lia|apply Z.pow_pos_nonneg; subst n1; lia]).
  set (r := round_nearest_even _ _).
  assert (Hr : r = shr_m mrs \/ r = shr_m mrs + 1)
    by (destruct (round_nearest_even_bounds (shr_m mrs) (loc_of_shr_record mrs)); subst r; lia).
  set (n2 := fexp _ _ _ - e1).
  destruct (shr_spec_loc r e1 n2 loc_Exact) as (mrs2 & e2 & -> & He2 & Hm2); [lia|].
  assert (Hd2 : Zdigits2 (shr_m mrs2) = Z.max 0 (Zdigits2 r - Z.max 0 n2))
    by (rewrite Hm2; apply Zdigits2_shift; lia).
  assert (Hdr : Zdigits2 r = Zdigits2 (shr_m mrs) \/ Zdigits2 r = Zdigits2 (shr_m mrs) + 1).
  { destruct Hr as [->| ->]; [by left|]. destruct (Zdigits2_incr (shr_m mrs)) as [|[? _]]; auto. }
  destruct (shr_m mrs2) as [|m2|m2] eqn:Em; [done| |done].
  destruct (e2 <=? emax - prec) eqn:Hle; [|done].
  simpl in Hd2 |- *. unfold bounded, canonical_mantissa. rewrite Hle, andb_true_r.
  apply Z.eqb_eq. subst n1 n2. unfold fexp in *. unfold emin in *.
  pose proof (Zdigits2_nonneg m). lia.
Qed.

Lemma shl_align_spec m e e' : let '(m', e1) := shl_align m e e' in
  e1 = Z.min e e' /\ Zdigits2 (Zpos m') + e1 = Zdigits2 (Zpos m) + e.
Proof using.
  unfold shl_align. destruct (e' - e) as [|d|d] eqn:E; [lia|split; lia|].
  split; [lia|]. rewrite !Zdigits2_log2 by lia.
  replace (Z.pos (Pos.iter xO m d)) with (Z.pos m * 2 ^ Z.pos d).
  2:{ rewrite Z.mul_comm. symmetry. apply (Zpower.shift_pos_correct d m). }
  rewrite Z.log2_mul_pow2 by lia. lia.
Qed.

Lemma binary_round_valid s m e : valid_binary prec emax (binary_round prec emax s m e) = true.
Proof using Hprec Hemax.
  unfold binary_round.
  pose proof (shl_align_spec m e (fexp prec emax (Zpos (digits2_pos m) + e))) as Hs.
  destruct (shl_align _ _ _) as [m' e1]. destruct Hs as [He Hd].
  apply binary_round_aux_valid; [lia|]. rewrite Hd. simpl. lia.
Qed.

Lemma convert_valid x : valid_binary prec emax (convert prec emax x) = true.
Proof using Hprec Hemax. destruct x; try done. apply binary_round_valid. Qed.

Lemma binary_normalize_valid z e s : valid_binary prec emax (binary_normalize prec emax z e s) = true.
Proof using Hprec Hemax. destruct z; try done; apply binary_round_valid. Qed.

Lemma fexp_mono x y : x <= y -> fexp prec emax x <= fexp prec emax y.
Proof using. unfold fexp. lia. Qed.

(** A quotient computed by [SFdiv_core_binary] has enough digits. *)
Lemma div_round_valid s m1 e1 m2 e2 : 0 < m1 -> 0 < m2 ->
  (let '(q, e, l) := SFdiv_core_binary prec emax m1 e1 m2 e2 in
   valid_binary prec emax (binary_round_aux prec emax s q e l)) = true.
Proof using Hprec Hemax.
  intros H1 H2. unfold SFdiv_core_binary.
  set (e' := Z.min _ _). set (sh := e1 - e2 - e').
  assert (Hsh : 0 <= sh) by (subst sh e'; lia).
  set (m' := match sh with Z.pos _ => _ | _ => _ end).
  assert (Hm' : m' = m1 * 2 ^ sh).
  { subst m'. destruct sh as [|p|p]; [lia| |lia]. by rewrite Z.shiftl_mul_pow2 by lia. }
  destruct (Z.div_eucl m' m2) as [q r] eqn:Eq.
  assert (Hq : q = m' / m2) by (unfold Z.div; by rewrite Eq).
  assert (0 < 2 ^ sh) by (apply Z.pow_pos_nonneg; lia).
  apply binary_round_aux_valid; [rewrite Hq; apply Z.div_pos; nia|].
  assert (Hd : Zdigits2 m1 + sh - Zdigits2 m2 <= Zdigits2 q).
  { rewrite !(Zdigits2_log2 m1), !(Zdigits2_log2 m2) by lia.
    destruct (decide (q = 0)) as [E0|Hne].
    - rewrite E0. simpl. assert (m' < m2).
      { rewrite E0 in Hq. symmetry in Hq. apply Z.div_small_iff in Hq; lia. }
      pose proof (Z.log2_le_mono m' m2 ltac:(lia)) as Hl.
      rewrite Hm', Z.log2_mul_pow2 in Hl by lia. lia.
    - assert (0 < q) by (assert (0 <= q) by (rewrite Hq; apply Z.div_pos; nia); lia).
      rewrite Zdigits2_log2 by done.
      assert (Hlt : m' < (q + 1) * m2).
      { pose proof (Z_div_mod_eq_full m' m2) as Hdm. pose proof (Z.mod_pos_bound m' m2 H2). nia. }
      assert (Hlog : Z.log2 m' <= Z.log2 (2 ^ (Z.log2 q + 1) * 2 ^ (Z.log2 m2 + 1) - 1)).
      { apply Z.log2_le_mono. destruct (Z.log2_spec q) as [_ Hqs]; [done|].
        destruct (Z.log2_spec m2) as [_ Hms]; [done|]. rewrite !Z.add_1_r. nia. }
      rewrite <- Z.pow_add_r in Hlog by (pose proof (Z.log2_nonneg q); pose proof (Z.log2_nonneg m2); lia).
      rewrite Hm', Z.log2_mul_pow2 in Hlog by lia.
      rewrite Z.sub_1_r in Hlog.
      pose proof (Z.log2_nonneg q); pose proof (Z.log2_nonneg m2).
      assert (Z.log2 (Z.pred (2 ^ (Z.log2 q + 1 + (Z.log2 m2 + 1)))) = Z.pred (Z.log2 q + 1 + (Z.log2 m2 + 1)))
        by (apply Z.log2_pred_pow2; lia).
      lia. }
  pose proof (fexp_mono (Zdigits2 m1 + e1 - (Zdigits2 m2 + e2)) (Zdigits2 q + e')).
  subst sh. assert (e' <= fexp prec emax (Zdigits2 m1 + e1 - (Zdigits2 m2 + e2))) by (subst e'; lia).
  lia.
Qed.

Lemma SFmul_valid x y : valid_binary prec emax x = true -> valid_binary prec emax y = true ->
  valid_binary prec emax (SFmul prec emax x y) = true.
Proof using Hprec Hemax.
  destruct x as [| | |s1 m1 e1], y as [| | |s2 m2 e2]; try done. simpl. unfold bounded, canonical_mantissa.
  intros [H1%Z.eqb_eq _]%andb_true_iff [H2%Z.eqb_eq _]%andb_true_iff.
  apply binary_round_aux_valid; [lia|]. rewrite Zdigits2_log2 by lia.
  rewrite digits2_pos_log2 in H1, H2. rewrite Pos2Z.inj_mul.
  pose proof (Z.log2_mul_below (Zpos m1) (Zpos m2) ltac:(lia) ltac:(lia)).
  pose proof (Z.log2_nonneg (Zpos m1)). pose proof (Z.log2_nonneg (Zpos m2)).
  unfold fexp, emin in *. lia.
Qed.
End Valid.

(** A canonical [long double]. *)
Definition valid_ld (x : spec_float) : Prop := valid_binary ld_prec ld_emax x = true.

Lemma ld_of_Z_valid z : valid_ld (ld_of_Z z).
Proof. by apply binary_normalize_valid. Qed.

Lemma ld_of_dbl_valid x : valid_ld (ld_of_dbl x).
Proof. by apply convert_valid. Qed.

Lemma ld_mul_valid x y : valid_ld x -> valid_ld y -> valid_ld (ld_mul x y).
Proof. by apply SFmul_valid. Qed.

Create HintDb valid_ld.
#[export] Hint Resolve ld_of_Z_valid ld_of_dbl_valid ld_mul_valid : valid_ld.

Definition is_nan (x : spec_float) : bool := match x with S754_nan => true | _ => false end.

Lemma binary_round_aux_not_nan s m e l : 0 <= m ->
  is_nan (binary_round_aux ld_prec ld_emax s m e l) = false.
Proof.
  intros Hm. unfold binary_round_aux, shr_fexp.
  destruct (shr_spec_loc m e (fexp ld_prec ld_emax (Zdigits2 m + e) - e) l Hm) as (mrs & e1 & -> & _ & Hm1).
  assert (Hp1 : 0 <= shr_m mrs)
    by (rewrite Hm1; apply Z.div_pos; [lia|apply Z.pow_pos_nonneg; lia]).
  set (r := round_nearest_even _ _).
  assert (0 <= r) by (destruct (round_nearest_even_bounds (shr_m mrs) (loc_of_shr_record mrs)); subst r; lia).
  destruct (shr_spec_loc r e1 (fexp ld_prec ld_emax (Zdigits2 r + e1) - e1) loc_Exact)
    as (mrs2 & e2 & -> & _ & Hm2); [done|].
  assert (0 <= shr_m mrs2) by (rewrite Hm2; apply Z.div_pos; [lia|apply Z.pow_pos_nonneg; lia]).
  destruct (shr_m mrs2); [done|by case_match|lia].
Qed.

Lemma binary_round_not_nan s m e : is_nan (binary_round ld_prec ld_emax s m e) = false.
Proof. unfold binary_round. destruct (shl_align _ _ _). by apply binary_round_aux_not_nan. Qed.

Lemma div_round_not_nan s m1 e1 m2 e2 : 0 < m1 -> 0 < m2 ->
  (let '(q, e, l) := SFdiv_core_binary ld_prec ld_emax m1 e1 m2 e2 in
   is_nan (binary_round_aux ld_prec ld_emax s q e l)) = false.
Proof.
  intros H1 H2. unfold SFdiv_core_binary. set (e' := Z.min _ _). set (sh := e1 - e2 - e').
  set (m' := match sh with Z.pos _ => _ | _ => _ end).
  assert (0 <= m') by (subst m'; destruct sh; try lia; apply Z.shiftl_nonneg; lia).
  destruct (Z.div_eucl m' m2) as [q r] eqn:Eq.
  assert (q = m' / m2) as -> by (unfold Z.div; by rewrite Eq).
  apply binary_round_aux_not_nan. apply Z.div_pos; lia.
Qed.
