(* ===== verification/Stream.v ===== *)
(** * Reading text

    What the program uses of [std::istream] extraction and [std::stold], in
    the C locale: words, integers and floating-point numbers. *)

From S2P Require Import Prelude Text CNum.
From Stdlib Require Import SpecFloat.

(** The longest prefix whose characters satisfy [P], and the rest. *)
Fixpoint span (P : ascii -> bool) (s : string) : string * string :=
  match s with
  | EmptyString => ("", "")
  | String c s' => if P c then let '(a, b) := span P s' in (String c a, b) else ("", s)
  end.

(** An input stream: the unread text and the error bits. *)
Record istream := { is_rest : string; is_fail : bool; is_eof : bool }.

Definition open_stream (contents : string) : istream :=
  {| is_rest := contents; is_fail := false; is_eof := false |}.

(** [std::ifstream fin(path)]: a file that cannot be opened sets failbit. *)
Definition open_file (contents : option string) : istream :=
  match contents with
  | Some c => open_stream c
  | None => {| is_rest := ""; is_fail := true; is_eof := false |}
  end.

(** [bool(fin)]. *)
Definition stream_ok (s : istream) : bool := negb (is_fail s).

(** The sentry of a formatted extraction: skips white space; [None] when the
    extraction fails before reading anything. *)
Definition sentry (s : istream) : istream * bool :=
  if is_fail s || is_eof s then ({| is_rest := is_rest s; is_fail := true; is_eof := is_eof s |}, false)
  else
    match snd (span is_space (is_rest s)) with
    | EmptyString => ({| is_rest := ""; is_fail := true; is_eof := true |}, false)
    | r => ({| is_rest := r; is_fail := false; is_eof := false |}, true)
    end.

Definition at_end (r : string) : bool := bool_decide (r = "").

(** [fin >> word]: [Some w] when it succeeds. *)
Definition extract_word (s : istream) : option string * istream :=
  let '(s, ok) := sentry s in
  if ok then
    let '(w, r) := span (fun c => negb (is_space c)) (is_rest s) in
    (Some w, {| is_rest := r; is_fail := false; is_eof := at_end r |})
  else (None, s).

(** An optional sign. *)
Definition take_sign (s : string) : bool * string :=
  match s with
  | String c s' =>
      if bool_decide (c = "-"%char) then (true, s')
      else if bool_decide (c = "+"%char) then (false, s') else (false, s)
  | EmptyString => (false, s)
  end.

(** [fin >> x] for a signed integer type with range [lo, hi]: [Some v] when
    it succeeds. *)
Definition extract_int (lo hi : Z) (s : istream) : option Z * istream :=
  let '(s, ok) := sentry s in
  if ok then
    let '(neg, r) := take_sign (is_rest s) in
    let '(ds, r) := span is_digit r in
    let v := if neg then - digits_value 0 ds else digits_value 0 ds in
    let good := negb (at_end ds) && (lo <=? v) && (v <=? hi) in
    (if good then Some v else None,
     {| is_rest := r; is_fail := negb good; is_eof := at_end r |})
  else (None, s).

Definition extract_long : istream -> option Z * istream := extract_int LONG_MIN LONG_MAX.
Definition extract_int32 : istream -> option Z * istream := extract_int (- 2 ^ 31) (2 ^ 31 - 1).

(** ** Floating point *)

(** [digits * 10^exp10], correctly rounded to [long double]. *)
Definition ld_of_decimal (neg : bool) (digits exp10 : Z) : spec_float :=
  match digits with
  | Zpos d =>
      if 0 <=? exp10 then binary_round ld_prec ld_emax neg (Z.to_pos (digits * 10 ^ exp10)) 0
      else
        let '(q, e, l) := SFdiv_core_binary ld_prec ld_emax digits 0 (10 ^ (- exp10)) 0 in
        binary_round_aux ld_prec ld_emax neg q e l
  | _ => S754_zero neg
  end.

(** A decimal number at the start of a text: digits, a point and more digits
    (one digit at least), and an exponent when complete. *)
Record decimal := { dec_digits : Z; dec_exp10 : Z; dec_rest : string }.

Definition parse_exponent (s : string) : option (Z * string) :=
  let '(neg, r) := take_sign s in
  let '(ds, r) := span is_digit r in
  if at_end ds then None else Some (if neg then - digits_value 0 ds else digits_value 0 ds, r).

Definition is_char (x c : ascii) : bool := bool_decide (c = x).

Definition take_fraction (s : string) : string * string :=
  match s with
  | String c s' => if is_char "."%char c then span is_digit s' else ("", s)
  | EmptyString => ("", s)
  end.

Definition parse_decimal (s : string) : option decimal :=
  let '(ip, r) := span is_digit s in
  let '(fp, r) := take_fraction r in
  if at_end ip && at_end fp then None
  else
    let digits := digits_value 0 (ip +:+ fp) in
    let scale := - Z.of_nat (String.length fp) in
    match r with
    | String c r' =>
        if is_char "e"%char c || is_char "E"%char c then
          match parse_exponent r' with
          | Some (e, r'') => Some {| dec_digits := digits; dec_exp10 := e + scale; dec_rest := r'' |}
          | None => Some {| dec_digits := digits; dec_exp10 := scale; dec_rest := r |}
          end
        else Some {| dec_digits := digits; dec_exp10 := scale; dec_rest := r |}
    | EmptyString => Some {| dec_digits := digits; dec_exp10 := scale; dec_rest := r |}
    end.

Definition is_infinite (x : spec_float) : bool :=
  match x with S754_infinity _ => true | _ => false end.

Definition LDBL_MAX (neg : bool) : spec_float :=
  match SFmax_float ld_prec ld_emax with
  | S754_finite _ m e => S754_finite neg m e
  | x => x
  end.

(** [fin >> x] for [long double]: the characters a number can be made of are
    read first, and converted as a whole; an incomplete exponent fails.  The
    value is the one assigned ([None]: the variable is left alone). *)
Definition extract_ld (s : istream) : option spec_float * istream :=
  let '(s, ok) := sentry s in
  if ok then
    let '(neg, r) := take_sign (is_rest s) in
    let '(ip, r1) := span is_digit r in
    let '(fp, r2) := take_fraction r1 in
    let mant := negb (at_end ip && at_end fp) in
    match r2 with
    | String c r3 =>
        if mant && (is_char "e"%char c || is_char "E"%char c) then
          (* the exponent letter, a sign and digits are consumed in any case *)
          let '(_, r4) := take_sign r3 in
          let '(ds, r5) := span is_digit r4 in
          match parse_decimal r with
          | Some d =>
              let x := ld_of_decimal neg (dec_digits d) (dec_exp10 d) in
              if at_end ds then
                (Some (S754_zero false), {| is_rest := r5; is_fail := true; is_eof := at_end r5 |})
              else if is_infinite x then
                (Some (LDBL_MAX neg), {| is_rest := r5; is_fail := true; is_eof := at_end r5 |})
              else (Some x, {| is_rest := r5; is_fail := false; is_eof := at_end r5 |})
          | None => (Some (S754_zero false), {| is_rest := r5; is_fail := true; is_eof := at_end r5 |})
          end
        else if mant then
          (Some (ld_of_decimal neg (digits_value 0 (ip +:+ fp)) (- Z.of_nat (String.length fp))),
           {| is_rest := r2; is_fail := false; is_eof := false |})
        else (Some (S754_zero false), {| is_rest := r2; is_fail := true; is_eof := false |})
    | EmptyString =>
        if mant then
          (Some (ld_of_decimal neg (digits_value 0 (ip +:+ fp)) (- Z.of_nat (String.length fp))),
           {| is_rest := ""; is_fail := false; is_eof := true |})
        else (Some (S754_zero false), {| is_rest := ""; is_fail := true; is_eof := true |})
    end
  else (None, s).

(** [tolower] of the C locale. *)
Definition to_lower (c : ascii) : ascii :=
  let n := nat_of_ascii c in
  if (65 <=? n)%nat && (n <=? 90)%nat then ascii_of_nat (n + 32) else c.

(** [word] in lower case is a prefix of [s], ignoring case. *)
Fixpoint prefix_nocase (word s : string) : bool :=
  match word, s with
  | EmptyString, _ => true
  | String w word', String c s' => is_char w (to_lower c) && prefix_nocase word' s'
  | _, EmptyString => false
  end.

Definition is_hex (c : ascii) : bool :=
  let n := nat_of_ascii (to_lower c) in is_digit c || ((97 <=? n)%nat && (n <=? 102)%nat).
Definition hex_val (c : ascii) : Z :=
  if is_digit c then digit_val c else Z.of_nat (nat_of_ascii (to_lower c)) - 87.
Fixpoint hex_value (acc : Z) (s : string) : Z :=
  match s with EmptyString => acc | String c s' => hex_value (16 * acc + hex_val c) s' end.

Definition ld_of_scaled (neg : bool) (m e : Z) : spec_float :=
  match m with Zpos p => binary_round ld_prec ld_emax neg p e | _ => S754_zero neg end.

(** [m * 10^k] is exactly the value of [x]. *)
Definition decimal_exact (m k : Z) (x : spec_float) : bool :=
  match x with
  | S754_zero _ => m =? 0
  | S754_finite _ p e =>
      Zpos p * 2 ^ Z.max 0 e * 10 ^ Z.max 0 (- k) =? m * 10 ^ Z.max 0 k * 2 ^ Z.max 0 (- e)
  | _ => false
  end.

Definition is_tiny (x : spec_float) : bool :=
  match x with
  | S754_zero _ => true
  | S754_finite _ m _ => negb (Zpos (digits2_pos m) =? ld_prec)
  | _ => false
  end.

(** [std::stold(s)]; [None] is either of its exceptions (nothing to convert,
    or a result that overflows or underflows inexactly). *)
Definition stold (s : string) : option spec_float :=
  let '(neg, r) := take_sign (snd (span is_space s)) in
  if prefix_nocase "inf" r then Some (S754_infinity neg)
  else if prefix_nocase "nan" r then Some S754_nan
  else
    let dec :=
      match parse_decimal r with
      | Some d =>
          let x := ld_of_decimal neg (dec_digits d) (dec_exp10 d) in
          if is_infinite x then None
          else if is_tiny x && negb (decimal_exact (dec_digits d) (dec_exp10 d) x) then None
          else Some x
      | None => None
      end in
    if prefix_nocase "0x" r then
      let '(ip, r1) := span is_hex (String.substring 2 (String.length r - 2) r) in
      let '(fp, r2) :=
        match r1 with
        | String c r1' => if is_char "."%char c then span is_hex r1' else ("", r1)
        | EmptyString => ("", r1)
        end in
      if at_end ip && at_end fp then dec
      else
        let e := match r2 with
                 | String c r3 =>
                     if is_char "p"%char (to_lower c) then
                       match parse_exponent r3 with Some (e, _) => e | None => 0 end
                     else 0
                 | EmptyString => 0
                 end in
        let m := hex_value 0 (ip +:+ fp) in
        let x := ld_of_scaled neg m (e - 4 * Z.of_nat (String.length fp)) in
        if is_infinite x then None
        else
          let e2 := e - 4 * Z.of_nat (String.length fp) in
          let exact := match x with
                       | S754_finite _ p ex =>
                           Zpos p * 2 ^ Z.max 0 (ex - e2) =? m * 2 ^ Z.max 0 (e2 - ex)
                       | _ => m =? 0
                       end in
          if is_tiny x && negb exact then None else Some x
    else dec.

(** ** Lemmas *)

Lemma span_app P s : fst (span P s) +:+ snd (span P s) = s.
Proof.
  induction s as [|c s IH]; simpl; [done|]. destruct (P c); [|done].
  destruct (span P s) as [a b]. simpl in *. by rewrite string_app_cons, IH.
Qed.

Lemma span_forall P s : string_forall P (fst (span P s)) = true.
Proof.
  induction s as [|c s IH]; simpl; [done|]. destruct (P c) eqn:E; [|done].
  destruct (span P s) as [a b]. simpl in *. by rewrite E, IH.
Qed.

Lemma span_length P s : (String.length (snd (span P s)) <= String.length s)%nat.
Proof.
  induction s as [|c s IH]; simpl; [done|]. destruct (P c); [|done].
  destruct (span P s) as [a b]. simpl in *. lia.
Qed.

Lemma span_exact P a b :
  string_forall P a = true -> (forall c b', b = String c b' -> P c = false) ->
  span P (a +:+ b) = (a, b).
Proof.
  intros Ha Hb. induction a as [|c a IH].
  - rewrite string_app_nil_l. destruct b as [|c b]; simpl; [done|]. by rewrite (Hb c b).
  - rewrite string_app_cons. simpl in *. apply andb_true_iff in Ha as [-> Ha]. by rewrite IH.
Qed.

Lemma extract_word_shrinks s w s' :
  extract_word s = (Some w, s') -> (String.length (is_rest s') < String.length (is_rest s))%nat.
Proof.
  unfold extract_word, sentry. destruct (is_fail s || is_eof s); [done|].
  pose proof (span_length is_space (is_rest s)) as Hl.
  pose proof (span_app is_space (is_rest s)) as Happ.
  destruct (span is_space (is_rest s)) as [ws r] eqn:Es. simpl in *.
  destruct r as [|c r]; [done|]. cbn [is_rest].
  assert (Hc : is_space c = false).
  { clear Hl Happ. revert Es. generalize (is_rest s). intros t. revert ws.
    induction t as [|x t IH]; intros ws; simpl; [done|]. destruct (is_space x) eqn:Ex.
    - destruct (span is_space t) as [a b]. intros [= <- ->]. by eapply IH.
    - congruence. }
  destruct (span (fun c => negb (is_space c)) (String c r)) as [w' r'] eqn:Ew.
  intros [= <- <-]. simpl. simpl in Ew. rewrite Hc in Ew. simpl in Ew.
  pose proof (span_length (fun c => negb (is_space c)) r) as Hl2.
  destruct (span _ r) as [a b]. simpl in Hl2. injection Ew as <- <-. simpl in Hl. lia.
Qed.

Lemma sentry_length s : (String.length (is_rest (fst (sentry s))) <= String.length (is_rest s))%nat.
Proof.
  unfold sentry. case_match; [done|]. pose proof (span_length is_space (is_rest s)).
  destruct (snd (span is_space (is_rest s))); simpl in *; lia.
Qed.

Lemma take_sign_length s : (String.length (snd (take_sign s)) <= String.length s)%nat.
Proof. destruct s as [|c s]; simpl; [done|]. repeat case_match; simpl; lia. Qed.

Lemma extract_int_length lo hi s :
  (String.length (is_rest (snd (extract_int lo hi s))) <= String.length (is_rest s))%nat.
Proof.
  unfold extract_int. pose proof (sentry_length s) as H1. destruct (sentry s) as [s1 ok]. simpl in H1.
  destruct ok; [|done]. pose proof (take_sign_length (is_rest s1)) as H2.
  destruct (take_sign (is_rest s1)) as [neg r]. simpl in H2.
  pose proof (span_length is_digit r) as H3. destruct (span is_digit r) as [ds r']. simpl in *. lia.
Qed.

Lemma extract_word_length s :
  (String.length (is_rest (snd (extract_word s))) <= String.length (is_rest s))%nat.
Proof.
  destruct (extract_word s) as [[w|] s'] eqn:E; simpl; [apply extract_word_shrinks in E; lia|].
  revert E. unfold extract_word. pose proof (sentry_length s). destruct (sentry s) as [s1 ok].
  destruct ok; [by destruct (span _ _)|]. by intros [= <-].
Qed.

Lemma take_fraction_length s :
  (String.length (snd (take_fraction s)) <= String.length s)%nat.
Proof.
  destruct s as [|c s]; simpl; [done|]. case_match; [|done]. pose proof (span_length is_digit s). lia.
Qed.

Lemma extract_ld_length s :
  (String.length (is_rest (snd (extract_ld s))) <= String.length (is_rest s))%nat.
Proof.
  unfold extract_ld. pose proof (sentry_length s) as H1. destruct (sentry s) as [s1 ok]. simpl in H1.
  destruct ok; [|done]. pose proof (take_sign_length (is_rest s1)) as H2.
  destruct (take_sign (is_rest s1)) as [neg r]. simpl in H2.
  pose proof (span_length is_digit r) as H3. destruct (span is_digit r) as [ip r1]. simpl in H3.
  pose proof (take_fraction_length r1) as H4. destruct (take_fraction r1) as [fp r2]. simpl in H4.
  destruct r2 as [|c r3]; [case_match; simpl; lia|].
  case_match; [|case_match; simpl in *; lia].
  pose proof (take_sign_length r3) as H5. destruct (take_sign r3) as [neg' r4]. simpl in H5.
  pose proof (span_length is_digit r4) as H6. destruct (span is_digit r4) as [ds r5]. simpl in *.
  repeat case_match; simpl; lia.
Qed.

(** The numbers read are canonical; only [stold] can give NaN. *)
Definition number_ok (x : spec_float) : Prop := valid_ld x /\ is_nan x = false.

Lemma number_ok_zero s : number_ok (S754_zero s).
Proof. done. Qed.

Lemma number_ok_max s : number_ok (LDBL_MAX s).
Proof. by destruct s. Qed.

Lemma number_ok_round s m e : number_ok (binary_round ld_prec ld_emax s m e).
Proof. split; [by apply binary_round_valid|by apply binary_round_not_nan]. Qed.

Lemma number_ok_decimal neg d e : number_ok (ld_of_decimal neg d e).
Proof.
  unfold ld_of_decimal. destruct d as [|d|d]; [done| |done].
  destruct (0 <=? e) eqn:E; [apply number_ok_round|].
  apply Z.leb_gt in E. assert (0 < 10 ^ (- e)) by (apply Z.pow_pos_nonneg; lia).
  pose proof (div_round_valid ld_prec ld_emax ltac:(done) ltac:(done) neg (Zpos d) 0 (10 ^ (- e)) 0) as Hv.
  pose proof (div_round_not_nan neg (Zpos d) 0 (10 ^ (- e)) 0) as Hn.
  destruct (SFdiv_core_binary _ _ _ _ _ _) as [[q e'] l]. split; [apply Hv|apply Hn]; lia.
Qed.

Lemma extract_ld_ok s x s' : extract_ld s = (Some x, s') -> number_ok x.
Proof.
  unfold extract_ld. destruct (sentry s) as [s1 ok]. destruct ok; [|done].
  destruct (take_sign _) as [neg r]. destruct (span is_digit r) as [ip r1].
  destruct (take_fraction r1) as [fp r2].
  repeat case_match; intros [= <- _];
    auto using number_ok_zero, number_ok_max, number_ok_decimal.
Qed.

Lemma stold_ok s x : stold s = Some x -> valid_ld x.
Proof.
  unfold stold. destruct (take_sign _) as [neg r].
  destruct (prefix_nocase "inf" r); [by intros [= <-]|].
  destruct (prefix_nocase "nan" r); [by intros [= <-]|]. cbv zeta.
  set (dec := match parse_decimal r with Some _ => _ | None => _ end).
  assert (Hdec : dec = Some x -> valid_ld x).
  { subst dec. destruct (parse_decimal r) as [d|]; [|done]. repeat case_match; try done.
    intros [= <-]. apply number_ok_decimal. }
  destruct (prefix_nocase "0x" r); [|done].
  destruct (span is_hex _) as [ip r1].
  destruct (match r1 with String _ _ => _ | EmptyString => _ end) as [fp r2].
  case_match; [done|].
  set (e := match r2 with String _ _ => _ | EmptyString => _ end).
  case_match; [done|]. case_match; [done|]. intros [= <-].
  unfold ld_of_scaled. destruct (hex_value _ _); try done. by apply number_ok_round.
Qed.

Example stold_examples :
  stold " 1.5e3xyz" = Some (ld_of_Z 1500) /\ stold "0x1.8p4" = Some (ld_of_Z 24) /\
  stold "-INFinity" = Some (S754_infinity true) /\ stold "abc" = None /\
  fst (extract_ld (open_stream "  -2.50 ")) = Some (ld_of_decimal true 25 (-1)) /\
  is_fail (snd (extract_ld (open_stream "1e"))) = true.
Proof. vm_compute. done. Qed.
