(* ===== verification/Scores.v ===== *)
(** * Scores and times

    The fixed-point scores of src/tioj/submission.cpp: a score is an
    [int64_t] in units of 10^-6, times are microseconds. *)

From S2P Require Import Prelude Text CNum Stream.
From Stdlib Require Import SpecFloat.

(** [struct timeval]. *)
Record timeval := { tv_sec : Z; tv_usec : Z }.

(** [ToUs]: the time scaled by the configured multiplier (a [double]). *)
Definition ToUs (kTimeMultiplier : spec_float) (v : timeval) : Z :=
  float_to_long
    (ld_mul (ld_of_Z (to_long (to_long (tv_sec v * 1000000) + tv_usec v)))
            (ld_of_dbl kTimeMultiplier)).

(** [None] is the [std::length_error] of [std::string(6 - frac.size(), '0')]:
    the unsigned difference wraps when [frac] has more than six characters. *)
Definition ScoreToString (score : Z) : option string :=
  let frac := to_string (Z.rem score 1000000) in
  if (String.length frac <=? 6)%nat then
    let frac := string_repeat (6 - String.length frac) "0" +:+ frac in
    Some (to_string (Z.quot score 1000000) +:+ "." +:+ frac)
  else None.

Definition NormalizeScore (score : spec_float) : Z :=
  let kMax := ld_of_Z 1000000 in
  let score := if SFltb kMax score then kMax else score in
  let score := if SFltb score (SFopp kMax) then SFopp kMax else score in
  lround (ld_mul score (ld_of_Z 1000000)).

Lemma kMax_repr : ld_of_Z 1000000 = S754_finite false 17592186044416000000 (-44).
Proof. reflexivity. Qed.

(** A canonical [long double] no larger than 10^6 in magnitude. *)
Lemma ld_small_mantissa m e :
  bounded ld_prec ld_emax m e = true ->
  e < -44 \/ (e = -44 /\ Zpos m <= 17592186044416000000) ->
  e - 44 <= 0 /\ Zpos (m * 17592186044416000000) <= 10 ^ 12 * 2 ^ (- (e + -44)).
Proof.
  unfold bounded, canonical_mantissa. intros [Hc _]%andb_true_iff Hle.
  apply Z.eqb_eq in Hc. split; [lia|].
  rewrite Pos2Z.inj_mul.
  replace (10 ^ 12 * 2 ^ (- (e + -44))) with (10 ^ 6 * 2 ^ (- e) * 17592186044416000000).
  2:{ replace (- (e + -44)) with (- e + 44) by lia.
      destruct Hle as [Hle|[-> _]]; [|reflexivity].
      rewrite Z.pow_add_r by lia. lia. }
  apply Z.mul_le_mono_nonneg_r; [lia|].
  destruct Hle as [He|[-> Hm]]; [|by etrans].
  assert (Zpos m < 2 ^ 64).
  { apply Z.log2_lt_pow2; [lia|]. unfold fexp, emin in Hc.
    rewrite digits2_pos_log2 in Hc. lia. }
  assert (2 ^ 45 <= 2 ^ (- e)) by (apply Z.pow_le_mono_r; lia). lia.
Qed.

Lemma lround_scaled_bound s m e :
  bounded ld_prec ld_emax m e = true ->
  e < -44 \/ (e = -44 /\ Zpos m <= 17592186044416000000) ->
  Z.abs (lround (ld_mul (S754_finite s m e) (ld_of_Z 1000000))) <= 10 ^ 12.
Proof.
  intros Hb Hle. destruct (ld_small_mantissa m e Hb Hle) as [He Hp].
  rewrite kMax_repr. unfold ld_mul, SFmul.
  pose proof (binary_round_aux_bound (xorb s false) (m * 17592186044416000000) (e + -44) (10 ^ 12)
    ltac:(lia) ltac:(lia) Hp) as Hr.
  destruct (binary_round_aux _ _ _ _ _ _) as [s'| | |s' m' e'] eqn:Er; simpl; [lia|done..|].
  destruct Hr as [_ Hr]. pose proof (mant_round_le m' e' (10 ^ 12) ltac:(lia) Hr) as Hround.
  assert (to_long_or_indefinite (with_sign s' (mant_round m' e')) = with_sign s' (mant_round m' e')) as ->.
  { unfold to_long_or_indefinite, LONG_MIN, LONG_MAX, with_sign.
    destruct s'; rewrite (proj2 (andb_true_iff _ _)); try done; split; apply Z.leb_le; lia. }
  unfold with_sign. destruct s'; lia.
Qed.

Lemma SFltb_pos_false m e mk ek :
  SFltb (S754_finite false mk ek) (S754_finite false m e) = false ->
  e < ek \/ (e = ek /\ Zpos m <= Zpos mk).
Proof.
  unfold SFltb, SFcompare. change (Pos.compare_cont Eq mk m) with (mk ?= m)%positive.
  destruct (Z.compare_spec ek e), (Pos.compare_spec mk m); intros; try done; subst; lia.
Qed.

Lemma SFltb_neg_false m e mk ek :
  SFltb (S754_finite true m e) (S754_finite true mk ek) = false ->
  e < ek \/ (e = ek /\ Zpos m <= Zpos mk).
Proof.
  unfold SFltb, SFcompare. change (Pos.compare_cont Eq m mk) with (m ?= mk)%positive.
  destruct (Z.compare_spec e ek), (Pos.compare_spec m mk); intros; try done; subst; lia.
Qed.

Lemma NormalizeScore_abs x : valid_ld x -> is_nan x = false -> Z.abs (NormalizeScore x) <= 10 ^ 12.
Proof.
  intros Hv Hn. unfold NormalizeScore.
  set (kMax := ld_of_Z 1000000).
  assert (Hk : Z.abs (lround (ld_mul kMax kMax)) <= 10 ^ 12) by (vm_compute; discriminate).
  assert (Hnk : Z.abs (lround (ld_mul (SFopp kMax) kMax)) <= 10 ^ 12) by (vm_compute; discriminate).
  destruct (SFltb kMax x) eqn:E1.
  { replace (SFltb kMax (SFopp kMax)) with false by reflexivity. done. }
  destruct (SFltb x (SFopp kMax)) eqn:E2; [done|].
  clear Hk Hnk. subst kMax. rewrite kMax_repr in E1, E2.
  destruct x as [s|[]| |s m e]; [|discriminate|discriminate|discriminate Hn|].
  { destruct s; vm_compute; discriminate. }
  apply lround_scaled_bound; [exact Hv|].
  destruct s; [by apply SFltb_neg_false in E2|by apply SFltb_pos_false in E1].
Qed.

Lemma NormalizeScore_nan : NormalizeScore S754_nan = LONG_MIN.
Proof. reflexivity. Qed.

(** Whatever number a special judge prints, the score it stands for is
    within the fixed-point range [-10^12, 10^12]: clamping happens before the
    multiplication and rounding never leaves the range. *)
Theorem NormalizeScore_bounds x :
  valid_ld x -> is_nan x = false -> Z.abs (NormalizeScore x) <= 10 ^ 12.
Proof. apply NormalizeScore_abs. Qed.

Lemma NormalizeScore_bounds_witness :
  valid_ld (ld_of_Z (-123456789)) /\ NormalizeScore (ld_of_Z (-123456789)) = - 10 ^ 12 /\
  Z.abs (NormalizeScore (ld_of_Z (-123456789))) <= 10 ^ 12.
Proof.
  split; [reflexivity|]. split; [vm_compute; reflexivity|].
  apply (NormalizeScore_bounds (ld_of_Z (-123456789))); reflexivity.
Defined.

(** ** Scores in decimal *)

Lemma string_length_repeat n c : String.length (string_repeat n c) = n.
Proof. induction n as [|n IH]; simpl; [done|]. by rewrite IH. Qed.

(** The fraction: the number of characters of [score % 10^6]. *)
Lemma ScoreToString_frac_length score :
  (String.length (to_string (Z.rem score 1000000)) <= 6)%nat <->
  - 100000 < Z.rem score 1000000.
Proof.
  destruct (decide (0 <= Z.rem score 1000000)) as [Hp|Hn].
  - rewrite to_string_length by lia. split; [lia|]. intros _.
    pose proof (Z.rem_bound_abs score 1000000 ltac:(lia)). lia.
  - replace (Z.rem score 1000000) with (- (- Z.rem score 1000000)) by lia.
    rewrite to_string_neg by lia. cbn [String.length].
    transitivity (String.length (to_string (- Z.rem score 1000000)) <= 5)%nat; [lia|].
    rewrite to_string_length by lia. change (10 ^ Z.of_nat 5) with 100000. lia.
Qed.

(** A score that is not negative is printed with exactly six decimals, and
    the text reads back as the same fixed-point number; on a negative score
    with a fraction of at least a tenth the conversion does not return (the
    padding length wraps around and the string constructor throws). *)
Theorem ScoreToString_spec score :
  (0 <= score -> exists s, ScoreToString score = Some s /\
     parse_decimal s = Some {| dec_digits := score; dec_exp10 := -6; dec_rest := "" |}) /\
  (ScoreToString score = None <-> Z.rem score 1000000 <= - 100000).
Proof.
  unfold ScoreToString. pose proof (ScoreToString_frac_length score) as Hl. split.
  - intros Hs. pose proof (Z.rem_bound_pos score 1000000 ltac:(lia) ltac:(lia)) as Hr.
    destruct (Nat.leb_spec (String.length (to_string (Z.rem score 1000000))) 6) as [Hle|]; [|lia].
    eexists. split; [done|]. unfold parse_decimal.
    set (ip := to_string (Z.quot score 1000000)).
    set (fp := string_repeat _ "0" +:+ to_string (Z.rem score 1000000)).
    assert (Hip : string_forall is_digit ip = true)
      by (apply to_string_digits, Z.quot_pos; lia).
    assert (Hfp : string_forall is_digit fp = true).
    { unfold fp. rewrite string_forall_app, to_string_digits by lia. by rewrite string_forall_repeat. }
    assert (Hlen : String.length fp = 6%nat)
      by (unfold fp; rewrite string_length_app, string_length_repeat; lia).
    rewrite span_exact; [|done|]; [|by intros c b [= <- _]]. autorewrite with text. simpl take_fraction.
    rewrite <- (string_app_nil_r fp) at 1. rewrite span_exact by done.
    assert (at_end ip = false) as -> by (apply bool_decide_eq_false, to_string_nonempty).
    simpl. rewrite Hlen. do 2 f_equal.
    rewrite digits_value_app, Hlen. unfold fp, ip. rewrite digits_value_zeros.
    rewrite !to_string_value by (lia || (apply Z.quot_pos; lia)).
    pose proof (Z.quot_rem' score 1000000). change (10 ^ Z.of_nat 6) with 1000000. lia.
  - destruct (Nat.leb_spec (String.length (to_string (Z.rem score 1000000))) 6); split; intros;
      try done; lia.
Qed.
