(* ===== verification/Data.v ===== *)
(** * Data of the judge

    The records of include/tioj/submission.h and src/tioj/tasks.h, the JSON
    documents exchanged with special judges, the observable effects (file
    operations and reporter callbacks) and the outcome of an operation. *)

From S2P Require Import Prelude Enums Scores.
From Stdlib Require Import SpecFloat.

(** ** JSON documents

    The values of nlohmann::json the program builds and inspects.  Text is
    converted by the library: [json_parse] ([None] is its parse exception) and
    [json_dump] are parameters. *)

Inductive json :=
| JNull
| JBool (b : bool)
| JInt (z : Z)
| JFloat (f : spec_float)
| JStr (s : string)
| JArr (l : list json)
| JObj (fields : list (string * json)).

Class JsonText := {
  json_parse : string -> option json;
  json_dump : json -> string;
}.

Fixpoint assoc_find {A} (key : string) (l : list (string * A)) : option A :=
  match l with
  | [] => None
  | (k, v) :: l' => if bool_decide (k = key) then Some v else assoc_find key l'
  end.

(** [json.find(key)]; on anything but an object the iterator is [end()]. *)
Definition json_find (j : json) (key : string) : option json :=
  match j with JObj fields => assoc_find key fields | _ => None end.

(** ** Submissions *)

Record TestdataItem := {
  input_file : string;
  answer_file : string;
  lim_vss : Z;              (* KiB, 0 if unlimited *)
  lim_rss : Z;
  lim_output : Z;
  lim_time : Z;             (* us *)
  ignore_verdict : bool;
  td_groups : list Z;
}.

(** The callbacks of [Submission::Reporter] that are set. *)
Record Reporter := {
  ReportStartCompiling : bool;
  ReportOverallResult : bool;
  ReportScoringResult : bool;
  ReportCEMessage : bool;
  ReportJCEMessage : bool;
  ReportFinalized : bool;
}.

Record Submission := {
  submission_internal_id : Z;
  submission_id : Z;
  contest_id : Z;
  priority : Z;
  submission_time : Z;
  submitter_id : Z;
  submitter_name : string;
  submitter_nickname : string;
  lang : Compiler;
  problem_id : Z;
  specjudge_type : SpecjudgeType;
  interlib_type : InterlibType;
  summary_type : SummaryType;
  specjudge_lang : Compiler;
  summary_lang : Compiler;
  problem_prog_lang : Compiler;
  user_compile_args : string;
  specjudge_compile_args : string;
  problem_prog_compile_args : string;
  stages : Z;
  problem_prog_stages : gset Z;
  judge_between_stages : bool;
  judge_abnormally_terminated : bool;
  specjudge_re_as_wa : bool;
  sandbox_strict : bool;
  process_limit : Z;
  default_scoring_args : list string;
  testdata : list TestdataItem;
  group_score : list Z;     (* 10^-6 *)
  skip_group : bool;
  reporter : Reporter;
  report_intermediate_stage : bool;
  remove_submission : bool;
}.

(** The fields of [struct cjail_result] the program reads. *)
Record cjail_result := {
  timekill : Z;             (* -1: the sandbox itself failed *)
  oomkill : Z;              (* -1: unknown; an errno when [timekill] is -1 *)
  si_code : Z;
  si_status : Z;
  hiwater_vm : Z;
  ru_maxrss : Z;
  ru_utime : timeval;
  ru_stime : timeval;
  real_time : timeval;
}.

Definition zero_timeval : timeval := {| tv_sec := 0; tv_usec := 0 |}.

(** [struct cjail_result{}]. *)
Definition zero_cjail_result : cjail_result := {|
  timekill := 0; oomkill := 0; si_code := 0; si_status := 0; hiwater_vm := 0; ru_maxrss := 0;
  ru_utime := zero_timeval; ru_stime := zero_timeval; real_time := zero_timeval;
|}.

(** Linux values. *)
Definition CLD_EXITED : Z := 1.
Definition CLD_KILLED : Z := 2.
Definition CLD_DUMPED : Z := 3.
Definition SIGPIPE : Z := 13.
Definition SIGXFSZ : Z := 25.

Record TestdataResult := {
  execute_result : cjail_result;
  td_vss : Z;
  td_rss : Z;
  td_time : Z;
  td_score : Z;             (* 10^-6 *)
  td_verdict : Verdict;
  message_type : string;
  message : string;
  skip_stage : bool;
}.

Definition empty_TestdataResult : TestdataResult := {|
  execute_result := zero_cjail_result; td_vss := 0; td_rss := 0; td_time := 0; td_score := 0;
  td_verdict := NUL; message_type := ""; message := ""; skip_stage := false;
|}.

Record SubmissionResult := {
  td_results : list TestdataResult;
  verdict : Verdict;
  total_memory : Z;
  total_time : Z;
  total_score : Z;
  ce_message : string;
  jce_message : string;
}.

Definition empty_SubmissionResult : SubmissionResult := {|
  td_results := []; verdict := NUL; total_memory := 0; total_time := 0; total_score := 0;
  ce_message := ""; jce_message := "";
|}.

Record SubmissionAndResult := { sr_sub : Submission; sr_result : SubmissionResult }.

Record Task := { tk_type : TaskType; tk_subtask : Z; tk_stage : Z }.

#[export] Instance Task_eq_dec : EqDecision Task.
Proof. solve_decision. Defined.

(** ** Record updates *)

Definition set_td_vss (x : Z) (r : TestdataResult) := {|
  execute_result := execute_result r; td_vss := x; td_rss := td_rss r; td_time := td_time r;
  td_score := td_score r; td_verdict := td_verdict r; message_type := message_type r;
  message := message r; skip_stage := skip_stage r |}.
Definition set_td_rss (x : Z) (r : TestdataResult) := {|
  execute_result := execute_result r; td_vss := td_vss r; td_rss := x; td_time := td_time r;
  td_score := td_score r; td_verdict := td_verdict r; message_type := message_type r;
  message := message r; skip_stage := skip_stage r |}.
Definition set_td_time (x : Z) (r : TestdataResult) := {|
  execute_result := execute_result r; td_vss := td_vss r; td_rss := td_rss r; td_time := x;
  td_score := td_score r; td_verdict := td_verdict r; message_type := message_type r;
  message := message r; skip_stage := skip_stage r |}.
Definition set_td_score (x : Z) (r : TestdataResult) := {|
  execute_result := execute_result r; td_vss := td_vss r; td_rss := td_rss r; td_time := td_time r;
  td_score := x; td_verdict := td_verdict r; message_type := message_type r;
  message := message r; skip_stage := skip_stage r |}.
Definition set_td_verdict (x : Verdict) (r : TestdataResult) := {|
  execute_result := execute_result r; td_vss := td_vss r; td_rss := td_rss r; td_time := td_time r;
  td_score := td_score r; td_verdict := x; message_type := message_type r;
  message := message r; skip_stage := skip_stage r |}.
Definition set_message (ty x : string) (r : TestdataResult) := {|
  execute_result := execute_result r; td_vss := td_vss r; td_rss := td_rss r; td_time := td_time r;
  td_score := td_score r; td_verdict := td_verdict r; message_type := ty;
  message := x; skip_stage := skip_stage r |}.
Definition set_skip_stage (x : bool) (r : TestdataResult) := {|
  execute_result := execute_result r; td_vss := td_vss r; td_rss := td_rss r; td_time := td_time r;
  td_score := td_score r; td_verdict := td_verdict r; message_type := message_type r;
  message := message r; skip_stage := x |}.
Definition set_execute_result (x : cjail_result) (r : TestdataResult) := {|
  execute_result := x; td_vss := td_vss r; td_rss := td_rss r; td_time := td_time r;
  td_score := td_score r; td_verdict := td_verdict r; message_type := message_type r;
  message := message r; skip_stage := skip_stage r |}.

Definition set_td_results (x : list TestdataResult) (r : SubmissionResult) := {|
  td_results := x; verdict := verdict r; total_memory := total_memory r;
  total_time := total_time r; total_score := total_score r; ce_message := ce_message r;
  jce_message := jce_message r |}.
Definition set_verdict (x : Verdict) (r : SubmissionResult) := {|
  td_results := td_results r; verdict := x; total_memory := total_memory r;
  total_time := total_time r; total_score := total_score r; ce_message := ce_message r;
  jce_message := jce_message r |}.
Definition set_totals (mem time : Z) (r : SubmissionResult) := {|
  td_results := td_results r; verdict := verdict r; total_memory := mem;
  total_time := time; total_score := total_score r; ce_message := ce_message r;
  jce_message := jce_message r |}.
Definition set_total_score (x : Z) (r : SubmissionResult) := {|
  td_results := td_results r; verdict := verdict r; total_memory := total_memory r;
  total_time := total_time r; total_score := x; ce_message := ce_message r;
  jce_message := jce_message r |}.
Definition set_ce_message (x : string) (r : SubmissionResult) := {|
  td_results := td_results r; verdict := verdict r; total_memory := total_memory r;
  total_time := total_time r; total_score := total_score r; ce_message := x;
  jce_message := jce_message r |}.
Definition set_jce_message (x : string) (r : SubmissionResult) := {|
  td_results := td_results r; verdict := verdict r; total_memory := total_memory r;
  total_time := total_time r; total_score := total_score r; ce_message := ce_message r;
  jce_message := x |}.

Definition with_result (sr : SubmissionAndResult) (r : SubmissionResult) : SubmissionAndResult :=
  {| sr_sub := sr_sub sr; sr_result := r |}.

(** ** Effects

    The calls of an operation on the file system and the reporter, in the
    order they are made.  [fs::file_size] and the file tests read the
    environment, see [Env]. *)

Inductive Event :=
| EvCreateDirs (path : string) (perms : option Z)
| EvCopy (from to : string) (perms : option Z)
| EvMove (from to : string) (perms : option Z)
| EvRemoveAll (path : string)
| EvMountTmpfs (path : string) (size_kib : Z)
| EvUmount (path : string)
| EvPermissions (path : string) (perms : Z)
| EvChownRoot (path : string)
| EvWrite (path : string) (contents : string)
| EvRunTask (key : Z) (task : Task) (handle : Z)
| EvStartCompiling (sub : Submission)
| EvOverallResult (sub : Submission) (res : SubmissionResult)
| EvScoringResult (sub : Submission) (res : SubmissionResult) (subtask stage : Z)
| EvCEMessage (sub : Submission) (res : SubmissionResult)
| EvJCEMessage (sub : Submission) (res : SubmissionResult)
| EvFinalized (sub : Submission) (queue_size_before_pop : Z).

(** What the file system answers while one operation runs. *)
Record Env := {
  env_is_regular : string -> bool;            (* IsRegularFileNoFollow *)
  env_exists : string -> bool;                (* fs::exists *)
  env_file_size : string -> option Z;         (* fs::file_size; None: throws *)
  env_read : string -> option string;         (* std::ifstream; None: cannot open *)
  env_header_files : list (string * string);  (* (parent, name) below judge-headers *)
}.

(** ** Outcomes *)

(** Why an operation has no result: the C++ would be undefined or an
    exception would escape. *)
Inductive fault :=
| OutOfBounds          (* vector::operator[] past the end *)
| NoSuchKey            (* unordered_map: at() throws, find() gives end(), or a
                          default-constructed entry is read *)
| FilesystemError      (* std::filesystem throws *)
| LengthError          (* std::string(n, c) throws *)
| BadEnum.             (* a cast outside the enumeration *)

Inductive outcome (A : Type) :=
| Done (a : A)
| Crash (f : fault).
Arguments Done {A} _.
Arguments Crash {A} _.
