(* ===== verification/FileOps.v ===== *)
(** * File operations

    The operations of src/tioj/utils.cpp on files, directories and mounts:
    how they combine the calls of std::filesystem and the system, what they
    change and what they return when a call fails. [SpliceProcess] and
    [CloseFrom] are at the end.

    A disk maps paths to nodes (regular files, directories, symbolic links, with
    permissions and owner) and has a stack of mounts, each with the nodes it
    hides. A symbolic link holds the path its target resolves to; a path
    names its node directly, that is, its parent directories are no links.
    Which calls fail, and with what error, is the environment's choice: a missing
    parent directory, a full device and the like are such failures. *)

From S2P Require Import Prelude Text Data.

Inductive node_kind :=
| Regular (contents : string)
| Directory
| Symlink (target : string).

Record Node := { nd_kind : node_kind; nd_perms : Z; nd_owner : Z }.

#[export] Instance node_kind_eq_dec : EqDecision node_kind.
Proof. solve_decision. Defined.
#[export] Instance Node_eq_dec : EqDecision Node.
Proof. solve_decision. Defined.

Abbreviation file_map := (gmap string Node).

Record Mount := { mt_path : string; mt_options : string; mt_hidden : file_map }.

(** The newest mount is first. *)
Record Disk := { files : file_map; mounts : list Mount }.

Definition with_files (fs : file_map) (d : Disk) : Disk := {| files := fs; mounts := mounts d |}.

Definition ENOENT : Z := 2.
Definition EBUSY : Z := 16.
Definition EXDEV : Z := 18.
Definition ENOTDIR : Z := 20.
Definition EISDIR : Z := 21.
Definition EINVAL : Z := 22.
Definition ENOTEMPTY : Z := 39.
Definition ELOOP : Z := 40.

(** The error of each call, if it fails for a reason that is not modelled, and what
    a failed call leaves behind. *)
Record Faults := {
  rename_error : option Z;
  copy_error : option Z;
  copied_before : option string;         (* written before the copy failed *)
  remove_error : option Z;
  removed_before : string -> bool;       (* removed before the removal failed *)
  permissions_error : option Z;
  create_error : option Z;
  mount_error : option Z;
  write_error : option Z;
  chown_error : option Z;
}.

Definition no_faults : Faults := {|
  rename_error := None; copy_error := None; copied_before := None; remove_error := None;
  removed_before _ := false; permissions_error := None; create_error := None; mount_error := None;
  write_error := None; chown_error := None |}.

(** ** Paths of a tree *)

Fixpoint strip (p q : string) : option string :=
  match p, q with
  | EmptyString, _ => Some q
  | String c p', String c' q' => if bool_decide (c = c') then strip p' q' else None
  | String _ _, EmptyString => None
  end.

(** What follows [p] in [q], when [q] is [p] or below it. *)
Definition suffix_below (p q : string) : option string :=
  match strip p q with
  | Some EmptyString => Some ""
  | Some (String c r) => if bool_decide (c = "/"%char) then Some (String c r) else None
  | None => None
  end.

Definition below (p q : string) : bool := match suffix_below p q with Some _ => true | None => false end.
Definition strictly_below (p q : string) : bool := below p q && negb (bool_decide (q = p)).

(** The nodes at or below a path, and the others. *)
Definition keep_paths (P : string -> bool) (fs : file_map) : file_map := filter (fun kv => P kv.1 = true) fs.
Definition subtree (p : string) (fs : file_map) : file_map := keep_paths (below p) fs.
Definition outside (p : string) (fs : file_map) : file_map := keep_paths (fun q => negb (below p q)) fs.

(** The subtree of [from] under its new name. *)
Definition transplant (from to : string) (fs : file_map) : file_map :=
  map_fold (fun p n m => match suffix_below from p with Some t => <[to +:+ t := n]> m | None => m end) ∅ fs.

(** ** The calls *)

(** Where a path leads; the system follows at most 40 links. *)
Fixpoint follow (fuel : nat) (fs : file_map) (p : string) : option string :=
  match fs !! p with
  | Some {| nd_kind := Symlink t |} => match fuel with O => None | S fuel' => follow fuel' fs t end
  | _ => Some p
  end.
Definition resolve (d : Disk) (p : string) : option string := follow 40 (files d) p.

Definition node_at (d : Disk) (p : string) : option Node := p ← resolve d p; files d !! p.

(** Whether two paths are on the same device: in the same mounts. *)
Definition same_device (d : Disk) (p q : string) : bool :=
  forallb (fun m => Bool.eqb (below (mt_path m) p) (below (mt_path m) q)) (mounts d).

Section Calls.
Context (f : Faults).

(** The error, [None] on success, and the new disk. *)
Definition fs_rename (from to : string) (d : Disk) : option Z * Disk :=
  match rename_error f, files d !! from with
  | Some e, _ => (Some e, d)
  | None, None => (Some ENOENT, d)
  | None, Some n =>
      if bool_decide (from = to) then (None, d)
      else if existsb (fun m => below from (mt_path m) || bool_decide (mt_path m = to)) (mounts d) then (Some EBUSY, d)
      else if negb (same_device d from to) then (Some EXDEV, d)
      else if below from to then (Some EINVAL, d)
      else if below to from then (Some ENOTEMPTY, d)
      else
        let blocked :=
          match nd_kind n, nd_kind <$> files d !! to with
          | _, None => None
          | Directory, Some Directory =>
              if bool_decide (map_Forall (fun p _ => strictly_below to p = false) (files d)) then None
              else Some ENOTEMPTY
          | Directory, Some _ => Some ENOTDIR
          | _, Some Directory => Some EISDIR
          | _, Some _ => None
          end in
        match blocked with
        | Some e => (Some e, d)
        | None =>
            (None, with_files
               (match nd_kind n with
                | Directory => transplant from to (files d) ∪ outside from (outside to (files d))
                | _ => <[to := n]> (delete from (files d))
                end) d)
        end
  end.

(** Writing a file through links; the permissions and the owner of a new one. *)
Definition put_contents (p c : string) (perms : Z) (d : Disk) : option Z * Disk :=
  match resolve d p with
  | None => (Some ELOOP, d)
  | Some q =>
      match files d !! q with
      | Some {| nd_kind := Directory |} => (Some EISDIR, d)
      | Some n => (None, with_files (<[q := {| nd_kind := Regular c; nd_perms := nd_perms n; nd_owner := nd_owner n |}]> (files d)) d)
      | None => (None, with_files (<[q := {| nd_kind := Regular c; nd_perms := perms; nd_owner := 0 |}]> (files d)) d)
      end
  end.

Definition change_node (g : Node -> Node) (p : string) (d : Disk) : option Z * Disk :=
  match resolve d p with
  | None => (Some ELOOP, d)
  | Some q =>
      match files d !! q with
      | None => (Some ENOENT, d)
      | Some n => (None, with_files (<[q := g n]> (files d)) d)
      end
  end.

Definition set_perms (perms : Z) (n : Node) : Node :=
  {| nd_kind := nd_kind n; nd_perms := perms; nd_owner := nd_owner n |}.
Definition set_owner (owner : Z) (n : Node) : Node :=
  {| nd_kind := nd_kind n; nd_perms := nd_perms n; nd_owner := owner |}.

Definition fs_permissions (p : string) (perms : Z) (d : Disk) : option Z * Disk :=
  match permissions_error f with Some e => (Some e, d) | None => change_node (set_perms perms) p d end.

Definition sys_chown (p : string) (d : Disk) : option Z * Disk :=
  match chown_error f with Some e => (Some e, d) | None => change_node (set_owner 0) p d end.

(** [copy_file] with [overwrite_existing]; the copy gets the permissions of the
    original. *)
Definition fs_copy_file (from to : string) (d : Disk) : option Z * Disk :=
  match node_at d from with
  | None => (Some ENOENT, d)
  | Some n =>
      match nd_kind n, copy_error f with
      | Regular c, None =>
          match put_contents to c (nd_perms n) d with
          | (None, d) => change_node (set_perms (nd_perms n)) to d
          | failed => failed
          end
      | Regular _, Some e =>
          (Some e, match copied_before f with Some c => (put_contents to c (nd_perms n) d).2 | None => d end)
      | _, _ => (Some EINVAL, d)
      end
  end.

(** [remove] of one file. *)
Definition fs_remove (p : string) (d : Disk) : option Z * Disk :=
  match remove_error f with Some e => (Some e, d) | None => (None, with_files (delete p (files d)) d) end.

(** The disk is flat: the missing directories above the path are not made into nodes
    of their own, since nothing looks at them. *)
Definition fs_create_directories (p : string) (d : Disk) : option Z * Disk :=
  match create_error f with
  | Some e => (Some e, d)
  | None =>
      match node_at d p, files d !! p with
      | Some {| nd_kind := Directory |}, _ => (None, d)
      | _, Some _ => (Some ENOTDIR, d)
      | _, None => (None, with_files (<[p := {| nd_kind := Directory; nd_perms := 493; nd_owner := 0 |}]> (files d)) d)
      end
  end.

(** [remove_all] does not follow links.  A mount below the path cannot be removed,
    nor the directories above it. *)
Definition fs_remove_all (p : string) (d : Disk) : option Z * Disk :=
  match remove_error f with
  | Some e => (Some e, with_files (keep_paths (fun q => negb (below p q && removed_before f q)) (files d)) d)
  | None =>
      let kept q := negb (below p q) || existsb (fun m => below p (mt_path m) && below q (mt_path m)) (mounts d) in
      (if existsb (fun m => below p (mt_path m)) (mounts d) then Some EBUSY else None,
       with_files (keep_paths kept (files d)) d)
  end.

(** A new tmpfs hides what is at its place. *)
Definition sys_mount (p options : string) (d : Disk) : option Z * Disk :=
  match mount_error f, resolve d p with
  | Some e, _ => (Some e, d)
  | None, None => (Some ELOOP, d)
  | None, Some q =>
      match files d !! q with
      | Some {| nd_kind := Directory |} =>
          (None, {| files := <[q := {| nd_kind := Directory; nd_perms := 1023; nd_owner := 0 |}]> (outside q (files d));
                    mounts := {| mt_path := q; mt_options := options; mt_hidden := subtree q (files d) |} :: mounts d |})
      | Some _ => (Some ENOTDIR, d)
      | None => (Some ENOENT, d)
      end
  end.

(** Removing the newest mount at a path. *)
Fixpoint pop_mount (p : string) (l : list Mount) : option (Mount * list Mount) :=
  match l with
  | [] => None
  | m :: l' =>
      if bool_decide (mt_path m = p) then Some (m, l')
      else match pop_mount p l' with Some (m', l'') => Some (m', m :: l'') | None => None end
  end.

Definition sys_umount (p : string) (d : Disk) : option Z * Disk :=
  match mount_error f, resolve d p with
  | Some e, _ => (Some e, d)
  | None, None => (Some ELOOP, d)
  | None, Some q =>
      if existsb (fun m => strictly_below q (mt_path m)) (mounts d) then (Some EBUSY, d)
      else
        match pop_mount q (mounts d) with
        | None => (Some EINVAL, d)
        | Some (m, l) => (None, {| files := subtree q (mt_hidden m) ∪ outside q (files d); mounts := l |})
        end
  end.
End Calls.

(** ** The operations

    Permissions [None] stand for [perms::unknown]; the flag is what is
    returned. *)

Section FileOps.
Context (f : Faults).

Definition finish_permissions (p : string) (perms : option Z) (d : Disk) : bool * Disk :=
  match perms with
  | None => (true, d)
  | Some m => match fs_permissions f p m d with (Some _, d) => (false, d) | (None, d) => (true, d) end
  end.

Definition CreateDirs (p : string) (perms : option Z) (d : Disk) : bool * Disk :=
  match fs_create_directories f p d with
  | (Some _, d) => (false, d)
  | (None, d) => finish_permissions p perms d
  end.

Definition RemoveAll (p : string) (d : Disk) : bool * Disk :=
  match fs_remove_all f p d with (Some _, d) => (false, d) | (None, d) => (true, d) end.

Definition Move (from to : string) (perms : option Z) (d : Disk) : bool * Disk :=
  match fs_rename f from to d with
  | (None, d) => finish_permissions to perms d
  | (Some e, d) =>
      if negb (e =? EXDEV) then (false, d)
      else
        match fs_copy_file f from to d with
        | (Some _, d) => (false, d)
        | (None, d) => let '(_, d) := fs_remove f from d in finish_permissions to perms d
        end
  end.

Definition Copy (from to : string) (perms : option Z) (d : Disk) : bool * Disk :=
  match fs_copy_file f from to d with
  | (Some _, d) => (false, d)
  | (None, d) => finish_permissions to perms d
  end.

Definition MountTmpfs (p : string) (size_kib : Z) (d : Disk) : bool * Disk :=
  match sys_mount f p ("size=" +:+ to_string size_kib +:+ "k") d with
  | (Some _, d) => (false, d)
  | (None, d) => (true, d)
  end.

Definition Umount (p : string) (d : Disk) : bool * Disk :=
  match sys_umount f p d with (Some _, d) => (false, d) | (None, d) => (true, d) end.

(** [std::ofstream(p) << contents]: nothing is reported. *)
Definition WriteFile (p contents : string) (d : Disk) : Disk :=
  match write_error f with Some _ => d | None => (put_contents p contents 420 d).2 end.
End FileOps.

(** ** SpliceProcess

    The loop of the process that copies at most [max_size] bytes: each call of
    [splice] moves at most what it is asked for; a result of 0 or less ends
    it. *)

Fixpoint split_at (n : nat) (s : string) : string * string :=
  match n, s with
  | O, _ => ("", s)
  | S _, EmptyString => ("", "")
  | S n', String c s' => let '(a, b) := split_at n' s' in (String c a, b)
  end.

Fixpoint splice_loop (calls : list Z) (max_size : Z) (src : string) : string :=
  if max_size =? 0 then ""
  else
    match calls with
    | [] => ""
    | r :: calls' =>
        let '(now, rest) := split_at (Z.to_nat (Z.min r (Z.min max_size 65536))) src in
        if (String.length now =? 0)%nat then ""
        else now +:+ splice_loop calls' (max_size - Z.of_nat (String.length now)) rest
    end.

(** What the caller learns: [fork1] is its own result of [fork], [fork2] that of
    the first child, [waited] what [waitpid] returns, [killed] whether a signal has
    ended the child. *)
Definition SpliceProcess (fork1 fork2 waited : Z) (killed : bool) : bool :=
  if fork1 <? 0 then false
  else
    let status := if fork2 <? 0 then 1 else 0 in
    if waited <? 0 then false
    else if killed || negb (status =? 0) then false
    else true.

(** The descriptors that stay open. *)
Definition CloseFrom (minfd : Z) (fds : gset Z) : gset Z := filter (fun fd => fd < minfd) fds.

(** ** Two runs *)

(** A file moved to another device whose source cannot be removed: [Move] reports
    success and the source stays. *)
Example Move_keeps_source :
  let n := {| nd_kind := Regular "x"; nd_perms := 420; nd_owner := 0 |} in
  let f := {| rename_error := Some EXDEV; copy_error := None; copied_before := None; remove_error := Some 13;
              removed_before _ := false; permissions_error := None; create_error := None; mount_error := None;
              write_error := None; chown_error := None |} in
  let '(ok, d) := Move f "/tmp/a" "/srv/b" None {| files := {[ "/tmp/a" := n ]}; mounts := [] |} in
  ok = true /\ files d !! "/tmp/a" = Some n /\ files d !! "/srv/b" = Some n.
Proof. vm_compute. done. Qed.

(** A tmpfs: what is written there is gone after [Umount], what was there before
    is back. *)
Example tmpfs_discards :
  let n c := {| nd_kind := Regular c; nd_perms := 420; nd_owner := 0 |} in
  let dir := {| nd_kind := Directory; nd_perms := 493; nd_owner := 0 |} in
  let d := {| files := {[ "/box" := dir; "/box/old" := n "1"; "/out" := n "2" ]}; mounts := [] |} in
  let d1 := (MountTmpfs no_faults "/box" 64 d).2 in
  let d2 := WriteFile no_faults "/box/new" "3" d1 in
  let '(ok, d3) := Move no_faults "/box/new" "/out" None d2 in
  let d4 := (Umount no_faults "/box" d3).2 in
  files d1 !! "/box/old" = None /\ same_device d2 "/box/new" "/out" = false /\ ok = true /\
  files d4 !! "/out" = Some (n "3") /\ files d4 !! "/box/new" = None /\ files d4 !! "/box/old" = Some (n "1") /\
  mounts d4 = [].
Proof. vm_compute. repeat split. Qed.
