(* ===== verification/FilesSpec.v ===== *)
(** * What the file operations do and do not touch

    Lemmas on [FileOps]: trees of paths; every operation changes only what is at or
    below its arguments, as long as these are no links; [Move] and [Copy] deliver
    the file; [SpliceProcess] keeps its limit. *)

From S2P Require Import Prelude Text Data FileOps.

(** ** Trees *)

Lemma strip_spec p q r : strip p q = Some r <-> q = p +:+ r.
Proof.
  revert q. induction p as [|c p IH]; intros q; simpl.
  - rewrite string_app_nil_l. split; [by intros [= ->]|by intros ->].
  - destruct q as [|c' q]; [done|]. rewrite string_app_cons. case_bool_decide as Hc.
    + subst. rewrite IH. split; [by intros ->|by intros [= ->]].
    + split; [done|]. intros [= ? _]. congruence.
Qed.

Definition tail_ok (t : string) : Prop := t = "" \/ exists r, t = "/" +:+ r.

Lemma suffix_below_spec p q t : suffix_below p q = Some t <-> q = p +:+ t /\ tail_ok t.
Proof.
  unfold suffix_below, tail_ok. destruct (strip p q) as [r|] eqn:E.
  - apply strip_spec in E. split.
    + destruct r as [|c r]; [by intros [= <-]; auto|]. case_bool_decide as Hc; [|done].
      intros [= <-]. subst. eauto.
    + intros [Eq Ht]. rewrite E in Eq. apply string_app_inj_length in Eq as [_ ->]; [|done].
      by destruct Ht as [->|[r' ->]].
  - split; [done|]. intros [Eq _]. apply strip_spec in Eq. congruence.
Qed.

Lemma below_spec p q : below p q = true <-> exists t, q = p +:+ t /\ tail_ok t.
Proof.
  unfold below. setoid_rewrite <- suffix_below_spec.
  destruct (suffix_below p q); [naive_solver|split; [done|by intros [? ?]]].
Qed.

Lemma below_refl p : below p p = true.
Proof. apply below_spec. exists "". rewrite string_app_nil_r. by split; [|left]. Qed.

Lemma below_trans p q r : below p q = true -> below q r = true -> below p r = true.
Proof.
  rewrite !below_spec. intros (t & -> & Ht) (u & -> & Hu). exists (t +:+ u).
  rewrite string_app_assoc. split; [done|]. destruct Ht as [->|[t' ->]]; [done|].
  right. exists (t' +:+ u). by rewrite string_app_assoc.
Qed.

Lemma tail_ok_prefix t u : tail_ok t -> tail_ok u -> forall p q, p +:+ t = q +:+ u ->
  below p q = true \/ below q p = true.
Proof.
  intros Ht Hu p. induction p as [|c p IH]; intros q E.
  - rewrite string_app_nil_l in E. subst t. destruct q as [|c q]; [left; apply below_refl|].
    left. apply below_spec. exists (String c q). split; [by rewrite string_app_nil_l|].
    destruct Ht as [?|[r Hr]]; [done|]. right. rewrite string_app_cons in Hr. injection Hr as -> _. by exists q.
  - destruct q as [|c' q].
    + rewrite string_app_nil_l in E. subst u. right. apply below_spec. exists (String c p). split; [done|].
      destruct Hu as [?|[r Hr]]; [done|]. right. rewrite string_app_cons in Hr. injection Hr as -> _. by exists p.
    + rewrite !string_app_cons in E. injection E as <- E.
      destruct (IH q E) as [H|H]; apply below_spec in H as (v & -> & Hv);
        [left|right]; apply below_spec; exists v; by rewrite string_app_cons.
Qed.

(** Two trees that share a path are nested. *)
Lemma below_nested p q x : below p x = true -> below q x = true -> below p q = true \/ below q p = true.
Proof.
  intros (t & -> & Ht)%below_spec (u & E & Hu)%below_spec. exact (tail_ok_prefix t u Ht Hu p q E).
Qed.

Lemma transplant_lookup from to fs q :
  transplant from to fs !! q = match suffix_below to q with Some t => fs !! (from +:+ t) | None => None end.
Proof.
  unfold transplant. revert q. apply (map_fold_weak_ind (fun m fs => forall q, m !! q =
    match suffix_below to q with Some t => fs !! (from +:+ t) | None => None end)).
  - intros q. rewrite lookup_empty. by destruct (suffix_below to q).
  - intros p n m r Hp IH q. destruct (suffix_below from p) as [t|] eqn:Et.
    + apply suffix_below_spec in Et as [-> Ht]. destruct (decide (q = to +:+ t)) as [->|Hne].
      * rewrite lookup_insert_eq. rewrite (proj2 (suffix_below_spec to (to +:+ t) t)) by done. by rewrite lookup_insert_eq.
      * rewrite lookup_insert_ne by done. rewrite IH. destruct (suffix_below to q) as [u|] eqn:Eu; [|done].
        apply suffix_below_spec in Eu as [-> _]. rewrite lookup_insert_ne; [done|].
        intros E. apply string_app_inj_length in E as [_ ->]; [done|done].
    + rewrite IH. destruct (suffix_below to q) as [u|] eqn:Eu; [|done].
      apply suffix_below_spec in Eu as [-> Hu]. rewrite lookup_insert_ne; [done|]. intros ->.
      by rewrite (proj2 (suffix_below_spec from (from +:+ u) u)) in Et.
Qed.

Lemma keep_paths_lookup P fs q : keep_paths P fs !! q = if P q then fs !! q else None.
Proof.
  unfold keep_paths. rewrite map_lookup_filter. destruct (fs !! q); simpl; [|by case_match].
  destruct (P q); by case_guard.
Qed.

Lemma subtree_lookup p fs q : subtree p fs !! q = if below p q then fs !! q else None.
Proof. apply keep_paths_lookup. Qed.

Lemma outside_lookup p fs q : outside p fs !! q = if below p q then None else fs !! q.
Proof. unfold outside. rewrite keep_paths_lookup. by destruct (below p q). Qed.

(** ** Links *)

(** The path names no link: a call on it acts there. *)
Definition plain (d : Disk) (p : string) : Prop := forall t, nd_kind <$> files d !! p <> Some (Symlink t).

#[export] Instance plain_dec d p : Decision (plain d p).
Proof.
  unfold plain. destruct (files d !! p) as [[[c| |t] m o]|]; cbn.
  1,2,4: left; intros ?; congruence.
  right. intros Hn. by apply (Hn t).
Defined.

Lemma follow_plain fuel fs p : (forall t, nd_kind <$> fs !! p <> Some (Symlink t)) -> follow fuel fs p = Some p.
Proof.
  intros Hp. destruct fuel; simpl; destruct (fs !! p) as [[[c| |t] m o]|]; try done; by destruct (Hp t).
Qed.

Lemma resolve_plain d p : plain d p -> resolve d p = Some p.
Proof. apply follow_plain. Qed.

Lemma node_at_plain d p : plain d p -> node_at d p = files d !! p.
Proof. intros Hp. unfold node_at. by rewrite resolve_plain. Qed.

Lemma plain_regular d p n c : files d !! p = Some n -> nd_kind n = Regular c -> plain d p.
Proof. intros E K t. rewrite E. simpl. congruence. Qed.

(** ** Regions

    Two disks that differ only inside a region; a region holds whole trees. *)

Record same_outside (R : string -> bool) (d d' : Disk) : Prop := {
  so_files : forall q, R q = false -> files d' !! q = files d !! q;
  so_mounts : filter (fun m => R (mt_path m) = false) (mounts d') = filter (fun m => R (mt_path m) = false) (mounts d);
}.

Definition closed (R : string -> bool) : Prop := forall p q, R p = true -> below p q = true -> R q = true.

Lemma closed_below R p q : closed R -> R p = true -> R q = false -> below p q = false.
Proof. intros Hc Hp Hq. apply not_true_is_false. intros Hb. specialize (Hc p q Hp Hb). congruence. Qed.

#[export] Instance same_outside_preorder R : PreOrder (same_outside R).
Proof.
  split.
  - by intros d.
  - intros d1 d2 d3 [F M] [F' M']. split; [|by rewrite M', M]. intros q Hq. by rewrite F', F.
Qed.

Lemma same_outside_mono R R' d d' : (forall q, R q = true -> R' q = true) -> same_outside R d d' -> same_outside R' d d'.
Proof.
  intros Hi [Hf Hm]. assert (Hn : forall q, R' q = false -> R q = false).
  { intros q Hq. apply not_true_is_false. intros Hr. rewrite (Hi q Hr) in Hq. done. }
  split; [intros q Hq; by apply Hf, Hn|].
  assert (Hx : forall l : list Mount, filter (fun m => R' (mt_path m) = false) l =
    filter (fun m => R' (mt_path m) = false) (filter (fun m => R (mt_path m) = false) l)).
  { intros l. symmetry. apply list_filter_filter_l. intros m. apply Hn. }
  by rewrite (Hx (mounts d')), (Hx (mounts d)), Hm.
Qed.

Lemma same_outside_files R d fs : (forall q, R q = false -> fs !! q = files d !! q) -> same_outside R d (with_files fs d).
Proof. by split. Qed.

Section Local.
Context (f : Faults) (R : string -> bool) (Hc : closed R).

Lemma put_contents_local p c perms d : R p = true -> plain d p -> same_outside R d (put_contents p c perms d).2.
Proof using Hc.
  intros Hp Hl. unfold put_contents. rewrite resolve_plain by done.
  assert (Hi : forall n, same_outside R d (with_files (<[p := n]> (files d)) d)).
  { intros n. apply same_outside_files. intros q Hq. apply lookup_insert_ne. congruence. }
  destruct (files d !! p) as [[[]]|]; simpl; try apply Hi. reflexivity.
Qed.

Lemma change_node_local g p d : R p = true -> plain d p -> same_outside R d (change_node g p d).2.
Proof using Hc.
  intros Hp Hl. unfold change_node. rewrite resolve_plain by done.
  destruct (files d !! p); simpl; [|reflexivity]. apply same_outside_files. intros q Hq.
  apply lookup_insert_ne. congruence.
Qed.

Lemma fs_permissions_local p m d : R p = true -> plain d p -> same_outside R d (fs_permissions f p m d).2.
Proof using Hc. intros. unfold fs_permissions. destruct (permissions_error f); [reflexivity|by apply change_node_local]. Qed.

Lemma sys_chown_local p d : R p = true -> plain d p -> same_outside R d (sys_chown f p d).2.
Proof using Hc. intros. unfold sys_chown. destruct (chown_error f); [reflexivity|by apply change_node_local]. Qed.

Lemma put_contents_plain p c perms d q : plain d p -> plain d q -> plain (put_contents p c perms d).2 q.
Proof.
  intros Hp Hq. unfold put_contents. rewrite resolve_plain by done.
  assert (Hi : forall n, (forall t, nd_kind n <> Symlink t) -> plain (with_files (<[p := n]> (files d)) d) q).
  { intros n Hn t. simpl. destruct (decide (q = p)) as [->|Hne].
    - rewrite lookup_insert_eq. simpl. intros [= E]. by eapply Hn.
    - rewrite lookup_insert_ne by done. apply Hq. }
  destruct (files d !! p) as [[[]]|]; simpl; try (by apply Hi); done.
Qed.

Lemma fs_copy_file_local from to d : R to = true -> plain d to -> same_outside R d (fs_copy_file f from to d).2.
Proof using Hc.
  intros Hp Hl. unfold fs_copy_file. destruct (node_at d from) as [[[c| |t] m o]|]; simpl; try reflexivity.
  pose proof (fun c => put_contents_local to c m d Hp Hl) as Hput.
  destruct (copy_error f) as [e|]; simpl.
  - destruct (copied_before f); [apply Hput|reflexivity].
  - pose proof (put_contents_plain to c m d to Hl Hl) as Hpl. specialize (Hput c).
    destruct (put_contents to c m d) as [[e|] d1]; simpl in *; [done|].
    etrans; [done|]. by apply change_node_local.
Qed.

Lemma fs_rename_local from to d : R from = true -> R to = true -> same_outside R d (fs_rename f from to d).2.
Proof using Hc.
  intros Hf Ht. unfold fs_rename. repeat case_match; simpl; try reflexivity.
  all: apply same_outside_files; intros q Hq.
  all: try (by rewrite lookup_insert_ne, lookup_delete_ne by congruence).
  all: rewrite lookup_union, transplant_lookup, !outside_lookup, !(closed_below R _ q) by done.
  all: assert (E : suffix_below to q = None)
    by (pose proof (closed_below R to q Hc Ht Hq) as Hb; unfold below in Hb; by destruct (suffix_below to q)).
  all: rewrite E; by destruct (files d !! q).
Qed.

Lemma fs_remove_local p d : R p = true -> same_outside R d (fs_remove f p d).2.
Proof using Hc.
  intros Hp. unfold fs_remove. destruct (remove_error f); [reflexivity|]. apply same_outside_files.
  intros q Hq. apply lookup_delete_ne. congruence.
Qed.

Lemma fs_create_directories_local p d : R p = true -> same_outside R d (fs_create_directories f p d).2.
Proof using Hc.
  intros Hp. unfold fs_create_directories. repeat case_match; simpl; try reflexivity.
  all: apply same_outside_files; intros q Hq; apply lookup_insert_ne; congruence.
Qed.

Lemma fs_remove_all_local p d : R p = true -> same_outside R d (fs_remove_all f p d).2.
Proof using Hc.
  intros Hp. unfold fs_remove_all. destruct (remove_error f); simpl; apply same_outside_files; intros q Hq;
    rewrite keep_paths_lookup, (closed_below R p q) by done; done.
Qed.

Lemma sys_mount_local p options d : R p = true -> plain d p -> same_outside R d (sys_mount f p options d).2.
Proof using Hc.
  intros Hp Hl. unfold sys_mount. rewrite resolve_plain by done. repeat case_match; simpl; try reflexivity.
  split; simpl.
  - intros q Hq. rewrite lookup_insert_ne by congruence. by rewrite outside_lookup, (closed_below R p q).
  - rewrite filter_cons_False; [done|]. simpl. congruence.
Qed.

Lemma pop_mount_spec p l m l' : pop_mount p l = Some (m, l') ->
  mt_path m = p /\ exists l1 l2, l = l1 ++ m :: l2 /\ l' = l1 ++ l2.
Proof.
  revert l'. induction l as [|m0 l IH]; intros l'; simpl; [done|]. case_bool_decide as Hm.
  - intros [= -> ->]. split; [done|]. by exists [], l'.
  - destruct (pop_mount p l) as [[m1 l1]|]; [|done]. intros [= -> <-].
    destruct (IH l1 eq_refl) as (? & k1 & k2 & -> & ->). split; [done|]. by exists (m0 :: k1), k2.
Qed.

Lemma sys_umount_local p d : R p = true -> plain d p -> same_outside R d (sys_umount f p d).2.
Proof using Hc.
  intros Hp Hl. unfold sys_umount. rewrite resolve_plain by done. destruct (mount_error f); [reflexivity|].
  destruct (existsb _ _); [reflexivity|]. destruct (pop_mount p (mounts d)) as [[m l]|] eqn:E; [|reflexivity].
  apply pop_mount_spec in E as (Hm & l1 & l2 & El & ->). split; simpl.
  - intros q Hq. rewrite lookup_union, subtree_lookup, outside_lookup, (closed_below R p q) by done.
    by destruct (files d !! q).
  - rewrite El, !filter_app, filter_cons_False by (simpl; congruence). done.
Qed.
End Local.

(** ** The operations stay where they are told to *)

Lemma suffix_below_self p : suffix_below p p = Some "".
Proof. apply suffix_below_spec. rewrite string_app_nil_r. by split; [|left]. Qed.

Lemma fs_rename_target f from to d d' : fs_rename f from to d = (None, d') -> files d' !! to = files d !! from.
Proof.
  intros E. assert (En : exists n, files d !! from = Some n).
  { revert E. unfold fs_rename. destruct (rename_error f), (files d !! from); try done. by eexists. }
  destruct En as [n En]. revert E. unfold fs_rename. rewrite En. destruct (rename_error f); [done|].
  case_bool_decide as Hft; [intros [= <-]; by subst|].
  repeat case_match; intros [= <-]; simpl; try (by rewrite lookup_insert_eq, <- En).
  all: rewrite lookup_union, transplant_lookup, suffix_below_self, string_app_nil_r, En.
  all: by destruct (outside from _ !! to).
Qed.

Lemma change_node_plain g p d q : (forall n, nd_kind (g n) = nd_kind n) -> plain d q -> plain (change_node g p d).2 q.
Proof.
  intros Hg Hq. unfold change_node. destruct (resolve d p) as [r|]; [|done].
  destruct (files d !! r) as [n|] eqn:E; [|done]. intros t. simpl.
  destruct (decide (q = r)) as [->|Hne]; [|rewrite lookup_insert_ne by done; apply Hq].
  rewrite lookup_insert_eq. simpl. rewrite Hg. specialize (Hq t). by rewrite E in Hq.
Qed.

Lemma fs_copy_file_plain f from to d : plain d to -> plain (fs_copy_file f from to d).2 to.
Proof.
  intros Hl. unfold fs_copy_file. destruct (node_at d from) as [[[c| |t] m o]|]; simpl; try done.
  pose proof (fun c => put_contents_plain to c m d to Hl Hl) as Hput.
  destruct (copy_error f); simpl; [destruct (copied_before f); [apply Hput|done]|].
  specialize (Hput c). destruct (put_contents to c m d) as [[e|] d1]; simpl in *; [done|].
  by apply change_node_plain.
Qed.

Section OpsLocal.
Context (f : Faults) (R : string -> bool) (Hc : closed R).

Lemma finish_permissions_local p perms d : R p = true -> (perms <> None -> plain d p) ->
  same_outside R d (finish_permissions f p perms d).2.
Proof using Hc.
  intros Hp Hl. unfold finish_permissions. destruct perms as [m|]; [|reflexivity].
  pose proof (fs_permissions_local f R Hc p m d Hp (Hl ltac:(done))) as Hs.
  by destruct (fs_permissions f p m d) as [[]].
Qed.

Lemma CreateDirs_local p perms d : R p = true -> plain d p -> same_outside R d (CreateDirs f p perms d).2.
Proof using Hc.
  intros Hp Hl. unfold CreateDirs. pose proof (fs_create_directories_local f R Hc p d Hp) as Hs.
  destruct (fs_create_directories f p d) as [[e|] d1] eqn:E; [done|]. etrans; [exact Hs|].
  apply finish_permissions_local; [done|]. intros _ t.
  revert E. unfold fs_create_directories. specialize (Hl t).
    repeat case_match; intros [= <-]; cbn [files with_files]; try exact Hl; rewrite lookup_insert_eq; done.
Qed.

Lemma RemoveAll_local p d : R p = true -> same_outside R d (RemoveAll f p d).2.
Proof using Hc.
  intros Hp. unfold RemoveAll. pose proof (fs_remove_all_local f R Hc p d Hp) as Hs.
  by destruct (fs_remove_all f p d) as [[]].
Qed.

Lemma Move_local from to perms d : R from = true -> R to = true -> plain d to ->
  (perms <> None -> plain d from) -> same_outside R d (Move f from to perms d).2.
Proof using Hc.
  intros Hf Ht Hl Hp. unfold Move. pose proof (fs_rename_local f R Hc from to d Hf Ht) as Hs.
  destruct (fs_rename f from to d) as [[e|] d1] eqn:E.
  - assert (Hd : d1 = d) by (revert E; unfold fs_rename; repeat case_match; congruence). subst d1.
    destruct (negb (e =? EXDEV)); [done|].
    pose proof (fs_copy_file_local f R Hc from to d Ht Hl) as Hs1. pose proof (fs_copy_file_plain f from to d Hl) as Hl1.
    destruct (fs_copy_file f from to d) as [[e1|] d2]; simpl in *; [done|].
    pose proof (fs_remove_local f R Hc from d2 Hf) as Hs2.
    destruct (fs_remove f from d2) as [e2 d3] eqn:E2. simpl in Hs2.
    etrans; [exact Hs1|]. etrans; [exact Hs2|]. apply finish_permissions_local; [done|]. intros _.
    revert E2. unfold fs_remove. destruct (remove_error f); intros [= _ <-]; [done|]. intros t. simpl.
    destruct (decide (from = to)) as [->|]; [by rewrite lookup_delete_eq|by rewrite lookup_delete_ne].
  - etrans; [exact Hs|]. apply finish_permissions_local; [done|]. intros Hn t.
    rewrite (fs_rename_target f from to d d1 E). by apply Hp.
Qed.

Lemma Copy_local from to perms d : R to = true -> plain d to -> same_outside R d (Copy f from to perms d).2.
Proof using Hc.
  intros Ht Hl. unfold Copy. pose proof (fs_copy_file_local f R Hc from to d Ht Hl) as Hs.
  pose proof (fs_copy_file_plain f from to d Hl) as Hl1.
  destruct (fs_copy_file f from to d) as [[e1|] d2]; simpl in *; [done|]. etrans; [exact Hs|].
  by apply finish_permissions_local.
Qed.

Lemma MountTmpfs_local p size d : R p = true -> plain d p -> same_outside R d (MountTmpfs f p size d).2.
Proof using Hc.
  intros Hp Hl. unfold MountTmpfs. pose proof (sys_mount_local f R Hc p ("size=" +:+ to_string size +:+ "k") d Hp Hl) as Hs.
  by destruct (sys_mount f p _ d) as [[]].
Qed.

Lemma Umount_local p d : R p = true -> plain d p -> same_outside R d (Umount f p d).2.
Proof using Hc.
  intros Hp Hl. unfold Umount. pose proof (sys_umount_local f R Hc p d Hp Hl) as Hs. by destruct (sys_umount f p d) as [[]].
Qed.

Lemma WriteFile_local p c d : R p = true -> plain d p -> same_outside R d (WriteFile f p c d).
Proof using Hc. intros. unfold WriteFile. destruct (write_error f); [reflexivity|by apply put_contents_local]. Qed.
End OpsLocal.

(** ** Regions without links

    No operation on paths of a region brings a link into it. *)

Record no_links (R : string -> bool) (d : Disk) : Prop := {
  nl_files : forall q, R q = true -> plain d q;
  nl_hidden : forall m q t, m ∈ mounts d -> R q = true -> nd_kind <$> mt_hidden m !! q <> Some (Symlink t);
}.

Lemma no_links_files R d fs : no_links R d ->
  (forall q n, R q = true -> fs !! q = Some n -> files d !! q = Some n \/ (forall t, nd_kind n <> Symlink t) \/
     exists q', R q' = true /\ nd_kind <$> files d !! q' = Some (nd_kind n)) ->
  no_links R (with_files fs d).
Proof.
  intros [Hf Hm] Hfs. split; [|exact Hm]. intros q Hq t E. simpl in E.
  destruct (fs !! q) as [n|] eqn:En; [|done]. injection E as E.
  destruct (Hfs q n Hq En) as [Ed|[Hn|(q' & Hq' & Ed)]].
  - apply (Hf q Hq t). rewrite Ed. simpl. by rewrite E.
  - by apply (Hn t).
  - apply (Hf q' Hq' t). rewrite Ed. by rewrite E.
Qed.

Section NoLinks.
Context (f : Faults) (R : string -> bool) (Hc : closed R).

Lemma put_contents_no_links p c perms d : R p = true -> no_links R d -> no_links R (put_contents p c perms d).2.
Proof using Type.
  intros Hp Hn. unfold put_contents. rewrite resolve_plain by (by apply Hn).
  assert (Hi : forall n, (forall t, nd_kind n <> Symlink t) -> no_links R (with_files (<[p := n]> (files d)) d)).
  { intros n Hk. apply no_links_files; [done|]. intros q n' _. destruct (decide (q = p)) as [->|Hne].
    - rewrite lookup_insert_eq. intros [= <-]. auto.
    - rewrite lookup_insert_ne by done. auto. }
  destruct (files d !! p) as [[[]]|]; simpl; try done; by apply Hi.
Qed.

Lemma change_node_no_links g p d : (forall n, nd_kind (g n) = nd_kind n) -> R p = true -> no_links R d ->
  no_links R (change_node g p d).2.
Proof using Type.
  intros Hg Hp Hn. unfold change_node. rewrite resolve_plain by (by apply Hn).
  destruct (files d !! p) as [n|] eqn:E; [|done]. apply no_links_files; [done|]. intros q n' _.
  destruct (decide (q = p)) as [->|Hne]; [|rewrite lookup_insert_ne by done; auto].
  rewrite lookup_insert_eq. intros [= <-]. right; right. exists p. split; [done|]. rewrite E. simpl. by rewrite Hg.
Qed.

Lemma fs_permissions_no_links p m d : R p = true -> no_links R d -> no_links R (fs_permissions f p m d).2.
Proof using Type. intros. unfold fs_permissions. destruct (permissions_error f); [done|by apply change_node_no_links]. Qed.

Lemma sys_chown_no_links p d : R p = true -> no_links R d -> no_links R (sys_chown f p d).2.
Proof using Type. intros. unfold sys_chown. destruct (chown_error f); [done|by apply change_node_no_links]. Qed.

Lemma finish_permissions_no_links p perms d : R p = true -> no_links R d -> no_links R (finish_permissions f p perms d).2.
Proof using Type.
  intros Hp Hn. unfold finish_permissions. destruct perms as [m|]; [|done].
  pose proof (fs_permissions_no_links p m d Hp Hn). by destruct (fs_permissions f p m d) as [[]].
Qed.

Lemma fs_copy_file_no_links from to d : R to = true -> no_links R d -> no_links R (fs_copy_file f from to d).2.
Proof using Type.
  intros Hp Hn. unfold fs_copy_file. destruct (node_at d from) as [[[c| |t] m o]|]; simpl; try done.
  pose proof (fun c => put_contents_no_links to c m d Hp Hn) as Hput.
  destruct (copy_error f) as [e|]; simpl; [by destruct (copied_before f); simpl|].
  specialize (Hput c). destruct (put_contents to c m d) as [[e|] d1]; [done|]. by apply change_node_no_links.
Qed.

Lemma fs_rename_no_links from to d : R from = true -> R to = true -> no_links R d -> no_links R (fs_rename f from to d).2.
Proof using Hc.
  intros Hf Ht Hn. unfold fs_rename. repeat case_match; simpl; try done.
  all: apply no_links_files; [done|]; intros q x Hq.
  all: try (rewrite lookup_insert_Some, lookup_delete_Some; intros [[? <-]|[_ [_ E]]]; [|by left]; right; right; exists from;
    split; [done|by simplify_option_eq]).
  all: rewrite lookup_union_Some_raw, transplant_lookup, !outside_lookup.
  all: intros [E|[_ E]]; [|left; repeat case_match; done].
  all: destruct (suffix_below to q) as [t|] eqn:Es; [|done]; apply suffix_below_spec in Es as [-> Htl].
  all: right; right; exists (from +:+ t); rewrite E; split; [|done].
  all: apply (Hc from); [done|]; apply below_spec; eauto.
Qed.

Lemma fs_remove_no_links p d : no_links R d -> no_links R (fs_remove f p d).2.
Proof using Type.
  intros Hn. unfold fs_remove. destruct (remove_error f); [done|]. apply no_links_files; [done|].
  intros q n _ [_ E]%lookup_delete_Some. auto.
Qed.

Lemma fs_create_directories_no_links p d : no_links R d -> no_links R (fs_create_directories f p d).2.
Proof using Type.
  intros Hn. unfold fs_create_directories. repeat case_match; simpl; try done.
  all: apply no_links_files; [done|]; intros q x _ E; destruct (decide (q = p)) as [->|Hne];
    [rewrite lookup_insert_eq in E; injection E as <-; by right; left|rewrite lookup_insert_ne in E by done; auto].
Qed.

Lemma fs_remove_all_no_links p d : no_links R d -> no_links R (fs_remove_all f p d).2.
Proof using Type.
  intros Hn. unfold fs_remove_all. destruct (remove_error f); simpl; apply no_links_files; try done.
  all: intros q n _; rewrite keep_paths_lookup; case_match; auto; done.
Qed.

Lemma sys_mount_no_links p options d : R p = true -> no_links R d -> no_links R (sys_mount f p options d).2.
Proof using Type.
  intros Hp Hn. unfold sys_mount. rewrite resolve_plain by (by apply Hn). destruct (mount_error f); [done|].
  destruct (files d !! p) as [[[] m o]|]; simpl; try done. destruct Hn as [Hf Hm]. split; simpl.
  - intros q Hq t. simpl. destruct (decide (q = p)) as [->|Hne]; [by rewrite lookup_insert_eq|].
    rewrite lookup_insert_ne, outside_lookup by done. destruct (below p q); [done|]. by apply Hf.
  - intros mt q t [->|Hin]%elem_of_cons Hq; [|by eapply Hm]. simpl. rewrite subtree_lookup.
    destruct (below p q); [|done]. by apply Hf.
Qed.

Lemma sys_umount_no_links p d : R p = true -> no_links R d -> no_links R (sys_umount f p d).2.
Proof using Type.
  clear Hc. intros Hp Hn. unfold sys_umount. rewrite resolve_plain by (by apply Hn). destruct (mount_error f); [done|].
  destruct (existsb _ _); [done|]. destruct (pop_mount p (mounts d)) as [[m l]|] eqn:E; [|done].
  apply pop_mount_spec in E as (_ & l1 & l2 & El & ->). destruct Hn as [Hf Hm]. split; simpl.
  - intros q Hq t. simpl. intros Ek. destruct ((subtree p (mt_hidden m) ∪ outside p (files d)) !! q) as [n|] eqn:Eq; [|done].
    apply lookup_union_Some_raw in Eq as [Eq|[_ Eq]].
    + rewrite subtree_lookup in Eq. destruct (below p q); [|done]. apply (Hm m q t); [rewrite El; set_solver|done|].
      rewrite Eq. exact Ek.
    + rewrite outside_lookup in Eq. destruct (below p q); [done|]. apply (Hf q Hq t). by rewrite Eq.
  - intros mt q t Hin. apply Hm. rewrite El. set_solver.
Qed.
End NoLinks.

(** ** What the operations achieve *)

(** A place a file can be put: nothing there, or another file. *)
Definition free (d : Disk) (p : string) : Prop := forall n, files d !! p = Some n -> exists c, nd_kind n = Regular c.

Lemma free_plain d p : free d p -> plain d p.
Proof.
  intros Hf t E. destruct (files d !! p) as [n|] eqn:En; [|done]. destruct (Hf n En) as [c Hc].
  simpl in E. congruence.
Qed.

(** Neither path is at or below the other. *)
Definition apart (p q : string) : Prop := below p q = false /\ below q p = false.

Lemma apart_sym p q : apart p q -> apart q p.
Proof. intros [? ?]. by split. Qed.

Lemma apart_ne p q : apart p q -> p <> q.
Proof. intros [Hb _] ->. by rewrite below_refl in Hb. Qed.

Definition no_mount (d : Disk) (p : string) : Prop := forall m, m ∈ mounts d -> below p (mt_path m) = false.

Definition with_perms (perms : option Z) (n : Node) : Node := set_perms (default (nd_perms n) perms) n.

Lemma finish_permissions_spec f p perms d n : files d !! p = Some n -> plain d p ->
  exists ok : bool, finish_permissions f p perms d = (ok, if ok then with_files (<[p := with_perms perms n]> (files d)) d else d) /\
    (permissions_error f = None -> ok = true).
Proof.
  intros E Hp. destruct d as [fs ms]. unfold finish_permissions, with_perms. destruct perms as [m|]; simpl in *.
  - unfold fs_permissions, change_node. rewrite resolve_plain by done. simpl. rewrite E.
    destruct (permissions_error f); [by exists false|by exists true].
  - exists true. split; [|done]. unfold with_files. simpl. f_equal. f_equal. rewrite insert_id; [done|]. rewrite E. by destruct n.
Qed.

Lemma rename_regular f from to d n c : files d !! from = Some n -> nd_kind n = Regular c ->
  free d to -> apart from to -> no_mount d from -> no_mount d to -> rename_error f = None -> same_device d from to = true ->
  fs_rename f from to d = (None, with_files (<[to := n]> (delete from (files d))) d).
Proof.
  intros E K Hf Ha Hmf Hmt Hr Hs. unfold fs_rename. rewrite Hr, E, (bool_decide_false _ (apart_ne _ _ Ha)).
  replace (existsb _ _) with false.
  2:{ symmetry. apply not_true_iff_false. rewrite existsb_exists. intros (m & Hm & Hx). apply list_elem_of_In in Hm.
      rewrite (Hmf m Hm) in Hx. simpl in Hx. apply bool_decide_eq_true in Hx. specialize (Hmt m Hm).
      by rewrite Hx, below_refl in Hmt. }
  destruct Ha as [-> ->]. rewrite Hs, K. simpl.
  destruct (files d !! to) as [n'|] eqn:E'; [|done]. simpl. by destruct (Hf n' E') as [c' ->].
Qed.

Lemma copy_regular f from to d n c : node_at d from = Some n -> nd_kind n = Regular c -> free d to -> copy_error f = None ->
  exists owner, (files d !! to = None -> owner = 0) /\
  fs_copy_file f from to d =
  (None, with_files (<[to := {| nd_kind := Regular c; nd_perms := nd_perms n; nd_owner := owner |}]> (files d)) d).
Proof.
  intros E K Hf Hc. unfold fs_copy_file. rewrite E, K, Hc. unfold put_contents.
  rewrite resolve_plain by (by apply free_plain).
  assert (Hset : forall o m, change_node (set_perms (nd_perms n)) to
    (with_files (<[to := {| nd_kind := Regular c; nd_perms := m; nd_owner := o |}]> (files d)) d) =
    (None, with_files (<[to := {| nd_kind := Regular c; nd_perms := nd_perms n; nd_owner := o |}]> (files d)) d)).
  { intros o m. unfold change_node. rewrite resolve_plain.
    - simpl. rewrite lookup_insert_eq. by rewrite insert_insert_eq.
    - intros t. simpl. by rewrite lookup_insert_eq. }
  destruct (files d !! to) as [n'|] eqn:E'.
  - destruct (Hf n' E') as [c' Hk]. exists (nd_owner n'). split; [done|].
    destruct n' as [k m o]. simpl in Hk. subst k. simpl. apply Hset.
  - exists 0. split; [done|]. apply Hset.
Qed.

(** [Copy] of a file with no failing call. *)
Lemma Copy_spec f from to perms d n c : node_at d from = Some n -> nd_kind n = Regular c -> free d to ->
  copy_error f = None -> permissions_error f = None ->
  exists owner, (files d !! to = None -> owner = 0) /\
  Copy f from to perms d = (true, with_files (<[to :=
    {| nd_kind := Regular c; nd_perms := default (nd_perms n) perms; nd_owner := owner |}]> (files d)) d).
Proof.
  intros E K Hf Hc Hp. destruct (copy_regular f from to d n c E K Hf Hc) as (o & Ho & Ec). exists o. split; [done|].
  unfold Copy. rewrite Ec. set (d1 := with_files _ d).
  destruct (finish_permissions_spec f to perms d1 {| nd_kind := Regular c; nd_perms := nd_perms n; nd_owner := o |}) as (ok & -> & Hok).
  - apply lookup_insert_eq.
  - intros t. simpl. by rewrite lookup_insert_eq.
  - rewrite (Hok Hp). f_equal. unfold d1, with_files. simpl. by rewrite insert_insert_eq.
Qed.

Ltac move_cases :=
  match goal with ok : bool |- _ => destruct ok; simpl; split_and! end; try done; try (by auto);
  try (intros _; eexists; split; [apply lookup_insert_eq|done]);
  try (intros _; right; eexists; by split);
  try (let q := fresh in let H1 := fresh in let H2 := fresh in
       intros q H1 H2; rewrite ?lookup_insert_ne by (intros ?; subst; by rewrite below_refl in * ); by auto);
  try (intros _ ?; rewrite lookup_insert_ne by done; by auto).

(** [Move] of a file, on one device or to another, whatever fails.  Where it
    succeeds the file is at its destination; where it fails the file is at one of the
    two places. *)
Lemma Move_spec f from to perms d n c : files d !! from = Some n -> nd_kind n = Regular c ->
  free d to -> apart from to -> no_mount d from -> no_mount d to ->
  let '(ok, d') := Move f from to perms d in
  (ok = true -> exists n', files d' !! to = Some n' /\ nd_kind n' = Regular c /\
     nd_perms n' = default (nd_perms n) perms) /\
  (ok = false -> files d' !! from = Some n \/ exists n', files d' !! to = Some n' /\ nd_kind n' = Regular c) /\
  (ok = true -> remove_error f = None -> files d' !! from = None) /\
  (rename_error f = None -> copy_error f = None -> permissions_error f = None -> ok = true) /\
  (forall q, below from q = false -> below to q = false -> files d' !! q = files d !! q) /\ mounts d' = mounts d.
Proof.
  intros E K Hf Ha Hmf Hmt. pose proof (apart_ne _ _ Ha) as Hne.
  assert (Hother : forall q p, below p q = false -> q <> p) by (intros q p Hb ->; by rewrite below_refl in Hb).
  unfold Move. destruct (fs_rename f from to d) as [[e|] d1] eqn:Er.
  - assert (Hd : d1 = d) by (revert Er; unfold fs_rename; repeat case_match; congruence). subst d1.
    assert (Hx : rename_error f = None -> e = EXDEV).
    { intros Hr. revert Er. destruct (same_device d from to) eqn:Es.
      - by rewrite (rename_regular f from to d n c) by done.
      - unfold fs_rename. rewrite Hr, E, (bool_decide_false _ Hne), Es. simpl. case_match; [|by intros [= <-]].
        exfalso. apply existsb_exists in H as (m & Hm & Hx). apply list_elem_of_In in Hm.
        rewrite (Hmf m Hm) in Hx. simpl in Hx. apply bool_decide_eq_true in Hx. specialize (Hmt m Hm).
        by rewrite Hx, below_refl in Hmt. }
    destruct (Z.eqb_spec e EXDEV) as [->|Hn]; simpl; [|split_and!; [done|by left|done|intros Hr; by destruct Hn, Hx|done..]].
    destruct (copy_error f) as [ce|] eqn:Ece.
    { unfold fs_copy_file. rewrite (node_at_plain d from) by (by eapply plain_regular). rewrite E, K, Ece. simpl.
      assert (Hput : forall b q, q <> to -> files (put_contents to b (nd_perms n) d).2 !! q = files d !! q).
      { intros b q Hq. unfold put_contents. rewrite resolve_plain by (by apply free_plain).
        destruct (files d !! to) as [[[]]|]; simpl; rewrite ?lookup_insert_ne by done; done. }
      assert (Hmo : forall b, mounts (put_contents to b (nd_perms n) d).2 = mounts d).
      { intros b. unfold put_contents. rewrite resolve_plain by (by apply free_plain). by destruct (files d !! to) as [[[]]|]. }
      destruct (copied_before f) as [b|]; split_and!; try done; try (by left); try congruence.
      all: first [apply Hmo | intros _; left; by rewrite Hput | intros q _ ?; by apply Hput, Hother]. }
    destruct (copy_regular f from to d n c) as (o & _ & ->); [by rewrite node_at_plain by (by eapply plain_regular)|done..|].
    set (n1 := {| nd_kind := Regular c; nd_perms := nd_perms n; nd_owner := o |}).
    set (d2 := with_files (<[to := n1]> (files d)) d).
    destruct (fs_remove f from d2) as [e2 d3] eqn:E3.
    assert (H3 : d3 = d2 \/ d3 = with_files (delete from (files d2)) d2).
    { revert E3. unfold fs_remove. destruct (remove_error f); intros [= _ <-]; auto. }
    assert (Hgone : remove_error f = None -> files d3 !! from = None).
    { revert E3. unfold fs_remove. intros E3 Hre. rewrite Hre in E3. injection E3 as _ <-. apply lookup_delete_eq. }
    assert (Hto : files d3 !! to = Some n1).
    { destruct H3 as [->| ->]; simpl; rewrite ?lookup_delete_ne by done; apply lookup_insert_eq. }
    assert (Hoth : forall q, below from q = false -> below to q = false -> files d3 !! q = files d !! q).
    { intros q ?%Hother ?%Hother. destruct H3 as [->| ->]; simpl; rewrite ?lookup_delete_ne, ?lookup_insert_ne by done; done. }
    assert (Hm3 : mounts d3 = mounts d) by (by destruct H3 as [->| ->]).
    destruct (finish_permissions_spec f to perms d3 n1 Hto ltac:(by eapply plain_regular)) as (ok & -> & Hok).
    move_cases.
  - assert (Hd1 : d1 = with_files (<[to := n]> (delete from (files d))) d).
    { revert Er. unfold fs_rename. rewrite E, (bool_decide_false _ Hne), K. repeat case_match; congruence. }
    assert (Hto : files d1 !! to = Some n) by (by rewrite (fs_rename_target f from to d d1 Er)).
    assert (Hgone : files d1 !! from = None) by (by rewrite Hd1; simpl; rewrite lookup_insert_ne, lookup_delete_eq).
    assert (Hoth : forall q, below from q = false -> below to q = false -> files d1 !! q = files d !! q).
    { intros q ?%Hother ?%Hother. rewrite Hd1. simpl. by rewrite lookup_insert_ne, lookup_delete_ne. }
    destruct (finish_permissions_spec f to perms d1 n Hto ltac:(by eapply plain_regular)) as (ok & -> & Hok).
    move_cases. all: by rewrite Hd1.
Qed.

(** ** Mounts *)

(** Operations other than mounting leave the mounts. *)
Lemma put_contents_mounts p c m d : mounts (put_contents p c m d).2 = mounts d.
Proof. unfold put_contents. by repeat case_match. Qed.

Lemma change_node_mounts g p d : mounts (change_node g p d).2 = mounts d.
Proof. unfold change_node. by repeat case_match. Qed.

Lemma fs_permissions_mounts f p m d : mounts (fs_permissions f p m d).2 = mounts d.
Proof. unfold fs_permissions. case_match; [done|apply change_node_mounts]. Qed.

Lemma finish_permissions_mounts f p m d : mounts (finish_permissions f p m d).2 = mounts d.
Proof.
  unfold finish_permissions. destruct m as [m|]; [|done]. pose proof (fs_permissions_mounts f p m d).
  by destruct (fs_permissions f p m d) as [[]].
Qed.

Lemma fs_copy_file_mounts f from to d : mounts (fs_copy_file f from to d).2 = mounts d.
Proof.
  unfold fs_copy_file. destruct (node_at d from) as [[[c| |t] m o]|]; simpl; try done.
  destruct (copy_error f); simpl; [destruct (copied_before f); [apply put_contents_mounts|done]|].
  pose proof (put_contents_mounts to c m d). destruct (put_contents to c m d) as [[]]; [done|].
  by rewrite change_node_mounts.
Qed.

Lemma Copy_mounts f from to m d : mounts (Copy f from to m d).2 = mounts d.
Proof.
  unfold Copy. pose proof (fs_copy_file_mounts f from to d). destruct (fs_copy_file f from to d) as [[]]; [done|].
  by rewrite finish_permissions_mounts.
Qed.

Lemma CreateDirs_mounts f p m d : mounts (CreateDirs f p m d).2 = mounts d.
Proof.
  unfold CreateDirs. assert (mounts (fs_create_directories f p d).2 = mounts d)
    by (unfold fs_create_directories; by repeat case_match).
  destruct (fs_create_directories f p d) as [[]]; [done|]. by rewrite finish_permissions_mounts.
Qed.

Lemma fs_rename_mounts f from to d : mounts (fs_rename f from to d).2 = mounts d.
Proof. unfold fs_rename. by repeat case_match. Qed.

Lemma Move_mounts f from to perms d : mounts (Move f from to perms d).2 = mounts d.
Proof.
  unfold Move. pose proof (fs_rename_mounts f from to d) as H1. destruct (fs_rename f from to d) as [[e|] d1]; simpl in H1.
  - destruct (negb _); [done|]. pose proof (fs_copy_file_mounts f from to d1) as H2.
    destruct (fs_copy_file f from to d1) as [[]]; [by rewrite <- H1|]. simpl in H2.
    assert (H3 : mounts (fs_remove f from d0).2 = mounts d0) by (unfold fs_remove; by case_match).
    destruct (fs_remove f from d0) as [e2 d3]. simpl in H3. rewrite finish_permissions_mounts. congruence.
  - by rewrite finish_permissions_mounts.
Qed.

Lemma RemoveAll_mounts f p d : mounts (RemoveAll f p d).2 = mounts d.
Proof. unfold RemoveAll, fs_remove_all. by repeat case_match; simplify_eq/=. Qed.

(** Unmounting only removes mounts, mounting adds one, at its argument. *)
Lemma Umount_mounts f p d m : m ∈ mounts (Umount f p d).2 -> m ∈ mounts d.
Proof.
  unfold Umount, sys_umount. destruct (mount_error f); [done|]. destruct (resolve d p) as [q|]; [|done].
  destruct (existsb _ _); [done|]. destruct (pop_mount q (mounts d)) as [[m' l]|] eqn:Ep; [|done].
  apply pop_mount_spec in Ep as (_ & l1 & l2 & -> & ->). simpl. set_solver.
Qed.

Lemma MountTmpfs_mounts f p size d m : plain d p -> m ∈ mounts (MountTmpfs f p size d).2 -> m ∈ mounts d \/ mt_path m = p.
Proof.
  intros Hp. unfold MountTmpfs, sys_mount. rewrite resolve_plain by done. destruct (mount_error f); [by left|].
  destruct (files d !! p) as [[[] ? ?]|]; simpl; try (by left). intros [->|Hm]%elem_of_cons; [by right|by left].
Qed.

(** ** SpliceProcess *)

Lemma split_at_spec n s a b : split_at n s = (a, b) -> s = a +:+ b /\ (String.length a <= n)%nat /\
  (String.length a = Nat.min n (String.length s)).
Proof.
  revert s a b. induction n as [|n IH]; intros s a b; [by intros [= <- <-]; destruct s|].
  destruct s as [|c s]; simpl; [by intros [= <- <-]; split_and!; [|simpl; lia|simpl; lia]|].
  destruct (split_at n s) as [a' b'] eqn:E. intros [= <- <-]. destruct (IH _ _ _ E) as (-> & ? & ?).
  split; [done|]. simpl. split; [lia|]. f_equal. done.
Qed.

(** The output limit of the strict mode: whatever the calls of [splice] do, what
    arrives is the beginning of what was sent and at most [max_size] bytes; and when
    every call moves all it is asked for, it is all of that. *)
Theorem splice_limited calls max_size src : 0 <= max_size ->
  let sent := splice_loop calls max_size src in
  (exists rest, src = sent +:+ rest) /\ Z.of_nat (String.length sent) <= max_size /\
  (Forall (fun r => 65536 <= r) calls -> Z.of_nat (String.length src) <= 65536 * Z.of_nat (length calls) ->
   Z.of_nat (String.length sent) = Z.min max_size (Z.of_nat (String.length src))).
Proof.
  cbv zeta. revert max_size src. induction calls as [|r calls IH]; intros max_size src Hm; cbn [splice_loop].
  { destruct (Z.eqb_spec max_size 0); cbn [String.length length];
      (split_and!; [by exists src|simpl; lia|intros _ Hl; simpl in *; lia]). }
  destruct (Z.eqb_spec max_size 0) as [->|Hn]; [split_and!; [by exists src|done|intros _ _; cbn [String.length]; lia]|].
  destruct (split_at _ src) as [now rest] eqn:E. apply split_at_spec in E as (-> & Hle & Hlen).
  rewrite string_length_app in Hlen.
  destruct (Nat.eqb_spec (String.length now) 0) as [H0|H0].
  { split_and!; [by exists (now +:+ rest)|simpl; lia|]. intros [Hr _]%Forall_cons _. rewrite string_length_app. simpl. lia. }
  destruct (IH (max_size - Z.of_nat (String.length now)) rest) as ((u & Eu) & Hb & Hf); [lia|].
  rewrite !string_length_app. split_and!.
  - exists u. by rewrite string_app_assoc, <- Eu.
  - lia.
  - intros [Hr Hrs]%Forall_cons Hl. cbn [length] in Hl. destruct (decide (rest = "")) as [->|Hne].
    + simpl in *. replace (String.length (splice_loop calls (max_size - Z.of_nat (String.length now)) "")) with 0%nat;
        [lia|]. apply (f_equal String.length) in Eu. rewrite string_length_app in Eu. simpl in Eu. lia.
    + assert (0 < String.length rest)%nat by (destruct rest; [done|simpl; lia]).
      destruct (decide (max_size = Z.of_nat (String.length now))) as [->|Hmax].
      * rewrite Z.sub_diag. destruct calls; simpl; lia.
      * rewrite Nat2Z.inj_add, Hf by (done || lia). lia.
Qed.
