(* ===== verification/TaskGraph.v ===== *)
(** * The task graph

    [TaskEntry], [task_list], [task_queue] and the helpers InsertTaskList,
    Link and Remove of src/tioj/submission.cpp: a dependency graph whose ready
    tasks sit in a priority queue. *)

From S2P Require Import Prelude Enums Data.

Record TaskEntry := {
  te_id : Z;
  te_submission_internal_id : Z;
  te_task : Task;
  te_priority : Z;
  te_task_order : Z;
  te_indeg : Z;
  te_edges : list Z;
}.

#[export] Instance TaskEntry_eq_dec : EqDecision TaskEntry.
Proof. solve_decision. Defined.

(** [TaskEntry::operator<]: lexicographic on (priority, -submission, -order). *)
Definition task_lt (a x : TaskEntry) : bool :=
  (te_priority a <? te_priority x) ||
  ((te_priority a =? te_priority x) &&
   ((- te_submission_internal_id a <? - te_submission_internal_id x) ||
    ((- te_submission_internal_id a =? - te_submission_internal_id x) &&
     (- te_task_order a <? - te_task_order x)))).

Record TaskGraph := {
  task_list : gmap Z TaskEntry;
  task_queue : list Z;       (* the contents of the priority queue, unordered *)
}.

(** [PriorityCompare]; both keys are in [task_list] (see [ready_ok]). *)
Definition PriorityCompare (tl : gmap Z TaskEntry) (a b : Z) : bool :=
  match tl !! a, tl !! b with
  | Some ea, Some eb => task_lt ea eb
  | _, _ => false
  end.

(** [task_queue.top()]: [std::priority_queue] promises an element no other
    compares greater than; which of several is not specified. *)
Definition is_top (g : TaskGraph) (t : Z) : Prop :=
  t ∈ task_queue g /\ forall u, u ∈ task_queue g -> PriorityCompare (task_list g) t u = false.

(** One such choice. *)
Fixpoint best (tl : gmap Z TaskEntry) (t : Z) (q : list Z) : Z :=
  match q with
  | [] => t
  | u :: q' => best tl (if PriorityCompare tl t u then u else t) q'
  end.
Definition queue_top (g : TaskGraph) : option Z :=
  match task_queue g with [] => None | t :: q => Some (best (task_list g) t q) end.

(** [task_queue.pop()] of the element [t]. *)
Fixpoint remove_one (t : Z) (q : list Z) : list Z :=
  match q with
  | [] => []
  | u :: q' => if bool_decide (u = t) then q' else u :: remove_one t q'
  end.

Definition with_indeg (d : Z) (e : TaskEntry) : TaskEntry := {|
  te_id := te_id e; te_submission_internal_id := te_submission_internal_id e;
  te_task := te_task e; te_priority := te_priority e; te_task_order := te_task_order e;
  te_indeg := d; te_edges := te_edges e |}.
Definition with_edges (es : list Z) (e : TaskEntry) : TaskEntry := {|
  te_id := te_id e; te_submission_internal_id := te_submission_internal_id e;
  te_task := te_task e; te_priority := te_priority e; te_task_order := te_task_order e;
  te_indeg := te_indeg e; te_edges := es |}.

(** [unordered_map::insert] keeps an entry that is already there. *)
Definition InsertTaskList (task : TaskEntry) (g : TaskGraph) : TaskGraph :=
  let tid := te_id task in
  let indeg := te_indeg task in
  {| task_list := match task_list g !! tid with
                  | Some _ => task_list g
                  | None => <[tid := task]> (task_list g)
                  end;
     task_queue := if indeg =? 0 then tid :: task_queue g else task_queue g |}.

(** The loop of [Remove] over the successors. *)
Fixpoint remove_edges (edges : list Z) (g : TaskGraph) : outcome TaskGraph :=
  match edges with
  | [] => Done g
  | nxt :: edges' =>
      match task_list g !! nxt with
      | None => Crash NoSuchKey
      | Some nxt_task =>
          let indeg := te_indeg nxt_task - 1 in
          remove_edges edges'
            {| task_list := <[nxt := with_indeg indeg nxt_task]> (task_list g);
               task_queue := if indeg =? 0 then nxt :: task_queue g else task_queue g |}
      end
  end.

Definition Remove (task : TaskEntry) (g : TaskGraph) : outcome TaskGraph :=
  match remove_edges (te_edges task) g with
  | Done g' => Done {| task_list := delete (te_id task) (task_list g');
                       task_queue := task_queue g' |}
  | Crash f => Crash f
  end.

(** ** Counting incoming edges *)

Definition count (u : Z) (l : list Z) : Z := Z.of_nat (length (filter (u =.) l)).

Definition edge_sum (u : Z) (m : gmap Z (list Z)) : Z :=
  map_fold (fun _ es acc => count u es + acc) 0 m.

Definition in_count (u : Z) (tl : gmap Z TaskEntry) : Z := edge_sum u (te_edges <$> tl).

Lemma count_nil u : count u [] = 0.
Proof. done. Qed.

Lemma count_cons u v l : count u (v :: l) = (if bool_decide (u = v) then 1 else 0) + count u l.
Proof. unfold count. rewrite filter_cons. case_decide; case_bool_decide; simpl; lia || done. Qed.

Lemma count_app u l k : count u (l ++ k) = count u l + count u k.
Proof. unfold count. rewrite filter_app, length_app. lia. Qed.

Lemma count_nonneg u l : 0 <= count u l.
Proof. unfold count. lia. Qed.

Lemma count_pos u l : 0 < count u l <-> u ∈ l.
Proof.
  induction l as [|v l IH]; [rewrite count_nil; set_solver by lia|].
  rewrite count_cons, elem_of_cons, <- IH. pose proof (count_nonneg u l).
  case_bool_decide; subst; split; try lia; intros [?|?]; try done; lia.
Qed.

Lemma count_zero u l : count u l = 0 <-> u ∉ l.
Proof. rewrite <- count_pos. pose proof (count_nonneg u l). lia. Qed.

Lemma edge_sum_empty u : edge_sum u ∅ = 0.
Proof. apply map_fold_empty. Qed.

Lemma edge_sum_insert u k es m :
  m !! k = None -> edge_sum u (<[k := es]> m) = count u es + edge_sum u m.
Proof. intros Hk. unfold edge_sum. rewrite map_fold_insert_L; [done|intros; lia|done]. Qed.

Lemma edge_sum_delete u k es m :
  m !! k = Some es -> edge_sum u m = count u es + edge_sum u (delete k m).
Proof.
  intros Hk. rewrite <- (insert_delete_id m k es) at 1 by done.
  by rewrite edge_sum_insert by apply lookup_delete_eq.
Qed.

Lemma edge_sum_nonneg u m : 0 <= edge_sum u m.
Proof.
  induction m as [|k es m Hk IH] using map_ind; [by rewrite edge_sum_empty|].
  rewrite edge_sum_insert by done. pose proof (count_nonneg u es). lia.
Qed.

Lemma edge_sum_union u m1 m2 : m1 ##ₘ m2 -> edge_sum u (m1 ∪ m2) = edge_sum u m1 + edge_sum u m2.
Proof.
  induction m1 as [|k es m Hk IH] using map_ind; intros Hd.
  - rewrite (left_id_L ∅ (∪)), edge_sum_empty. lia.
  - apply map_disjoint_insert_l in Hd as [Hk2 Hd].
    rewrite <- insert_union_l, !edge_sum_insert, IH; try done; [lia|].
    by apply lookup_union_None.
Qed.

Lemma edge_sum_zero u m : (forall k es, m !! k = Some es -> u ∉ es) -> edge_sum u m = 0.
Proof.
  induction m as [|k es m Hk IH] using map_ind; intros Hz; [by rewrite edge_sum_empty|].
  rewrite edge_sum_insert, IH by
    (done || (intros k' es' Hl; apply (Hz k'); rewrite lookup_insert_ne; [done|congruence])).
  rewrite (proj2 (count_zero u es)); [lia|]. apply (Hz k). apply lookup_insert_eq.
Qed.

Lemma edge_sum_pos u m : 0 < edge_sum u m -> exists k es, m !! k = Some es /\ u ∈ es.
Proof.
  induction m as [|k es m Hk IH] using map_ind; [by rewrite edge_sum_empty|].
  rewrite edge_sum_insert by done. intros Hp. pose proof (count_nonneg u es).
  destruct (decide (0 < count u es)) as [Hc|Hc].
  - exists k, es. rewrite lookup_insert_eq. by rewrite <- count_pos.
  - destruct IH as (k' & es' & Hk' & He); [lia|]. exists k', es'.
    rewrite lookup_insert_ne; [done|congruence].
Qed.

Lemma in_count_ge u t e tl : tl !! t = Some e -> count u (te_edges e) <= in_count u tl.
Proof.
  intros Ht. unfold in_count. rewrite (edge_sum_delete u t (te_edges e)).
  - pose proof (edge_sum_nonneg u (delete t (te_edges <$> tl))). lia.
  - by rewrite lookup_fmap, Ht.
Qed.

Lemma in_count_pos u tl : 0 < in_count u tl -> exists t e, tl !! t = Some e /\ u ∈ te_edges e.
Proof.
  intros (k & es & Hl & Hu)%edge_sum_pos.
  rewrite lookup_fmap in Hl. apply fmap_Some in Hl as (e & He & ->). eauto.
Qed.

(** ** The invariant of the graph *)

(** Dependencies follow the stages of a submission: every edge leads to a
    task of larger rank. *)
Definition rank (t : Task) : Z :=
  match tk_type t with
  | COMPILE => 0
  | EXECUTE => 2 * tk_stage t + 1
  | SCORING => 2 * tk_stage t + 2
  | SUMMARY => 1000
  end.

Record graph_ok (tl : gmap Z TaskEntry) : Prop := {
  go_id : forall t e, tl !! t = Some e -> te_id e = t;
  go_edges : forall t e u, tl !! t = Some e -> u ∈ te_edges e ->
    exists e', tl !! u = Some e' /\ rank (te_task e) < rank (te_task e') /\
      te_submission_internal_id e' = te_submission_internal_id e;
  go_indeg : forall t e, tl !! t = Some e -> te_indeg e = in_count t tl;
}.

(** The tasks without pending dependencies are exactly those queued or
    running, each once. *)
Record ready_ok (g : TaskGraph) (running : list Z) : Prop := {
  ro_nodup : NoDup (task_queue g ++ running);
  ro_ready : forall t, t ∈ task_queue g ++ running <->
    exists e, task_list g !! t = Some e /\ te_indeg e = 0;
}.

Lemma remove_edges_spec edges g :
  (forall u, u ∈ edges -> exists e, task_list g !! u = Some e /\ count u edges <= te_indeg e) ->
  (forall u, u ∈ edges -> u ∉ task_queue g) ->
  NoDup (task_queue g) ->
  exists g', remove_edges edges g = Done g' /\
    (forall u, task_list g' !! u =
       (fun e => with_indeg (te_indeg e - count u edges) e) <$> task_list g !! u) /\
    NoDup (task_queue g') /\
    (forall u, u ∈ task_queue g' <->
       u ∈ task_queue g \/ (u ∈ edges /\ exists e, task_list g !! u = Some e /\ te_indeg e = count u edges)).
Proof.
  revert g. induction edges as [|nxt edges IH]; intros g Hin Hq Hnd.
  - exists g. split; [done|]. split.
    + intros u. destruct (task_list g !! u) as [[]|]; [|done]. simpl. rewrite count_nil, Z.sub_0_r. done.
    + split; [done|]. set_solver.
  - destruct (Hin nxt) as (e & He & Hc); [set_solver|].
    pose proof (count_nonneg nxt edges) as Hcn.
    rewrite count_cons, bool_decide_true in Hc by done. simpl. rewrite He.
    set (g1 := {| task_list := _; task_queue := _ |}).
    assert (Hg1 : forall u, task_list g1 !! u =
       (fun e => with_indeg (te_indeg e - (if bool_decide (u = nxt) then 1 else 0)) e) <$> task_list g !! u).
    { intros u. simpl. rewrite lookup_insert. case_decide as Hd; case_bool_decide; subst; try done.
      - by rewrite He.
      - destruct (task_list g !! u) as [[]|]; [|done]. simpl. by rewrite Z.sub_0_r. }
    assert (Hq1 : forall u, u ∈ task_queue g1 <-> u ∈ task_queue g \/ (u = nxt /\ te_indeg e = 1)).
    { intros u. simpl. destruct (Z.eqb_spec (te_indeg e - 1) 0); [rewrite elem_of_cons|];
        split; intros; destruct_or?; destruct_and?; subst; auto; lia. }
    destruct (IH g1) as (g' & -> & Hl & Hnd' & Hq').
    + intros u Hu. destruct (Hin u) as (eu & Heu & Hcu); [set_solver|].
      rewrite count_cons in Hcu. rewrite Hg1, Heu. eexists. split; [done|]. simpl.
      case_bool_decide; lia.
    + intros u Hu. rewrite Hq1. intros [Hqu|[-> Hi]]; [apply (Hq u); [set_solver|done]|].
      apply count_pos in Hu. lia.
    + simpl. case_match; [|done]. constructor; [|done]. apply Hq. set_solver.
    + exists g'. split; [done|]. split; [|split; [done|]].
      * intros u. rewrite Hl, Hg1, count_cons.
        destruct (task_list g !! u) as [eu|]; [|done]. simpl. unfold with_indeg. simpl.
        do 2 f_equal. case_bool_decide; lia.
      * intros u. rewrite Hq', Hq1, Hg1, elem_of_cons, count_cons.
        destruct (decide (u = nxt)) as [->|Hne].
        -- rewrite He. simpl. rewrite bool_decide_true by done. split.
           ++ intros [[Hqu|[_ Hi]]|[Hu (e' & [= <-] & Hi)]].
              ** by left.
              ** right. split; [by left|]. exists e. split; [done|]. lia.
              ** right. split; [by left|]. exists e. simpl in Hi. split; [done|lia].
           ++ intros [Hqu|[_ (e' & [= <-] & Hi)]]; [by left; left|].
              destruct (decide (nxt ∈ edges)) as [Hu|Hu].
              ** right. split; [done|]. eexists. split; [done|]. simpl. lia.
              ** left. right. split; [done|]. apply count_zero in Hu. lia.
        -- rewrite bool_decide_false by done.
           destruct (task_list g !! u) as [eu|] eqn:Eu; simpl.
           ++ split.
              ** intros [[?|[? _]]|[? (e' & [= <-] & Hi)]]; [by left|done|].
                 right. split; [by right|]. exists eu. simpl in Hi. split; [done|lia].
              ** intros [?|[[?|?] (e' & [= <-] & Hi)]]; [by left; left|done|].
                 right. split; [done|]. eexists. split; [done|]. simpl. lia.
           ++ naive_solver.
Qed.

(** ** Removing a finished task *)

Definition edge (tl : gmap Z TaskEntry) (a b : Z) : Prop :=
  exists e, tl !! a = Some e /\ b ∈ te_edges e.

(** [u] has to wait for [t]. *)
Definition reach (tl : gmap Z TaskEntry) : Z -> Z -> Prop := tc (edge tl).

Section Remove.
Context (g : TaskGraph) (running : list Z) (t : Z) (e : TaskEntry).
Hypothesis Hg : graph_ok (task_list g).
Hypothesis Hr : ready_ok g (t :: running).
Hypothesis Ht : task_list g !! t = Some e.

Lemma Remove_ready_indeg u eu :
  u ∈ task_queue g ++ t :: running -> task_list g !! u = Some eu -> te_indeg eu = 0.
Proof. intros (eu' & Hl & Hz)%(ro_ready _ _ Hr) Hu. by simplify_eq. Qed.

Lemma Remove_indeg : te_indeg e = 0.
Proof. eapply Remove_ready_indeg; [|done]. set_solver. Qed.

Lemma Remove_succ u : u ∈ te_edges e ->
  exists eu, task_list g !! u = Some eu /\ count u (te_edges e) <= te_indeg eu /\
    u ∉ task_queue g ++ t :: running.
Proof.
  intros Hu. destruct (go_edges _ Hg t e u Ht Hu) as (eu & Heu & _). exists eu.
  assert (count u (te_edges e) <= te_indeg eu) as Hc.
  { rewrite (go_indeg _ Hg u eu Heu). by eapply in_count_ge. }
  split_and!; try done. intros Hin.
  pose proof (Remove_ready_indeg u eu Hin Heu). apply count_pos in Hu. lia.
Qed.

Lemma Remove_self_edge : t ∉ te_edges e.
Proof.
  intros Hs. destruct (go_edges _ Hg t e t Ht Hs) as (e' & He' & Hrk & _).
  simplify_eq. lia.
Qed.

Lemma Remove_total : exists g',
  Remove e g = Done g' /\
  task_list g' !! t = None /\
  (forall u, u <> t -> task_list g' !! u =
     (fun eu => with_indeg (te_indeg eu - count u (te_edges e)) eu) <$> task_list g !! u) /\
  NoDup (task_queue g') /\
  (forall u, u ∈ task_queue g' <->
     u ∈ task_queue g \/ (u ∈ te_edges e /\
       exists eu, task_list g !! u = Some eu /\ te_indeg eu = count u (te_edges e))).
Proof.
  pose proof (go_id _ Hg t e Ht) as Hid. unfold Remove.
  destruct (remove_edges_spec (te_edges e) g) as (g1 & -> & Hl & Hnd & Hq).
  - intros u Hu. destruct (Remove_succ u Hu) as (eu & ? & ? & _). eauto.
  - intros u Hu. destruct (Remove_succ u Hu) as (eu & _ & _ & Hn). set_solver.
  - pose proof (ro_nodup _ _ Hr) as Hnd. by apply NoDup_app in Hnd as [? _].
  - eexists. split; [done|]. simpl. rewrite Hid. split_and!; try done.
    + apply lookup_delete_eq.
    + intros u Hu. by rewrite lookup_delete_ne.
Qed.

Lemma Remove_ok : exists g',
  Remove e g = Done g' /\ graph_ok (task_list g') /\ ready_ok g' running /\
  task_list g' !! t = None /\
  (forall u, u <> t -> exists d, task_list g' !! u = with_indeg d <$> task_list g !! u) /\
  (forall u v, u <> t -> reach (task_list g) u v -> reach (task_list g') u v).
Proof.
  destruct Remove_total as (g' & Hdone & Hgone & Hl & Hnd & Hq).
  assert (Hedges : te_edges <$> task_list g' = delete t (te_edges <$> task_list g)).
  { apply map_eq. intros u. rewrite lookup_fmap, lookup_delete. case_decide as Hd.
    - subst. by rewrite Hgone.
    - rewrite Hl, lookup_fmap by done. by destruct (task_list g !! u). }
  assert (Hin : forall u, in_count u (task_list g) = count u (te_edges e) + in_count u (task_list g')).
  { intros u. unfold in_count. rewrite Hedges. apply edge_sum_delete. by rewrite lookup_fmap, Ht. }
  exists g'. split_and!; try done.
  - split.
    + intros u eu Heu. destruct (decide (u = t)) as [->|Hne]; [congruence|].
      rewrite Hl in Heu by done. apply fmap_Some in Heu as (e0 & He0 & ->).
      by apply (go_id _ Hg) in He0.
    + intros u eu v Heu Hv. destruct (decide (u = t)) as [->|Hne]; [congruence|].
      rewrite Hl in Heu by done. apply fmap_Some in Heu as (e0 & He0 & ->). simpl in Hv.
      destruct (go_edges _ Hg u e0 v He0 Hv) as (ev & Hev & ? & ?).
      assert (v <> t) as Hvt.
      { intros ->. simplify_eq. pose proof (in_count_ge t u e0 _ He0) as Hge.
        rewrite <- (go_indeg _ Hg t e Ht), Remove_indeg in Hge. apply count_pos in Hv. lia. }
      rewrite Hl, Hev by done. simpl. eauto.
    + intros u eu Heu. destruct (decide (u = t)) as [->|Hne]; [congruence|].
      rewrite Hl in Heu by done. apply fmap_Some in Heu as (e0 & He0 & ->). simpl.
      rewrite (go_indeg _ Hg u e0 He0), Hin. lia.
  - pose proof (ro_nodup _ _ Hr) as Hnd0.
    apply NoDup_app in Hnd0 as (_ & Hdisj & [Hnt Hndr]%NoDup_cons).
    split.
    + apply NoDup_app. split_and!; try done. intros u Hu Hur. apply Hq in Hu as [Hu|[Hu _]].
      * apply (Hdisj u Hu). set_solver.
      * destruct (Remove_succ u Hu) as (_ & _ & _ & Hn). set_solver.
    + intros u. rewrite elem_of_app, Hq. split.
      * intros Hu. assert (u <> t) as Hne.
        { intros ->. destruct Hu as [[Hu|[Hu _]]|Hu]; [|by apply Remove_self_edge|done].
          apply (Hdisj t Hu). set_solver. }
        rewrite Hl by done. destruct Hu as [[Hu|[_ (eu & Heu & Hz)]]|Hu].
        -- assert (u ∈ task_queue g ++ t :: running) as Ha by set_solver.
           apply (ro_ready _ _ Hr) in Ha as (eu & Heu & Hz). rewrite Heu. eexists. split; [done|].
           simpl. pose proof (in_count_ge u t e _ Ht). rewrite <- (go_indeg _ Hg u eu Heu) in *.
           pose proof (count_nonneg u (te_edges e)). lia.
        -- rewrite Heu. eexists. split; [done|]. simpl. lia.
        -- assert (u ∈ task_queue g ++ t :: running) as Ha by set_solver.
           apply (ro_ready _ _ Hr) in Ha as (eu & Heu & Hz). rewrite Heu. eexists. split; [done|].
           simpl. pose proof (in_count_ge u t e _ Ht). rewrite <- (go_indeg _ Hg u eu Heu) in *.
           pose proof (count_nonneg u (te_edges e)). lia.
      * intros (eu & Heu & Hz). destruct (decide (u = t)) as [->|Hne]; [congruence|].
        rewrite Hl in Heu by done. apply fmap_Some in Heu as (e0 & He0 & ->). simpl in Hz.
        destruct (decide (u ∈ te_edges e)) as [Hu|Hu].
        -- left. right. split; [done|]. exists e0. split; [done|lia].
        -- rewrite (proj2 (count_zero u _) Hu) in Hz.
           assert (u ∈ task_queue g ++ t :: running) as Ha
             by (apply (ro_ready _ _ Hr); exists e0; split; [done|lia]).
           set_solver.
  - intros u Hu. rewrite Hl by done. destruct (task_list g !! u) as [eu|]; [by eexists|].
    by exists 0.
  - assert (Hedge : forall u w, u <> t -> edge (task_list g) u w ->
      edge (task_list g') u w /\ w <> t).
    { intros u w Hu (eu & Heu & Hw). split.
      - eexists. rewrite Hl, Heu by done. split; [done|]. done.
      - intros ->. pose proof (in_count_ge t u eu _ Heu) as Hge.
        rewrite <- (go_indeg _ Hg t e Ht), Remove_indeg in Hge. apply count_pos in Hw. lia. }
    intros u v Hu Huv. induction Huv as [u v He|u w v He _ IH].
    + apply tc_once. by apply Hedge.
    + destruct (Hedge u w Hu He) as [He' Hw]. eapply tc_l; [done|]. by apply IH.
Qed.
End Remove.

(** ** Consequences of the invariant *)

Lemma reach_indeg tl a b : graph_ok tl -> reach tl a b ->
  forall e, tl !! b = Some e -> 0 < te_indeg e.
Proof.
  intros Hg Hab. induction Hab as [a b (ea & Hea & Hb)|a c b _ _ IH]; [|done].
  intros e He. rewrite (go_indeg _ Hg b e He).
  pose proof (in_count_ge b a ea _ Hea). apply count_pos in Hb. lia.
Qed.

(** Some task is ready as long as any task is left: no deadlock. *)
Lemma graph_progress tl : graph_ok tl -> tl <> ∅ -> exists t e, tl !! t = Some e /\ te_indeg e = 0.
Proof.
  intros Hg Hne.
  set (rk := fun t => from_option (fun e => rank (te_task e)) 0 (tl !! t)).
  assert (Transitive (fun a b => rk a < rk b)) by (intros ???; lia).
  assert (forall a b, Decision (rk a < rk b)) by (intros; apply _).
  destruct (minimal_exists_elem_of_L (fun a b => rk a < rk b) (dom tl)) as (t & Ht & Hmin).
  { by rewrite dom_empty_iff_L. }
  apply elem_of_dom in Ht as [e He]. exists t, e. split; [done|].
  rewrite (go_indeg _ Hg t e He).
  destruct (decide (0 < in_count t tl)) as [Hp|Hp].
  - exfalso. apply in_count_pos in Hp as (u & eu & Hu & Hin).
    destruct (go_edges _ Hg u eu t Hu Hin) as (e' & He' & Hrk & _). simplify_eq.
    assert (rk u < rk t) as Hlt by (unfold rk; by rewrite Hu, He).
    assert (u ∈ dom tl) as Hud by (by apply elem_of_dom_2 in Hu).
    pose proof (Hmin u Hud Hlt) as Hgt. cbv beta in Hgt. clear -Hlt Hgt. lia.
  - unfold in_count in *. pose proof (edge_sum_nonneg t (te_edges <$> tl)). lia.
Qed.

(** ** The priority queue *)

Lemma task_lt_trans a b c : task_lt a b = false -> task_lt b c = false -> task_lt a c = false.
Proof. unfold task_lt. rewrite !orb_false_iff, !andb_false_iff, !orb_false_iff, !andb_false_iff. lia. Qed.

Lemma task_lt_asym a b : task_lt a b = true -> task_lt b a = false.
Proof.
  unfold task_lt. rewrite !orb_true_iff, !andb_true_iff, !orb_true_iff, !andb_true_iff,
    !orb_false_iff, !andb_false_iff, !orb_false_iff, !andb_false_iff. lia.
Qed.

Lemma PriorityCompare_irrefl tl a : PriorityCompare tl a a = false.
Proof.
  unfold PriorityCompare. destruct (tl !! a) as [e|]; [|done].
  unfold task_lt. by rewrite !Z.ltb_irrefl, !andb_false_r.
Qed.

Lemma PriorityCompare_asym tl a b : PriorityCompare tl a b = true -> PriorityCompare tl b a = false.
Proof.
  unfold PriorityCompare. destruct (tl !! a), (tl !! b); try done. apply task_lt_asym.
Qed.

Lemma best_spec tl t q :
  (forall u, u ∈ t :: q -> is_Some (tl !! u)) ->
  best tl t q ∈ t :: q /\ forall u, u ∈ t :: q -> PriorityCompare tl (best tl t q) u = false.
Proof.
  revert t. induction q as [|v q IH]; intros t Hin; simpl.
  - split; [set_solver|]. intros u ->%list_elem_of_singleton. apply PriorityCompare_irrefl.
  - destruct (Hin t) as [et Het]; [set_solver|]. destruct (Hin v) as [ev Hev]; [set_solver|].
    set (w := if PriorityCompare tl t v then v else t).
    assert (Hw : w = t \/ w = v) by (unfold w; case_match; auto).
    destruct (IH w) as [Hb Hmax].
    { intros u Hu. apply Hin. destruct Hw as [Hw|Hw]; rewrite Hw in Hu; set_solver. }
    split; [destruct Hw as [Hw|Hw]; rewrite Hw in Hb |- *; set_solver|].
    assert (Hwb : PriorityCompare tl (best tl w q) w = false) by (apply Hmax; set_solver).
    assert (Hbs : is_Some (tl !! best tl w q)).
    { apply Hin. destruct Hw as [Hw|Hw]; rewrite Hw in Hb |- *; set_solver. }
    destruct Hbs as [eb Heb].
    assert (Hall : PriorityCompare tl w t = false /\ PriorityCompare tl w v = false).
    { unfold w. destruct (PriorityCompare tl t v) eqn:E;
        auto using PriorityCompare_irrefl, PriorityCompare_asym. }
    intros u Hu. rewrite !elem_of_cons in Hu.
    assert (Ht : forall x ex, tl !! x = Some ex -> PriorityCompare tl w x = false ->
      PriorityCompare tl (best tl w q) x = false).
    { intros x ex Hx Hwx. unfold PriorityCompare in *. rewrite Heb, Hx in *.
      destruct Hw as [Hw|Hw]; rewrite Hw in *; rewrite ?Het, ?Hev in *; by eapply task_lt_trans. }
    destruct Hu as [->|[->|Hu]]; [by eapply Ht; [|apply Hall]..|]. apply Hmax. set_solver.
Qed.

Lemma queue_top_spec g t :
  (forall u, u ∈ task_queue g -> is_Some (task_list g !! u)) ->
  queue_top g = Some t -> is_top g t.
Proof.
  unfold queue_top, is_top. destruct (task_queue g) as [|v q]; [done|].
  intros Hin [= <-]. by apply best_spec.
Qed.

Lemma remove_one_perm t q : t ∈ q -> q ≡ₚ t :: remove_one t q.
Proof.
  induction q as [|u q IH]; [set_solver|]. simpl. case_bool_decide as Hd; [by subst|].
  intros [->|Hin]%elem_of_cons; [done|]. rewrite (IH Hin) at 1. apply perm_swap.
Qed.
