(* ===== verification/TdOrder.v ===== *)
(** * The order in which test data are judged

    The layering heuristic of [PushSubmission] (src/tioj/submission.cpp): with
    [skip_group], test data are spread over layers so that every group is
    tried as early as possible.  [std::stable_sort] and [std::lower_bound] are
    written out; the latter is a binary search, which is only meaningful
    because the layers turn out to be nested. *)

From S2P Require Import Prelude Data.

#[local] Open Scope nat_scope.

#[local] Arguments Nat.div : simpl never.

(** [std::stable_sort]: each element goes after those it does not precede. *)
Fixpoint stable_insert {A} (less : A -> A -> bool) (x : A) (l : list A) : list A :=
  match l with
  | [] => [x]
  | y :: l' => if less x y then x :: y :: l' else y :: stable_insert less x l'
  end.
Definition stable_sort {A} (less : A -> A -> bool) (l : list A) : list A :=
  foldl (fun acc x => stable_insert less x acc) [] l.

(** [std::lower_bound(first, first + len, true, comp)], returning an index;
    [fuel >= len] is enough. *)
Fixpoint lower_bound {A} (fuel : nat) (comp : A -> bool) (l : list A) (first len : nat) : nat :=
  match fuel with
  | O => first
  | S fuel' =>
      match len with
      | O => first
      | _ =>
          let half := len / 2 in
          let mid := first + half in
          match l !! mid with
          | Some x =>
              if comp x then lower_bound fuel' comp l (mid + 1) (len - half - 1)
              else lower_bound fuel' comp l first half
          | None => first
          end
      end
  end.

(** [std::all_of(td_group, layer.count)]. *)
Definition contains_all (td_group : list Z) (layer : gset Z) : bool :=
  forallb (fun group => bool_decide (group ∈ layer)) td_group.

(** One iteration of the loop over [scan_order]. *)
Definition assign_layer (groups : list (list Z)) (st : list (gset Z) * list nat) (td : nat)
    : list (gset Z) * list nat :=
  let '(group_layers, td_layer) := st in
  let td_group := default [] (groups !! td) in
  let pos := lower_bound (length group_layers) (contains_all td_group) group_layers
               0 (length group_layers) in
  let group_layers :=
    if pos =? length group_layers then group_layers ++ [∅] else group_layers in
  (alter (fun layer => layer ∪ list_to_set td_group) pos group_layers, <[td := pos]> td_layer).

(** [td_layer], from the groups of each test data. *)
Definition compute_td_layer (groups : list (list Z)) : list nat :=
  let n := length groups in
  let scan_order :=
    stable_sort (fun a b => length (default [] (groups !! b)) <? length (default [] (groups !! a)))
      (seq 0 n) in
  snd (foldl (assign_layer groups) ([], replicate n 0) scan_order).

(** [td_order[inv_order[i]] = i]. *)
Fixpoint invert_order (inv_order : list nat) (i : nat) (td_order : list nat) : list nat :=
  match inv_order with
  | [] => td_order
  | td :: rest => invert_order rest (S i) (<[td := i]> td_order)
  end.

(** [inv_order]: the test data by layer, ties in index order. *)
Definition compute_inv_order (groups : list (list Z)) : list nat :=
  let td_layer := compute_td_layer groups in
  stable_sort (fun a b => default 0 (td_layer !! a) <? default 0 (td_layer !! b))
    (seq 0 (length groups)).

Definition compute_td_order (skip_group : bool) (groups : list (list Z)) : list nat :=
  let n := length groups in
  if skip_group then invert_order (compute_inv_order groups) 0 (replicate n 0) else seq 0 n.

(** ** Stable sorting *)

Section StableSort.
Context {A : Type} (less : A -> A -> bool).

Lemma stable_insert_perm x l : stable_insert less x l ≡ₚ x :: l.
Proof.
  induction l as [|y l IH]; simpl; [done|]. case_match; [done|]. rewrite IH. apply perm_swap.
Qed.

Lemma foldl_insert_perm l acc : foldl (fun acc x => stable_insert less x acc) acc l ≡ₚ l ++ acc.
Proof.
  revert acc. induction l as [|x l IH]; intros acc; simpl; [done|].
  rewrite IH, stable_insert_perm. by rewrite Permutation_middle.
Qed.

Lemma stable_sort_perm l : stable_sort less l ≡ₚ l.
Proof. unfold stable_sort. by rewrite foldl_insert_perm, app_nil_r. Qed.

(** A total preorder key makes the result sorted and stable. *)
Context (key : A -> nat) (Hkey : forall x y, less x y = (key x <? key y)).

(** Keys ascend; among equal keys [before] (the input order) is kept. *)
Definition sorted_by (before : A -> A -> Prop) : list A -> Prop :=
  StronglySorted (fun x y => key x < key y \/ (key x = key y /\ before x y)).

Lemma stable_insert_sorted before x l :
  (forall y, y ∈ l -> before y x) -> sorted_by before l -> sorted_by before (stable_insert less x l).
Proof.
  induction l as [|y l IH]; intros Hb Hs; simpl.
  - constructor; [constructor|by constructor].
  - apply StronglySorted_inv in Hs as [Hs Hy]. rewrite Hkey.
    destruct (Nat.ltb_spec (key x) (key y)) as [Hlt|Hle].
    + constructor; [by constructor|]. constructor; [by left|].
      eapply Forall_impl; [exact Hy|]. intros z Hz. left. simpl in Hz. lia.
    + constructor.
      * apply IH; [|done]. intros z Hz. apply Hb. by right.
      * rewrite stable_insert_perm. constructor; [|done].
        assert (before y x) by (apply Hb; by left).
        destruct (decide (key y = key x)); [by right|left; lia].
Qed.

Lemma stable_sort_sorted before l :
  StronglySorted before l -> sorted_by before (stable_sort less l).
Proof.
  intros Hl. unfold stable_sort.
  assert (Hgen : forall l acc, StronglySorted before l ->
    (forall y x, y ∈ acc -> x ∈ l -> before y x) -> sorted_by before acc ->
    sorted_by before (foldl (fun acc x => stable_insert less x acc) acc l)).
  { clear l Hl. induction l as [|x l IH]; intros acc Hl Hacc Hs; simpl; [done|].
    apply StronglySorted_inv in Hl as [Hl Hx]. apply IH; [done| |].
    - intros y z Hy Hz. rewrite stable_insert_perm in Hy. apply elem_of_cons in Hy as [->|Hy].
      + rewrite Forall_forall in Hx. by apply Hx.
      + apply Hacc; [done|by right].
    - apply stable_insert_sorted; [|done]. intros y Hy. apply Hacc; [done|by left]. }
  apply Hgen; [done|set_solver|constructor].
Qed.
End StableSort.

(** ** Binary search *)

(** The first index from [i] on whose element fails [comp]. *)
Fixpoint first_failing {A} (comp : A -> bool) (l : list A) : nat :=
  match l with
  | [] => 0
  | x :: l' => if comp x then S (first_failing comp l') else 0
  end.

Lemma first_failing_spec {A} (comp : A -> bool) l p :
  p <= length l -> (forall i x, i < p -> l !! i = Some x -> comp x = true) ->
  (forall x, l !! p = Some x -> comp x = false) -> first_failing comp l = p.
Proof.
  revert p. induction l as [|x l IH]; intros p Hp Hlo Hhi; simpl in *; [lia|].
  destruct p as [|p].
  - by rewrite (Hhi x).
  - rewrite (Hlo 0 x) by (done || lia). f_equal. apply IH; [lia| |done].
    intros i y Hi Hy. apply (Hlo (S i)); [lia|done].
Qed.

(** On a list partitioned by [comp] the binary search finds the boundary. *)
Definition partitioned {A} (comp : A -> bool) (l : list A) : Prop :=
  forall i j x y, i < j -> l !! i = Some x -> l !! j = Some y -> comp y = true -> comp x = true.

Lemma lower_bound_partitioned {A} (comp : A -> bool) (l : list A) fuel first len :
  partitioned comp l -> len <= fuel -> first + len <= length l ->
  (forall i x, i < first -> l !! i = Some x -> comp x = true) ->
  (forall x, l !! (first + len) = Some x -> comp x = false) ->
  lower_bound fuel comp l first len = first_failing comp l.
Proof.
  intros Hpart. revert first len.
  induction fuel as [|fuel IH]; intros first len Hfuel Hlen Hlo Hhi; simpl.
  - symmetry. apply first_failing_spec; [lia|done|]. by replace len with 0 in Hhi by lia;
      rewrite Nat.add_0_r in Hhi.
  - destruct len as [|len'] eqn:El.
    { symmetry. rewrite Nat.add_0_r in Hhi. apply first_failing_spec; [lia|done|done]. }
    rewrite <- El in *. assert (len / 2 < len) by (apply Nat.div_lt; lia).
    destruct (lookup_lt_is_Some_2 l (first + len / 2)) as [x Hx]; [lia|].
    rewrite Hx. destruct (comp x) eqn:Ec.
    + apply IH; [lia|lia| |].
      * intros i y Hi Hy. destruct (decide (i = first + len / 2)) as [->|]; [congruence|].
        apply (Hpart i (first + len / 2) y x); [lia|done..].
      * intros y Hy. apply Hhi. rewrite <- Hy. f_equal. lia.
    + apply IH; [lia|lia|done|]. intros y Hy. congruence.
Qed.

(** ** Layers are nested *)

Definition nested (layers : list (gset Z)) : Prop :=
  forall i j x y, i < j -> layers !! i = Some x -> layers !! j = Some y -> y ⊆ x.

Lemma contains_all_spec td_group layer :
  contains_all td_group layer = true <-> list_to_set td_group ⊆ layer.
Proof.
  unfold contains_all. rewrite forallb_forall. split.
  - intros Hall x Hx. apply elem_of_list_to_set, list_elem_of_In, Hall in Hx.
    by apply bool_decide_eq_true in Hx.
  - intros Hsub x Hx. apply bool_decide_eq_true, Hsub, elem_of_list_to_set. by apply list_elem_of_In.
Qed.

Lemma nested_partitioned td_group layers :
  nested layers -> partitioned (contains_all td_group) layers.
Proof.
  intros Hn i j x y Hij Hx Hy. rewrite !contains_all_spec. intros Hs.
  etrans; [exact Hs|]. by eapply Hn.
Qed.

Lemma lower_bound_nested td_group layers :
  nested layers ->
  lower_bound (length layers) (contains_all td_group) layers 0 (length layers)
  = first_failing (contains_all td_group) layers.
Proof.
  intros Hn. apply lower_bound_partitioned; try lia; [by apply nested_partitioned|].
  intros x Hx. apply lookup_lt_Some in Hx. lia.
Qed.

(** The reference: a linear scan for the first layer that does not contain
    all the groups. *)
Definition assign_layer_ref (groups : list (list Z)) (st : list (gset Z) * list nat) (td : nat)
    : list (gset Z) * list nat :=
  let '(group_layers, td_layer) := st in
  let td_group := default [] (groups !! td) in
  let pos := first_failing (contains_all td_group) group_layers in
  let group_layers :=
    if pos =? length group_layers then group_layers ++ [∅] else group_layers in
  (alter (fun layer => layer ∪ list_to_set td_group) pos group_layers, <[td := pos]> td_layer).

Lemma first_failing_le {A} (comp : A -> bool) l : first_failing comp l <= length l.
Proof. induction l as [|x l IH]; simpl; [done|]. case_match; lia. Qed.

Lemma first_failing_before {A} (comp : A -> bool) l i x :
  i < first_failing comp l -> l !! i = Some x -> comp x = true.
Proof.
  revert i. induction l as [|y l IH]; intros i; simpl; [lia|]. destruct (comp y) eqn:E; [|lia].
  destruct i as [|i]; simpl; [congruence|]. intros ?. apply IH. lia.
Qed.

Lemma first_failing_at {A} (comp : A -> bool) l x :
  l !! first_failing comp l = Some x -> comp x = false.
Proof. induction l as [|y l IH]; simpl; [done|]. destruct (comp y) eqn:E; simpl; [done|congruence]. Qed.

Lemma nested_snoc_empty layers : nested layers -> nested (layers ++ [∅]).
Proof.
  intros Hn i j x y Hij Hx Hy.
  apply lookup_app_Some in Hy as [Hy|[Hj Hy]].
  - rewrite lookup_app_l in Hx by (apply lookup_lt_Some in Hy; lia). by eapply Hn.
  - destruct (j - length layers) as [|k]; simpl in Hy; [injection Hy as <-; set_solver|done].
Qed.

Lemma assign_layer_nested groups layers tdl td :
  nested layers -> nested (fst (assign_layer groups (layers, tdl) td)).
Proof.
  intros Hn. simpl. rewrite lower_bound_nested by done.
  set (g := default [] (groups !! td)). set (p := first_failing _ layers).
  set (layers' := if p =? length layers then _ else layers).
  assert (Hn' : nested layers') by (unfold layers'; case_match; [by apply nested_snoc_empty|done]).
  assert (Hbefore : forall i x, i < p -> layers' !! i = Some x -> list_to_set g ⊆ x).
  { intros i x Hi Hx. apply contains_all_spec.
    apply (first_failing_before _ layers i); [done|].
    pose proof (first_failing_le (contains_all g) layers). fold p in H.
    unfold layers' in Hx. case_match; [|done]. rewrite lookup_app_l in Hx; [done|lia]. }
  clearbody layers'. intros i j x y Hij Hx Hy.
  destruct (decide (j = p)) as [->|Hjp]; [|destruct (decide (i = p)) as [->|Hip]].
  - rewrite list_lookup_alter_ne in Hx by lia. rewrite list_lookup_alter_eq in Hy.
    apply fmap_Some in Hy as (y0 & Hy0 & ->).
    pose proof (Hn' i p x y0 Hij Hx Hy0). pose proof (Hbefore i x Hij Hx). set_solver.
  - rewrite list_lookup_alter_eq in Hx. rewrite list_lookup_alter_ne in Hy by done.
    apply fmap_Some in Hx as (x0 & Hx0 & ->). pose proof (Hn' p j x0 y Hij Hx0 Hy). set_solver.
  - rewrite list_lookup_alter_ne in Hx, Hy by done. by eapply Hn'.
Qed.

Lemma assign_layers_ref groups scan st :
  nested (fst st) ->
  foldl (assign_layer groups) st scan = foldl (assign_layer_ref groups) st scan.
Proof.
  revert st. induction scan as [|td scan IH]; intros [layers tdl] Hn; simpl in Hn; [done|].
  cbn [foldl]. rewrite IH by (by apply assign_layer_nested). f_equal.
  simpl. by rewrite lower_bound_nested.
Qed.

(** The binary search over the layers is a correct optimisation: every
    layer contains the next one, so for every submission the layers computed
    with [std::lower_bound] are those of a linear scan for the first layer
    that misses one of the test data's groups. *)
Theorem layering_binary_search_correct groups scan tdl :
  foldl (assign_layer groups) ([], tdl) scan = foldl (assign_layer_ref groups) ([], tdl) scan /\
  nested (fst (foldl (assign_layer groups) ([], tdl) scan)).
Proof.
  assert (Hempty : nested []) by (intros i j x y _ Hx; done).
  split; [by apply assign_layers_ref|].
  generalize (@nil (gset Z)) tdl Hempty.
  induction scan as [|td scan IH]; intros layers tdl' Hn; [done|].
  cbn [foldl]. pose proof (assign_layer_nested groups layers tdl' td Hn) as Hn'.
  destruct (assign_layer groups (layers, tdl') td) as [layers' tdl'']. by apply IH.
Qed.

(** ** The order is a permutation *)

Lemma invert_order_length inv i tdo : length (invert_order inv i tdo) = length tdo.
Proof. revert i tdo. induction inv as [|x inv IH]; intros i tdo; simpl; [done|]. by rewrite IH, length_insert. Qed.

Lemma invert_order_other inv i tdo x : x ∉ inv -> invert_order inv i tdo !! x = tdo !! x.
Proof.
  revert i tdo. induction inv as [|y inv IH]; intros i tdo Hx; simpl; [done|].
  rewrite not_elem_of_cons in Hx. destruct Hx as [Hne Hx].
  rewrite IH by done. by apply list_lookup_insert_ne.
Qed.

Lemma invert_order_at inv i tdo k x :
  NoDup inv -> (forall y, y ∈ inv -> y < length tdo) -> inv !! k = Some x ->
  invert_order inv i tdo !! x = Some (i + k).
Proof.
  revert i tdo k. induction inv as [|y inv IH]; intros i tdo k Hnd Hlt Hk; [done|].
  apply NoDup_cons in Hnd as [Hy Hnd]. simpl. destruct k as [|k]; simpl in Hk.
  - injection Hk as ->. rewrite invert_order_other by done.
    rewrite list_lookup_insert_eq; [f_equal; lia|]. apply Hlt. by left.
  - rewrite (IH (S i) _ k); [f_equal; lia|done| |done].
    intros z Hz. rewrite length_insert. apply Hlt. by right.
Qed.

Lemma inv_order_perm groups : compute_inv_order groups ≡ₚ seq 0 (length groups).
Proof. apply stable_sort_perm. Qed.

Lemma StronglySorted_seq i n : StronglySorted lt (seq i n).
Proof.
  revert i. induction n as [|n IH]; intros i; simpl; constructor; [done|].
  apply Forall_forall. intros x Hx. apply elem_of_seq in Hx. lia.
Qed.

(** [i] is judged before [j]. *)
Definition judged_before (groups : list (list Z)) (i j : nat) : Prop :=
  let layer x := default 0 (compute_td_layer groups !! x) in
  layer i < layer j \/ (layer i = layer j /\ i < j).

Lemma inv_order_sorted groups : StronglySorted (judged_before groups) (compute_inv_order groups).
Proof.
  apply (stable_sort_sorted _ (fun x => default 0 (compute_td_layer groups !! x))); [done|].
  apply StronglySorted_seq.
Qed.

Lemma StronglySorted_lookup {A} (R : A -> A -> Prop) l i j x y :
  StronglySorted R l -> i < j -> l !! i = Some x -> l !! j = Some y -> R x y.
Proof.
  revert i j. induction l as [|z l IH]; intros i j Hs Hij Hx Hy; [done|].
  apply StronglySorted_inv in Hs as [Hs Hz]. destruct j as [|j]; [lia|]. simpl in Hy.
  destruct i as [|i]; simpl in Hx.
  - injection Hx as <-. rewrite Forall_forall in Hz. apply Hz.
    apply list_elem_of_lookup. by exists j.
  - eapply (IH i j); [done|lia|done..].
Qed.

Lemma td_order_lookup groups x :
  x < length groups ->
  exists k, compute_inv_order groups !! k = Some x /\ compute_td_order true groups !! x = Some k.
Proof.
  intros Hx. assert (x ∈ compute_inv_order groups) as Hin.
  { rewrite inv_order_perm. apply elem_of_seq. lia. }
  apply list_elem_of_lookup in Hin as [k Hk]. exists k. split; [done|].
  unfold compute_td_order. rewrite (invert_order_at _ 0 _ k x); [done| | |done].
  - rewrite inv_order_perm. apply NoDup_seq.
  - intros y. rewrite inv_order_perm, elem_of_seq, length_replicate. lia.
Qed.

(** C36: with [skip_group] the order given to the test data is a permutation
    of 0..n-1 that puts earlier layers first and keeps the index order inside a
    layer; without it the order is the index. *)
Theorem td_order_correct groups :
  let n := length groups in
  compute_td_order false groups = seq 0 n /\
  compute_td_order true groups ≡ₚ seq 0 n /\
  (forall i j x y, compute_td_order true groups !! i = Some x ->
     compute_td_order true groups !! j = Some y -> (x < y <-> judged_before groups i j)).
Proof.
  intros n. split; [done|].
  assert (Hlen : length (compute_td_order true groups) = n).
  { unfold compute_td_order. by rewrite invert_order_length, length_replicate. }
  assert (Hlk : forall i x, compute_td_order true groups !! i = Some x ->
    compute_inv_order groups !! x = Some i).
  { intros i x Hi. pose proof (lookup_lt_Some _ _ _ Hi) as Hlt. rewrite Hlen in Hlt.
    destruct (td_order_lookup groups i Hlt) as (k & Hk & Hk'). congruence. }
  split.
  - assert (NoDup (compute_td_order true groups)) as Hnd.
    { apply NoDup_alt. intros i j x Hi Hj. apply Hlk in Hi, Hj. congruence. }
    assert (Hinv : length (compute_inv_order groups) = n)
      by (by rewrite inv_order_perm, length_seq).
    apply submseteq_length_Permutation; [|rewrite Hlen, length_seq; lia].
    apply NoDup_submseteq; [done|]. intros x Hx. apply list_elem_of_lookup in Hx as [i Hi].
    apply Hlk, lookup_lt_Some in Hi. apply elem_of_seq. lia.
  - intros i j x y Hi%Hlk Hj%Hlk. split.
    + intros Hxy. by eapply StronglySorted_lookup; [apply inv_order_sorted|..].
    + intros Hb. destruct (lt_eq_lt_dec x y) as [[?| ->]|Hyx]; [done| |].
      * assert (i = j) as -> by congruence. destruct Hb as [?|[_ ?]]; lia.
      * assert (judged_before groups j i) as Hb'
          by (by eapply StronglySorted_lookup; [apply inv_order_sorted|..]).
        destruct Hb, Hb'; lia.
Qed.

(** The example of two groups sharing a test data. *)
Example td_order_example :
  compute_td_order true [[0%Z]; [0%Z]; [1%Z]; [0%Z; 1%Z]; [1%Z]] = [1; 3; 2; 0; 4].
Proof. vm_compute. reflexivity. Qed.
