(* ===== verification/State.v ===== *)
(** * State of the judge and operations on it

    The global variables of src/tioj/submission.cpp as one record, and the
    state-and-fault monad the handlers are written in.  A C++ reference to an
    element of [submission_list] is its key. *)

From S2P Require Import Prelude Enums Data TaskGraph.

Record Judge := {
  task_count : Z;                         (* TaskEntry::task_count *)
  graph : TaskGraph;                      (* task_list and task_queue *)
  handle_map : gmap Z Z;                  (* handle -> task id *)
  submission_list : gmap Z SubmissionAndResult;
  submission_id_map : gmap Z Z;           (* submission id -> internal id *)
  cancelled_list : gset Z;
  cancelled_group : gmap Z (gset Z);      (* internal id -> group ids *)
  trace : list Event;                     (* effects, oldest first *)
}.

Definition empty_Judge : Judge := {|
  task_count := 0; graph := {| task_list := ∅; task_queue := [] |}; handle_map := ∅;
  submission_list := ∅; submission_id_map := ∅; cancelled_list := ∅; cancelled_group := ∅;
  trace := [];
|}.

Definition set_graph (g : TaskGraph) (s : Judge) : Judge := {|
  task_count := task_count s; graph := g; handle_map := handle_map s;
  submission_list := submission_list s; submission_id_map := submission_id_map s;
  cancelled_list := cancelled_list s; cancelled_group := cancelled_group s; trace := trace s |}.
Definition set_handle_map (h : gmap Z Z) (s : Judge) : Judge := {|
  task_count := task_count s; graph := graph s; handle_map := h;
  submission_list := submission_list s; submission_id_map := submission_id_map s;
  cancelled_list := cancelled_list s; cancelled_group := cancelled_group s; trace := trace s |}.
Definition set_submission_list (l : gmap Z SubmissionAndResult) (s : Judge) : Judge := {|
  task_count := task_count s; graph := graph s; handle_map := handle_map s;
  submission_list := l; submission_id_map := submission_id_map s;
  cancelled_list := cancelled_list s; cancelled_group := cancelled_group s; trace := trace s |}.
Definition set_submission_id_map (m : gmap Z Z) (s : Judge) : Judge := {|
  task_count := task_count s; graph := graph s; handle_map := handle_map s;
  submission_list := submission_list s; submission_id_map := m;
  cancelled_list := cancelled_list s; cancelled_group := cancelled_group s; trace := trace s |}.
Definition set_cancelled_list (c : gset Z) (s : Judge) : Judge := {|
  task_count := task_count s; graph := graph s; handle_map := handle_map s;
  submission_list := submission_list s; submission_id_map := submission_id_map s;
  cancelled_list := c; cancelled_group := cancelled_group s; trace := trace s |}.
Definition set_cancelled_group (c : gmap Z (gset Z)) (s : Judge) : Judge := {|
  task_count := task_count s; graph := graph s; handle_map := handle_map s;
  submission_list := submission_list s; submission_id_map := submission_id_map s;
  cancelled_list := cancelled_list s; cancelled_group := c; trace := trace s |}.
Definition add_events (es : list Event) (s : Judge) : Judge := {|
  task_count := task_count s; graph := graph s; handle_map := handle_map s;
  submission_list := submission_list s; submission_id_map := submission_id_map s;
  cancelled_list := cancelled_list s; cancelled_group := cancelled_group s;
  trace := trace s ++ es |}.
Definition set_task_count (c : Z) (s : Judge) : Judge := {|
  task_count := c; graph := graph s; handle_map := handle_map s;
  submission_list := submission_list s; submission_id_map := submission_id_map s;
  cancelled_list := cancelled_list s; cancelled_group := cancelled_group s; trace := trace s |}.

(** ** The monad *)

Definition M (A : Type) : Type := Judge -> outcome (A * Judge).

#[export] Instance M_ret : MRet M := fun A a s => Done (a, s).
#[export] Instance M_bind : MBind M := fun A B k m s =>
  match m s with Done (a, s') => k a s' | Crash f => Crash f end.

Definition crash {A} (f : fault) : M A := fun _ => Crash f.
Definition get : M Judge := fun s => Done (s, s).
Definition modify (f : Judge -> Judge) : M unit := fun s => Done (tt, f s).
Definition emit (es : list Event) : M unit := modify (add_events es).
Definition or_crash {A} (o : option A) (f : fault) : M A :=
  match o with Some a => mret a | None => crash f end.
Definition lift_outcome {A} (o : outcome A) : M A :=
  fun s => match o with Done a => Done (a, s) | Crash f => Crash f end.
Definition when (b : bool) (m : M unit) : M unit := if b then m else mret tt.

(** Reading and writing the submission a reference points to. *)
Definition get_sub (key : Z) : M SubmissionAndResult :=
  s ← get; or_crash (submission_list s !! key) NoSuchKey.
Definition get_res (key : Z) : M SubmissionResult := sr ← get_sub key; mret (sr_result sr).
Definition put_res (key : Z) (r : SubmissionResult) : M unit :=
  sr ← get_sub key;
  modify (fun s => set_submission_list (<[key := with_result sr r]> (submission_list s)) s).
Definition modify_res (key : Z) (f : SubmissionResult -> SubmissionResult) : M unit :=
  r ← get_res key; put_res key (f r).

(** [vector::operator[]]. *)
Definition vec_at {A} (l : list A) (i : Z) : M A :=
  if (0 <=? i) then or_crash (l !! Z.to_nat i) OutOfBounds else crash OutOfBounds.

(** A reference to an element, which the code may bind to no element of the vector and
    not use; reading through it is [vec_at]. *)
Definition vec_ref {A} (l : list A) (i : Z) : list A * Z := (l, i).
Definition deref {A} (r : list A * Z) : M A := vec_at r.1 r.2.
Definition dangling {A} (r : list A * Z) : bool := negb ((0 <=? r.2) && (r.2 <? Z.of_nat (length r.1))).

Definition get_td (key : Z) (i : Z) : M TestdataResult :=
  r ← get_res key; vec_at (td_results r) i.
Definition put_td (key : Z) (i : Z) (td : TestdataResult) : M unit :=
  r ← get_res key;
  _ ← vec_at (td_results r) i;
  put_res key (set_td_results (<[Z.to_nat i := td]> (td_results r)) r).
Definition modify_td (key : Z) (i : Z) (f : TestdataResult -> TestdataResult) : M unit :=
  td ← get_td key i; put_td key i (f td).

(** ** Hoare triples

    [Q] holds of every result; only the listed faults can occur. *)
Definition triple {A} (ok : fault -> Prop) (P : Judge -> Prop) (m : M A)
    (Q : A -> Judge -> Prop) : Prop :=
  forall s, P s ->
  match m s with Done (a, s') => Q a s' | Crash f => ok f end.

Section Triples.
Context {A B : Type} (ok : fault -> Prop).

Lemma triple_ret (P : Judge -> Prop) (a : A) (Q : A -> Judge -> Prop) :
  (forall s, P s -> Q a s) -> triple ok P (mret a) Q.
Proof. intros H s Hs. by apply H. Qed.

Lemma triple_bind P (m : M A) R (k : A -> M B) Q :
  triple ok P m R -> (forall a, triple ok (R a) (k a) Q) -> triple ok P (m ≫= k) Q.
Proof.
  intros Hm Hk s Hs. specialize (Hm s Hs). unfold mbind, M_bind.
  destruct (m s) as [[a s']|f]; [|done]. by apply Hk.
Qed.

Lemma triple_conseq P P' (m : M A) Q Q' :
  triple ok P' m Q' -> (forall s, P s -> P' s) -> (forall a s, Q' a s -> Q a s) ->
  triple ok P m Q.
Proof.
  intros Hm HP HQ s Hs. specialize (Hm s (HP s Hs)).
  destruct (m s) as [[a s']|f]; [|done]. by apply HQ.
Qed.

Lemma triple_get P (Q : Judge -> Judge -> Prop) :
  (forall s, P s -> Q s s) -> triple ok P get Q.
Proof. intros H s Hs. by apply H. Qed.

Lemma triple_modify P f (Q : unit -> Judge -> Prop) :
  (forall s, P s -> Q tt (f s)) -> triple ok P (modify f) Q.
Proof. intros H s Hs. by apply H. Qed.

Lemma triple_pre_pure (P : Judge -> Prop) (X : Prop) (m : M A) Q :
  (X -> triple ok P m Q) -> triple ok (fun s => X /\ P s) m Q.
Proof. intros H s [Hx Hs]. by apply H. Qed.
End Triples.

(** ** Running a computation at a state *)

Definition runs {A} (m : M A) (s : Judge) (a : A) (s' : Judge) : Prop := m s = Done (a, s').

Lemma bind_runs {A B} (m : M A) (k : A -> M B) s a s1 r :
  m s = Done (a, s1) -> k a s1 = r -> (m ≫= k) s = r.
Proof. unfold mbind, M_bind. by intros ->. Qed.
