(* ===== verification/Logs.v ===== *)
(** * The events an operation logs

    Every operation on the judge only appends events to its trace; [logs P] says
    that all of them satisfy [P]. *)

From S2P Require Import Prelude Data State.

Section Logs.
Context (P : Event -> Prop).

Definition logs {A} (m : M A) : Prop := forall s,
  match m s with
  | Done (_, s') => exists es, trace s' = trace s ++ es /\ Forall P es
  | Crash _ => True
  end.

Lemma logs_ret {A} (a : A) : logs (mret a).
Proof. intros s. exists []. by rewrite app_nil_r. Qed.

Lemma logs_bind {A B} (m : M A) (k : A -> M B) : logs m -> (forall a, logs (k a)) -> logs (m ≫= k).
Proof.
  intros Hm Hk s. specialize (Hm s). unfold mbind, M_bind. destruct (m s) as [[a s1]|]; [|done].
  specialize (Hk a s1). destruct (k a s1) as [[b s2]|]; [|done].
  destruct Hm as (es & E & H1), Hk as (es' & E' & H2). exists (es ++ es').
  rewrite E', E, (assoc_L (++)). split; [done|]. by apply Forall_app.
Qed.

Lemma logs_get : logs get.
Proof. intros s. exists []. by rewrite app_nil_r. Qed.

Lemma logs_modify f : (forall s, trace (f s) = trace s) -> logs (modify f).
Proof. intros Hf s. exists []. simpl. by rewrite Hf, app_nil_r. Qed.

Lemma logs_emit es : Forall P es -> logs (emit es).
Proof. intros He s. by exists es. Qed.

Lemma logs_crash {A} f : logs (crash f : M A).
Proof. done. Qed.

Lemma logs_or_crash {A} (o : option A) f : logs (or_crash o f).
Proof. destruct o; [apply logs_ret|apply logs_crash]. Qed.

Lemma logs_lift {A} (o : outcome A) : logs (lift_outcome o).
Proof. intros s. unfold lift_outcome. destruct o; [|done]. exists []. by rewrite app_nil_r. Qed.

Lemma logs_vec_at {A} (l : list A) i : logs (vec_at l i).
Proof. unfold vec_at. destruct (0 <=? i); [apply logs_or_crash|apply logs_crash]. Qed.

Lemma logs_when b m : logs m -> logs (when b m).
Proof. destruct b; [done|]. intros _. apply logs_ret. Qed.

End Logs.

Create HintDb logs.
#[export] Hint Resolve logs_ret logs_get logs_crash logs_or_crash logs_lift logs_vec_at : logs.
#[export] Hint Extern 1 (logs _ (modify _)) => (apply logs_modify; intros; done) : logs.

(** Takes a handler apart; what is left are the cases of [emit]. *)
Ltac step_logs :=
  repeat first
    [ solve [auto with logs]
    | apply logs_emit; solve [repeat constructor]
    | apply logs_when
    | apply logs_bind; [|intros ?]
    | match goal with |- logs _ (match ?x with _ => _ end) => destruct x end ].

Lemma logs_get_sub P key : logs P (get_sub key).
Proof. unfold get_sub. step_logs. Qed.
#[export] Hint Resolve logs_get_sub : logs.

Lemma logs_get_res P key : logs P (get_res key).
Proof. unfold get_res. step_logs. Qed.
Lemma logs_put_res P key r : logs P (put_res key r).
Proof. unfold put_res. step_logs. Qed.
#[export] Hint Resolve logs_get_res logs_put_res : logs.

Lemma logs_modify_res P key f : logs P (modify_res key f).
Proof. unfold modify_res. step_logs. Qed.
Lemma logs_put_td P key i td : logs P (put_td key i td).
Proof. unfold put_td. step_logs. Qed.
Lemma logs_get_td P key i : logs P (get_td key i).
Proof. unfold get_td. step_logs. Qed.
#[export] Hint Resolve logs_modify_res logs_put_td logs_get_td : logs.

Lemma logs_modify_td P key i f : logs P (modify_td key i f).
Proof. unfold modify_td. step_logs. Qed.
#[export] Hint Resolve logs_modify_td : logs.
