(* ===== verification/Specjudge.v ===== *)
(** * Reading what a special judge reports

    The five formats of src/tioj/submission.cpp (old, new/JSON, Polygon,
    Kattis and the summary's JSON) and the rules that turn them into a verdict
    and a score. *)

From S2P Require Import Prelude Enums Text Paths CNum Scores Stream Data.
From Stdlib Require Import SpecFloat.

Definition kMaxMessageLen : nat := 32768.

(** The score of an accepted test data, 100 in units of 10^-6. *)
Definition full_score : Z := 100000000.

Definition SetACOrContinue (last_stage : bool) (td : TestdataResult) : TestdataResult :=
  if last_stage then set_td_score full_score (set_td_verdict AC td) else td.

(** ** Override commands *)

Record override_state := { os_in : istream; os_td : TestdataResult; os_score_overriden : bool }.

Definition SPECJUDGE_OVERRIDE_SCORE : string := "SPECJUDGE_OVERRIDE_SCORE".
Definition SPECJUDGE_OVERRIDE_VERDICT : string := "SPECJUDGE_OVERRIDE_VERDICT".
Definition SPECJUDGE_OVERRIDE_TIME_US : string := "SPECJUDGE_OVERRIDE_TIME_US".
Definition SPECJUDGE_OVERRIDE_VSS_KIB : string := "SPECJUDGE_OVERRIDE_VSS_KIB".
Definition SPECJUDGE_OVERRIDE_RSS_KIB : string := "SPECJUDGE_OVERRIDE_RSS_KIB".

(** [if (fin >> x) target = x;] for a [long]. *)
Definition override_long (set : Z -> TestdataResult -> TestdataResult) (st : override_state)
    : override_state :=
  let '(v, s) := extract_long (os_in st) in
  {| os_in := s; os_td := match v with Some x => set x (os_td st) | None => os_td st end;
     os_score_overriden := os_score_overriden st |}.

(** The body of the loop for one command; [None] leaves the loop. *)
Definition override_command (break_on_non_match allow_score : bool) (cmd : string)
    (st : override_state) : option override_state :=
  if allow_score && bool_decide (cmd = SPECJUDGE_OVERRIDE_SCORE) then
    let '(v, s) := extract_ld (os_in st) in
    match v, stream_ok s with
    | Some score, true =>
        Some {| os_in := s; os_td := set_td_score (NormalizeScore score) (os_td st);
                os_score_overriden := true |}
    | _, _ => Some {| os_in := s; os_td := os_td st; os_score_overriden := os_score_overriden st |}
    end
  else if bool_decide (cmd = SPECJUDGE_OVERRIDE_VERDICT) then
    match extract_word (os_in st) with
    | (Some cmd, s) =>
        let td := set_td_verdict (AbrToVerdict cmd true) (os_td st) in
        let td :=
          if allow_score && negb (os_score_overriden st) && bool_decide (td_verdict td = AC)
          then set_td_score full_score td else td in
        Some {| os_in := s; os_td := td; os_score_overriden := os_score_overriden st |}
    | (None, s) => Some {| os_in := s; os_td := os_td st; os_score_overriden := os_score_overriden st |}
    end
  else if bool_decide (cmd = SPECJUDGE_OVERRIDE_TIME_US) then Some (override_long set_td_time st)
  else if bool_decide (cmd = SPECJUDGE_OVERRIDE_VSS_KIB) then Some (override_long set_td_vss st)
  else if bool_decide (cmd = SPECJUDGE_OVERRIDE_RSS_KIB) then Some (override_long set_td_rss st)
  else if break_on_non_match then None
  else Some st.

(** [while (fin >> cmd)]; every command takes at least a character, so the
    length of the text bounds the iterations. *)
Fixpoint override_loop (fuel : nat) (break_on_non_match allow_score : bool) (st : override_state)
    : TestdataResult :=
  match fuel with
  | O => os_td st
  | S fuel' =>
      match extract_word (os_in st) with
      | (None, _) => os_td st
      | (Some cmd, s) =>
          let st := {| os_in := s; os_td := os_td st; os_score_overriden := os_score_overriden st |} in
          match override_command break_on_non_match allow_score cmd st with
          | None => os_td st
          | Some st => override_loop fuel' break_on_non_match allow_score st
          end
      end
  end.

Definition ParseSpecjudgeOverrides (fin : istream) (td : TestdataResult)
    (break_on_non_match allow_score : bool) : TestdataResult :=
  override_loop (S (String.length (is_rest fin))) break_on_non_match allow_score
    {| os_in := fin; os_td := td; os_score_overriden := false |}.

(** ** The formats *)

Section Readers.
Context `{JsonText} (env : Env).

Definition ReadOldSpecjudgeResult (output_path : string) (last_stage : bool) (td : TestdataResult)
    : TestdataResult :=
  let fin := open_file (env_read env output_path) in
  match extract_int32 fin with
  | (Some x, fin) =>
      if x =? 0 then ParseSpecjudgeOverrides fin (SetACOrContinue last_stage td) true true
      else set_td_verdict WA td
  | (None, _) => set_td_verdict WA td
  end.

(** [it->get<long double>()] and [it->get<long>()] of a number. *)
Definition json_number_ld (j : json) : option spec_float :=
  match j with JInt z => Some (ld_of_Z z) | JFloat f => Some (ld_of_dbl f) | _ => None end.
Definition json_number_long (j : json) : option Z :=
  match j with JInt z => Some (to_long z) | JFloat f => Some (float_to_long f) | _ => None end.

(** The value assigned from the "score" entry; exceptions of [stold] are
    swallowed. *)
Definition json_score (j : json) : option Z :=
  match json_find j "score" with
  | Some (JStr s) => NormalizeScore <$> stold s
  | Some v => NormalizeScore <$> json_number_ld v
  | None => None
  end.

(** [ReadNumber(attr, target)]. *)
Definition json_long (j : json) (attr : string) : option Z :=
  v ← json_find j attr; json_number_long v.

Definition option_set {A B} (set : A -> B -> B) (o : option A) (b : B) : B :=
  match o with Some a => set a b | None => b end.

Definition parse_file (path : string) : option json := c ← env_read env path; json_parse c.

(** [None] is an exception of the JSON parser (an empty or missing file is one). *)
Definition ReadNewSpecjudgeResult (output_path : string) (td : TestdataResult)
    : option TestdataResult :=
  json ← parse_file output_path;
  let td :=
    match json_find json "verdict" with
    | Some (JStr v) =>
        let td := set_td_verdict (AbrToVerdict v true) td in
        if bool_decide (td_verdict td = AC) then set_td_score full_score td else td
    | _ => td
    end in
  let td := option_set set_td_score (json_score json) td in
  let td := option_set set_td_time (json_long json "time_us") td in
  let td := option_set set_td_vss (json_long json "vss_kib") td in
  let td := option_set set_td_rss (json_long json "rss_kib") td in
  mret
    match json_find json "message_type", json_find json "message" with
    | Some (JStr msg_type), Some (JStr msg) =>
        if bool_decide (msg_type = "text") || bool_decide (msg_type = "html") then
          set_message msg_type (String.substring 0 kMaxMessageLen msg) td
        else set_message "" "" td
    | _, _ => set_message "" "" td
    end.

Definition ReadPolygonSpecjudgeResult (code : Z) (output_path : string) (last_stage : bool)
    (td : TestdataResult) : TestdataResult :=
  if (code <? 50) && negb (code =? 0) && negb (code =? 7) then set_td_verdict WA td
  else
    let td := SetACOrContinue last_stage td in
    let fin := open_file (env_read env output_path) in
    let '(td, fin) :=
      if code =? 7 then
        match extract_word fin with
        | (Some meta, fin) =>
            if bool_decide (meta = "points") then
              let '(v, fin) := extract_ld fin in
              (set_td_score (NormalizeScore (default (S754_zero false) v)) td, fin)
            else (set_td_score 0 td, fin)
        | (None, fin) => (set_td_score 0 td, fin)
        end
      else if 50 <=? code then
        (set_td_score (to_int (to_int (code - 50) * (100000000 / 200))) td, fin)
      else (td, fin) in
    let td := if td_score td <? full_score then set_td_verdict WA td else td in
    if stream_ok fin then ParseSpecjudgeOverrides fin td false false else td.

(** [if (fin >> x) td_result.score = NormalizeScore(f(x));] at the start of a
    file that may not exist. *)
Definition score_from_file (path : string) (f : spec_float -> spec_float) (td : TestdataResult)
    : TestdataResult :=
  match extract_ld (open_file (env_read env path)) with
  | (Some x, s) => if stream_ok s then set_td_score (NormalizeScore (f x)) td else td
  | (None, _) => td
  end.

Definition ReadKattisSpecjudgeResult (code : Z) (user_output_path judge_dir : string)
    (last_stage : bool) (td : TestdataResult) : TestdataResult * list Event :=
  let '(td, evs) :=
    if code =? 42 then
      let td := SetACOrContinue last_stage td in
      let nextpass_path := path_append judge_dir "nextpass.in" in
      let '(td, evs) :=
        if last_stage then (td, [])
        else if env_is_regular env nextpass_path then
          (td, [EvMove nextpass_path user_output_path None])
        else (set_td_verdict AC td, []) in
      let td := score_from_file (path_append judge_dir "score_multiplier.txt")
                  (fun x => ld_mul x (ld_of_Z 100)) td in
      let td := score_from_file (path_append judge_dir "score.txt") (fun x => x) td in
      (td, evs)
    else (set_td_verdict WA td, []) in
  let td :=
    match env_read env (path_append judge_dir "teammessage.txt") with
    | Some msg => set_message "text" (String.substring 0 kMaxMessageLen msg) td
    | None => td
    end in
  let td :=
    match env_read env (path_append judge_dir "judgemessage.txt") with
    | Some msg => ParseSpecjudgeOverrides (open_stream msg) td true false
    | None => td
    end in
  (td, evs).

(** The special judge did not end the way its protocol demands. *)
Definition specjudge_failed (ty : SpecjudgeType) (has_output : bool) (si_code si_status : Z) : bool :=
  let polygon := bool_decide (ty = SPECJUDGE_POLYGON) in
  let kattis := bool_decide (ty = SPECJUDGE_KATTIS) in
  negb has_output || negb (si_code =? CLD_EXITED) ||
  (negb polygon && negb kattis && negb (si_status =? 0)) ||
  (polygon && (si_status =? 3)) ||
  (kattis && negb (si_status =? 42) && negb (si_status =? 43)).

Definition ReadSpecjudgeResult (sub : Submission) (info : cjail_result) (last_stage : bool)
    (output_path user_output_path tempdir_path : string) (td : TestdataResult)
    : TestdataResult * list Event :=
  let jre_verdict := if specjudge_re_as_wa sub then WA else JRE in
  if specjudge_failed (specjudge_type sub) (env_is_regular env output_path)
       (si_code info) (si_status info) then
    (if bool_decide (td_verdict td = NUL) then set_td_verdict jre_verdict td else td, [])
  else
    match specjudge_type sub with
    | SPECJUDGE_OLD => (ReadOldSpecjudgeResult output_path last_stage td, [])
    | SPECJUDGE_POLYGON =>
        (ReadPolygonSpecjudgeResult (si_status info) output_path last_stage td, [])
    | SPECJUDGE_KATTIS =>
        ReadKattisSpecjudgeResult (si_status info) user_output_path tempdir_path last_stage td
    | _ => (default td (ReadNewSpecjudgeResult output_path td), [])
    end.

(** The summary program's JSON; [None] is an exception of the parser. *)
Definition ReadSummaryResult (output_path : string) (res : SubmissionResult)
    : option SubmissionResult :=
  json ← parse_file output_path;
  let res :=
    match json_find json "verdict" with
    | Some (JStr v) => set_verdict (AbrToVerdict v false) res
    | _ => res
    end in
  let res := if bool_decide (verdict res = NUL) then set_verdict WA res else res in
  let res := option_set set_total_score (json_score json) res in
  let res := option_set (fun t r => set_totals (total_memory r) t r)
               (json_long json "total_time_us") res in
  let res := option_set (fun m r => set_totals m (total_time r) r)
               (json_long json "total_memory_kib") res in
  mret
    match json_find json "ce_message" with
    | Some (JStr m) => set_ce_message m res
    | _ => res
    end.
End Readers.

(** ** Termination of the override loop *)

Lemma override_long_length set st :
  (String.length (is_rest (os_in (override_long set st))) <= String.length (is_rest (os_in st)))%nat.
Proof.
  unfold override_long. pose proof (extract_int_length LONG_MIN LONG_MAX (os_in st)) as Hl.
  unfold extract_long. by destruct (extract_int _ _ _) as [v s].
Qed.

Lemma override_command_length brk sc cmd st st' :
  override_command brk sc cmd st = Some st' ->
  (String.length (is_rest (os_in st')) <= String.length (is_rest (os_in st)))%nat.
Proof.
  unfold override_command. case_match.
  { pose proof (extract_ld_length (os_in st)) as Hl. destruct (extract_ld _) as [[v|] s];
      [destruct (stream_ok s)|]; by intros [= <-]. }
  case_match.
  { destruct (extract_word (os_in st)) as [[w|] s] eqn:E; intros [= <-]; simpl.
    - apply extract_word_shrinks in E. lia.
    - pose proof (extract_word_length (os_in st)) as Hl. by rewrite E in Hl. }
  do 3 (case_match; [intros [= <-]; apply override_long_length|]).
  case_match; [done|]. by intros [= <-].
Qed.

(** Fuel beyond the length of the text changes nothing. *)
Lemma override_loop_fuel brk sc n m st :
  (String.length (is_rest (os_in st)) < n)%nat -> (String.length (is_rest (os_in st)) < m)%nat ->
  override_loop n brk sc st = override_loop m brk sc st.
Proof.
  revert m st. induction n as [|n IH]; intros [|m] st Hn Hm; try lia. simpl.
  destruct (extract_word (os_in st)) as [[w|] s] eqn:E; [|done].
  apply extract_word_shrinks in E.
  destruct (override_command _ _ _ _) as [st'|] eqn:Ec; [|done].
  apply override_command_length in Ec. simpl in Ec. apply IH; lia.
Qed.

(** The loop as its source reads: one command, then the rest of the input. *)
Definition overrides_from (brk sc : bool) (st : override_state) : TestdataResult :=
  override_loop (S (String.length (is_rest (os_in st)))) brk sc st.

(** The loop over override commands always ends, having executed exactly
    the commands of its input from left to right until a failed extraction or,
    where the format says so, an unknown command. *)
Theorem ParseSpecjudgeOverrides_unfold fin td brk sc :
  ParseSpecjudgeOverrides fin td brk sc =
    overrides_from brk sc {| os_in := fin; os_td := td; os_score_overriden := false |} /\
  forall st, overrides_from brk sc st =
    match extract_word (os_in st) with
    | (None, _) => os_td st
    | (Some cmd, s) =>
        let st := {| os_in := s; os_td := os_td st; os_score_overriden := os_score_overriden st |} in
        match override_command brk sc cmd st with
        | None => os_td st
        | Some st => overrides_from brk sc st
        end
    end.
Proof.
  split; [done|]. intros st. unfold overrides_from at 1. cbn [override_loop].
  destruct (extract_word (os_in st)) as [[w|] s] eqn:E; [|done]. cbv zeta.
  destruct (override_command _ _ _ _) as [st'|] eqn:Ec; [|done].
  apply override_command_length in Ec. apply extract_word_shrinks in E. simpl in Ec.
  unfold overrides_from. apply override_loop_fuel; lia.
Qed.

(** ** Bounds on scores and verdicts *)

Definition score_ok (x : Z) : Prop := Z.abs x <= 10 ^ 12.

(** The largest score any format assigns, or the value NaN converts to. *)
Definition score_or_nan (x : Z) : Prop := score_ok x \/ x = LONG_MIN.

Definition td_ok (td : TestdataResult) : Prop :=
  score_ok (td_score td) /\ verdict_lt (td_verdict td) CE = true.

Definition td_ok_nan (td : TestdataResult) : Prop :=
  score_or_nan (td_score td) /\ verdict_lt (td_verdict td) CE = true.

Lemma td_ok_weaken td : td_ok td -> td_ok_nan td.
Proof. intros [? ?]. split; [by left|done]. Qed.

Lemma score_ok_full : score_ok full_score.
Proof. by vm_compute. Qed.
Lemma score_ok_0 : score_ok 0.
Proof. by vm_compute. Qed.

Lemma NormalizeScore_ok x : number_ok x -> score_ok (NormalizeScore x).
Proof. intros [? ?]. by apply NormalizeScore_abs. Qed.

Lemma NormalizeScore_or_nan x : valid_ld x -> score_or_nan (NormalizeScore x).
Proof.
  intros Hv. destruct (is_nan x) eqn:E; [|left; by apply NormalizeScore_abs].
  right. by destruct x.
Qed.

Lemma SetACOrContinue_ok last td : td_ok td -> td_ok (SetACOrContinue last td).
Proof. intros [? ?]. by destruct last; split. Qed.

Lemma override_long_ok set st :
  (forall x td, td_ok td -> td_ok (set x td)) -> td_ok (os_td st) -> td_ok (os_td (override_long set st)).
Proof.
  intros Hset Htd. unfold override_long. destruct (extract_long _) as [[v|] s]; simpl; auto.
Qed.

Lemma override_command_ok brk sc cmd st st' :
  override_command brk sc cmd st = Some st' -> td_ok (os_td st) -> td_ok (os_td st').
Proof.
  unfold override_command. intros Hc Htd. revert Hc.
  case_match.
  { destruct (extract_ld (os_in st)) as [[v|] s] eqn:E; [|by intros [= <-]].
    apply extract_ld_ok in E. destruct (stream_ok s); intros [= <-]; [|done].
    split; [by apply NormalizeScore_ok|apply Htd]. }
  case_match.
  { destruct (extract_word _) as [[w|] s]; intros [= <-]; [|done]. simpl.
    case_match; (split; [|apply AbrToVerdict_runtime]); [apply score_ok_full|apply Htd]. }
  do 3 (case_match; [intros [= <-]; by apply override_long_ok|]).
  case_match; [done|]. by intros [= <-].
Qed.

Lemma override_loop_ok n brk sc st : td_ok (os_td st) -> td_ok (override_loop n brk sc st).
Proof.
  revert st. induction n as [|n IH]; intros st Htd; [done|]. simpl.
  destruct (extract_word _) as [[w|] s]; [|done].
  destruct (override_command _ _ _ _) as [st'|] eqn:E; [|done].
  apply IH. by eapply override_command_ok.
Qed.

Lemma ParseSpecjudgeOverrides_ok fin td brk sc :
  td_ok td -> td_ok (ParseSpecjudgeOverrides fin td brk sc).
Proof. intros Htd. by apply override_loop_ok. Qed.

Section Readers.
Context `{JsonText} (env : Env).

Lemma ReadOld_ok path last td : td_ok td -> td_ok (ReadOldSpecjudgeResult env path last td).
Proof.
  intros Htd. unfold ReadOldSpecjudgeResult.
  destruct (extract_int32 _) as [[x|] fin]; [destruct (x =? 0)|].
  - by apply ParseSpecjudgeOverrides_ok, SetACOrContinue_ok.
  - split; [apply Htd|done].
  - split; [apply Htd|done].
Qed.

Lemma set_score_ok x td : score_ok x -> td_ok td -> td_ok (set_td_score x td).
Proof. intros ? [? ?]. by split. Qed.

Lemma set_verdict_ok v td : verdict_lt v CE = true -> td_ok td -> td_ok (set_td_verdict v td).
Proof. intros ? [? ?]. by split. Qed.

Lemma ReadPolygon_ok code path last td :
  0 <= code < 256 -> td_ok td -> td_ok (ReadPolygonSpecjudgeResult env code path last td).
Proof.
  intros Hc Htd. unfold ReadPolygonSpecjudgeResult. case_match; [by apply set_verdict_ok|].
  cbv zeta. set (td1 := SetACOrContinue last td).
  assert (H1 : td_ok td1) by (by apply SetACOrContinue_ok).
  set (p := if code =? 7 then _ else _).
  assert (Hp : td_ok (fst p)).
  { unfold p. destruct (code =? 7).
    - destruct (extract_word _) as [[w|] fin]; [case_bool_decide|]; try (by apply set_score_ok).
      destruct (extract_ld fin) as [v fin'] eqn:E. apply set_score_ok; [|done].
      apply NormalizeScore_ok. destruct v as [v|]; [by eapply extract_ld_ok|done].
    - destruct (50 <=? code) eqn:E5; [|done]. apply set_score_ok; [|done].
      no_wrap 32 (code - 50).
      change (100000000 / 200) with 500000. rewrite wrap_signed_id by in_width. unfold score_ok. lia. }
  destruct p as [td2 fin]. simpl in Hp.
  assert (H3 : td_ok (if td_score td2 <? full_score then set_td_verdict WA td2 else td2))
    by (case_match; [by apply set_verdict_ok|done]).
  destruct (stream_ok fin); [by apply ParseSpecjudgeOverrides_ok|done].
Qed.

Lemma score_from_file_ok path f td :
  (forall x, number_ok x -> score_ok (NormalizeScore (f x))) -> td_ok td ->
  td_ok (score_from_file env path f td).
Proof.
  intros Hf Htd. unfold score_from_file. destruct (extract_ld _) as [[x|] s] eqn:E; [|done].
  case_match; [|done]. apply set_score_ok; [|done]. by eapply Hf, extract_ld_ok.
Qed.

Lemma score_times_100_ok x : number_ok x -> score_ok (NormalizeScore (ld_mul x (ld_of_Z 100))).
Proof.
  intros [Hv Hn]. apply NormalizeScore_abs; [auto with valid_ld|].
  assert (Hl : ld_of_Z 100 = S754_finite false 14411518807585587200 (-57)) by reflexivity.
  rewrite Hl. destruct x as [| | |s m e]; try done. by apply binary_round_aux_not_nan.
Qed.

Lemma ReadKattis_ok code upath dir last td :
  td_ok td -> td_ok (fst (ReadKattisSpecjudgeResult env code upath dir last td)).
Proof.
  intros Htd. unfold ReadKattisSpecjudgeResult.
  set (p := if code =? 42 then _ else _).
  assert (Hp : td_ok (fst p)).
  { unfold p. destruct (code =? 42); [|by apply set_verdict_ok].
    set (q := if last then _ else _).
    assert (Hq : td_ok (fst q)).
    { unfold q. pose proof (SetACOrContinue_ok last td Htd).
      repeat case_match; try done. by apply set_verdict_ok. }
    destruct q as [td1 evs]. simpl in *.
    apply score_from_file_ok; [intros; by apply NormalizeScore_ok|].
    apply score_from_file_ok; [apply score_times_100_ok|done]. }
  destruct p as [td1 evs]. simpl in *.
  case_match; [apply ParseSpecjudgeOverrides_ok|]; by case_match.
Qed.

Lemma json_score_or_nan j x : json_score j = Some x -> score_or_nan x.
Proof.
  unfold json_score. destruct (json_find j "score") as [[]|]; try done; simpl;
    try (intros [= <-]; apply NormalizeScore_or_nan; auto with valid_ld).
  destruct (stold s) eqn:E; [|done]. intros [= <-]. apply NormalizeScore_or_nan. by eapply stold_ok.
Qed.

Lemma ReadNew_ok path td td' :
  td_ok_nan td -> ReadNewSpecjudgeResult env path td = Some td' -> td_ok_nan td'.
Proof.
  intros Htd. unfold ReadNewSpecjudgeResult. destruct (parse_file env path) as [j|]; [|done]. simpl.
  set (td1 := match json_find j "verdict" with Some (JStr _) => _ | _ => _ end).
  assert (H1 : td_ok_nan td1).
  { unfold td1. repeat case_match; try done; (split; [|apply AbrToVerdict_runtime]);
      [left; apply score_ok_full|apply Htd]. }
  assert (H2 : td_ok_nan (option_set set_td_score (json_score j) td1)).
  { destruct (json_score j) eqn:E; [|done]. simpl. split; [by eapply json_score_or_nan|apply H1]. }
  assert (Hset : forall (f : Z -> TestdataResult -> TestdataResult) o t,
    (forall x t, td_ok_nan t -> td_ok_nan (f x t)) -> td_ok_nan t -> td_ok_nan (option_set f o t))
    by (intros f [] t Hf Ht; simpl; auto).
  intros [= <-]. repeat case_match; repeat (apply Hset; [by intros|]); try done;
    repeat (split; try apply H2).
Qed.
End Readers.

(** ** Properties *)

Section Properties.
Context `{JsonText} (env : Env).

Definition fixed_formats : list SpecjudgeType := [SPECJUDGE_OLD; SPECJUDGE_POLYGON; SPECJUDGE_KATTIS].

Lemma ReadSpecjudge_ok sub info last out upath dir td :
  0 <= si_status info < 256 -> td_ok td ->
  td_ok_nan (fst (ReadSpecjudgeResult env sub info last out upath dir td)) /\
  (specjudge_type sub ∈ fixed_formats ->
   td_ok (fst (ReadSpecjudgeResult env sub info last out upath dir td))).
Proof.
  intros Hs Htd. unfold ReadSpecjudgeResult. case_match.
  { assert (Hr : td_ok (if bool_decide (td_verdict td = NUL)
       then set_td_verdict (if specjudge_re_as_wa sub then WA else JRE) td else td)).
    { case_bool_decide; [|done]. apply set_verdict_ok; [by case_match|done]. }
    split; [by apply td_ok_weaken|done]. }
  assert (Hnew : td_ok_nan (default td (ReadNewSpecjudgeResult env out td))).
  { destruct (ReadNewSpecjudgeResult env out td) as [td'|] eqn:E; [|by apply td_ok_weaken].
    eapply ReadNew_ok; [|exact E]. by apply td_ok_weaken. }
  destruct (specjudge_type sub); simpl.
  - split; [done|]. unfold fixed_formats. rewrite !elem_of_cons, elem_of_nil. naive_solver.
  - pose proof (ReadOld_ok env out last td Htd). split; [by apply td_ok_weaken|done].
  - split; [done|]. unfold fixed_formats. rewrite !elem_of_cons, elem_of_nil. naive_solver.
  - pose proof (ReadPolygon_ok env _ out last td Hs Htd). split; [by apply td_ok_weaken|done].
  - pose proof (ReadKattis_ok env (si_status info) upath dir last td Htd).
    split; [by apply td_ok_weaken|done].
  - split; [done|]. unfold fixed_formats. rewrite !elem_of_cons, elem_of_nil. naive_solver.
Qed.

(** C32: whatever a special judge leaves in its output files, the verdict it
    gives is one of an execution (never a compilation verdict) and the score
    is within [-10^12, 10^12] for the line formats (old, Polygon and Kattis);
    for the JSON formats it may be one value more, the [LONG_MIN] that the text
    "nan" gives, which the code lets through. *)
Theorem ReadSpecjudgeResult_bounds sub info last out upath dir td :
  0 <= si_status info < 256 -> td_ok td ->
  td_ok_nan (fst (ReadSpecjudgeResult env sub info last out upath dir td)) /\
  (specjudge_type sub ∈ fixed_formats ->
   td_ok (fst (ReadSpecjudgeResult env sub info last out upath dir td))).
Proof. apply ReadSpecjudge_ok. Qed.

Definition exit_code_accepts (ty : SpecjudgeType) (code : Z) : Prop :=
  match ty with
  | SPECJUDGE_POLYGON => code = 0 \/ code = 7 \/ 50 <= code
  | SPECJUDGE_KATTIS => code = 42 \/ code = 43
  | _ => code = 0
  end.

(** C33: a test data that was not decided before becomes accepted only when the
    special judge exited by itself, left a regular output file and ended with
    an exit code its protocol allows (for Kattis the rejecting 43 too: the
    override commands of its message file may still accept). *)
Theorem accept_needs_protocol sub info last out upath dir td :
  td_verdict td = NUL ->
  td_verdict (fst (ReadSpecjudgeResult env sub info last out upath dir td)) = AC ->
  env_is_regular env out = true /\ si_code info = CLD_EXITED /\
  exit_code_accepts (specjudge_type sub) (si_status info).
Proof.
  intros Hn. unfold ReadSpecjudgeResult, specjudge_failed.
  destruct (env_is_regular env out) eqn:Er; simpl.
  2:{ rewrite Hn. simpl. by destruct (specjudge_re_as_wa sub). }
  destruct (Z.eqb_spec (si_code info) CLD_EXITED) as [Hc|]; simpl.
  2:{ rewrite Hn. simpl. by destruct (specjudge_re_as_wa sub). }
  intros Hac. split; [done|]. split; [done|]. revert Hac.
  destruct (specjudge_type sub); simpl;
    try (destruct (Z.eqb_spec (si_status info) 0); [done|simpl; rewrite Hn; simpl;
         by destruct (specjudge_re_as_wa sub)]).
  - destruct (Z.eqb_spec (si_status info) 3); simpl.
    { rewrite Hn. simpl. by destruct (specjudge_re_as_wa sub). }
    unfold ReadPolygonSpecjudgeResult.
    destruct (Z.ltb_spec (si_status info) 50), (Z.eqb_spec (si_status info) 0),
      (Z.eqb_spec (si_status info) 7); simpl; auto with lia.
    done.
  - destruct (Z.eqb_spec (si_status info) 42), (Z.eqb_spec (si_status info) 43); simpl; auto.
    rewrite Hn. simpl. by destruct (specjudge_re_as_wa sub).
Qed.

(** What a Polygon checker that writes no message decides.  In the last
    stage exit code 0 accepts with full score and codes from 50 on give half a
    point each, accepting from 250 on.  In an earlier stage a checker can only
    let the run continue with a code of at least 250: the score is 0 there, so
    that even exit code 0 is turned into a wrong answer. *)
Theorem Polygon_verdict code out last td :
  0 <= code < 256 -> env_read env out = Some "" -> td_score td = 0 -> td_verdict td = NUL ->
  let r := ReadPolygonSpecjudgeResult env code out last td in
  td_verdict r = (if (250 <=? code) || ((code =? 0) && last)
                  then (if last then AC else NUL) else WA) /\
  td_score r = (if code =? 0 then (if last then full_score else 0)
                else if 50 <=? code then (code - 50) * 500000 else 0).
Proof.
  intros Hc Hr Hs Hn. unfold ReadPolygonSpecjudgeResult. rewrite Hr.
  assert (Hov : forall t b1 b2, ParseSpecjudgeOverrides (open_stream "") t b1 b2 = t) by done.
  change (open_file (Some "")) with (open_stream "").
  unfold open_stream in *.
  destruct (Z.ltb_spec code 50), (Z.eqb_spec code 0), (Z.eqb_spec code 7), (Z.leb_spec 50 code);
    try lia; simpl; rewrite ?Hov.
  - destruct last; simpl; [subst; split; reflexivity|]. rewrite Hs. by subst.
  - subst. destruct last; simpl; rewrite ?Hs; done.
  - assert ((250 <=? code) = false) as -> by lia. done.
  - change (100000000 / 200) with 500000.
    no_wrap 32 (code - 50).
    rewrite (wrap_signed_id 32) by in_width.
    unfold full_score. destruct (Z.leb_spec 250 code), (Z.ltb_spec ((code - 50) * 500000) 100000000);
      try lia; by destruct last.
Qed.

(** A summary program always decides the verdict: whatever JSON it prints,
    the verdict is not NUL and the total score stays in range or is the value
    of NaN. *)
Theorem ReadSummaryResult_decides out res res' :
  score_ok (total_score res) -> ReadSummaryResult env out res = Some res' ->
  verdict res' <> NUL /\ score_or_nan (total_score res') /\ td_results res' = td_results res.
Proof.
  intros Hs. unfold ReadSummaryResult. destruct (parse_file env out) as [j|]; [|done]. simpl.
  set (r1 := match json_find j "verdict" with Some (JStr _) => _ | _ => _ end).
  assert (H1 : total_score r1 = total_score res /\ td_results r1 = td_results res)
    by (unfold r1; by repeat case_match).
  set (r2 := if bool_decide (verdict r1 = NUL) then _ else _).
  assert (H2 : verdict r2 <> NUL /\ total_score r2 = total_score res /\ td_results r2 = td_results res)
    by (unfold r2; by case_bool_decide).
  clearbody r1 r2. destruct H2 as (Hv & Ht & Htd).
  assert (Hsc : score_or_nan (total_score (option_set set_total_score (json_score j) r2))).
  { destruct (json_score j) eqn:E; simpl; [by eapply json_score_or_nan|]. left. by rewrite Ht. }
  intros [= <-].
  destruct (json_score j), (json_long j "total_time_us"), (json_long j "total_memory_kib"),
    (json_find j "ce_message") as [[]|]; done.
Qed.
End Properties.

(** ** Concrete runs *)

(** A JSON library that reads two documents. *)
#[local] Instance example_json : JsonText := {|
  json_parse := fun s =>
    if bool_decide (s = "ac") then Some (JObj [("verdict", JStr "AC"); ("score", JStr "42.5")])
    else None;
  json_dump := fun _ => "";
|}.

Definition example_sub (ty : SpecjudgeType) : Submission := {|
  submission_internal_id := 1; submission_id := 1; contest_id := 0; priority := 0;
  submission_time := 0; submitter_id := 0; submitter_name := ""; submitter_nickname := "";
  lang := GCC_CPP_17; problem_id := 1; specjudge_type := ty; interlib_type := INTERLIB_NONE;
  summary_type := SUMMARY_NONE; specjudge_lang := GCC_CPP_17; summary_lang := GCC_CPP_17;
  problem_prog_lang := GCC_CPP_17; user_compile_args := ""; specjudge_compile_args := "";
  problem_prog_compile_args := ""; stages := 1; problem_prog_stages := ∅;
  judge_between_stages := false; judge_abnormally_terminated := false;
  specjudge_re_as_wa := true; sandbox_strict := false; process_limit := 1;
  default_scoring_args := []; testdata := []; group_score := []; skip_group := false;
  reporter := {| ReportStartCompiling := false; ReportOverallResult := false;
    ReportScoringResult := false; ReportCEMessage := false; ReportJCEMessage := false;
    ReportFinalized := false |};
  report_intermediate_stage := false; remove_submission := true;
|}.

Definition exited (code : Z) : cjail_result := {|
  timekill := 0; oomkill := 0; si_code := CLD_EXITED; si_status := code; hiwater_vm := 0;
  ru_maxrss := 0; ru_utime := zero_timeval; ru_stime := zero_timeval; real_time := zero_timeval;
|}.

Definition one_file (path contents : string) : Env := {|
  env_is_regular := fun p => bool_decide (p = path);
  env_exists := fun p => bool_decide (p = path);
  env_file_size := fun p => if bool_decide (p = path) then Some 0 else None;
  env_read := fun p => if bool_decide (p = path) then Some contents else None;
  env_header_files := [];
|}.

Lemma ReadSpecjudgeResult_bounds_witness :
  let env := one_file "out" ("0 SPECJUDGE_OVERRIDE_SCORE -99999999999 SPECJUDGE_OVERRIDE_VERDICT CE") in
  let r := fst (ReadSpecjudgeResult env (example_sub SPECJUDGE_OLD) (exited 0) true "out" "u" "d"
                  empty_TestdataResult) in
  td_score r = - 10 ^ 12 /\ td_verdict r = NUL /\ td_ok_nan r.
Proof.
  split; [vm_compute; reflexivity|]. split; [vm_compute; reflexivity|].
  apply (ReadSpecjudgeResult_bounds (one_file "out" "0 SPECJUDGE_OVERRIDE_SCORE -99999999999 SPECJUDGE_OVERRIDE_VERDICT CE")
    (example_sub SPECJUDGE_OLD) (exited 0) true "out" "u" "d" empty_TestdataResult);
    [split; [discriminate|reflexivity]|split; [discriminate|reflexivity]].
Defined.

Lemma accept_needs_protocol_witness :
  let env := one_file "out" "ac" in
  let td := fst (ReadSpecjudgeResult env (example_sub SPECJUDGE_NEW) (exited 0) true "out" "u" "d"
                   empty_TestdataResult) in
  td_score td = 42500000 /\ exit_code_accepts SPECJUDGE_NEW 0.
Proof.
  split; [vm_compute; reflexivity|].
  apply (accept_needs_protocol (one_file "out" "ac") (example_sub SPECJUDGE_NEW) (exited 0) true
    "out" "u" "d" empty_TestdataResult); reflexivity.
Defined.

Lemma Polygon_verdict_witness :
  td_verdict (ReadPolygonSpecjudgeResult (one_file "out" "") 0 "out" false empty_TestdataResult) = WA.
Proof.
  apply (Polygon_verdict (one_file "out" "") 0 "out" false empty_TestdataResult);
    [split; [discriminate|reflexivity]|reflexivity..].
Defined.

Lemma ReadSummaryResult_decides_witness :
  verdict (default empty_SubmissionResult
    (ReadSummaryResult (one_file "out" "ac") "out" empty_SubmissionResult)) <> NUL.
Proof.
  apply (ReadSummaryResult_decides (one_file "out" "ac") "out" empty_SubmissionResult
    (default empty_SubmissionResult
      (ReadSummaryResult (one_file "out" "ac") "out" empty_SubmissionResult)));
    [discriminate|vm_compute; reflexivity].
Defined.
