(* ===== verification/Push.v ===== *)
(** * Enqueueing a submission

    [PushSubmission] of src/tioj/submission.cpp: the dependency graph of a
    submission is built from local [TaskEntry] objects, which are then moved
    into the task list. *)

From S2P Require Import Prelude Enums Data TaskGraph TdOrder State.

(** The local entries by id (an entry moved into the task list is not touched
    again), the id counter and the shared graph. *)
Record Build := { b_count : Z; b_store : gmap Z TaskEntry; b_graph : TaskGraph }.

Definition with_stages (n : Z) (s : Submission) : Submission := {|
  submission_internal_id := submission_internal_id s; submission_id := submission_id s;
  contest_id := contest_id s; priority := priority s; submission_time := submission_time s;
  submitter_id := submitter_id s; submitter_name := submitter_name s;
  submitter_nickname := submitter_nickname s; lang := lang s; problem_id := problem_id s;
  specjudge_type := specjudge_type s; interlib_type := interlib_type s;
  summary_type := summary_type s; specjudge_lang := specjudge_lang s;
  summary_lang := summary_lang s; problem_prog_lang := problem_prog_lang s;
  user_compile_args := user_compile_args s; specjudge_compile_args := specjudge_compile_args s;
  problem_prog_compile_args := problem_prog_compile_args s; stages := n;
  problem_prog_stages := problem_prog_stages s; judge_between_stages := judge_between_stages s;
  judge_abnormally_terminated := judge_abnormally_terminated s;
  specjudge_re_as_wa := specjudge_re_as_wa s; sandbox_strict := sandbox_strict s;
  process_limit := process_limit s; default_scoring_args := default_scoring_args s;
  testdata := testdata s; group_score := group_score s; skip_group := skip_group s;
  reporter := reporter s; report_intermediate_stage := report_intermediate_stage s;
  remove_submission := remove_submission s |}.

(** [TaskEntry(sub_id, task, priority, order)]: a local object. *)
Definition new_entry (sub_id : Z) (task : Task) (prio order : Z) (st : Build) : Z * Build :=
  let id := b_count st in
  (id, {| b_count := id + 1;
          b_store := <[id := {| te_id := id; te_submission_internal_id := sub_id; te_task := task;
                                te_priority := prio; te_task_order := order; te_indeg := 0;
                                te_edges := [] |}]> (b_store st);
          b_graph := b_graph st |}).

Definition add_edge (b : Z) (e : TaskEntry) : TaskEntry := with_edges (te_edges e ++ [b]) e.
Definition incr_indeg (e : TaskEntry) : TaskEntry := with_indeg (te_indeg e + 1) e.

Definition Link (a b : Z) (st : Build) : Build :=
  {| b_count := b_count st;
     b_store := alter incr_indeg b (alter (add_edge b) a (b_store st));
     b_graph := b_graph st |}.

(** [InsertTaskList(std::move(entry))]. *)
Definition move_entry (id : Z) (st : Build) : Build :=
  {| b_count := b_count st; b_store := b_store st;
     b_graph := match b_store st !! id with
                | Some e => InsertTaskList e (b_graph st)
                | None => b_graph st
                end |}.

(** [vector::back()]; every vector has [stages >= 1] elements. *)
Definition back (l : list Z) : Z := default 0 (last l).

(** The tasks of a submission. *)
Definition exec_task (i j : Z) : Task := {| tk_type := EXECUTE; tk_subtask := i; tk_stage := j |}.
Definition score_task (i j : Z) : Task := {| tk_type := SCORING; tk_subtask := i; tk_stage := j |}.
Definition summary_task : Task := {| tk_type := SUMMARY; tk_subtask := 0; tk_stage := 0 |}.
Definition compile_task (s : CompileSubtask) : Task :=
  {| tk_type := COMPILE; tk_subtask := CompileSubtask_to_Z s; tk_stage := 0 |}.

Section Entries.
Context (id prio : Z).

Section OneTestdata.
Context (i order : Z).

(** The loop over the stages with judging between stages: the ids of
    [executes[i]] and [scorings[i]]; [prev] is [scorings[i][j - 1]]. *)
Fixpoint stages_between (n : nat) (j : Z) (prev : option Z) (st : Build)
    : list Z * list Z * Build :=
  match n with
  | O => ([], [], st)
  | S n' =>
      let '(e, st) := new_entry id (exec_task i j) prio order st in
      let '(s, st) := new_entry id (score_task i j) prio order st in
      let st := Link e s st in
      let st := match prev with Some p => Link p e st | None => st end in
      let '(es, ss, st) := stages_between n' (j + 1) (Some s) st in
      (e :: es, s :: ss, st)
  end.

(** The loop without; [prev] is [executes[i][j - 1]]. *)
Fixpoint stages_execute (n : nat) (j : Z) (prev : option Z) (st : Build) : list Z * Build :=
  match n with
  | O => ([], st)
  | S n' =>
      let '(e, st) := new_entry id (exec_task i j) prio order st in
      let st := match prev with Some p => Link p e st | None => st end in
      let '(es, st) := stages_execute n' (j + 1) (Some e) st in
      (e :: es, st)
  end.

Definition one_testdata (sub : Submission) (summary : Z) (st : Build) : list Z * list Z * Build :=
  let n := Z.to_nat (stages sub) in
  let '(es, ss, st) :=
    if judge_between_stages sub then stages_between n 0 None st
    else
      let '(es, st) := stages_execute n 0 None st in
      let '(s, st) := new_entry id (score_task i (stages sub - 1)) prio order st in
      (es, [s], Link (back es) s st) in
  (es, ss, Link (back ss) summary st).
End OneTestdata.

(** The loop over the test data, from index [i] on; [orders] is the rest of
    [td_order]. *)
Fixpoint all_testdata (sub : Submission) (summary : Z) (i : Z) (orders : list nat) (st : Build)
    : list (list Z) * list (list Z) * Build :=
  match orders with
  | [] => ([], [], st)
  | o :: orders' =>
      let '(es, ss, st) := one_testdata i (Z.of_nat o) sub summary st in
      let '(executes, scorings, st) := all_testdata sub summary (i + 1) orders' st in
      (es :: executes, ss :: scorings, st)
  end.

(** A compile task before [targets] (before the summary when there are no
    test data). *)
Definition add_compile (subtask : CompileSubtask) (targets : list Z) (no_tds : bool) (summary : Z)
    (st : Build) : Build :=
  let '(compile, st) :=
    new_entry id (compile_task subtask) prio 0 st in
  let st := foldl (fun st t => Link compile t st) st targets in
  let st := if no_tds then Link compile summary st else st in
  move_entry compile st.
End Entries.

(** [i[k]] for every vector [i] of the list. *)
Definition column (k : Z) (rows : list (list Z)) : outcome (list Z) :=
  if k <? 0 then (if bool_decide (rows = []) then Done [] else Crash OutOfBounds)
  else match mapM (fun row => row !! Z.to_nat k) rows with
       | Some l => Done l
       | None => Crash OutOfBounds
       end.

Fixpoint find_non_prob (prog_stages : gset Z) (i : Z) (n : nat) : Z :=
  match n with
  | O => -1
  | S n' => if bool_decide (i ∈ prog_stages) then find_non_prob prog_stages (i + 1) n' else i
  end.

(** [*set.begin()], or -1. *)
Definition first_of_set (s : gset Z) : Z :=
  match elements s with [] => -1 | x :: l => foldr Z.min x l end.

(** The whole graph of a submission, built on top of [st]. *)
Definition build_graph (sub : Submission) (id : Z) (st : Build) : outcome Build :=
  let prio := priority sub in
  let td_order := compute_td_order (skip_group sub) (map td_groups (testdata sub)) in
  let '(summary, st) :=
    new_entry id summary_task prio 0 st in
  let '(executes, scorings, st) := all_testdata id prio sub summary 0 td_order st in
  let no_tds := bool_decide (executes = []) in
  let first_non_prob_stage := find_non_prob (problem_prog_stages sub) 0 (Z.to_nat (stages sub)) in
  let first_prob_stage := first_of_set (problem_prog_stages sub) in
  let compile_before (cond : bool) subtask k rows (st : Build) :=
    if cond then
      match column k rows with
      | Done targets => Done (add_compile id prio subtask targets no_tds summary st)
      | Crash f => Crash f
      end
    else Done st in
  match compile_before (negb (first_non_prob_stage =? -1)) USERPROG first_non_prob_stage executes st with
  | Crash f => Crash f
  | Done st =>
  match compile_before (negb (first_prob_stage =? -1)) PROBPROG first_prob_stage executes st with
  | Crash f => Crash f
  | Done st =>
  match compile_before (negb (bool_decide (specjudge_type sub = SJ_NORMAL))) SPECJUDGE 0 scorings st with
  | Crash f => Crash f
  | Done st =>
  let st :=
    if bool_decide (summary_type sub = SUMMARY_CUSTOM)
    then add_compile id prio CS_SUMMARY [] true summary st else st in
  let st := foldl (fun st e => move_entry e st) st (concat executes) in
  let st := foldl (fun st e => move_entry e st) st (concat scorings) in
  Done (move_entry summary st)
  end end end.

(** [max_queue] is 0 when unlimited. *)
Definition PushSubmission (sub : Submission) (max_queue : Z) : M bool :=
  s ← get;
  if (0 <? max_queue) && (max_queue <=? Z.of_nat (size (submission_list s))) then mret false
  else
    let sub := with_stages (Z.min (Z.max 1 (stages sub)) 32) sub in
    let id := to_int (submission_internal_id sub) in
    st ← lift_outcome (build_graph sub id
           {| b_count := task_count s; b_store := ∅; b_graph := graph s |});
    _ ← modify (set_task_count (b_count st));
    _ ← modify (set_graph (b_graph st));
    _ ← modify (fun s => set_submission_list
          (match submission_list s !! id with
           | Some _ => submission_list s
           | None => <[id := {| sr_sub := sub; sr_result := empty_SubmissionResult |}]> (submission_list s)
           end) s);
    _ ← modify (fun s =>
          match submission_id_map s !! submission_id sub with
          | None => set_submission_id_map (<[submission_id sub := id]> (submission_id_map s)) s
          | Some old =>
              set_submission_id_map (<[submission_id sub := id]> (submission_id_map s))
                (set_cancelled_list ({[old]} ∪ cancelled_list s) s)
          end);
    mret true.
