(* ===== verification/PushBuild.v ===== *)
(** * The graph of a push under construction

    The invariant kept by [new_entry], [Link] and [move_entry], and what the loops
    over the stages of one test data build. *)

From S2P Require Import Prelude Enums Data TaskGraph TdOrder State Push.

(** ** Extension of the local graph *)

Definition task_at (st : Build) (k : Z) : option Task := te_task <$> b_store st !! k.

(** Tasks are never forgotten or changed, edges never dropped. *)
Record ext (st st' : Build) : Prop := {
  ext_task : forall k t, task_at st k = Some t -> task_at st' k = Some t;
  ext_edge : forall a b, edge (b_store st) a b -> edge (b_store st') a b;
}.

#[export] Instance ext_preorder : PreOrder ext.
Proof.
  split; [by split|]. intros x y z [H1 H2] [H3 H4]. split; auto.
Qed.

Lemma ext_reach st st' a b : ext st st' -> reach (b_store st) a b -> reach (b_store st') a b.
Proof.
  intros He Hr. induction Hr as [a b Hab|a b c Hab _ IH].
  - apply tc_once. by apply He.
  - eapply tc_l; [by apply He|done].
Qed.

(** Tasks of increasing rank depend on each other. *)
Definition chain (st : Build) (l : list Z) : Prop :=
  forall k k' t t', k ∈ l -> k' ∈ l -> task_at st k = Some t -> task_at st k' = Some t' ->
  rank t < rank t' -> reach (b_store st) k k'.

Lemma task_at_new id task prio o st k :
  task_at (snd (new_entry id task prio o st)) k =
    if bool_decide (k = b_count st) then Some task else task_at st k.
Proof.
  unfold task_at. simpl. case_bool_decide as Hd.
  - subst. by rewrite lookup_insert_eq.
  - rewrite lookup_insert_ne; [done|congruence].
Qed.

Lemma Link_lookup a b st u :
  b_store (Link a b st) !! u =
    (fun e => with_indeg (te_indeg e + if bool_decide (u = b) then 1 else 0)
                (with_edges (te_edges e ++ if bool_decide (u = a) then [b] else []) e))
      <$> b_store st !! u.
Proof.
  unfold Link, incr_indeg, add_edge, with_indeg, with_edges. simpl. rewrite !lookup_alter.
  repeat case_decide; repeat case_bool_decide; subst; try congruence;
    destruct (b_store st !! _) as [[]|]; simpl; by rewrite ?app_nil_r, ?Z.add_0_r.
Qed.

Lemma task_at_Link a b st k : task_at (Link a b st) k = task_at st k.
Proof. unfold task_at. rewrite Link_lookup. by destruct (b_store st !! k). Qed.

Lemma task_at_dom st k : is_Some (task_at st k) <-> k ∈ dom (b_store st).
Proof. unfold task_at. by rewrite fmap_is_Some, elem_of_dom. Qed.

Lemma task_at_elem st k t : task_at st k = Some t -> k ∈ dom (b_store st).
Proof. intros Hk. apply task_at_dom. by eexists. Qed.

Lemma edge_Link a b st u v :
  edge (b_store (Link a b st)) u v <->
  edge (b_store st) u v \/ (u = a /\ v = b /\ is_Some (task_at st a)).
Proof.
  unfold edge, task_at. rewrite Link_lookup, fmap_is_Some. split.
  - intros (e & (e0 & He0 & ->)%fmap_Some & Hv). simpl in Hv.
    apply elem_of_app in Hv as [Hv|Hv]; [eauto|].
    case_bool_decide as Hd; [|by apply elem_of_nil in Hv]. subst.
    apply list_elem_of_singleton in Hv as ->. eauto.
  - intros [(e & -> & Hv)|(-> & -> & [e ->])]; eexists; (split; [done|]); simpl; [set_solver|].
    rewrite bool_decide_true by done. set_solver.
Qed.

Lemma edge_new id task prio o st u v :
  b_store st !! b_count st = None ->
  edge (b_store (snd (new_entry id task prio o st))) u v <-> edge (b_store st) u v.
Proof.
  intros Hn. unfold edge. simpl. rewrite lookup_insert. case_decide; subst.
  - rewrite Hn. split; [|naive_solver]. intros (e & [= <-] & Hv). by apply elem_of_nil in Hv.
  - done.
Qed.

Lemma ext_new id task prio o st :
  b_store st !! b_count st = None -> ext st (snd (new_entry id task prio o st)).
Proof.
  intros Hn. split.
  - intros k t Hk. rewrite task_at_new. case_bool_decide; [|done]. subst.
    unfold task_at in Hk. by rewrite Hn in Hk.
  - intros a b. by rewrite edge_new.
Qed.

Lemma ext_Link a b st : ext st (Link a b st).
Proof.
  split; [intros k t; by rewrite task_at_Link|]. intros u v Huv. apply edge_Link. by left.
Qed.

Lemma reach_Link a b st : is_Some (task_at st a) -> reach (b_store (Link a b st)) a b.
Proof. intros Ha. apply tc_once, edge_Link. by right. Qed.

Lemma ext_move k st : ext st (move_entry k st).
Proof. by split. Qed.

(** ** The invariant of the construction *)

(** [ins] are the local entries already moved into the task list. *)
Record Binv (id prio c0 : Z) (g0 : TaskGraph) (st : Build) (ins : list Z) : Prop := {
  bi_count : c0 <= b_count st;
  bi_key : forall k e, b_store st !! k = Some e ->
    c0 <= k < b_count st /\ te_id e = k /\ te_submission_internal_id e = id /\ te_priority e = prio;
  bi_edges : forall k e u, b_store st !! k = Some e -> u ∈ te_edges e ->
    exists e', b_store st !! u = Some e' /\ rank (te_task e) < rank (te_task e');
  bi_indeg : forall k e, b_store st !! k = Some e -> te_indeg e = in_count k (b_store st);
  bi_ins : NoDup ins /\ forall k, k ∈ ins -> k ∈ dom (b_store st);
  bi_list : forall u, task_list (b_graph st) !! u =
    match task_list g0 !! u with
    | Some e => Some e
    | None => if bool_decide (u ∈ ins) then b_store st !! u else None
    end;
  bi_nodup : NoDup (task_queue (b_graph st));
  bi_queue : forall u, u ∈ task_queue (b_graph st) <->
    u ∈ task_queue g0 \/ (u ∈ ins /\ exists e, b_store st !! u = Some e /\ te_indeg e = 0);
}.

Section Construction.
Context (id prio c0 : Z) (g0 : TaskGraph).
#[local] Abbreviation inv := (Binv id prio c0 g0).

Lemma inv_fresh st ins : inv st ins -> b_store st !! b_count st = None.
Proof.
  intros Hi. destruct (b_store st !! b_count st) as [e|] eqn:E; [|done].
  apply (bi_key _ _ _ _ _ _ Hi) in E. lia.
Qed.

Lemma inv_new st ins task o : inv st ins -> inv (snd (new_entry id task prio o st)) ins.
Proof.
  intros Hi. pose proof (inv_fresh _ _ Hi) as Hf. destruct Hi as [Hc Hk He Hd [Hnd Hin] Hl Hq1 Hq2].
  assert (Hne : forall k, k ∈ ins -> k <> b_count st).
  { intros k Hki ->. apply Hin in Hki. apply elem_of_dom in Hki as [? Hki]. congruence. }
  assert (Hcount : forall u, in_count u (<[b_count st := {| te_id := b_count st;
      te_submission_internal_id := id; te_task := task; te_priority := prio; te_task_order := o;
      te_indeg := 0; te_edges := [] |}]> (b_store st)) = in_count u (b_store st)).
  { intros u. unfold in_count. rewrite fmap_insert, edge_sum_insert; [done|]. by rewrite lookup_fmap, Hf. }
  split; simpl.
  - lia.
  - intros k e. rewrite lookup_insert. case_decide; [intros [= <-]; subst; simpl; lia|].
    intros Hke%Hk. lia.
  - intros k e u. rewrite lookup_insert. case_decide.
    + intros [= <-] Hu. by apply elem_of_nil in Hu.
    + intros Hke Hu. destruct (He k e u Hke Hu) as (e' & He' & Hr). exists e'. split; [|done].
      rewrite lookup_insert_ne; [done|]. congruence.
  - intros k e. rewrite lookup_insert, Hcount. case_decide; [|apply Hd].
    intros [= <-]. subst. simpl. unfold in_count. rewrite edge_sum_zero; [done|].
    intros k es. rewrite lookup_fmap. intros (e & Hke & ->)%fmap_Some Hu.
    destruct (He k e _ Hke Hu) as (e' & He' & _). congruence.
  - split; [done|]. intros k Hki. apply Hin in Hki. rewrite dom_insert. set_solver.
  - intros u. rewrite Hl. destruct (task_list g0 !! u); [done|]. case_bool_decide; [|done].
    rewrite lookup_insert_ne; [done|]. by apply not_eq_sym, Hne.
  - done.
  - intros u. rewrite Hq2. split; (intros [?|[Hu Hx]]; [by left|right; split; [done|]]).
    + rewrite lookup_insert_ne; [done|]. by apply not_eq_sym, Hne.
    + rewrite lookup_insert_ne in Hx; [done|]. by apply not_eq_sym, Hne.
Qed.

Lemma in_count_Link a b st u : is_Some (task_at st a) ->
  in_count u (b_store (Link a b st)) = in_count u (b_store st) + if bool_decide (u = b) then 1 else 0.
Proof.
  unfold task_at. rewrite fmap_is_Some. intros [e He]. unfold in_count.
  rewrite (edge_sum_delete u a (te_edges e ++ [b]) (te_edges <$> b_store (Link a b st))).
  2:{ rewrite lookup_fmap, Link_lookup, He. simpl. by rewrite bool_decide_true. }
  rewrite (edge_sum_delete u a (te_edges e) (te_edges <$> b_store st)) by (by rewrite lookup_fmap, He).
  rewrite count_app, count_cons, count_nil.
  assert (delete a (te_edges <$> b_store (Link a b st)) = delete a (te_edges <$> b_store st)) as ->.
  { apply map_eq. intros k. rewrite !lookup_delete. case_decide; [done|].
    rewrite !lookup_fmap, Link_lookup. destruct (b_store st !! k); [|done]. simpl.
    rewrite bool_decide_false by done. by rewrite app_nil_r. }
  lia.
Qed.

Lemma inv_Link a b st ins ta tb :
  inv st ins -> task_at st a = Some ta -> task_at st b = Some tb -> rank ta < rank tb ->
  a ∉ ins -> b ∉ ins -> inv (Link a b st) ins.
Proof.
  intros [Hc Hk He Hd [Hnd Hin] Hl Hq1 Hq2] Ha Hb Hr Hai Hbi.
  assert (Hsome : is_Some (task_at st a)) by by eexists.
  split; try done.
  - intros k e. rewrite Link_lookup. intros (e0 & He0 & ->)%fmap_Some. by apply Hk in He0.
  - intros k e u. rewrite Link_lookup. intros (e0 & He0 & ->)%fmap_Some Hu. simpl in Hu.
    apply elem_of_app in Hu as [Hu|Hu].
    + destruct (He k e0 u He0 Hu) as (e' & He' & Hr'). rewrite Link_lookup, He'. simpl. eauto.
    + case_bool_decide; [|by apply elem_of_nil in Hu]. subst. apply list_elem_of_singleton in Hu as ->.
      unfold task_at in Ha, Hb. rewrite He0 in Ha.
      destruct (b_store st !! b) as [eb|] eqn:Eb; [|done]. simpl in Ha, Hb.
      rewrite Link_lookup, Eb. simplify_eq. simpl. eauto.
  - intros k e. rewrite in_count_Link by done. rewrite Link_lookup.
    intros (e0 & He0 & ->)%fmap_Some. simpl. by rewrite (Hd k e0 He0).
  - split; [done|]. intros k Hki%Hin%task_at_dom. apply task_at_dom. by rewrite task_at_Link.
  - intros u. simpl. rewrite Hl. destruct (task_list g0 !! u); [done|]. case_bool_decide; [|done].
    change (alter incr_indeg b (alter (add_edge b) a (b_store st))) with (b_store (Link a b st)).
    rewrite Link_lookup. destruct (b_store st !! u) as [[]|]; [|done]. simpl.
    rewrite !bool_decide_false by congruence. unfold with_indeg, with_edges. simpl.
    by rewrite app_nil_r, Z.add_0_r.
  - intros u. simpl. rewrite Hq2.
    change (alter incr_indeg b (alter (add_edge b) a (b_store st))) with (b_store (Link a b st)).
    rewrite Link_lookup. split; (intros [?|[Hu Hx]]; [by left|right; split; [done|]]).
    + destruct Hx as (e & -> & Hz). eexists. split; [done|]. simpl.
      rewrite bool_decide_false by congruence. lia.
    + destruct Hx as (e & (e0 & He0 & ->)%fmap_Some & Hz). simpl in Hz.
      rewrite bool_decide_false in Hz by congruence. eexists. split; [done|lia].
Qed.

Hypothesis Hold : forall u, is_Some (task_list g0 !! u) -> u < c0.
Hypothesis Hoq : forall u, u ∈ task_queue g0 -> is_Some (task_list g0 !! u).

Lemma inv_move k st ins :
  inv st ins -> k ∈ dom (b_store st) -> k ∉ ins -> inv (move_entry k st) (k :: ins).
Proof.
  intros Hi [e Hk]%elem_of_dom Hki. pose proof (bi_key _ _ _ _ _ _ Hi k e Hk) as (Hr & Hid & _).
  assert (Hko : task_list g0 !! k = None).
  { destruct (task_list g0 !! k) eqn:E; [|done]. assert (k < c0) by (apply Hold; by eexists). lia. }
  destruct Hi as [Hc Hkey He Hd [Hnd Hin] Hl Hq1 Hq2].
  unfold move_entry. rewrite Hk. split; simpl; try done.
  - split; [by constructor|]. intros u [->|Hu]%elem_of_cons; [by apply elem_of_dom_2 in Hk|by apply Hin].
  - intros u. rewrite Hid, Hl, Hko, bool_decide_false by done.
    rewrite lookup_insert. case_decide.
    + subst u. rewrite Hko, bool_decide_true by set_solver. done.
    + rewrite Hl. destruct (task_list g0 !! u); [done|].
      by rewrite (bool_decide_ext (u ∈ k :: ins) (u ∈ ins)) by set_solver.
  - rewrite Hid. case_match eqn:Ez; [|done]. constructor; [|done]. rewrite Hq2.
    intros [Hq%Hoq|[? _]]; [|done]. by destruct Hq as [? Hq]; rewrite Hko in Hq.
  - intros u. rewrite Hid. transitivity (u ∈ task_queue (b_graph st) \/ (u = k /\ te_indeg e = 0)).
    { destruct (Z.eqb_spec (te_indeg e) 0); [rewrite elem_of_cons|]; naive_solver. }
    rewrite Hq2, elem_of_cons. split.
    + intros [[?|?]|[-> ?]]; [naive_solver..|]. right. split; [by left|]. eauto.
    + intros [?|[[->|?] (e' & He' & Hz)]]; [naive_solver| |naive_solver].
      right. simplify_eq. done.
Qed.
End Construction.

(** ** The shape of the graph *)

(** [st'] has the entries of [st] and the [new] ones, allocated since. *)
Record grown (st st' : Build) (new : list Z) : Prop := {
  gr_ext : ext st st';
  gr_count : b_count st <= b_count st';
  gr_dom : forall k, k ∈ dom (b_store st') <-> k ∈ dom (b_store st) \/ k ∈ new;
  gr_nodup : NoDup new;
  gr_new : forall k, k ∈ new -> b_count st <= k < b_count st';
}.

#[export] Instance grown_perm st st' : Proper (Permutation ==> iff) (grown st st').
Proof.
  assert (forall l k, l ≡ₚ k -> grown st st' l -> grown st st' k) as H.
  { intros l k Hlk [H1 H2 H3 H4 H5]. split; try done.
    - intros x. by rewrite H3, Hlk.
    - by rewrite <- Hlk.
    - intros x. rewrite <- Hlk. apply H5. }
  intros l k Hlk. split; by apply H.
Qed.

Lemma grown_trans st st1 st2 l k : grown st st1 l -> grown st1 st2 k -> grown st st2 (l ++ k).
Proof.
  intros [E1 C1 D1 N1 L1] [E2 C2 D2 N2 L2]. split.
  - by etrans.
  - lia.
  - intros x. rewrite D2, D1, elem_of_app. tauto.
  - apply NoDup_app. split_and!; try done. intros x Hx%L1 Hx2%L2. lia.
  - intros x [Hx%L1|Hx%L2]%elem_of_app; lia.
Qed.

Lemma grown_Link a b st : grown st (Link a b st) [].
Proof.
  split; [apply ext_Link|simpl; lia| |constructor|].
  - intros k. rewrite <- !task_at_dom, task_at_Link. set_solver.
  - intros k Hk. by apply elem_of_nil in Hk.
Qed.

Lemma grown_move k st : grown st (move_entry k st) [].
Proof.
  split; [apply ext_move|simpl; lia|set_solver|constructor|]. intros u Hu. by apply elem_of_nil in Hu.
Qed.

Lemma grown_refl st : grown st st [].
Proof. split; [done|lia|set_solver|constructor|]. intros u Hu. by apply elem_of_nil in Hu. Qed.

Lemma chain_perm st l k : l ≡ₚ k -> chain st l -> chain st k.
Proof. intros Hlk Hc a b t t'. rewrite <- Hlk. apply Hc. Qed.

(** A task in front of the one of least rank. *)
Lemma chain_cons st a b l ta tb :
  chain st (b :: l) -> task_at st a = Some ta -> task_at st b = Some tb ->
  edge (b_store st) a b -> rank ta < rank tb ->
  (forall k t, k ∈ l -> task_at st k = Some t -> rank tb < rank t) -> chain st (a :: b :: l).
Proof.
  intros Hc Ha Hb He Hr Hmin k k' t t' Hk Hk' Ht Ht' Hlt.
  assert (Hge : forall u tu, u ∈ b :: l -> task_at st u = Some tu -> rank tb <= rank tu).
  { intros u tu [->|Hu]%elem_of_cons Htu; [by simplify_eq|]. specialize (Hmin u tu Hu Htu). lia. }
  apply elem_of_cons in Hk as [->|Hk], Hk' as [->|Hk']; simplify_eq.
  - lia.
  - apply elem_of_cons in Hk' as [->|Hk']; [by apply tc_once|].
    eapply tc_l; [done|]. eapply (Hc b k'); eauto; set_solver.
  - specialize (Hge k t Hk Ht). lia.
  - by eapply Hc.
Qed.

(** A task behind the one of greatest rank. *)
Lemma chain_snoc st l b s tb ts :
  chain st l -> b ∈ l -> task_at st b = Some tb -> task_at st s = Some ts ->
  edge (b_store st) b s -> rank tb < rank ts ->
  (forall k t, k ∈ l -> task_at st k = Some t -> k = b \/ rank t < rank tb) -> chain st (l ++ [s]).
Proof.
  intros Hc Hbl Hb Hs He Hr Hmax k k' t t' Hk Hk' Ht Ht' Hlt.
  apply elem_of_app in Hk as [Hk|Hk%list_elem_of_singleton],
    Hk' as [Hk'|Hk'%list_elem_of_singleton]; subst; simplify_eq.
  - by eapply Hc.
  - destruct (Hmax k t Hk Ht) as [->|Hlt']; [by apply tc_once|].
    eapply tc_r; [|done]. by eapply Hc.
  - destruct (Hmax k' t' Hk' Ht') as [->|Hlt']; simplify_eq; lia.
  - lia.
Qed.

Lemma chain_ext st st' l :
  ext st st' -> (forall k, k ∈ l -> k ∈ dom (b_store st)) -> chain st l -> chain st' l.
Proof.
  intros He Hl Hc k k' t t' Hk Hk' Ht Ht' Hlt.
  destruct (proj2 (task_at_dom st k) (Hl k Hk)) as [u Hu].
  destruct (proj2 (task_at_dom st k') (Hl k' Hk')) as [u' Hu'].
  pose proof (ext_task _ _ He _ _ Hu). pose proof (ext_task _ _ He _ _ Hu'). simplify_eq.
  eapply ext_reach; [done|]. by eapply Hc.
Qed.

(** A list that keeps a dependency chain through [prev]. *)
Definition with_prev (prev : option Z) (l : list Z) : list Z :=
  match prev with Some p => p :: l | None => l end.

(** The entries [l] hold the tasks [f j], [f (j + 1)], ... *)
Definition holds (st : Build) (f : Z -> Task) (j : Z) (l : list Z) : Prop :=
  forall m k, l !! m = Some k -> task_at st k = Some (f (j + Z.of_nat m)).

Lemma holds_cons st f j k l :
  task_at st k = Some (f j) -> holds st f (j + 1) l -> holds st f j (k :: l).
Proof.
  intros Hk Hl [|m] u Hu; simpl in Hu; simplify_eq.
  - by rewrite Z.add_0_r.
  - rewrite (Hl m u Hu). do 2 f_equal. lia.
Qed.

Lemma holds_elem st f j l k :
  holds st f j l -> k ∈ l -> exists m, j <= m < j + Z.of_nat (length l) /\ task_at st k = Some (f m).
Proof.
  intros Hl [m Hm]%list_elem_of_lookup. exists (j + Z.of_nat m).
  apply lookup_lt_Some in Hm as Hlt. split; [lia|by apply Hl].
Qed.

Lemma holds_ext st st' f j l : ext st st' -> holds st f j l -> holds st' f j l.
Proof. intros He Hl m k Hk. by apply He, Hl. Qed.

Section Shape.
Context (id prio c0 : Z) (g0 : TaskGraph).
#[local] Abbreviation inv := (Binv id prio c0 g0).

Lemma grown_new st ins task o :
  inv st ins -> grown st (snd (new_entry id task prio o st)) [b_count st].
Proof.
  intros Hi. pose proof (inv_fresh _ _ _ _ _ _ Hi). split.
  - by apply ext_new.
  - simpl. lia.
  - intros k. rewrite <- !task_at_dom, task_at_new, list_elem_of_singleton.
    case_bool_decide; [naive_solver|]. naive_solver.
  - apply NoDup_singleton.
  - intros k ->%list_elem_of_singleton. simpl. lia.
Qed.

Lemma inv_below st ins k : inv st ins -> k ∈ dom (b_store st) -> k < b_count st.
Proof. intros Hi [e He]%elem_of_dom. apply (bi_key _ _ _ _ _ _ Hi) in He. lia. Qed.

Lemma inv_ins_below st ins k : inv st ins -> k ∈ ins -> k < b_count st.
Proof. intros Hi Hk. eapply inv_below; [done|]. by apply Hi. Qed.

Lemma new_not_ins st st' ins new k :
  inv st ins -> grown st st' new -> k ∈ new -> k ∉ ins.
Proof. intros Hi Hg Hk Hki. apply (gr_new _ _ _ Hg) in Hk. apply (inv_ins_below st) in Hki; [lia|done]. Qed.

Lemma new_spec st ins task o : inv st ins ->
  exists k st1, new_entry id task prio o st = (k, st1) /\ inv st1 ins /\ grown st st1 [k] /\
    task_at st1 k = Some task /\ k ∉ ins.
Proof.
  intros Hi. eexists _, _. split; [done|].
  split; [exact (inv_new _ _ _ _ st ins task o Hi)|].
  split; [exact (grown_new st ins task o Hi)|]. split.
  - pose proof (task_at_new id task prio o st (b_count st)) as Ht. by rewrite bool_decide_true in Ht.
  - intros Hin. apply (inv_ins_below st) in Hin; [lia|done].
Qed.

Lemma Link_spec a b st ins ta tb :
  inv st ins -> task_at st a = Some ta -> task_at st b = Some tb -> rank ta < rank tb ->
  a ∉ ins -> b ∉ ins ->
  inv (Link a b st) ins /\ grown st (Link a b st) [] /\ edge (b_store (Link a b st)) a b.
Proof.
  intros Hi Ha Hb Hr Hai Hbi. split; [by eapply inv_Link|]. split; [apply grown_Link|].
  apply edge_Link. right. by rewrite Ha.
Qed.

Lemma Link_prev_spec prev b st ins f tb :
  inv st ins -> (forall p, prev = Some p -> task_at st p = Some f /\ p ∉ ins) ->
  task_at st b = Some tb -> rank f < rank tb -> b ∉ ins ->
  exists st', (match prev with Some p => Link p b st | None => st end) = st' /\
    inv st' ins /\ grown st st' [] /\ (forall p, prev = Some p -> edge (b_store st') p b).
Proof.
  intros Hi Hp Hb Hr Hbi. destruct prev as [p|]; eexists; (split; [done|]).
  - destruct (Hp p eq_refl) as [Htp Hpi].
    destruct (Link_spec p b st ins f tb) as (? & ? & ?); try done.
    split_and!; try done. by intros ? [= ->].
  - split_and!; try done. apply grown_refl.
Qed.

(** [chain] for a row that [prev] comes before. *)
Lemma chain_prev st prev e l f te :
  chain st (e :: l) -> (forall p, prev = Some p -> task_at st p = Some f /\ edge (b_store st) p e) ->
  task_at st e = Some te -> rank f < rank te ->
  (forall k t, k ∈ l -> task_at st k = Some t -> rank te < rank t) -> chain st (with_prev prev (e :: l)).
Proof.
  intros Hc Hp He Hr Hmin. destruct prev as [p|]; [|done].
  destruct (Hp p eq_refl) as [Htp Hpe]. by eapply chain_cons.
Qed.

Lemma stages_between_spec i order n j prev st ins :
  inv st ins ->
  (forall p, prev = Some p -> task_at st p = Some (score_task i (j - 1)) /\ p ∉ ins) ->
  let '(es, ss, st') := stages_between id prio i order n j prev st in
  inv st' ins /\ grown st st' (es ++ ss) /\ length es = n /\ length ss = n /\
  holds st' (exec_task i) j es /\ holds st' (score_task i) j ss /\
  chain st' (with_prev prev (es ++ ss)).
Proof.
  revert j prev st. induction n as [|n IH]; intros j prev st Hi Hp; cbn [stages_between].
  { split_and!; try done; [apply grown_refl|].
    destruct prev; [|intros k k' t t' Hk; by apply elem_of_nil in Hk].
    intros k k' t t' ->%list_elem_of_singleton ->%list_elem_of_singleton ?? Hlt. simplify_eq. lia. }
  destruct (new_spec st ins (exec_task i j) order Hi) as (e & st1 & -> & Hi1 & Hg1 & He1 & Hei).
  destruct (new_spec st1 ins (score_task i j) order Hi1) as (s & st2 & -> & Hi2 & Hg2 & Hs2 & Hsi).
  assert (He2 : task_at st2 e = Some (exec_task i j)) by (by apply Hg2).
  destruct (Link_spec e s st2 ins _ _ Hi2 He2 Hs2) as (Hi3 & Hg3 & Hes); [unfold rank; simpl; lia|done..|].
  set (st3 := Link e s st2) in *.
  destruct (Link_prev_spec prev e st3 ins (score_task i (j - 1)) (exec_task i j))
    as (st4 & -> & Hi4 & Hg4 & Hpe); [done| |by apply Hg3|unfold rank; simpl; lia|done|].
  { intros p Hpp. destruct (Hp p Hpp). split; [|done]. by apply Hg3, Hg2, Hg1. }
  pose proof (IH (j + 1) (Some s) st4 Hi4) as IHn.
  destruct (stages_between id prio i order n (j + 1) (Some s) st4) as [[es ss] st5].
  assert (Hs4 : task_at st4 s = Some (score_task i j)) by (by apply Hg4, Hg3).
  destruct IHn as (Hi5 & Hg5 & Hle & Hls & Hhe & Hhs & Hc).
  { intros p [= <-]. split; [|done]. rewrite Hs4. do 2 f_equal. lia. }
  assert (Hg : grown st st5 (e :: s :: es ++ ss)).
  { apply (grown_trans st st4 st5 [e; s]); [|done].
    apply (grown_trans st st1 st4 [e] [s]); [done|].
    rewrite <- (app_nil_r [s]). eapply grown_trans; [done|].
    rewrite <- (app_nil_r []). by eapply grown_trans. }
  assert (Hperm : e :: s :: es ++ ss ≡ₚ (e :: es) ++ s :: ss) by solve_Permutation.
  assert (Hes5 : task_at st5 e = Some (exec_task i j)) by (by apply Hg5, Hg4, Hg3).
  assert (Hss5 : task_at st5 s = Some (score_task i j)) by (by apply Hg5).
  split; [done|]. split; [by rewrite <- Hperm|]. simpl length.
  split; [by rewrite Hle|]. split; [by rewrite Hls|].
  split; [by apply holds_cons|]. split; [by apply holds_cons|].
  assert (Hmin : forall k t, k ∈ es ++ ss -> task_at st5 k = Some t -> rank (score_task i j) < rank t).
  { intros k t [Hk|Hk]%elem_of_app Ht.
    - destruct (holds_elem _ _ _ _ _ Hhe Hk) as (m & Hm & Htm). simplify_eq. unfold rank. simpl. lia.
    - destruct (holds_elem _ _ _ _ _ Hhs Hk) as (m & Hm & Htm). simplify_eq. unfold rank. simpl. lia. }
  assert (Hc2 : chain st5 (e :: s :: es ++ ss)).
  { eapply chain_cons; [exact Hc|done|done| |unfold rank; simpl; lia|done]. by apply Hg5, Hg4. }
  apply (chain_perm _ (with_prev prev (e :: s :: es ++ ss)));
    [destruct prev; simpl with_prev; by rewrite Hperm|].
  eapply (chain_prev _ _ _ _ (score_task i (j - 1))); [exact Hc2| |done|unfold rank; simpl; lia|].
  - intros p Hpp. destruct (Hp p Hpp) as [Htp _]. split; [by apply Hg5, Hg4, Hg3, Hg2, Hg1|].
    by apply Hg5, Hpe.
  - intros k t [->|Hk]%elem_of_cons Ht; [simplify_eq; unfold rank; simpl; lia|].
    etrans; [|by apply (Hmin k)]. unfold rank. simpl. lia.
Qed.

Lemma stages_execute_spec i order n j prev st ins :
  inv st ins ->
  (forall p, prev = Some p -> task_at st p = Some (exec_task i (j - 1)) /\ p ∉ ins) ->
  let '(es, st') := stages_execute id prio i order n j prev st in
  inv st' ins /\ grown st st' es /\ length es = n /\ holds st' (exec_task i) j es /\
  chain st' (with_prev prev es).
Proof.
  revert j prev st. induction n as [|n IH]; intros j prev st Hi Hp; cbn [stages_execute].
  { split_and!; try done; [apply grown_refl|].
    destruct prev; [|intros k k' t t' Hk; by apply elem_of_nil in Hk].
    intros k k' t t' ->%list_elem_of_singleton ->%list_elem_of_singleton ?? Hlt. simplify_eq. lia. }
  destruct (new_spec st ins (exec_task i j) order Hi) as (e & st1 & -> & Hi1 & Hg1 & He1 & Hei).
  destruct (Link_prev_spec prev e st1 ins (exec_task i (j - 1)) (exec_task i j))
    as (st2 & -> & Hi2 & Hg2 & Hpe); [done| |done|unfold rank; simpl; lia|done|].
  { intros p Hpp. destruct (Hp p Hpp). split; [|done]. by apply Hg1. }
  pose proof (IH (j + 1) (Some e) st2 Hi2) as IHn.
  destruct (stages_execute id prio i order n (j + 1) (Some e) st2) as [es st3].
  assert (He2 : task_at st2 e = Some (exec_task i j)) by (by apply Hg2).
  destruct IHn as (Hi3 & Hg3 & Hle & Hhe & Hc).
  { intros p [= <-]. split; [|done]. rewrite He2. do 2 f_equal. lia. }
  assert (He3 : task_at st3 e = Some (exec_task i j)) by (by apply Hg3).
  split; [done|]. split.
  { apply (grown_trans st st2 st3 [e]); [|done]. by apply (grown_trans st st1 st2 [e] []). }
  simpl length. split; [by rewrite Hle|]. split; [by apply holds_cons|].
  eapply (chain_prev _ _ _ _ (exec_task i (j - 1))); [exact Hc| |done|unfold rank; simpl; lia|].
  - intros p Hpp. destruct (Hp p Hpp) as [Htp _]. split; [by apply Hg3, Hg2, Hg1|].
    by apply Hg3, Hpe.
  - intros k t Hk Ht. destruct (holds_elem _ _ _ _ _ Hhe Hk) as (m & Hm & Htm).
    simplify_eq. unfold rank. simpl. lia.
Qed.
End Shape.
