(* ===== verification/PushRows.v ===== *)
(** * Rows and compile tasks

    The tasks of one test data form a dependency chain that ends in the summary;
    compile tasks come before a column of the rows. *)

From S2P Require Import Prelude Enums Data TaskGraph TdOrder State Push PushBuild.

(** ** A row of the graph: the tasks of one test data *)

Lemma holds_back st f j l :
  holds st f j l -> l <> [] ->
  back l ∈ l /\ task_at st (back l) = Some (f (j + Z.of_nat (length l) - 1)).
Proof.
  intros Hh Hne. unfold back. rewrite last_lookup.
  destruct l as [|k l]; [done|]. cbn [length Init.Nat.pred].
  destruct (lookup_lt_is_Some_2 (k :: l) (length l)) as [x Hx]; [simpl; lia|].
  rewrite Hx. simpl. split; [by apply list_elem_of_lookup_2 in Hx|].
  rewrite (Hh _ _ Hx). do 2 f_equal. simpl. lia.
Qed.

Lemma holds_inj st f j l k k' :
  (forall a b, f a = f b -> a = b) -> holds st f j l -> k ∈ l -> k' ∈ l ->
  task_at st k = task_at st k' -> k = k'.
Proof.
  intros Hf Hl [m Hm]%list_elem_of_lookup [m' Hm']%list_elem_of_lookup.
  rewrite (Hl m k Hm), (Hl m' k' Hm'). intros [= E%Hf].
  assert (m = m') as -> by lia. by simplify_eq.
Qed.

Record row (st : Build) (summary i n j0 : Z) (es ss : list Z) : Prop := {
  row_scores : holds st (score_task i) j0 ss;
  row_slen : j0 + Z.of_nat (length ss) = n;
  row_len : Z.of_nat (length es) = n;
  row_exec : holds st (exec_task i) 0 es;
  row_score : forall s, s ∈ ss -> exists j, 0 <= j < n /\ task_at st s = Some (score_task i j);
  row_first : exists s, ss !! 0%nat = Some s /\ forall k, k ∈ ss -> k = s \/ reach (b_store st) s k;
  row_chain : chain st (es ++ ss);
  row_uniq : forall k k' t, k ∈ es ++ ss -> k' ∈ es ++ ss ->
    task_at st k = Some t -> task_at st k' = Some t -> k = k';
  row_sum : forall k, k ∈ es ++ ss -> reach (b_store st) k summary;
}.

Lemma row_intro st summary i n j0 es ss :
  Z.of_nat (length es) = n -> holds st (exec_task i) 0 es ->
  0 <= j0 -> j0 + Z.of_nat (length ss) = n -> ss <> [] -> holds st (score_task i) j0 ss ->
  chain st (es ++ ss) -> edge (b_store st) (back ss) summary -> row st summary i n j0 es ss.
Proof.
  intros Hle Hhe Hj0 Hls Hne Hhs Hc Hsum.
  destruct (holds_back _ _ _ _ Hhs Hne) as [Hbi Hbt].
  assert (Hsc : forall s, s ∈ ss -> exists j, j0 <= j < n /\ task_at st s = Some (score_task i j)).
  { intros s Hs. destruct (holds_elem _ _ _ _ _ Hhs Hs) as (m & Hm & Ht). exists m. split; [lia|done]. }
  split; try done.
  - intros s Hs. destruct (Hsc s Hs) as (j & Hj & Ht). exists j. split; [lia|done].
  - destruct ss as [|s ss]; [done|]. exists s. split; [done|].
    intros k Hk. pose proof (Hhs 0%nat s eq_refl) as Hts.
    destruct (holds_elem _ _ _ _ _ Hhs Hk) as (m & Hm & Htm).
    destruct (decide (m = j0)) as [->|Hmj].
    + left. eapply (holds_inj st (score_task i) j0 (s :: ss)); [by intros ?? [= ->]|done..|set_solver|].
      rewrite Htm, Hts. do 2 f_equal. simpl. lia.
    + right. eapply (Hc s k); [set_solver|set_solver|done|done|]. unfold rank. simpl. lia.
  - intros k k' t Hk Hk' Ht Ht'. apply elem_of_app in Hk as [Hk|Hk], Hk' as [Hk'|Hk'].
    + eapply (holds_inj st (exec_task i) 0 es); [by intros ?? [= ->]|done..|by rewrite Ht, Ht'].
    + destruct (holds_elem _ _ _ _ _ Hhe Hk) as (m & _ & ?), (Hsc _ Hk') as (? & _ & ?). by simplify_eq.
    + destruct (holds_elem _ _ _ _ _ Hhe Hk') as (m & _ & ?), (Hsc _ Hk) as (? & _ & ?). by simplify_eq.
    + eapply (holds_inj st (score_task i) j0 ss); [by intros ?? [= ->]|done..|by rewrite Ht, Ht'].
  - intros k Hk. destruct (decide (k = back ss)) as [->|Hkb]; [by apply tc_once|].
    eapply tc_r; [|done].
    assert (exists t, task_at st k = Some t /\ rank t < rank (score_task i (n - 1))) as (t & Ht & Hr).
    { apply elem_of_app in Hk as [Hk|Hk].
      - destruct (holds_elem _ _ _ _ _ Hhe Hk) as (m & Hm & Ht). eexists. split; [done|].
        unfold rank. simpl. lia.
      - destruct (Hsc k Hk) as (m & Hm & Ht). exists (score_task i m). split; [done|].
        unfold rank. simpl. assert (m <> n - 1) as Hmn; [|lia]. intros ->. apply Hkb.
        eapply (holds_inj st (score_task i) j0 ss); [by intros ?? [= ->]|done..|].
        rewrite Ht, Hbt. do 2 f_equal. lia. }
    eapply (Hc k (back ss)); [done|set_solver|done|done|]. eapply Z.lt_le_trans; [done|].
    unfold rank. simpl. lia.
Qed.

Lemma row_ext st st' summary i n j0 es ss :
  ext st st' -> row st summary i n j0 es ss -> row st' summary i n j0 es ss.
Proof.
  intros He [H8 H9 H1 H2 H3 H4 H5 H6 H7].
  assert (Hdom : forall k, k ∈ es ++ ss -> k ∈ dom (b_store st)).
  { intros k [Hk|Hk]%elem_of_app.
    - destruct (holds_elem _ _ _ _ _ H2 Hk) as (m & _ & Ht). by eapply task_at_elem.
    - destruct (H3 k Hk) as (m & _ & Ht). by eapply task_at_elem. }
  split; try done.
  - by eapply holds_ext.
  - by eapply holds_ext.
  - intros s Hs. destruct (H3 s Hs) as (j & Hj & Ht). exists j. split; [done|]. by apply He.
  - destruct H4 as (s & Hs & Hr). exists s. split; [done|]. intros k Hk.
    destruct (Hr k Hk); [by left|right]. by eapply ext_reach.
  - by eapply chain_ext.
  - intros k k' t Hk Hk' Ht Ht'.
    destruct (proj2 (task_at_dom st k) (Hdom k Hk)) as [u Hu].
    destruct (proj2 (task_at_dom st k') (Hdom k' Hk')) as [u' Hu'].
    pose proof (ext_task _ _ He _ _ Hu). pose proof (ext_task _ _ He _ _ Hu'). simplify_eq. eauto.
  - intros k Hk. eapply ext_reach; [done|]. by apply H7.
Qed.

(** The stage of the first scoring task of a test data. *)
Definition first_scoring (sub : Submission) : Z :=
  if judge_between_stages sub then 0 else stages sub - 1.

Section Rows.
Context (id prio c0 : Z) (g0 : TaskGraph) (sub : Submission) (summary : Z).
Hypothesis Hstages : 1 <= stages sub <= 32.
#[local] Abbreviation inv := (Binv id prio c0 g0).

Lemma one_testdata_spec i order st ins :
  inv st ins -> task_at st summary = Some summary_task -> summary ∉ ins ->
  let '(es, ss, st') := one_testdata id prio i order sub summary st in
  inv st' ins /\ grown st st' (es ++ ss) /\ row st' summary i (stages sub) (first_scoring sub) es ss.
Proof.
  intros Hi Hsum Hsi. unfold one_testdata. set (n := Z.to_nat (stages sub)).
  set (j0 := first_scoring sub).
  assert (Hbefore : exists es ss st1,
    (if judge_between_stages sub then stages_between id prio i order n 0 None st
     else
       let '(es, st) := stages_execute id prio i order n 0 None st in
       let '(s, st) := new_entry id (score_task i (stages sub - 1)) prio order st in
       (es, [s], Link (back es) s st)) = (es, ss, st1) /\
    inv st1 ins /\ grown st st1 (es ++ ss) /\ Z.of_nat (length es) = stages sub /\
    holds st1 (exec_task i) 0 es /\ 0 <= j0 /\ j0 + Z.of_nat (length ss) = stages sub /\ ss <> [] /\
    holds st1 (score_task i) j0 ss /\ chain st1 (es ++ ss)).
  { subst j0. unfold first_scoring. destruct (judge_between_stages sub).
    - pose proof (stages_between_spec id prio c0 g0 i order n 0 None st ins Hi ltac:(done)) as Hb.
      destruct (stages_between _ _ _ _ _ _ _ _) as [[es ss] st1].
      destruct Hb as (? & ? & Hle & Hls & ? & ? & ?). exists es, ss, st1.
      split_and!; try done; try lia. destruct ss; [simpl in Hls; lia|done].
    - pose proof (stages_execute_spec id prio c0 g0 i order n 0 None st ins Hi ltac:(done)) as Hb.
      destruct (stages_execute _ _ _ _ _ _ _ _) as [es st1].
      destruct Hb as (Hi1 & Hg1 & Hle & Hh & Hc).
      destruct (new_spec id prio c0 g0 st1 ins (score_task i (stages sub - 1)) order Hi1)
        as (s & st2 & -> & Hi2 & Hg2 & Hs & Hsn).
      assert (Hne : es <> []) by (intros ->; simpl in Hle; lia).
      destruct (holds_back _ _ _ _ Hh Hne) as [Hbi Hbt].
      destruct (Link_spec id prio c0 g0 (back es) s st2 ins _ _ Hi2 (ext_task _ _ (gr_ext _ _ _ Hg2) _ _ Hbt) Hs)
        as (Hi3 & Hg3 & He); [unfold rank; simpl; lia|by eapply (new_not_ins id prio c0 g0 st st1)|done|].
      set (st3 := Link (back es) s st2) in *.
      assert (Hx : ext st1 st3) by (etrans; [apply Hg2|apply Hg3]).
      exists es, [s], st3. split_and!; try done; try (simpl; lia).
      + eapply grown_trans; [done|]. rewrite <- (app_nil_r [s]). by eapply grown_trans.
      + by eapply holds_ext.
      + apply holds_cons; [by apply Hg3|]. intros m k. by rewrite lookup_nil.
      + eapply chain_snoc; [| exact Hbi | apply Hx; exact Hbt | apply Hg3; exact Hs | done | |].
        * eapply chain_ext; [done| |exact Hc]. intros k Hk. apply (gr_dom _ _ _ Hg1). by right.
        * unfold rank. simpl. lia.
        * intros k t Hk Ht. destruct (holds_elem _ _ _ _ _ Hh Hk) as (m & Hm & Htm).
          pose proof (ext_task _ _ Hx _ _ Htm). simplify_eq.
          destruct (decide (m = 0 + Z.of_nat (length es) - 1)) as [->|].
          -- left. eapply (holds_inj st1 (exec_task i) 0 es); [by intros ?? [= ->]|done..|by rewrite Htm, Hbt].
          -- right. unfold rank. simpl. lia. }
  destruct Hbefore as (es & ss & st1 & -> & Hi1 & Hg1 & Hle & Hhe & Hj0 & Hls & Hne & Hhs & Hc).
  destruct (holds_back _ _ _ _ Hhs Hne) as [Hbi Hbt].
  assert (Hsum1 : task_at st1 summary = Some summary_task) by (by apply Hg1).
  destruct (Link_spec id prio c0 g0 (back ss) summary st1 ins _ _ Hi1 Hbt Hsum1) as (Hi2 & Hg2 & He).
  { unfold rank. simpl. lia. }
  { eapply (new_not_ins id prio c0 g0 st st1); [done..|set_solver]. }
  { done. }
  split; [done|]. split; [rewrite <- (app_nil_r (es ++ ss)); by eapply grown_trans|].
  apply row_intro; try done.
  - eapply holds_ext; [apply Hg2|done].
  - eapply holds_ext; [apply Hg2|done].
  - eapply chain_ext; [apply Hg2| |done]. intros k Hk. apply (gr_dom _ _ _ Hg1). by right.
Qed.

Lemma all_testdata_spec i orders st ins :
  inv st ins -> task_at st summary = Some summary_task -> summary ∉ ins ->
  let '(executes, scorings, st') := all_testdata id prio sub summary i orders st in
  inv st' ins /\ grown st st' (concat executes ++ concat scorings) /\
  length executes = length orders /\ length scorings = length orders /\
  forall m es ss, executes !! m = Some es -> scorings !! m = Some ss ->
    row st' summary (i + Z.of_nat m) (stages sub) (first_scoring sub) es ss.
Proof.
  revert i st. induction orders as [|o orders IH]; intros i st Hi Hsum Hsi; cbn [all_testdata].
  { split_and!; try done. apply grown_refl. }
  pose proof (one_testdata_spec i (Z.of_nat o) st ins Hi Hsum Hsi) as H1.
  destruct (one_testdata _ _ _ _ _ _ _) as [[es ss] st1]. destruct H1 as (Hi1 & Hg1 & Hr1).
  assert (Hsum1 : task_at st1 summary = Some summary_task) by (by apply Hg1).
  pose proof (IH (i + 1) st1 Hi1 Hsum1 Hsi) as H2.
  destruct (all_testdata _ _ _ _ _ _ _) as [[executes scorings] st2].
  destruct H2 as (Hi2 & Hg2 & Hle & Hls & Hr2). split; [done|]. split.
  { pose proof (grown_trans _ _ _ _ _ Hg1 Hg2) as Hg. revert Hg. apply grown_perm. simpl.
    solve_Permutation. }
  simpl. split; [by rewrite Hle|]. split; [by rewrite Hls|].
  intros [|m] es' ss' He Hs; simpl in He, Hs.
  - simplify_eq. rewrite Z.add_0_r. eapply row_ext; [|done]. apply Hg2.
  - replace (i + Z.of_nat (S m)) with (i + 1 + Z.of_nat m) by lia. by apply Hr2.
Qed.
End Rows.

(** ** Compile tasks and moving into the task list *)

Lemma column_spec k rows :
  0 <= k -> (forall row, row ∈ rows -> k < Z.of_nat (length row)) ->
  exists l, column k rows = Done l /\
    (forall t, t ∈ l -> exists row, row ∈ rows /\ row !! Z.to_nat k = Some t) /\
    (forall row t, row ∈ rows -> row !! Z.to_nat k = Some t -> t ∈ l) /\
    (rows <> [] -> l <> []).
Proof.
  intros Hk Hrows. unfold column. rewrite (proj2 (Z.ltb_ge k 0)) by done.
  destruct (mapM _ rows) as [l|] eqn:E.
  - apply mapM_Some in E. exists l. split; [done|]. split_and!.
    + intros t [m Hm]%list_elem_of_lookup. destruct (Forall2_lookup_r _ _ _ _ _ E Hm) as (row & Hr & Ht).
      exists row. split; [by apply list_elem_of_lookup_2 in Hr|done].
    + intros row t [m Hm]%list_elem_of_lookup Ht.
      destruct (Forall2_lookup_l _ _ _ _ _ E Hm) as (t' & Hl & Ht'). simplify_eq.
      by apply list_elem_of_lookup_2 in Hl.
    + intros Hne ->. apply Forall2_length in E. by destruct rows.
  - exfalso. assert (is_Some (mapM (fun row : list Z => row !! Z.to_nat k) rows)) as [? Hx]; [|congruence].
    apply mapM_is_Some_2, Forall_forall. intros row Hr%Hrows. apply lookup_lt_is_Some_2. lia.
Qed.

Lemma find_non_prob_spec ps i n :
  let r := find_non_prob ps i n in 0 <= i ->
  (r = -1 /\ forall x, i <= x < i + Z.of_nat n -> x ∈ ps) \/
  (i <= r < i + Z.of_nat n /\ r ∉ ps /\ forall x, i <= x < r -> x ∈ ps).
Proof.
  revert i. induction n as [|n IH]; intros i; simpl; intros Hi.
  { left. split; [done|lia]. }
  case_bool_decide as Hps.
  - destruct (IH (i + 1)) as [[-> Hall]|(Hr & Hn & Hall)]; [lia| |].
    + left. split; [done|]. intros x Hx. destruct (decide (x = i)) as [->|]; [done|]. apply Hall. lia.
    + right. split; [lia|]. split; [done|]. intros x Hx.
      destruct (decide (x = i)) as [->|]; [done|]. apply Hall. lia.
  - right. split; [lia|]. split; [done|lia].
Qed.

Lemma foldr_min_spec x l : foldr Z.min x l ∈ x :: l /\ forall y, y ∈ x :: l -> foldr Z.min x l <= y.
Proof.
  induction l as [|a l [Hin Hle]]; simpl.
  - split; [set_solver|]. intros y ->%list_elem_of_singleton. done.
  - split.
    + destruct (Z.min_spec a (foldr Z.min x l)) as [[_ ->]|[_ ->]]; set_solver.
    + intros y Hy. assert (y = a \/ y ∈ x :: l) as [->|Hy'] by set_solver; [lia|].
      specialize (Hle y Hy'). lia.
Qed.

Lemma first_of_set_spec ps :
  (ps = ∅ /\ first_of_set ps = -1) \/
  (first_of_set ps ∈ ps /\ forall y, y ∈ ps -> first_of_set ps <= y).
Proof.
  unfold first_of_set. destruct (elements ps) as [|x l] eqn:E.
  - left. split; [|done]. by apply elements_empty_iff, leibniz_equiv in E.
  - right. destruct (foldr_min_spec x l) as [Hin Hle]. split.
    + apply elem_of_elements. by rewrite E.
    + intros y Hy%elem_of_elements. rewrite E in Hy. by apply Hle.
Qed.

Section Compiles.
Context (id prio c0 : Z) (g0 : TaskGraph) (sub : Submission) (summary : Z).
Hypothesis Hold : forall u, is_Some (task_list g0 !! u) -> u < c0.
Hypothesis Hoq : forall u, u ∈ task_queue g0 -> is_Some (task_list g0 !! u).
#[local] Abbreviation inv := (Binv id prio c0 g0).

Lemma link_all_spec a ta targets st ins :
  inv st ins -> task_at st a = Some ta -> a ∉ ins ->
  (forall t, t ∈ targets -> t ∉ ins /\ exists tt, task_at st t = Some tt /\ rank ta < rank tt) ->
  let st' := foldl (fun st t => Link a t st) st targets in
  inv st' ins /\ grown st st' [] /\ forall t, t ∈ targets -> edge (b_store st') a t.
Proof.
  revert st. induction targets as [|b targets IH]; intros st Hi Ha Hai Ht; simpl.
  { split_and!; [done|apply grown_refl|]. intros t Hx. by apply elem_of_nil in Hx. }
  destruct (Ht b) as (Hbi & tb & Hb & Hr); [set_solver|].
  destruct (Link_spec id prio c0 g0 a b st ins ta tb) as (Hi1 & Hg1 & He1); try done.
  destruct (IH (Link a b st)) as (Hi2 & Hg2 & He2); [done|by apply Hg1|done| |].
  { intros t Hin. destruct (Ht t) as (? & tt & Htt & ?); [set_solver|]. split; [done|].
    exists tt. split; [by apply Hg1|done]. }
  split; [done|]. split; [by eapply (grown_trans _ _ _ [] [])|].
  intros t [->|Hin]%elem_of_cons; [by apply Hg2|by apply He2].
Qed.

Lemma add_compile_spec subtask targets (no_tds : bool) st ins :
  inv st ins -> task_at st summary = Some summary_task -> summary ∉ ins ->
  (forall t, t ∈ targets -> t ∉ ins /\ exists tt, task_at st t = Some tt /\ 0 < rank tt) ->
  exists c st', add_compile id prio subtask targets no_tds summary st = st' /\
    inv st' (c :: ins) /\ grown st st' [c] /\ task_at st' c = Some (compile_task subtask) /\
    (forall t, t ∈ targets -> edge (b_store st') c t) /\
    (no_tds = true -> edge (b_store st') c summary).
Proof.
  intros Hi Hsum Hsi Ht. unfold add_compile.
  destruct (new_spec id prio c0 g0 st ins (compile_task subtask) 0 Hi) as (c & st1 & -> & Hi1 & Hg1 & Hc & Hci).
  destruct (link_all_spec c (compile_task subtask) targets st1 ins) as (Hi2 & Hg2 & He2); try done.
  { intros t Hin. destruct (Ht t Hin) as (? & tt & Htt & ?). split; [done|]. exists tt.
    split; [by apply Hg1|done]. }
  set (st2 := foldl _ st1 targets) in *.
  assert (H3 : exists st3, (if no_tds then Link c summary st2 else st2) = st3 /\
    inv st3 ins /\ grown st2 st3 [] /\ (no_tds = true -> edge (b_store st3) c summary)).
  { destruct no_tds.
    - destruct (Link_spec id prio c0 g0 c summary st2 ins (compile_task subtask) summary_task)
        as (? & ? & ?); try done; [by apply Hg2|by apply Hg2, Hg1|]. eauto.
    - eexists. split; [done|]. split_and!; try done. apply grown_refl. }
  destruct H3 as (st3 & -> & Hi3 & Hg3 & He3). exists c, (move_entry c st3). split; [done|].
  assert (Hc3 : task_at st3 c = Some (compile_task subtask)) by (by apply Hg3, Hg2).
  split.
  { apply (inv_move id prio c0 g0 Hold Hoq); [done| |done]. by eapply task_at_elem. }
  split.
  { apply (grown_trans st st1 _ [c] []); [done|]. apply (grown_trans st1 st2 _ [] []); [done|].
    apply (grown_trans st2 st3 _ [] []); [done|apply grown_move]. }
  split; [done|]. split; [|done]. intros t Hin. simpl. apply Hg3. by apply He2.
Qed.

Lemma move_all_spec l st ins :
  inv st ins -> NoDup l -> (forall k, k ∈ l -> k ∈ dom (b_store st) /\ k ∉ ins) ->
  exists ins', inv (foldl (fun st e => move_entry e st) st l) ins' /\
    b_store (foldl (fun st e => move_entry e st) st l) = b_store st /\
    b_count (foldl (fun st e => move_entry e st) st l) = b_count st /\
    forall k, k ∈ ins' <-> k ∈ ins \/ k ∈ l.
Proof.
  revert st ins. induction l as [|a l IH]; intros st ins Hi Hnd Hl; simpl.
  { exists ins. split_and!; try done. set_solver. }
  apply NoDup_cons in Hnd as [Ha Hnd]. destruct (Hl a) as [Had Hai]; [set_solver|].
  destruct (IH (move_entry a st) (a :: ins)) as (ins' & Hi' & Hst & Hct & Hin').
  - by apply (inv_move id prio c0 g0 Hold Hoq).
  - done.
  - intros k Hk. simpl. split; [apply Hl; set_solver|]. destruct (Hl k); set_solver.
  - exists ins'. split_and!; try done. intros k. rewrite Hin'. set_solver.
Qed.

(** A compile task of the graph under construction, when [cond] asks for it:
    it comes before the [k]-th entry of every row. *)
Definition compiled_before (st : Build) (cond : bool) (subtask : CompileSubtask) (k : Z)
    (rows : list (list Z)) (no_tds : bool) (c : Z) : Prop :=
  cond = true -> task_at st c = Some (compile_task subtask) /\
    (forall row t, row ∈ rows -> row !! Z.to_nat k = Some t -> edge (b_store st) c t) /\
    (no_tds = true -> edge (b_store st) c summary) /\
    (rows <> [] -> exists row t, row ∈ rows /\ edge (b_store st) c t /\ t ∈ row).

Lemma compiled_before_ext st st' cond subtask k rows no_tds c :
  ext st st' -> compiled_before st cond subtask k rows no_tds c ->
  compiled_before st' cond subtask k rows no_tds c.
Proof.
  intros He Hc Hcond. destruct (Hc Hcond) as (Ht & Hrow & Hno & Hne). split; [by apply He|].
  split; [|split]; [intros; apply He; eauto|intros; by apply He, Hno|].
  intros Hr. destruct (Hne Hr) as (row & t & ? & ? & ?). exists row, t. split_and!; try done. by apply He.
Qed.

Lemma compile_before_spec (cond : bool) subtask k rows (no_tds : bool) st ins :
  inv st ins -> task_at st summary = Some summary_task -> summary ∉ ins ->
  (cond = true -> 0 <= k /\ forall row, row ∈ rows -> k < Z.of_nat (length row)) ->
  (forall row t, row ∈ rows -> t ∈ row -> t ∉ ins /\ exists tt, task_at st t = Some tt /\ 0 < rank tt) ->
  exists st' cs c,
    (if cond then
       match column k rows with
       | Done targets => Done (add_compile id prio subtask targets no_tds summary st)
       | Crash f => Crash f
       end
     else Done st) = Done st' /\
    cs = (if cond then [c] else []) /\ inv st' (cs ++ ins) /\ grown st st' cs /\
    compiled_before st' cond subtask k rows no_tds c.
Proof.
  intros Hi Hsum Hsi Hk Hrows. destruct cond.
  2:{ exists st, [], 0. split_and!; try done. apply grown_refl. }
  destruct (Hk eq_refl) as [Hk0 Hlen].
  destruct (column_spec k rows Hk0 Hlen) as (targets & -> & Ht1 & Ht2 & Hne).
  destruct (add_compile_spec subtask targets no_tds st ins Hi Hsum Hsi) as (c & st' & -> & Hi' & Hg' & Htc & He & Hs).
  { intros t (row & Hr & Hrt)%Ht1. eapply Hrows; [done|]. by apply list_elem_of_lookup_2 in Hrt. }
  exists st', [c], c. split_and!; try done. intros _. split_and!; try done.
  - intros row t Hr Ht. by eapply He, Ht2.
  - intros Hr. destruct targets as [|t targets]; [by destruct (Hne Hr)|].
    destruct (Ht1 t) as (row & Hrow & Ht); [set_solver|]. exists row, t. split_and!; try done.
    + apply He. set_solver.
    + by apply list_elem_of_lookup_2 in Ht.
Qed.
End Compiles.
