(* ===== verification/PushGraph.v ===== *)
(** * The graph of a submission

    Which tasks a submission consists of and what each waits for; [build_graph]
    creates exactly these tasks with these dependencies and keeps the invariant of
    the task graph. *)

From S2P Require Import Prelude Enums Data TaskGraph TdOrder State Push PushBuild PushRows.

(** ** The graph of a submission *)

(** The tasks a submission consists of. *)
Definition compile_wanted (sub : Submission) (s : CompileSubtask) : Prop :=
  match s with
  | USERPROG => exists j, 0 <= j < stages sub /\ j ∉ problem_prog_stages sub
  | PROBPROG => problem_prog_stages sub <> ∅
  | SPECJUDGE => specjudge_type sub <> SJ_NORMAL
  | CS_SUMMARY => summary_type sub = SUMMARY_CUSTOM
  end.

Definition expected (sub : Submission) (x : Task) : Prop :=
  match tk_type x with
  | COMPILE => exists s, x = compile_task s /\ compile_wanted sub s
  | EXECUTE => 0 <= tk_subtask x < Z.of_nat (length (testdata sub)) /\ 0 <= tk_stage x < stages sub
  | SCORING => 0 <= tk_subtask x < Z.of_nat (length (testdata sub)) /\
               first_scoring sub <= tk_stage x < stages sub
  | SUMMARY => x = summary_task
  end.

Definition judging (x : Task) : Prop := tk_type x = EXECUTE \/ tk_type x = SCORING.

(** [x] has to wait for [y]: a program for the compilation of what it runs, a
    stage of a test data for the earlier ones, the summary for everything. *)
Definition depends_on (sub : Submission) (x y : Task) : Prop :=
  (y = compile_task USERPROG /\ tk_type x = EXECUTE /\ tk_stage x ∉ problem_prog_stages sub) \/
  (y = compile_task PROBPROG /\ tk_type x = EXECUTE /\ tk_stage x ∈ problem_prog_stages sub) \/
  (y = compile_task SPECJUDGE /\ tk_type x = SCORING) \/
  (x = summary_task /\ y <> summary_task) \/
  (judging x /\ judging y /\ tk_subtask x = tk_subtask y /\ rank y < rank x).

(** What [PushSubmission] relies on in its argument (after clamping). *)
Record sub_ok (sub : Submission) : Prop := {
  so_stages : 1 <= stages sub <= 32;
  so_prob : forall j, j ∈ problem_prog_stages sub -> 0 <= j < stages sub;
}.

Lemma compute_td_order_length skip groups : length (compute_td_order skip groups) = length groups.
Proof.
  unfold compute_td_order. destruct skip; [|apply length_seq].
  by rewrite invert_order_length, length_replicate.
Qed.

Definition start (c0 : Z) (g0 : TaskGraph) : Build := {| b_count := c0; b_store := ∅; b_graph := g0 |}.

Record built (id prio c0 : Z) (g0 : TaskGraph) (sub : Submission) (st : Build) (ins : list Z)
    (executes scorings : list (list Z)) (summary c1 c2 c3 c4 : Z) : Prop := {
  bt_inv : Binv id prio c0 g0 st ins;
  bt_all : forall k, k ∈ dom (b_store st) <-> k ∈ ins;
  bt_dom : forall k, k ∈ dom (b_store st) <->
    k = summary \/ k ∈ concat executes \/ k ∈ concat scorings \/
    (k = c1 /\ find_non_prob (problem_prog_stages sub) 0 (Z.to_nat (stages sub)) <> -1) \/
    (k = c2 /\ first_of_set (problem_prog_stages sub) <> -1) \/
    (k = c3 /\ specjudge_type sub <> SJ_NORMAL) \/
    (k = c4 /\ summary_type sub = SUMMARY_CUSTOM);
  bt_len : length executes = length (testdata sub) /\ length scorings = length (testdata sub);
  bt_row : forall m es ss, executes !! m = Some es -> scorings !! m = Some ss ->
    row st summary (Z.of_nat m) (stages sub) (first_scoring sub) es ss;
  bt_sum : task_at st summary = Some summary_task;
  bt_c1 : compiled_before summary st
    (negb (find_non_prob (problem_prog_stages sub) 0 (Z.to_nat (stages sub)) =? -1)) USERPROG
    (find_non_prob (problem_prog_stages sub) 0 (Z.to_nat (stages sub))) executes
    (bool_decide (executes = [])) c1;
  bt_c2 : compiled_before summary st (negb (first_of_set (problem_prog_stages sub) =? -1)) PROBPROG
    (first_of_set (problem_prog_stages sub)) executes (bool_decide (executes = [])) c2;
  bt_c3 : compiled_before summary st (negb (bool_decide (specjudge_type sub = SJ_NORMAL))) SPECJUDGE 0
    scorings (bool_decide (executes = [])) c3;
  bt_c4 : summary_type sub = SUMMARY_CUSTOM ->
    task_at st c4 = Some (compile_task CS_SUMMARY) /\ edge (b_store st) c4 summary;
}.

Section BuildGraph.
Context (id c0 : Z) (g0 : TaskGraph) (sub : Submission).
Hypothesis Hold : forall u, is_Some (task_list g0 !! u) -> u < c0.
Hypothesis Hoq : forall u, u ∈ task_queue g0 -> is_Some (task_list g0 !! u).
Hypothesis Hq0 : NoDup (task_queue g0).
Hypothesis Hsub : sub_ok sub.
#[local] Abbreviation inv := (Binv id (priority sub) c0 g0).

Lemma inv_start : inv (start c0 g0) [].
Proof.
  split; simpl; try done.
  - split; [constructor|]. intros k Hk. by apply elem_of_nil in Hk.
  - intros u. by destruct (task_list g0 !! u).
  - intros u. split; [by left|]. intros [?|[Hu _]]; [done|]. by apply elem_of_nil in Hu.
Qed.

Lemma cond_elem (cond : bool) (P : Prop) (k c : Z) :
  (cond = true <-> P) -> k ∈ (if cond then [c] else []) <-> k = c /\ P.
Proof.
  intros HP. destruct cond.
  - rewrite list_elem_of_singleton. tauto.
  - split; [intros Hk; by apply elem_of_nil in Hk|]. intros [_ Hp]. by apply HP in Hp.
Qed.

(** After the loop over the test data. *)
Record rows_built (st : Build) (executes scorings : list (list Z)) (summary : Z) : Prop := {
  rb_inv : inv st [];
  rb_sum : task_at st summary = Some summary_task;
  rb_nodup : NoDup (summary :: concat executes ++ concat scorings);
  rb_dom : forall k, k ∈ dom (b_store st) <-> k ∈ summary :: concat executes ++ concat scorings;
  rb_len : length executes = length (testdata sub) /\ length scorings = length (testdata sub);
  rb_row : forall m es ss, executes !! m = Some es -> scorings !! m = Some ss ->
    row st summary (Z.of_nat m) (stages sub) (first_scoring sub) es ss;
}.

Lemma rows_phase : exists st1 summary executes scorings st2,
  new_entry id summary_task (priority sub) 0 (start c0 g0) = (summary, st1) /\
  all_testdata id (priority sub) sub summary 0
    (compute_td_order (skip_group sub) (map td_groups (testdata sub))) st1 = (executes, scorings, st2) /\
  rows_built st2 executes scorings summary.
Proof.
  destruct (new_spec id (priority sub) c0 g0 (start c0 g0) [] summary_task 0 inv_start)
    as (summary & st1 & -> & Hi1 & Hg1 & Hsum1 & _).
  pose proof (all_testdata_spec id (priority sub) c0 g0 sub summary (so_stages _ Hsub) 0
    (compute_td_order (skip_group sub) (map td_groups (testdata sub))) st1 [] Hi1 Hsum1) as Ha.
  destruct (all_testdata _ _ _ _ _ _ _) as [[executes scorings] st2] eqn:Ea.
  destruct Ha as (Hi2 & Hg2 & Hle & Hls & Hrow); [set_solver|].
  rewrite compute_td_order_length, length_map in Hle, Hls.
  pose proof (grown_trans _ _ _ _ _ Hg1 Hg2) as Hg.
  exists st1, summary, executes, scorings, st2. split; [done|]. split; [done|]. split; try done.
  - by apply Hg2.
  - apply Hg.
  - intros k. rewrite (gr_dom _ _ _ Hg). simpl. rewrite dom_empty. set_solver.
Qed.

Section Compiling.
Context (st : Build) (executes scorings : list (list Z)) (summary : Z).
Hypothesis Hrb : rows_built st executes scorings summary.

Lemma exec_row es : es ∈ executes -> Z.of_nat (length es) = stages sub /\
  forall t, t ∈ es -> t ∈ dom (b_store st) /\ exists tt, task_at st t = Some tt /\ 0 < rank tt.
Proof.
  intros [m Hm]%list_elem_of_lookup. destruct (rb_len _ _ _ _ Hrb) as [Hle Hls].
  destruct (lookup_lt_is_Some_2 scorings m) as [ss Hss]; [apply lookup_lt_Some in Hm; lia|].
  pose proof (rb_row _ _ _ _ Hrb m es ss Hm Hss) as Hr. split; [apply Hr|]. intros t Ht.
  destruct (holds_elem _ _ _ _ _ (row_exec _ _ _ _ _ _ _ Hr) Ht) as (j & Hj & Htt).
  split; [by eapply task_at_elem|]. eexists. split; [done|]. unfold rank. simpl. lia.
Qed.

Lemma score_row ss : ss ∈ scorings -> 0 < Z.of_nat (length ss) /\
  forall t, t ∈ ss -> t ∈ dom (b_store st) /\ exists tt, task_at st t = Some tt /\ 0 < rank tt.
Proof.
  intros [m Hm]%list_elem_of_lookup. destruct (rb_len _ _ _ _ Hrb) as [Hle Hls].
  destruct (lookup_lt_is_Some_2 executes m) as [es Hes]; [apply lookup_lt_Some in Hm; lia|].
  pose proof (rb_row _ _ _ _ Hrb m es ss Hes Hm) as Hr. split.
  { destruct (row_first _ _ _ _ _ _ _ Hr) as (s & Hs & _). apply lookup_lt_Some in Hs. lia. }
  intros t Ht. destruct (row_score _ _ _ _ _ _ _ Hr t Ht) as (j & Hj & Htt).
  split; [by eapply task_at_elem|]. eexists. split; [done|]. unfold rank. simpl. lia.
Qed.

(** [st'] adds only compile tasks [cs], all inserted already, to [st]. *)
Record compiling (st' : Build) (cs : list Z) : Prop := {
  cp_inv : inv st' cs;
  cp_grown : grown st st' cs;
}.

Lemma compiling_old st' cs k : compiling st' cs -> k ∈ cs -> k ∈ dom (b_store st) -> False.
Proof.
  intros Hc Hk Hd. apply (gr_new _ _ _ (cp_grown _ _ Hc)) in Hk.
  apply (inv_below id (priority sub) c0 g0 st []) in Hd; [lia|apply Hrb].
Qed.

Lemma summary_dom : summary ∈ dom (b_store st).
Proof. eapply task_at_elem, Hrb. Qed.

Lemma compiling_grow st1 st2 cs1 cs2 :
  compiling st1 cs1 -> inv st2 (cs2 ++ cs1) -> grown st1 st2 cs2 -> compiling st2 (cs2 ++ cs1).
Proof.
  intros [Hi1 Hg1] Hi2 Hg2. split; [done|].
  pose proof (grown_trans _ _ _ _ _ Hg1 Hg2) as Hg. revert Hg. apply grown_perm. apply Permutation_app_comm.
Qed.

Lemma compiling_step (cond : bool) subtask k rows (no_tds : bool) st1 cs1 :
  compiling st1 cs1 -> (cond = true -> 0 <= k /\ forall row, row ∈ rows -> k < Z.of_nat (length row)) ->
  (forall row t, row ∈ rows -> t ∈ row ->
     t ∈ dom (b_store st) /\ exists tt, task_at st t = Some tt /\ 0 < rank tt) ->
  exists st2 cs2 c,
    (if cond then
       match column k rows with
       | Done targets => Done (add_compile id (priority sub) subtask targets no_tds summary st1)
       | Crash f => Crash f
       end
     else Done st1) = Done st2 /\
    cs2 = (if cond then [c] else []) /\ compiling st2 (cs2 ++ cs1) /\ grown st1 st2 cs2 /\
    compiled_before summary st2 cond subtask k rows no_tds c.
Proof.
  intros Hc Hk Hrows. pose proof (gr_ext _ _ _ (cp_grown _ _ Hc)) as He.
  destruct (compile_before_spec id (priority sub) c0 g0 summary Hold Hoq cond subtask k rows no_tds
    st1 cs1 (cp_inv _ _ Hc)) as (st2 & cs2 & c & -> & Hcs & Hi2 & Hg2 & Hb2).
  { apply He, Hrb. }
  { intros Hin. eapply compiling_old; [done..|apply summary_dom]. }
  { done. }
  { intros row t Hr Ht. destruct (Hrows row t Hr Ht) as (Hd & tt & Htt & Hrk). split.
    - intros Hin. by eapply compiling_old.
    - exists tt. split; [by apply He|done]. }
  exists st2, cs2, c. split; [done|]. split; [done|]. split; [by eapply compiling_grow|done].
Qed.

Lemma compiling_summary st1 cs1 : compiling st1 cs1 ->
  exists st2 cs2 c,
    (if bool_decide (summary_type sub = SUMMARY_CUSTOM)
     then add_compile id (priority sub) CS_SUMMARY [] true summary st1 else st1) = st2 /\
    cs2 = (if bool_decide (summary_type sub = SUMMARY_CUSTOM) then [c] else []) /\
    compiling st2 (cs2 ++ cs1) /\ grown st1 st2 cs2 /\
    (summary_type sub = SUMMARY_CUSTOM ->
      task_at st2 c = Some (compile_task CS_SUMMARY) /\ edge (b_store st2) c summary).
Proof.
  intros Hc. destruct (decide (summary_type sub = SUMMARY_CUSTOM)) as [Hcu|Hcu];
    [rewrite !(bool_decide_eq_true_2 _ Hcu)|rewrite !(bool_decide_eq_false_2 _ Hcu)].
  - destruct (add_compile_spec id (priority sub) c0 g0 summary Hold Hoq CS_SUMMARY [] true st1 cs1
      (cp_inv _ _ Hc)) as (c & st2 & -> & Hi2 & Hg2 & Ht & _ & He).
    { apply (cp_grown _ _ Hc), Hrb. }
    { intros Hin. eapply compiling_old; [done..|apply summary_dom]. }
    { intros t Ht. by apply elem_of_nil in Ht. }
    exists st2, [c], c. split; [done|]. split; [done|].
    split; [by apply (compiling_grow st1 st2 cs1 [c])|]. split; [done|]. intros _. split; [done|by apply He].
  - exists st1, [], 0. split_and!; try done. apply grown_refl.
Qed.

(** Moving the entries of the test data and the summary into the task list. *)
Lemma moves_phase st1 cs : compiling st1 cs ->
  let st2 := move_entry summary (foldl (fun st e => move_entry e st)
               (foldl (fun st e => move_entry e st) st1 (concat executes)) (concat scorings)) in
  exists ins, inv st2 ins /\ ext st1 st2 /\
    (forall k, k ∈ dom (b_store st2) <-> k ∈ ins) /\
    (forall k, k ∈ dom (b_store st2) <->
       k ∈ summary :: concat executes ++ concat scorings \/ k ∈ cs).
Proof.
  intros Hc. cbv zeta.
  pose proof (rb_nodup _ _ _ _ Hrb) as [Hns [Hnd1 [Hdj Hnd2]]%NoDup_app]%NoDup_cons.
  assert (Hd1 : forall k, k ∈ dom (b_store st1) <->
    k ∈ summary :: concat executes ++ concat scorings \/ k ∈ cs).
  { intros k. by rewrite (gr_dom _ _ _ (cp_grown _ _ Hc)), (rb_dom _ _ _ _ Hrb). }
  assert (Hcs : forall k, k ∈ summary :: concat executes ++ concat scorings -> k ∉ cs).
  { intros k Hk Hin. eapply compiling_old; [done..|]. by apply (rb_dom _ _ _ _ Hrb). }
  destruct (move_all_spec id (priority sub) c0 g0 Hold Hoq (concat executes) st1 cs (cp_inv _ _ Hc) Hnd1)
    as (ins2 & Hi2 & Hst2 & _ & Hin2).
  { intros k Hk. split; [apply Hd1|apply Hcs]; set_solver. }
  set (st2 := foldl _ st1 (concat executes)) in *.
  destruct (move_all_spec id (priority sub) c0 g0 Hold Hoq (concat scorings) st2 ins2 Hi2 Hnd2)
    as (ins3 & Hi3 & Hst3 & _ & Hin3).
  { intros k Hk. rewrite Hst2, Hin2. split; [apply Hd1; set_solver|]. intros [Hk1|Hk1].
    - apply (Hcs k); [set_solver|done].
    - by apply (Hdj k Hk1). }
  set (st3 := foldl _ st2 (concat scorings)) in *.
  assert (Hs : b_store (move_entry summary st3) = b_store st1) by (simpl; by rewrite Hst3).
  exists (summary :: ins3). split; [|split; [|split]].
  - apply (inv_move id (priority sub) c0 g0 Hold Hoq); [done| |].
    + rewrite Hst3, Hst2. apply Hd1. set_solver.
    + rewrite Hin3, Hin2. intros [[Hk|Hk]|Hk]; [|set_solver..]. apply (Hcs summary); [set_solver|done].
  - split; unfold task_at; by rewrite Hs.
  - intros k. rewrite Hs, Hd1, !elem_of_cons, Hin3, Hin2, elem_of_app. clear. tauto.
  - intros k. by rewrite Hs, Hd1.
Qed.

Lemma find_non_prob_row : negb (find_non_prob (problem_prog_stages sub) 0 (Z.to_nat (stages sub)) =? -1) = true ->
  0 <= find_non_prob (problem_prog_stages sub) 0 (Z.to_nat (stages sub)) /\
  forall row, row ∈ executes ->
    find_non_prob (problem_prog_stages sub) 0 (Z.to_nat (stages sub)) < Z.of_nat (length row).
Proof.
  intros Hf. pose proof (so_stages _ Hsub).
  destruct (find_non_prob_spec (problem_prog_stages sub) 0 (Z.to_nat (stages sub)) ltac:(lia))
    as [[Hs _]|(Hs & _)]; [by rewrite Hs in Hf|].
  split; [lia|]. intros es He. destruct (exec_row es He) as [-> _]. lia.
Qed.

Lemma first_of_set_row : negb (first_of_set (problem_prog_stages sub) =? -1) = true ->
  0 <= first_of_set (problem_prog_stages sub) /\
  forall row, row ∈ executes -> first_of_set (problem_prog_stages sub) < Z.of_nat (length row).
Proof.
  intros Hp. destruct (first_of_set_spec (problem_prog_stages sub)) as [[_ Hs]|[Hin _]];
    [by rewrite Hs in Hp|]. apply (so_prob _ Hsub) in Hin.
  split; [lia|]. intros es He. destruct (exec_row es He) as [-> _]. lia.
Qed.
End Compiling.

Lemma build_graph_built : exists st ins executes scorings summary c1 c2 c3 c4,
  build_graph sub id (start c0 g0) = Done st /\
  built id (priority sub) c0 g0 sub st ins executes scorings summary c1 c2 c3 c4.
Proof.
  unfold build_graph. cbv zeta.
  destruct rows_phase as (st1 & summary & executes & scorings & st2 & -> & -> & Hrb).
  set (f := find_non_prob (problem_prog_stages sub) 0 (Z.to_nat (stages sub))).
  set (p := first_of_set (problem_prog_stages sub)).
  set (no := bool_decide (executes = [])).
  assert (Hc2 : compiling st2 st2 []) by (split; [apply Hrb|apply grown_refl]).
  destruct (compiling_step st2 executes scorings summary Hrb (negb (f =? -1)) USERPROG f executes no st2 [] Hc2)
    as (st3 & cs1 & c1 & -> & Hcs1 & Hc3 & Hg3 & Hb1).
  { by eapply find_non_prob_row. } { intros es t He. by apply (exec_row st2 executes scorings summary). }
  destruct (compiling_step st2 executes scorings summary Hrb (negb (p =? -1)) PROBPROG p executes no st3 _ Hc3)
    as (st4 & cs2 & c2 & -> & Hcs2 & Hc4 & Hg4 & Hb2).
  { by eapply first_of_set_row. } { intros es t He. by apply (exec_row st2 executes scorings summary). }
  destruct (compiling_step st2 executes scorings summary Hrb
    (negb (bool_decide (specjudge_type sub = SJ_NORMAL))) SPECJUDGE 0 scorings no st4 _ Hc4)
    as (st5 & cs3 & c3 & -> & Hcs3 & Hc5 & Hg5 & Hb3).
  { intros _. split; [lia|]. intros ss Hs. by apply (score_row st2 executes scorings summary). }
  { intros ss t Hs. by apply (score_row st2 executes scorings summary). }
  destruct (compiling_summary st2 executes scorings summary Hrb st5 _ Hc5)
    as (st6 & cs4 & c4 & -> & Hcs4 & Hc6 & Hg6 & Hb4).
  destruct (moves_phase st2 executes scorings summary Hrb st6 _ Hc6) as (ins & Hi7 & H6 & Hins & Hdom).
  set (st7 := move_entry _ _) in *.
  assert (H5 : ext st5 st7) by (etrans; [apply Hg6|done]).
  assert (H4 : ext st4 st7) by (etrans; [apply Hg5|done]).
  assert (H3 : ext st3 st7) by (etrans; [apply Hg4|done]).
  assert (H2 : ext st2 st7) by (etrans; [apply Hg3|done]).
  exists st7, ins, executes, scorings, summary, c1, c2, c3, c4. split; [done|]. split; try done.
  - intros k. rewrite Hdom, Hcs1, Hcs2, Hcs3, Hcs4, elem_of_cons, !elem_of_app.
    rewrite (cond_elem (negb (f =? -1)) (f <> -1)), (cond_elem (negb (p =? -1)) (p <> -1)),
      (cond_elem (negb (bool_decide _)) (specjudge_type sub <> SJ_NORMAL)),
      (cond_elem (bool_decide _) (summary_type sub = SUMMARY_CUSTOM)), elem_of_nil; [tauto|..].
    + apply bool_decide_eq_true.
    + by rewrite negb_true_iff, bool_decide_eq_false.
    + by rewrite negb_true_iff, Z.eqb_neq.
    + by rewrite negb_true_iff, Z.eqb_neq.
  - apply Hrb.
  - intros m es ss He Hs. eapply row_ext; [done|]. by apply Hrb.
  - apply H2, Hrb.
  - by apply (compiled_before_ext summary st3).
  - by apply (compiled_before_ext summary st4).
  - by apply (compiled_before_ext summary st5).
  - intros Hc. destruct (Hb4 Hc) as [? ?]. split; by apply H6.
Qed.
End BuildGraph.

Section Facts.
Context (id prio c0 : Z) (g0 : TaskGraph) (sub : Submission) (st : Build) (ins : list Z).
Context (executes scorings : list (list Z)) (summary c1 c2 c3 c4 : Z).
Hypothesis Hsub : sub_ok sub.
Hypothesis Hb : built id prio c0 g0 sub st ins executes scorings summary c1 c2 c3 c4.
#[local] Abbreviation the_row m es ss :=
  (row st summary (Z.of_nat m) (stages sub) (first_scoring sub) es ss).

Definition compile_entry (s : CompileSubtask) : Z :=
  match s with USERPROG => c1 | PROBPROG => c2 | SPECJUDGE => c3 | CS_SUMMARY => c4 end.

Lemma wanted_user : compile_wanted sub USERPROG <->
  find_non_prob (problem_prog_stages sub) 0 (Z.to_nat (stages sub)) <> -1.
Proof.
  destruct Hsub as [Hst _].
  destruct (find_non_prob_spec (problem_prog_stages sub) 0 (Z.to_nat (stages sub)) ltac:(lia))
    as [[-> Hall]|(Hr & Hn & _)]; simpl.
  - split; [|done]. intros (j & Hj & Hjn). destruct Hjn. apply Hall. lia.
  - split; [lia|]. intros _. exists (find_non_prob (problem_prog_stages sub) 0 (Z.to_nat (stages sub))).
    split; [lia|done].
Qed.

Lemma wanted_prob : compile_wanted sub PROBPROG <-> first_of_set (problem_prog_stages sub) <> -1.
Proof.
  destruct Hsub as [_ Hps]. simpl.
  destruct (first_of_set_spec (problem_prog_stages sub)) as [[-> ->]|[Hin _]]; [done|].
  split; [intros _ E|intros _ E].
  - rewrite E in Hin. apply Hps in Hin. lia.
  - rewrite E in Hin. set_solver.
Qed.

Lemma compile_entry_spec s : compile_wanted sub s ->
  task_at st (compile_entry s) = Some (compile_task s).
Proof.
  destruct s; simpl.
  - intros Hw%wanted_user. apply (bt_c1 _ _ _ _ _ _ _ _ _ _ _ _ _ _ Hb).
    by apply negb_true_iff, Z.eqb_neq.
  - intros Hw. apply (bt_c3 _ _ _ _ _ _ _ _ _ _ _ _ _ _ Hb).
    by apply negb_true_iff, bool_decide_eq_false.
  - intros Hw. by apply (bt_c4 _ _ _ _ _ _ _ _ _ _ _ _ _ _ Hb).
  - intros Hw%wanted_prob. apply (bt_c2 _ _ _ _ _ _ _ _ _ _ _ _ _ _ Hb).
    by apply negb_true_iff, Z.eqb_neq.
Qed.

Lemma rows_exist m : (m < length (testdata sub))%nat ->
  exists es ss, executes !! m = Some es /\ scorings !! m = Some ss /\ the_row m es ss.
Proof.
  intros Hm. destruct (bt_len _ _ _ _ _ _ _ _ _ _ _ _ _ _ Hb) as [He Hs].
  destruct (lookup_lt_is_Some_2 executes m ltac:(lia)) as [es Hes].
  destruct (lookup_lt_is_Some_2 scorings m ltac:(lia)) as [ss Hss].
  exists es, ss. split_and!; try done. by apply (bt_row _ _ _ _ _ _ _ _ _ _ _ _ _ _ Hb).
Qed.

Lemma concat_lookup (rows : list (list Z)) k : k ∈ concat rows ->
  exists m l, rows !! m = Some l /\ k ∈ l.
Proof.
  intros (l & Hl & Hk)%list_elem_of_In%in_concat.
  apply list_elem_of_In, list_elem_of_lookup in Hl as [m Hm].
  exists m, l. split; [done|by apply list_elem_of_In].
Qed.

(** The entry [k] of the row [m] with its task. *)
Definition in_row (m : nat) (es ss : list Z) (k : Z) (x : Task) : Prop :=
  (exists j, 0 <= j < stages sub /\ es !! Z.to_nat j = Some k /\ x = exec_task (Z.of_nat m) j) \/
  (exists j, first_scoring sub <= j < stages sub /\
     ss !! Z.to_nat (j - first_scoring sub) = Some k /\ x = score_task (Z.of_nat m) j).

Lemma in_row_elem m es ss k x : in_row m es ss k x -> k ∈ es ++ ss.
Proof.
  intros [(j & _ & Hk & _)|(j & _ & Hk & _)]; apply list_elem_of_lookup_2 in Hk; set_solver.
Qed.

Lemma classify k x : task_at st k = Some x ->
  (k = summary /\ x = summary_task) \/
  (exists m es ss, executes !! m = Some es /\ scorings !! m = Some ss /\ the_row m es ss /\
     in_row m es ss k x) \/
  (exists s, compile_wanted sub s /\ k = compile_entry s /\ x = compile_task s).
Proof.
  intros Hk. assert (Hd : k ∈ dom (b_store st)) by (by eapply task_at_elem).
  destruct (bt_len _ _ _ _ _ _ _ _ _ _ _ _ _ _ Hb) as [Hle Hls].
  apply (bt_dom _ _ _ _ _ _ _ _ _ _ _ _ _ _ Hb) in Hd as [->|[He|[Hs|Hc]]].
  - left. split; [done|]. pose proof (bt_sum _ _ _ _ _ _ _ _ _ _ _ _ _ _ Hb) as Hq. by simplify_eq.
  - right. left. apply concat_lookup in He as (m & es & Hm & Hin).
    destruct (rows_exist m) as (es' & ss & ? & ? & Hr); [apply lookup_lt_Some in Hm; lia|].
    simplify_eq. exists m, es, ss. split_and!; try done. left.
    apply list_elem_of_lookup in Hin as [j Hj]. exists (Z.of_nat j).
    pose proof (row_exec _ _ _ _ _ _ _ Hr j k Hj) as Ht. pose proof (row_len _ _ _ _ _ _ _ Hr).
    apply lookup_lt_Some in Hj as Hlt. split; [lia|]. rewrite Nat2Z.id. split; [done|]. by simplify_eq.
  - right. left. apply concat_lookup in Hs as (m & ss & Hm & Hin).
    destruct (rows_exist m) as (es & ss' & ? & ? & Hr); [apply lookup_lt_Some in Hm; lia|].
    simplify_eq. exists m, es, ss. split_and!; try done. right.
    apply list_elem_of_lookup in Hin as [j Hj]. exists (first_scoring sub + Z.of_nat j).
    pose proof (row_scores _ _ _ _ _ _ _ Hr j k Hj) as Ht. pose proof (row_slen _ _ _ _ _ _ _ Hr).
    apply lookup_lt_Some in Hj as Hlt. split; [lia|].
    replace (Z.to_nat (first_scoring sub + Z.of_nat j - first_scoring sub)) with j by lia.
    split; [done|]. by simplify_eq.
  - right. right.
    assert (exists s, compile_wanted sub s /\ k = compile_entry s) as (s & Hw & ->).
    { destruct Hc as [[-> Hc]|[[-> Hc]|[[-> Hc]|[-> Hc]]]].
      - exists USERPROG. by rewrite wanted_user.
      - exists PROBPROG. by rewrite wanted_prob.
      - by exists SPECJUDGE.
      - by exists CS_SUMMARY. }
    exists s. split_and!; try done. pose proof (compile_entry_spec s Hw). by simplify_eq.
Qed.

Lemma first_scoring_bounds : 0 <= first_scoring sub < stages sub.
Proof. destruct Hsub as [Hst _]. unfold first_scoring. case_match; lia. Qed.

Lemma facts_expected k x : task_at st k = Some x -> expected sub x.
Proof.
  pose proof first_scoring_bounds. destruct (bt_len _ _ _ _ _ _ _ _ _ _ _ _ _ _ Hb) as [Hle _].
  intros [[-> ->]|[(m & es & ss & Hm & _ & _ & Hr)|(s & Hw & _ & ->)]]%classify.
  - done.
  - apply lookup_lt_Some in Hm. destruct Hr as [(j & Hj & _ & ->)|(j & Hj & _ & ->)];
      unfold expected; simpl; lia.
  - by exists s.
Qed.

Lemma facts_complete x : expected sub x -> exists k, task_at st k = Some x.
Proof.
  pose proof first_scoring_bounds.
  unfold expected. destruct x as [[] i j]; simpl.
  - intros (s & -> & Hw). exists (compile_entry s). by apply compile_entry_spec.
  - intros [Hi Hj]. destruct (rows_exist (Z.to_nat i)) as (es & ss & _ & _ & Hr); [lia|].
    pose proof (row_len _ _ _ _ _ _ _ Hr).
    destruct (lookup_lt_is_Some_2 es (Z.to_nat j)) as [k Hk]; [lia|]. exists k.
    rewrite (row_exec _ _ _ _ _ _ _ Hr _ _ Hk). unfold exec_task. do 2 f_equal; lia.
  - intros [Hi Hj]. destruct (rows_exist (Z.to_nat i)) as (es & ss & _ & _ & Hr); [lia|].
    pose proof (row_slen _ _ _ _ _ _ _ Hr).
    destruct (lookup_lt_is_Some_2 ss (Z.to_nat (j - first_scoring sub))) as [k Hk]; [lia|]. exists k.
    rewrite (row_scores _ _ _ _ _ _ _ Hr _ _ Hk). unfold score_task. do 2 f_equal; lia.
  - intros ->. exists summary. apply (bt_sum _ _ _ _ _ _ _ _ _ _ _ _ _ _ Hb).
Qed.

Lemma facts_uniq k k' x : task_at st k = Some x -> task_at st k' = Some x -> k = k'.
Proof.
  intros Hk Hk'. destruct (classify k x Hk) as [[-> ->]|[(m & es & ss & Hm & Hs & Hrow & Hr)|(s & _ & -> & ->)]],
    (classify k' _ Hk') as [[-> E]|[(m' & es' & ss' & Hm' & Hs' & Hrow' & Hr')|(s' & _ & -> & E)]]; try done.
  - by destruct Hr' as [(? & _ & _ & [=])|(? & _ & _ & [=])].
  - destruct Hr as [(? & _ & _ & ->)|(? & _ & _ & ->)]; done.
  - assert (m = m') as <-.
    { destruct Hr as [(? & _ & _ & ->)|(? & _ & _ & ->)], Hr' as [(? & _ & _ & [=])|(? & _ & _ & [=])]; lia. }
    simplify_eq. apply (row_uniq _ _ _ _ _ _ _ Hrow k k' x); eauto using in_row_elem.
  - destruct Hr as [(? & _ & _ & ->)|(? & _ & _ & ->)]; done.
  - by destruct Hr' as [(? & _ & _ & [=])|(? & _ & _ & [=])].
  - by destruct s, s'.
Qed.
(** A compile task comes before its column of entries, and so before whatever
    follows them in their rows. *)
Lemma compile_reaches s c (cond : bool) j0 rows m es ss row t0 k :
  compiled_before summary st cond s j0 rows (bool_decide (executes = [])) c -> cond = true ->
  executes !! m = Some es -> scorings !! m = Some ss -> the_row m es ss ->
  row ∈ rows -> row !! Z.to_nat j0 = Some t0 -> k = t0 \/ reach (b_store st) t0 k ->
  reach (b_store st) c k.
Proof.
  intros Hc Hcond Hm Hs Hrow Hin Ht0 Hk. destruct (Hc Hcond) as (_ & Hedge & _).
  specialize (Hedge row t0 Hin Ht0). destruct Hk as [->|Hk]; [by apply tc_once|by eapply tc_l].
Qed.

Lemma exec_reaches m es ss j0 j t0 k :
  the_row m es ss -> 0 <= j0 <= j -> es !! Z.to_nat j0 = Some t0 -> es !! Z.to_nat j = Some k ->
  k = t0 \/ reach (b_store st) t0 k.
Proof.
  intros Hrow Hj Ht0 Hk. destruct (decide (j0 = j)) as [->|Hne]; [left; by simplify_eq|right].
  eapply (row_chain _ _ _ _ _ _ _ Hrow t0 k).
  - apply elem_of_app. left. by eapply list_elem_of_lookup_2.
  - apply elem_of_app. left. by eapply list_elem_of_lookup_2.
  - exact (row_exec _ _ _ _ _ _ _ Hrow _ _ Ht0).
  - exact (row_exec _ _ _ _ _ _ _ Hrow _ _ Hk).
  - unfold rank. simpl. lia.
Qed.

Lemma facts_compile k k' s x' : task_at st k = Some (compile_task s) -> task_at st k' = Some x' ->
  depends_on sub x' (compile_task s) -> x' <> summary_task -> reach (b_store st) k k'.
Proof.
  intros Hk Hk' Hdep Hns. destruct Hsub as [Hst Hps].
  assert (compile_wanted sub s /\ k = compile_entry s) as [Hw ->].
  { apply classify in Hk as [[-> E]|[(m & es & ss & _ & _ & _ & Hr)|(s' & Hw & -> & E)]]; [done| |].
    - by destruct Hr as [(? & _ & _ & [=])|(? & _ & _ & [=])].
    - assert (s = s') as <- by (by destruct s, s'). done. }
  apply classify in Hk' as [[_ E]|[(m & es & ss & Hm & Hs & Hrow & Hr)|(s' & _ & _ & ->)]]; [done| |].
  2:{ destruct Hdep as [(_ & [=] & _)|[(_ & [=] & _)|[(_ & [=])|[[[=] _]|([[=]|[=]] & _)]]]]. }
  pose proof (row_len _ _ _ _ _ _ _ Hrow) as Hlen.
  assert (Hes : es ∈ executes) by (by eapply list_elem_of_lookup_2).
  destruct Hdep as [(E & Hx & Hj)|[(E & Hx & Hj)|[(E & Hx)|[[E _]|(_ & [[=]|[=]] & _)]]]]; [..|done].
  - destruct s; try done. apply wanted_user in Hw.
    destruct Hr as [(j & Hjr & Hkj & ->)|(? & _ & _ & ->)]; [|done]. simpl in Hj.
    destruct (find_non_prob_spec (problem_prog_stages sub) 0 (Z.to_nat (stages sub)) ltac:(lia))
      as [[Hf _]|(Hf & _ & Hall)]; [done|].
    destruct (lookup_lt_is_Some_2 es (Z.to_nat (find_non_prob (problem_prog_stages sub) 0
      (Z.to_nat (stages sub))))) as [t0 Ht0]; [lia|].
    eapply compile_reaches; [exact (bt_c1 _ _ _ _ _ _ _ _ _ _ _ _ _ _ Hb)|
      by apply negb_true_iff, Z.eqb_neq|done..|].
    eapply (exec_reaches m es ss _ j); [done| |done|done].
    split; [lia|]. apply Z.nlt_ge. intros Hlt. apply Hj, Hall. lia.
  - destruct s; try done. apply wanted_prob in Hw.
    destruct Hr as [(j & Hjr & Hkj & ->)|(? & _ & _ & ->)]; [|done]. simpl in Hj.
    destruct (first_of_set_spec (problem_prog_stages sub)) as [[_ ?]|[Hin Hmin]]; [done|].
    apply Hmin in Hj as Hle. apply Hps in Hin.
    destruct (lookup_lt_is_Some_2 es (Z.to_nat (first_of_set (problem_prog_stages sub)))) as [t0 Ht0]; [lia|].
    eapply compile_reaches; [exact (bt_c2 _ _ _ _ _ _ _ _ _ _ _ _ _ _ Hb)|
      by apply negb_true_iff, Z.eqb_neq|done..|].
    apply (exec_reaches m es ss (first_of_set (problem_prog_stages sub)) j); [done|lia|done|done].
  - destruct s; try done.
    destruct (row_first _ _ _ _ _ _ _ Hrow) as (s0 & Hs0 & Hall).
    eapply (compile_reaches SPECJUDGE); [exact (bt_c3 _ _ _ _ _ _ _ _ _ _ _ _ _ _ Hb)|
      by apply negb_true_iff, bool_decide_eq_false|done|done|done| |exact Hs0|].
    + by eapply list_elem_of_lookup_2.
    + apply Hall. destruct Hr as [(? & _ & _ & ->)|(j & _ & Hkj & ->)]; [done|].
      by eapply list_elem_of_lookup_2.
Qed.

Lemma no_rows : executes = [] <-> scorings = [].
Proof.
  destruct (bt_len _ _ _ _ _ _ _ _ _ _ _ _ _ _ Hb) as [Hle Hls].
  split; intros E; apply nil_length_inv; rewrite E in *; simpl in *; lia.
Qed.

Lemma compiled_before_summary s c (cond : bool) j0 rows :
  compiled_before summary st cond s j0 rows (bool_decide (executes = [])) c -> cond = true ->
  rows = executes \/ rows = scorings -> reach (b_store st) c summary.
Proof.
  intros Hc Hcond Hrows. destruct (Hc Hcond) as (_ & _ & Hno & Hne).
  destruct (decide (executes = [])) as [He|He].
  { apply tc_once, Hno. by apply bool_decide_eq_true. }
  destruct Hne as (row & t & Hrow & Hedge & Ht).
  { destruct Hrows as [->| ->]; [done|by rewrite <- no_rows]. }
  eapply tc_l; [done|]. destruct (bt_len _ _ _ _ _ _ _ _ _ _ _ _ _ _ Hb) as [Hle Hls].
  apply list_elem_of_lookup in Hrow as [m Hm].
  assert (m < length (testdata sub))%nat as Hlt.
  { apply lookup_lt_Some in Hm. destruct Hrows as [->| ->]; lia. }
  destruct (rows_exist m Hlt) as (es & ss & Hes & Hss & Hr).
  apply (row_sum _ _ _ _ _ _ _ Hr). destruct Hrows as [->| ->]; simplify_eq; set_solver.
Qed.

Lemma facts_summary k x : task_at st k = Some x -> x <> summary_task -> reach (b_store st) k summary.
Proof.
  intros Hk Hns.
  apply classify in Hk as [[_ E]|[(m & es & ss & _ & _ & Hrow & Hr)|(s & Hw & -> & E)]]; [done| |].
  { apply (row_sum _ _ _ _ _ _ _ Hrow). by eapply in_row_elem. }
  destruct s; simpl compile_entry.
  - apply wanted_user in Hw. eapply compiled_before_summary;
      [exact (bt_c1 _ _ _ _ _ _ _ _ _ _ _ _ _ _ Hb)|by apply negb_true_iff, Z.eqb_neq|by left].
  - eapply compiled_before_summary; [exact (bt_c3 _ _ _ _ _ _ _ _ _ _ _ _ _ _ Hb)|
      by apply negb_true_iff, bool_decide_eq_false|by right].
  - apply tc_once. by apply (bt_c4 _ _ _ _ _ _ _ _ _ _ _ _ _ _ Hb).
  - apply wanted_prob in Hw. eapply compiled_before_summary;
      [exact (bt_c2 _ _ _ _ _ _ _ _ _ _ _ _ _ _ Hb)|by apply negb_true_iff, Z.eqb_neq|by left].
Qed.

Lemma facts_depends k k' x x' : task_at st k = Some x -> task_at st k' = Some x' ->
  depends_on sub x' x -> reach (b_store st) k k'.
Proof.
  intros Hk Hk' Hdep. destruct (decide (x' = summary_task)) as [->|Hns].
  { assert (k' = summary) as ->.
    { eapply facts_uniq; [exact Hk'|apply (bt_sum _ _ _ _ _ _ _ _ _ _ _ _ _ _ Hb)]. }
    eapply facts_summary; [done|].
    destruct Hdep as [(_ & [=] & _)|[(_ & [=] & _)|[(_ & [=])|[[_ ?]|([[=]|[=]] & _)]]]]. done. }
  assert (exists s, x = compile_task s \/ (judging x' /\ judging x /\ tk_subtask x' = tk_subtask x /\ rank x < rank x'))
    as (s & [->|(Hx' & Hx & Hi & Hr)]).
  { destruct Hdep as [(-> & _)|[(-> & _)|[(-> & _)|[[? _]|?]]]]; [by eexists; left..|done|].
    exists USERPROG. by right. }
  { by eapply facts_compile. }
  destruct (classify k x Hk) as [[_ ->]|[(m & es & ss & Hm & Hs & Hrow & Hin)|(s' & _ & _ & ->)]];
    [by destruct Hx| |by destruct Hx].
  destruct (classify k' x' Hk') as [[_ ->]|[(m' & es' & ss' & Hm' & Hs' & Hrow' & Hin')|(s' & _ & _ & ->)]];
    [by destruct Hx'| |by destruct Hx'].
  assert (m = m') as <-.
  { destruct Hin as [(? & _ & _ & ->)|(? & _ & _ & ->)], Hin' as [(? & _ & _ & ->)|(? & _ & _ & ->)];
      simpl in Hi; lia. }
  simplify_eq. eapply (row_chain _ _ _ _ _ _ _ Hrow k k'); eauto using in_row_elem.
Qed.
End Facts.

(** ** The graph after a push *)

(** What holds of the tasks of submission [key] as long as any is left. *)
Record sub_graph (tl : gmap Z TaskEntry) (key : Z) (sub : Submission) : Prop := {
  sg_expected : forall t e, tl !! t = Some e -> te_submission_internal_id e = key ->
    expected sub (te_task e);
  sg_depends : forall t e t' e', tl !! t = Some e -> te_submission_internal_id e = key ->
    tl !! t' = Some e' -> te_submission_internal_id e' = key ->
    depends_on sub (te_task e') (te_task e) -> reach tl t t';
  sg_uniq : forall t e t' e', tl !! t = Some e -> te_submission_internal_id e = key ->
    tl !! t' = Some e' -> te_submission_internal_id e' = key -> te_task e = te_task e' -> t = t';
  sg_summary : exists t e, tl !! t = Some e /\ te_submission_internal_id e = key /\
    te_task e = summary_task;
}.

Lemma reach_mono tl tl' a b :
  (forall t e, tl !! t = Some e -> exists e', tl' !! t = Some e' /\ te_edges e' = te_edges e) ->
  reach tl a b -> reach tl' a b.
Proof.
  intros Hm Hr. assert (He : forall a b, edge tl a b -> edge tl' a b).
  { intros x y (e & Hx & Hy). destruct (Hm x e Hx) as (e' & Hx' & E). exists e'. by rewrite E. }
  induction Hr as [a b Hab|a b c Hab _ IH]; [by apply tc_once, He|]. eapply tc_l; [by apply He|done].
Qed.

Lemma in_count_union u tl tl' : tl ##ₘ tl' -> in_count u (tl ∪ tl') = in_count u tl + in_count u tl'.
Proof.
  intros Hd. unfold in_count. rewrite map_fmap_union, edge_sum_union; [done|].
  by apply map_disjoint_fmap.
Qed.

Lemma in_count_none u tl :
  (forall t e, tl !! t = Some e -> forall v, v ∈ te_edges e -> is_Some (tl !! v)) ->
  tl !! u = None -> in_count u tl = 0.
Proof.
  intros He Hu. apply edge_sum_zero. intros k es. rewrite lookup_fmap.
  intros (e & Hk & ->)%fmap_Some Hin. destruct (He k e Hk u Hin). congruence.
Qed.

Record pushed (g0 : TaskGraph) (running : list Z) (id : Z) (sub : Submission) (st : Build) : Prop := {
  pu_graph : graph_ok (task_list (b_graph st));
  pu_ready : ready_ok (b_graph st) running;
  pu_count : forall t, is_Some (task_list (b_graph st) !! t) -> t < b_count st;
  pu_old : forall t e, task_list g0 !! t = Some e -> task_list (b_graph st) !! t = Some e;
  pu_new : forall t e, task_list (b_graph st) !! t = Some e ->
    task_list g0 !! t = Some e \/ (te_submission_internal_id e = id /\ te_priority e = priority sub);
  pu_sub : sub_graph (task_list (b_graph st)) id sub;
  pu_complete : forall x, expected sub x -> exists t e,
    task_list (b_graph st) !! t = Some e /\ te_submission_internal_id e = id /\ te_task e = x;
}.

Section Pushed.
Context (id c0 : Z) (g0 : TaskGraph) (running : list Z) (sub : Submission).
Hypothesis Hold : forall u, is_Some (task_list g0 !! u) -> u < c0.
Hypothesis Hg0 : graph_ok (task_list g0).
Hypothesis Hr0 : ready_ok g0 running.
Hypothesis Hfresh : forall t e, task_list g0 !! t = Some e -> te_submission_internal_id e <> id.
Hypothesis Hsub : sub_ok sub.

Lemma queue_old u : u ∈ task_queue g0 -> is_Some (task_list g0 !! u).
Proof. intros Hu. destruct (proj1 (ro_ready _ _ Hr0 u)) as (e & He & _); [set_solver|]. by eexists. Qed.

Section WithBuilt.
Context (prio : Z) (st : Build) (ins : list Z).
Hypothesis Hi : Binv id prio c0 g0 st ins.
Hypothesis Hall : forall k, k ∈ dom (b_store st) <-> k ∈ ins.

Lemma store_old_disjoint : task_list g0 ##ₘ b_store st.
Proof.
  apply map_disjoint_spec. intros k e e' Hk Hk'.
  apply (bi_key _ _ _ _ _ _ Hi) in Hk'. assert (k < c0) by (apply Hold; by eexists). lia.
Qed.

Lemma pushed_list : task_list (b_graph st) = task_list g0 ∪ b_store st.
Proof.
  apply map_eq. intros u. rewrite (bi_list _ _ _ _ _ _ Hi), lookup_union.
  destruct (task_list g0 !! u) as [e|] eqn:E.
  - by destruct (b_store st !! u).
  - rewrite (left_id_L None (∪)). case_bool_decide as Hd; [done|].
    destruct (b_store st !! u) eqn:Eu; [|done]. destruct Hd. apply Hall. by eapply elem_of_dom_2.
Qed.

Lemma pushed_lookup u e : task_list (b_graph st) !! u = Some e <->
  task_list g0 !! u = Some e \/ b_store st !! u = Some e.
Proof. rewrite pushed_list, lookup_union_Some by apply store_old_disjoint. done. Qed.

Lemma pushed_in_count u : in_count u (task_list (b_graph st)) =
  in_count u (task_list g0) + in_count u (b_store st).
Proof. rewrite pushed_list. apply in_count_union, store_old_disjoint. Qed.

Lemma pushed_graph_ok : graph_ok (task_list (b_graph st)).
Proof.
  split.
  - intros t e [He|He]%pushed_lookup; [by apply (go_id _ Hg0) in He|].
    by apply (bi_key _ _ _ _ _ _ Hi) in He as (_ & ? & _).
  - intros t e u [He|He]%pushed_lookup Hu.
    + destruct (go_edges _ Hg0 t e u He Hu) as (e' & He' & ?). exists e'. split; [|done].
      apply pushed_lookup. by left.
    + destruct (bi_edges _ _ _ _ _ _ Hi t e u He Hu) as (e' & He' & ?). exists e'.
      split; [apply pushed_lookup; by right|]. split; [done|].
      apply (bi_key _ _ _ _ _ _ Hi) in He as (_ & _ & -> & _), He' as (_ & _ & -> & _). done.
  - intros t e He. rewrite pushed_in_count. apply pushed_lookup in He as [He|He].
    + rewrite (go_indeg _ Hg0 t e He), (in_count_none t (b_store st)); [lia| |].
      * intros k x Hk v Hv. destruct (bi_edges _ _ _ _ _ _ Hi k x v Hk Hv) as (? & -> & _). by eexists.
      * by eapply map_disjoint_Some_l; [apply store_old_disjoint|].
    + rewrite (bi_indeg _ _ _ _ _ _ Hi t e He), (in_count_none t (task_list g0)); [lia| |].
      * intros k x Hk v Hv. destruct (go_edges _ Hg0 k x v Hk Hv) as (? & -> & _). by eexists.
      * by eapply map_disjoint_Some_r; [apply store_old_disjoint|].
Qed.

Lemma pushed_ready_ok : ready_ok (b_graph st) running.
Proof.
  pose proof (ro_nodup _ _ Hr0) as Hnd. apply NoDup_app in Hnd as (_ & Hdj & Hndr).
  assert (Hrun : forall u, u ∈ running -> is_Some (task_list g0 !! u)).
  { intros u Hu. destruct (proj1 (ro_ready _ _ Hr0 u)) as (e & He & _); [set_solver|]. by eexists. }
  split.
  - apply NoDup_app. split_and!; [apply (bi_nodup _ _ _ _ _ _ Hi)| |done].
    intros u Hu Hur. apply (bi_queue _ _ _ _ _ _ Hi) in Hu as [Hu|(_ & e & He & _)]; [by eapply Hdj|].
    destruct (Hrun u Hur) as [e' He']. by eapply (proj1 (map_disjoint_spec _ _) store_old_disjoint).
  - intros u. rewrite elem_of_app, (bi_queue _ _ _ _ _ _ Hi). split.
    + intros [[Hu|(_ & e & He & Hz)]|Hu].
      * destruct (proj1 (ro_ready _ _ Hr0 u)) as (e & He & Hz); [set_solver|].
        exists e. split; [apply pushed_lookup; by left|done].
      * exists e. split; [apply pushed_lookup; by right|done].
      * destruct (proj1 (ro_ready _ _ Hr0 u)) as (e & He & Hz); [set_solver|].
        exists e. split; [apply pushed_lookup; by left|done].
    + intros (e & [He|He]%pushed_lookup & Hz).
      * assert (u ∈ task_queue g0 ++ running) as [?|?]%elem_of_app
          by (apply (ro_ready _ _ Hr0); eauto); auto.
      * left. right. split; [apply Hall; by eapply elem_of_dom_2|eauto].
Qed.

Lemma pushed_mine t e : task_list (b_graph st) !! t = Some e -> te_submission_internal_id e = id ->
  b_store st !! t = Some e /\ task_at st t = Some (te_task e).
Proof.
  intros [He|He]%pushed_lookup Hid; [by destruct (Hfresh t e He)|]. unfold task_at. by rewrite He.
Qed.

Lemma pushed_task t x : task_at st t = Some x -> exists e,
  task_list (b_graph st) !! t = Some e /\ te_submission_internal_id e = id /\ te_task e = x.
Proof.
  unfold task_at. intros (e & He & ->)%fmap_Some. exists e.
  split; [apply pushed_lookup; by right|]. by apply (bi_key _ _ _ _ _ _ Hi) in He as (_ & _ & ? & _).
Qed.
End WithBuilt.

Lemma build_graph_pushed : exists st,
  build_graph sub id (start c0 g0) = Done st /\ c0 <= b_count st /\ pushed g0 running id sub st.
Proof.
  destruct (build_graph_built id c0 g0 sub Hold queue_old) as
    (st & ins & executes & scorings & summary & c1 & c2 & c3 & c4 & Hdone & Hb); [|done|].
  { pose proof (ro_nodup _ _ Hr0) as Hnd. by apply NoDup_app in Hnd as [? _]. }
  exists st. split; [done|].
  split; [exact (bi_count _ _ _ _ _ _ (bt_inv _ _ _ _ _ _ _ _ _ _ _ _ _ _ Hb))|].
  pose proof (bt_inv _ _ _ _ _ _ _ _ _ _ _ _ _ _ Hb) as Hi.
  pose proof (bt_all _ _ _ _ _ _ _ _ _ _ _ _ _ _ Hb) as Hall.
  pose proof (pushed_mine _ st ins Hi Hall) as Hmine.
  pose proof (pushed_task _ st ins Hi Hall) as Htask.
  split.
  - by eapply pushed_graph_ok.
  - by eapply pushed_ready_ok.
  - intros t [e [He|He]%(pushed_lookup _ _ _ Hi Hall)].
    + assert (t < c0) by (apply Hold; by eexists). pose proof (bi_count _ _ _ _ _ _ Hi). lia.
    + apply (bi_key _ _ _ _ _ _ Hi) in He. lia.
  - intros t e He. apply (pushed_lookup _ _ _ Hi Hall). by left.
  - intros t e [He|He]%(pushed_lookup _ _ _ Hi Hall); [by left|right].
    by apply (bi_key _ _ _ _ _ _ Hi) in He as (_ & _ & ? & ?).
  - split.
    + intros t e He Hid. destruct (Hmine t e He Hid) as [_ Ht]. by eapply facts_expected.
    + intros t e t' e' He Hid He' Hid' Hdep.
      destruct (Hmine t e He Hid) as [_ Ht], (Hmine t' e' He' Hid') as [_ Ht'].
      eapply (reach_mono (b_store st)); [|by eapply facts_depends].
      intros u eu Hu. exists eu. split; [|done]. apply (pushed_lookup _ _ _ Hi Hall). by right.
    + intros t e t' e' He Hid He' Hid' E.
      destruct (Hmine t e He Hid) as [_ Ht], (Hmine t' e' He' Hid') as [_ Ht'].
      eapply facts_uniq; [done..|exact Ht|]. by rewrite E.
    + destruct (Htask summary summary_task) as (e & ? & ? & ?); [|by exists summary, e].
      apply (bt_sum _ _ _ _ _ _ _ _ _ _ _ _ _ _ Hb).
  - intros x Hx. destruct (facts_complete _ _ _ _ _ _ _ _ _ _ _ _ _ _ Hsub Hb x Hx) as [k Hk].
    exists k. by apply Htask.
Qed.
End Pushed.
