(* ===== verification/Handlers.v ===== *)
(** * Task handlers

    The Setup* and Finalize* functions of src/tioj/submission.cpp: what is done
    before a task is given to the sandbox and after its result is known.  [key]
    is the reference [sub_and_result]; [task] the entry's task; [env] what the
    file system answers meanwhile. *)

From S2P Require Import Prelude Enums Text Paths CNum Scores Stream Data State Specjudge.
From Stdlib Require Import SpecFloat.

(** The configuration variables the handlers read. *)
Class Config := {
  kMaxOutput : Z;
  kTimeMultiplier : spec_float;
}.

Definition NL : string := String (ascii_of_nat 10) "".

(** ** Documents handed to special judges *)

Section Meta.
Context `{PathRoots} `{Config}.

Definition us (v : timeval) : Z := ToUs kTimeMultiplier v.

(** [SubmissionAndResult::TestdataMeta]; [lim] and [td] are the elements the
    two indexings give. *)
Definition TestdataMeta (sub : Submission) (lim : TestdataItem) (td : TestdataResult)
    (subtask stage : Z) : json :=
  let res := execute_result td in
  JObj [
    ("input_file", JStr (ScoringBoxTdInput (-1) (-1) (-1) true));
    ("answer_file", JStr (ScoringBoxTdOutput (-1) (-1) (-1) true));
    ("user_output_file", JStr (ScoringBoxUserOutput (-1) (-1) (-1) true));
    ("user_code_file", JStr (ScoringBoxUserCode (-1) (-1) (-1) (lang sub) true));
    ("problem_id", JInt (problem_id sub));
    ("contest_id", JInt (contest_id sub));
    ("submission_id", JInt (submission_id sub));
    ("submitter_id", JInt (submitter_id sub));
    ("submitter_name", JStr (submitter_name sub));
    ("submitter_nickname", JStr (submitter_nickname sub));
    ("submission_time", JInt (submission_time sub));
    ("compiler", JStr (CompilerName (lang sub)));
    ("testdata_index", JInt subtask);
    ("current_stage", JInt stage);
    ("original_verdict", JStr (VerdictToAbr (td_verdict td)));
    ("current_time_us", JInt (td_time td));
    ("message_type", JStr (message_type td));
    ("message", JStr (message td));
    ("tempdir", JStr (ScoringBoxTempdir (-1) (-1) (-1) true));
    ("limits", JObj [
      ("time_us", JInt (lim_time lim));
      ("vss_kib", JInt (lim_vss lim));
      ("rss_kib", JInt (lim_rss lim));
      ("output_kib", JInt (lim_output lim))]);
    ("stats", JObj [
      ("exit_code", JInt (si_status res));
      ("real_us", JInt (us (real_time res)));
      ("user_us", JInt (us (ru_utime res)));
      ("sys_us", JInt (us (ru_stime res)));
      ("max_rss_kib", JInt (ru_maxrss res));
      ("max_vss_kib", JInt (hiwater_vm res))])].

Definition testdata_summary (item : TestdataItem) (td : TestdataResult) : outcome json :=
  match ScoreToString (td_score td) with
  | None => Crash LengthError
  | Some score =>
      Done (JObj [
        ("verdict", JStr (VerdictToAbr (td_verdict td)));
        ("score", JStr score);
        ("time_us", JInt (td_time td));
        ("vss_kib", JInt (td_vss td));
        ("rss_kib", JInt (td_rss td));
        ("message_type", JStr (message_type td));
        ("message", JStr (message td));
        ("ignore_verdict", JBool (ignore_verdict item));
        ("subtasks", JArr (JInt <$> td_groups item))])
  end.

(** The two loops of [SummaryMeta]. *)
Fixpoint summary_testdata (items : list TestdataItem) (tds : list TestdataResult)
    : outcome (list json) :=
  match tds, items with
  | [], _ => Done []
  | _ :: _, [] => Crash OutOfBounds
  | td :: tds', item :: items' =>
      match testdata_summary item td with
      | Crash f => Crash f
      | Done j =>
          match summary_testdata items' tds' with Done l => Done (j :: l) | Crash f => Crash f end
      end
  end.

Fixpoint summary_scores (scores : list Z) : outcome (list json) :=
  match scores with
  | [] => Done []
  | score :: scores' =>
      match ScoreToString score with
      | None => Crash LengthError
      | Some s =>
          match summary_scores scores' with Done l => Done (JStr s :: l) | Crash f => Crash f end
      end
  end.

Definition SummaryMeta (sub : Submission) (result : SubmissionResult) : outcome json :=
  match summary_testdata (testdata sub) (td_results result) with
  | Crash f => Crash f
  | Done td =>
      match summary_scores (group_score sub) with
      | Crash f => Crash f
      | Done subtask_scores =>
          Done (JObj [
            ("user_code_file", JStr (SummaryBoxUserCode (-1) (lang sub) true));
            ("problem_id", JInt (problem_id sub));
            ("contest_id", JInt (contest_id sub));
            ("submission_id", JInt (submission_id sub));
            ("submitter_id", JInt (submitter_id sub));
            ("submitter_name", JStr (submitter_name sub));
            ("submitter_nickname", JStr (submitter_nickname sub));
            ("submission_time", JInt (submission_time sub));
            ("compiler", JStr (CompilerName (lang sub)));
            ("ce_message", JStr (ce_message result));
            ("ce_message_file", JStr (SummaryBoxCEMessage (-1) true));
            ("verdict", JStr (VerdictToAbr (verdict result)));
            ("testdata", JArr td);
            ("subtask_scores", JArr subtask_scores)])
      end
  end.

Definition TestdataMetaOld (td : TestdataResult) (subtask : Z) : string :=
  (if bool_decide (td_verdict td = NUL) then "NONE" else VerdictToAbr (td_verdict td)) +:+ NL +:+
  to_string subtask +:+ NL +:+
  to_string (td_time td) +:+ NL +:+
  to_string (td_vss td) +:+ NL +:+
  to_string (td_rss td) +:+ NL.
End Meta.

(** ** Cancellation *)

Definition IsCancelled (s : Judge) (id : Z) (groups : list Z) : bool :=
  if bool_decide (id ∈ cancelled_list s) then true
  else
    match cancelled_group s !! id with
    | None => false
    | Some gs =>
        match groups with
        | [] => false
        | _ => forallb (fun group => bool_decide (group ∈ gs)) groups
        end
    end.

(** ** The header filter of compiler messages

    [std::regex_replace] with the pattern
    "(^|\n)In file included from[\S\s]*?(\n/workdir/prog|$)": every match from
    left to right; the alternative [^] only matches at the very start. *)

Fixpoint strip_prefix (p s : string) : option string :=
  match p, s with
  | EmptyString, _ => Some s
  | String a p', String b s' => if is_char a b then strip_prefix p' s' else None
  | _, EmptyString => None
  end.

(** What follows the first occurrence of [p]. *)
Fixpoint after_first (p s : string) : option string :=
  match strip_prefix p s with
  | Some r => Some r
  | None => match s with EmptyString => None | String _ s' => after_first p s' end
  end.

Definition header_start : string := "In file included from".
Definition header_end : string := NL +:+ "/workdir/prog".
Definition header_note : string := "[Error messages from headers removed]".

Fixpoint filter_loop (fuel : nat) (at_begin : bool) (s : string) : string :=
  match fuel with
  | O => s
  | S fuel' =>
      let matched (group1 rest : string) :=
        group1 +:+ header_note +:+
        match after_first header_end rest with
        | Some rest' => header_end +:+ filter_loop fuel' false rest'
        | None => ""
        end in
      match (if at_begin then strip_prefix header_start s else None) with
      | Some rest => matched "" rest
      | None =>
          match strip_prefix (NL +:+ header_start) s with
          | Some rest => matched NL rest
          | None =>
              match s with
              | EmptyString => ""
              | String c s' => String c (filter_loop fuel' false s')
              end
          end
      end
  end.

Definition filter_headers (s : string) : string := filter_loop (S (String.length s)) true s.

Definition kMaxMsgLen : nat := 4000.

(** The message of a failed compilation, from the text of its file. *)
Definition compile_message (total_length : Z) (contents : string) : string :=
  let message := filter_headers (String.substring 0 kMaxMsgLen contents) in
  if Z.of_nat kMaxMsgLen <? total_length then
    message +:+ NL +:+ "[Error message truncated after " +:+ to_string (Z.of_nat kMaxMsgLen) +:+ " bytes]"
  else message.

(** ** Compilation *)

Definition GetLang (sub : Submission) (subtask : CompileSubtask) : Compiler :=
  match subtask with
  | USERPROG => lang sub
  | SPECJUDGE => specjudge_lang sub
  | CS_SUMMARY => summary_lang sub
  | PROBPROG => problem_prog_lang sub
  end.

Section Handlers.
Context `{PathRoots} `{Config} `{JsonText} (env : Env).

Definition source_code (id : Z) (subtask : CompileSubtask) : string :=
  match subtask with
  | USERPROG => SubmissionUserCode id
  | SPECJUDGE => SubmissionJudgeCode id
  | CS_SUMMARY => SubmissionSummaryCode id
  | PROBPROG => SubmissionProblemProgCode id
  end.

(** Copying one file below the headers directory. *)
Definition copy_header (box : string) (header : string * string) : list Event :=
  let '(parent, name) := header in
  let parent_dirs := box // parent in
  [EvCreateDirs parent_dirs (Some perms_all);
   EvCopy ((SpecjudgeHeadersPath // parent) // name) (parent_dirs // name) (Some kPerm666)].

Definition SetupCompile (key : Z) (task : Task) : M bool :=
  sr ← get_sub key;
  let sub := sr_sub sr in
  let id := submission_internal_id sub in
  subtask ← or_crash (CompileSubtask_of_Z (tk_subtask task)) BadEnum;
  s ← get;
  if bool_decide (id ∈ cancelled_list s) then mret false
  else
    _ ← emit [EvCreateDirs (Workdir (CompileBoxPath id subtask)) (Some perms_all);
              EvCopy (source_code id subtask)
                (CompileBoxInput id subtask (GetLang sub subtask) false) (Some kPerm666)];
    _ ← match subtask with
        | USERPROG =>
            _ ← when (ReportStartCompiling (reporter sub)) (emit [EvStartCompiling sub]);
            match interlib_type sub with
            | INTERLIB_NONE => mret tt
            | INTERLIB_INCLUDE =>
                emit [EvCopy (SubmissionInterlibCode id)
                        (CompileBoxInterlib id (problem_id sub) false) (Some kPerm666);
                      EvCopy (SubmissionInterlibImplCode id)
                        (CompileBoxInterlibImpl id (lang sub) false) (Some kPerm666)]
            end
        | PROBPROG | SPECJUDGE | CS_SUMMARY =>
            emit (concat (map (copy_header (Workdir (CompileBoxPath id subtask)))
                            (env_header_files env)))
        end;
    mret true.

(** The verdict a finished compilation stands for; NUL when it succeeded. *)
Definition compile_verdict (subtask : CompileSubtask) (cjail_res : cjail_result) (has_output : bool)
    : Verdict :=
  if timekill cjail_res =? -1 then JE
  else if negb (timekill cjail_res =? 0) || (0 <? oomkill cjail_res) ||
          negb (si_status cjail_res =? 0) || negb has_output then
    if negb (bool_decide (subtask = USERPROG)) then JCE
    else if negb (timekill cjail_res =? 0) || (0 <? oomkill cjail_res) then CLE
    else CE
  else NUL.

Definition read_compile_message (path : string) : outcome string :=
  if env_is_regular env path then
    match env_file_size env path with
    | None => Crash FilesystemError
    | Some total_length => Done (compile_message total_length (default "" (env_read env path)))
    end
  else Done "".

Definition FinalizeCompile (key : Z) (task : Task) (cjail_res : cjail_result) : M unit :=
  sr ← get_sub key;
  let sub := sr_sub sr in
  let id := submission_internal_id sub in
  subtask ← or_crash (CompileSubtask_of_Z (tk_subtask task)) BadEnum;
  let verd := compile_verdict subtask cjail_res
                (env_is_regular env (CompileBoxOutput id subtask (GetLang sub subtask) false)) in
  if bool_decide (verd = NUL) then mret tt
  else if bool_decide (verd = JE) then modify_res key (set_verdict JE)
  else
    _ ← modify_res key (fun r => set_verdict (verdict_max (verdict r) verd) r);
    message ← lift_outcome (read_compile_message (CompileBoxMessage id subtask false));
    match subtask with
    | USERPROG =>
        _ ← modify_res key (set_ce_message message);
        res ← get_res key;
        when (ReportCEMessage (reporter sub)) (emit [EvCEMessage sub res])
    | PROBPROG | SPECJUDGE =>
        _ ← modify_res key (set_jce_message message);
        res ← get_res key;
        when (ReportJCEMessage (reporter sub)) (emit [EvJCEMessage sub res])
    | CS_SUMMARY =>
        modify_res key (fun r =>
          if bool_decide (jce_message r = "") then set_jce_message message r else r)
    end.

(** ** Execution *)

(** [(size / 4096 + 1) * 4]: the pages of a file, in KiB. *)
Definition page_kib (size : Z) : Z := (size / 4096 + 1) * 4.

(** The arithmetic is on [uintmax_t]; the result becomes a [long]. *)
Definition tmpfs_size (prog_size input_size output_limit : Z) : Z :=
  to_long (page_kib prog_size + page_kib input_size +
           Z.min (to_long (output_limit * 2)) kMaxOutput).

Definition SetupExecute (key : Z) (task : Task) : M bool :=
  sr ← get_sub key;
  let sub := sr_sub sr in
  let res := sr_result sr in
  if negb (bool_decide (verdict res = NUL)) then mret false
  else
    let id := submission_internal_id sub in
    let subtask := tk_subtask task in
    let stage := tk_stage task in
    item ← vec_at (testdata sub) subtask;
    s ← get;
    if IsCancelled s id (td_groups item) then mret false
    else
      (* in stage 0 the element need not exist; it is not looked at *)
      let td_result := vec_ref (td_results res) subtask in
      skip ← (if 0 <? stage then
                td ← deref td_result;
                mret (skip_stage td || negb (bool_decide (td_verdict td = NUL)))
              else mret false);
      if (skip : bool) then mret false
      else
        let workdir := Workdir (ExecuteBoxPath id subtask stage) in
        let is_problem_prog_stage := bool_decide (stage ∈ problem_prog_stages sub) in
        let compiled :=
          if is_problem_prog_stage then CompileBoxOutput id PROBPROG (problem_prog_lang sub) false
          else CompileBoxOutput id USERPROG (lang sub) false in
        let prog_lang := if is_problem_prog_stage then problem_prog_lang sub else lang sub in
        let input := ExecuteBoxInput id subtask stage (sandbox_strict sub) false in
        _ ← emit [EvCreateDirs workdir None];
        _ ← when (negb (sandbox_strict sub))
              (prog_size ← or_crash (env_file_size env compiled) FilesystemError;
               input_size ← or_crash (env_file_size env (input_file item)) FilesystemError;
               emit [EvMountTmpfs workdir (tmpfs_size prog_size input_size (lim_output item))]);
        _ ← emit [EvCopy compiled (ExecuteBoxProgram id subtask stage prog_lang false)
                    (Some (ExecuteBoxProgramPerm prog_lang (sandbox_strict sub)))];
        _ ← (if sandbox_strict sub then
               emit [EvCreateDirs (ExecuteBoxTdStrictPath id subtask stage false) (Some perms_owner_all)]
             else emit [EvPermissions workdir perms_all]);
        let perm := if sandbox_strict sub then perms_owner_rw else kPerm666 in
        _ ← (if stage =? 0 then emit [EvCopy (input_file item) input (Some perm)]
             else emit [EvMove (ExecuteBoxFinalOutput id subtask (stage - 1)) input None;
                        EvPermissions input perm]);
        mret true.

(** [resize(n)] when the vector is shorter. *)
Definition grow_td_results (n : nat) (r : SubmissionResult) : SubmissionResult :=
  if (length (td_results r) <? n)%nat then
    set_td_results (td_results r ++ replicate (n - length (td_results r)) empty_TestdataResult) r
  else r.

(** Usage after a stage: the first stage sets it, later ones accumulate. *)
Definition record_usage (stage : Z) (cjail_res : cjail_result) (td : TestdataResult) : TestdataResult :=
  let time := to_long (us (ru_utime cjail_res) + us (ru_stime cjail_res)) in
  if stage =? 0 then
    set_td_score 0 (set_td_time time
      (set_td_rss (ru_maxrss cjail_res) (set_td_vss (hiwater_vm cjail_res) td)))
  else
    set_td_time (to_long (td_time td + time))
      (set_td_rss (Z.max (td_rss td) (ru_maxrss cjail_res))
        (set_td_vss (Z.max (td_vss td) (hiwater_vm cjail_res)) td)).

Definition over_memory (lim : TestdataItem) (td : TestdataResult) : bool :=
  (negb (lim_vss lim =? 0) && (lim_vss lim <? td_vss td)) ||
  (negb (lim_rss lim =? 0) && (lim_rss lim <? td_rss td)).

Definition execute_verdict (strict : bool) (lim : TestdataItem) (cjail_res : cjail_result)
    (td : TestdataResult) : Verdict :=
  if timekill cjail_res =? -1 then EE
  else if 0 <? oomkill cjail_res then MLE
  else if negb (timekill cjail_res =? 0) then TLE
  else if (si_code cjail_res =? CLD_KILLED) || (si_code cjail_res =? CLD_DUMPED) then
    if (si_status cjail_res =? SIGXFSZ) || (strict && (si_status cjail_res =? SIGPIPE)) then OLE
    else if over_memory lim td then MLE
    else SIG
  else if over_memory lim td then MLE
  else if negb (si_status cjail_res =? 0) then RE
  else if lim_time lim <? td_time td then TLE
  else NUL.

Definition FinalizeExecute (key : Z) (task : Task) (cjail_res : cjail_result) : M unit :=
  sr ← get_sub key;
  let sub := sr_sub sr in
  let id := submission_internal_id sub in
  let subtask := tk_subtask task in
  let stage := tk_stage task in
  _ ← modify_res key (grow_td_results (Z.to_nat (subtask + 1)));
  _ ← modify_td key subtask (set_execute_result cjail_res);
  let output_path := ExecuteBoxOutput id subtask stage (sandbox_strict sub) false in
  let output_dest := ExecuteBoxFinalOutput id subtask stage in
  let workdir := Workdir (ExecuteBoxPath id subtask stage) in
  _ ← (if env_is_regular env output_path then emit [EvMove output_path output_dest (Some kPerm666)]
       else emit [EvWrite output_dest ""; EvPermissions output_dest kPerm666]);
  _ ← emit [EvChownRoot output_dest];
  _ ← when (negb (sandbox_strict sub)) (emit [EvUmount workdir]);
  _ ← emit [EvRemoveAll workdir];
  _ ← when (0 <? stage) (emit [EvRemoveAll (ExecuteBoxPath id subtask (stage - 1))]);
  lim ← vec_at (testdata sub) subtask;
  _ ← modify_td key subtask (record_usage stage cjail_res);
  modify_td key subtask (fun td =>
    set_td_verdict (execute_verdict (sandbox_strict sub) lim cjail_res td) td).

(** ** Scoring *)

Definition is_failure (v : Verdict) : bool :=
  negb (bool_decide (v = NUL)) && negb (bool_decide (v = AC)).

(** What the end of a scoring stage makes of the verdict read. *)
Definition settle_stage (last_stage : bool) (td : TestdataResult) : TestdataResult :=
  if negb last_stage && negb (bool_decide (td_verdict td = NUL)) then set_skip_stage true td
  else if last_stage && bool_decide (td_verdict td = NUL) then set_td_verdict WA td
  else td.

Definition cancel_groups (id : Z) (groups : list Z) (s : Judge) : Judge :=
  set_cancelled_group
    (<[id := default ∅ (cancelled_group s !! id) ∪ list_to_set groups]> (cancelled_group s)) s.

Definition FinalizeScoring (key : Z) (task : Task) (cjail_res : cjail_result) (skipped : bool)
    : M unit :=
  sr ← get_sub key;
  let sub := sr_sub sr in
  let id := submission_internal_id sub in
  let subtask := tk_subtask task in
  let stage := tk_stage task in
  let output_path := ScoringBoxOutput id subtask stage false in
  let user_output_path := ScoringBoxUserOutput id subtask stage false in
  let tempdir_path := ScoringBoxTempdir id subtask stage false in
  let last_stage := stage =? stages sub - 1 in
  td ← get_td key subtask;
  let td := set_td_score 0 td in
  let '(td, evs) :=
    if skipped then (td, [])
    else ReadSpecjudgeResult env sub cjail_res last_stage output_path user_output_path tempdir_path td in
  _ ← emit evs;
  let td := settle_stage last_stage td in
  _ ← put_td key subtask td;
  item ← vec_at (testdata sub) subtask;
  _ ← when (skip_group sub && is_failure (td_verdict td)) (modify (cancel_groups id (td_groups item)));
  _ ← when (negb last_stage && negb skipped && negb (skip_stage td) &&
            negb (bool_decide (specjudge_type sub = SJ_SKIP)))
        (emit [EvMove user_output_path (ExecuteBoxFinalOutput id subtask stage) None]);
  _ ← when last_stage
        (_ ← emit [EvRemoveAll (ExecuteBoxPath id subtask (stages sub - 1))];
         when (negb skipped) (emit [EvRemoveAll (ScoringBoxPath id subtask (stages sub - 1))]));
  _ ← when (judge_between_stages sub && (0 <? stage))
        (emit [EvRemoveAll (ScoringBoxPath id subtask (stage - 1))]);
  s ← get;
  res ← get_res key;
  when (negb (bool_decide (id ∈ cancelled_list s)) && ReportScoringResult (reporter sub) &&
        (report_intermediate_stage sub || last_stage || skip_stage td))
    (emit [EvScoringResult sub res subtask stage]).

Definition SetupScoring (key : Z) (task : Task) : M bool :=
  sr ← get_sub key;
  let sub := sr_sub sr in
  let res := sr_result sr in
  if negb (bool_decide (verdict res = NUL)) then mret false
  else
    let id := submission_internal_id sub in
    let subtask := tk_subtask task in
    let stage := tk_stage task in
    item ← vec_at (testdata sub) subtask;
    s ← get;
    if IsCancelled s id (td_groups item) then mret false
    else
      td ← vec_at (td_results res) subtask;
      if skip_stage td then mret false
      else if negb (bool_decide (td_verdict td = NUL)) && negb (judge_abnormally_terminated sub) then
        _ ← FinalizeScoring key task zero_cjail_result true;
        mret false
      else
        let specjudge_prog :=
          if bool_decide (specjudge_type sub = SJ_NORMAL) then DefaultScoringPath
          else CompileBoxOutput id SPECJUDGE (specjudge_lang sub) false in
        _ ← emit [EvCreateDirs (Workdir (ScoringBoxPath id subtask stage)) (Some perms_all);
                  EvCopy specjudge_prog (ScoringBoxProgram id subtask stage (specjudge_lang sub) false)
                    (Some perms_all);
                  EvCopy (SubmissionUserCode id) (ScoringBoxUserCode id subtask stage (lang sub) false)
                    (Some kPerm666)];
        let user_output := ExecuteBoxFinalOutput id subtask stage in
        if bool_decide (specjudge_type sub = SJ_SKIP) then
          _ ← emit [EvMove user_output (ScoringBoxOutput id subtask stage false) None];
          _ ← FinalizeScoring key task zero_cjail_result false;
          mret false
        else
          let scoring_user_output := ScoringBoxUserOutput id subtask stage false in
          _ ← (if env_exists env user_output then
                 emit [EvMove user_output scoring_user_output (Some kPerm666)]
               else emit [EvWrite scoring_user_output ""; EvPermissions scoring_user_output kPerm666]);
          _ ← emit [EvCopy (input_file item) (ScoringBoxTdInput id subtask stage false) (Some kPerm666);
                    EvCopy (answer_file item) (ScoringBoxTdOutput id subtask stage false) (Some kPerm666)];
          _ ← (if negb (judge_between_stages sub) || (stage =? 0) then
                 emit [EvCreateDirs (ScoringBoxTempdir id subtask stage false) (Some perms_all)]
               else emit [EvMove (ScoringBoxTempdir id subtask (stage - 1) false)
                            (ScoringBoxTempdir id subtask stage false) None]);
          let meta :=
            if bool_decide (specjudge_type sub = SPECJUDGE_OLD) then TestdataMetaOld td subtask
            else json_dump (TestdataMeta sub item td subtask stage) in
          _ ← emit [EvWrite (ScoringBoxMetaFile id subtask stage false) meta];
          mret true.

(** ** The summary *)

(** The loop that takes the worst verdict of the test data that count. *)
Fixpoint overall_verdict (items : list TestdataItem) (tds : list TestdataResult) (v : Verdict)
    : outcome Verdict :=
  match tds, items with
  | [], _ => Done v
  | _ :: _, [] => Crash OutOfBounds
  | td :: tds', item :: items' =>
      overall_verdict items' tds'
        (if ignore_verdict item then v
         else if verdict_lt v (td_verdict td) then td_verdict td else v)
  end.

Definition SetupSummary (key : Z) (task : Task) : M bool :=
  sr ← get_sub key;
  let sub := sr_sub sr in
  let res := sr_result sr in
  v ← lift_outcome (if bool_decide (verdict res = NUL)
                    then overall_verdict (testdata sub) (td_results res) AC
                    else Done (verdict res));
  _ ← modify_res key (set_verdict v);
  if bool_decide (summary_type sub = SUMMARY_NONE) || bool_decide (v = JCE) then mret false
  else
    let id := submission_internal_id sub in
    let ce_message_src := CompileBoxMessage id USERPROG false in
    _ ← emit [EvCreateDirs (Workdir (SummaryBoxPath id)) (Some perms_all);
              EvMove (CompileBoxOutput id CS_SUMMARY (summary_lang sub) false)
                (SummaryBoxProgram id (summary_lang sub) false) (Some perms_all);
              EvCopy (SubmissionUserCode id) (SummaryBoxUserCode id (lang sub) false) (Some kPerm666)];
    _ ← (if env_is_regular env ce_message_src then
           emit [EvMove ce_message_src (SummaryBoxCEMessage id false) (Some kPerm666)]
         else emit [EvWrite (SummaryBoxCEMessage id false) "";
                    EvPermissions (SummaryBoxCEMessage id false) kPerm666]);
    res ← get_res key;
    meta ← lift_outcome (SummaryMeta sub res);
    _ ← emit [EvWrite (SummaryBoxMetaFile id false) (json_dump meta)];
    mret true.

Definition kInfScore : Z := 2000000000000.

(** [for (int group : td_groups) subtask_scores[group] = min(...)]. *)
Fixpoint lower_groups (score : Z) (groups : list Z) (subtask_scores : list Z) : outcome (list Z) :=
  match groups with
  | [] => Done subtask_scores
  | group :: groups' =>
      if group <? 0 then Crash OutOfBounds
      else
        match subtask_scores !! Z.to_nat group with
        | None => Crash OutOfBounds
        | Some old =>
            lower_groups score groups' (<[Z.to_nat group := Z.min old score]> subtask_scores)
        end
  end.

Record totals := { tot_memory : Z; tot_time : Z; tot_scores : list Z }.

Fixpoint sum_testdata (items : list TestdataItem) (tds : list TestdataResult) (t : totals)
    : outcome totals :=
  match tds, items with
  | [], _ => Done t
  | _ :: _, [] => Crash OutOfBounds
  | td :: tds', item :: items' =>
      if ignore_verdict item then sum_testdata items' tds' t
      else
        match lower_groups (td_score td) (td_groups item) (tot_scores t) with
        | Crash f => Crash f
        | Done scores =>
            sum_testdata items' tds'
              {| tot_memory := Z.max (tot_memory t) (td_rss td);
                 tot_time := to_long (tot_time t + td_time td); tot_scores := scores |}
        end
  end.

(** The weighted sum, in [__int128]. *)
Fixpoint weigh_groups (scores weights : list Z) (acc : Z) : Z :=
  match scores, weights with
  | score :: scores', weight :: weights' =>
      let score := if score =? kInfScore then 100000000 else score in
      weigh_groups scores' weights' (wrap_signed 128 (acc + score * weight))
  | _, _ => acc
  end.

Definition overall_score (scores weights : list Z) : Z :=
  NormalizeScore (ld_div (ld_of_Z (weigh_groups scores weights 0)) (ld_of_Z (100000000 * 1000000))).

Definition compute_totals (sub : Submission) (res : SubmissionResult) : outcome SubmissionResult :=
  let res := set_total_score 0 res in
  if verdict_lt (verdict res) CE then
    match sum_testdata (testdata sub) (td_results res)
            {| tot_memory := 0; tot_time := 0;
               tot_scores := replicate (length (group_score sub)) kInfScore |} with
    | Crash f => Crash f
    | Done t =>
        Done (set_total_score (overall_score (tot_scores t) (group_score sub))
                (set_totals (tot_memory t) (tot_time t) res))
    end
  else Done res.

(** The summary program's say. *)
Definition apply_summary (output_path : string) (cjail_res : cjail_result) (res : SubmissionResult)
    : SubmissionResult :=
  let failed := set_totals 0 0 (set_verdict JRE res) in
  if negb (env_is_regular env output_path) || negb (si_status cjail_res =? 0) then failed
  else default failed (ReadSummaryResult env output_path res).

Definition FinalizeSummary (key : Z) (task : Task) (cjail_res : cjail_result) (skipped : bool)
    : M unit :=
  sr ← get_sub key;
  let sub := sr_sub sr in
  let id := submission_internal_id sub in
  res ← lift_outcome (compute_totals sub (sr_result sr));
  let res := if skipped then res else apply_summary (SummaryBoxOutput id false) cjail_res res in
  _ ← put_res key res;
  _ ← when (remove_submission sub) (emit [EvRemoveAll (SubmissionCodePath id)]);
  _ ← emit [EvRemoveAll (SubmissionRunPath id)];
  s ← get;
  _ ← (if bool_decide (id ∈ cancelled_list s) then
         modify (set_cancelled_list (cancelled_list s ∖ {[id]}))
       else when (ReportOverallResult (reporter sub)) (emit [EvOverallResult sub res]));
  _ ← modify (fun s => set_cancelled_group (delete id (cancelled_group s)) s);
  _ ← when (ReportFinalized (reporter sub))
        (s ← get; emit [EvFinalized sub (Z.of_nat (size (submission_list s)))]);
  _ ← modify (fun s => set_submission_id_map (delete id (submission_id_map s)) s);
  modify (fun s => set_submission_list (delete id (submission_list s)) s).
End Handlers.
