(* ===== verification/HandlerFacts.v ===== *)
(** * What the handlers keep

    Every handler but the last one changes only the result of its own
    submission, the cancelled groups (which grow) and the trace; no handler
    indexes out of range when its submission is known and, for a scoring task,
    the test data has been executed. *)

From S2P Require Import Prelude Enums Text Paths CNum Scores Stream Data TaskGraph State Specjudge Push PushRows PushGraph Handlers.
From Stdlib Require Import SpecFloat.

(** The faults that remain possible: a file operation throws, or a negative
    score is printed. *)
Definition allowed (f : fault) : Prop := f = FilesystemError \/ f = LengthError.

(** ** Results *)

Definition td_runtime (td : TestdataResult) : Prop := verdict_lt (td_verdict td) CE = true.

Record res_ok (sub : Submission) (r : SubmissionResult) : Prop := {
  ro_length : (length (td_results r) <= length (testdata sub))%nat;
  ro_runtime : Forall td_runtime (td_results r);
}.

Record res_evolves (sub : Submission) (r r' : SubmissionResult) : Prop := {
  re_length : (length (td_results r) <= length (td_results r'))%nat;
  re_verdict : verdict r <> NUL -> verdict r' <> NUL;
  re_ok : res_ok sub r -> res_ok sub r';
}.

#[export] Instance res_evolves_preorder sub : PreOrder (res_evolves sub).
Proof.
  split; [by split|]. intros x y z [A1 A2 A3] [B1 B2 B3]. split; [lia|auto|auto].
Qed.

(** A change that leaves the test data alone. *)
Lemma res_evolves_same sub r r' :
  td_results r' = td_results r -> (verdict r <> NUL -> verdict r' <> NUL) -> res_evolves sub r r'.
Proof. intros E Hv. split; rewrite ?E; [done|done|]. intros [H1 H2]. split; by rewrite E. Qed.

Lemma res_evolves_td sub r i td :
  td_runtime td -> res_evolves sub r (set_td_results (<[i := td]> (td_results r)) r).
Proof.
  intros Htd. split; simpl; [by rewrite length_insert|done|].
  intros [H1 H2]. split; simpl; [by rewrite length_insert|]. by apply Forall_insert.
Qed.

Lemma res_evolves_grow sub n r : (n <= length (testdata sub))%nat ->
  res_evolves sub r (grow_td_results n r).
Proof.
  intros Hn. unfold grow_td_results. destruct (Nat.ltb_spec (length (td_results r)) n); [|done].
  split; simpl; rewrite ?length_app, ?length_replicate; [lia|done|].
  intros [H1 H2]. split; simpl; [rewrite length_app, length_replicate; lia|].
  apply Forall_app. split; [done|]. by apply Forall_replicate.
Qed.

Lemma grow_length n r : (n <= length (td_results (grow_td_results n r)))%nat.
Proof.
  unfold grow_td_results. destruct (Nat.ltb_spec (length (td_results r)) n); [|done].
  simpl. rewrite length_app, length_replicate. lia.
Qed.

(** ** States *)

(** The overall results among some effects. *)
Definition overall_of : list Event -> list (Submission * SubmissionResult) :=
  omap (fun e => match e with EvOverallResult sub r => Some (sub, r) | _ => None end).

Lemma overall_of_app es es' : overall_of (es ++ es') = overall_of es ++ overall_of es'.
Proof. apply omap_app. Qed.

Record evolves (key : Z) (s s' : Judge) : Prop := {
  ev_graph : graph s' = graph s;
  ev_handle : handle_map s' = handle_map s;
  ev_count : task_count s' = task_count s;
  ev_idmap : submission_id_map s' = submission_id_map s;
  ev_cancelled : cancelled_list s' = cancelled_list s;
  ev_overall : overall_of (trace s') = overall_of (trace s);
  ev_groups : forall k gs, cancelled_group s !! k = Some gs ->
    exists gs', cancelled_group s' !! k = Some gs' /\ gs ⊆ gs';
  ev_other : forall k, k <> key -> submission_list s' !! k = submission_list s !! k;
  ev_sub : forall sr, submission_list s !! key = Some sr -> exists r',
    submission_list s' !! key = Some (with_result sr r') /\
    res_evolves (sr_sub sr) (sr_result sr) r';
}.

#[export] Instance evolves_preorder key : PreOrder (evolves key).
Proof.
  split.
  - intros s. split; try done.
    + intros k gs Hk. by exists gs.
    + intros sr Hsr. exists (sr_result sr). split; [by destruct sr|done].
  - intros x y z [A1 A2 A3 A4 A5 A0 A6 A7 A8] [B1 B2 B3 B4 B5 B0 B6 B7 B8]. split; try congruence.
    + intros k gs Hk. destruct (A6 k gs Hk) as (g1 & Hg1 & ?), (B6 k g1 Hg1) as (g2 & Hg2 & ?).
      exists g2. split; [done|set_solver].
    + intros k Hk. by rewrite B7, A7.
    + intros sr Hsr. destruct (A8 sr Hsr) as (r1 & Hr1 & E1). destruct (B8 _ Hr1) as (r2 & Hr2 & E2).
      exists r2. split; [done|]. by etrans.
Qed.

Lemma IsCancelled_evolves key s s' id groups :
  evolves key s s' -> IsCancelled s id groups = true -> IsCancelled s' id groups = true.
Proof.
  intros He. unfold IsCancelled. rewrite (ev_cancelled _ _ _ He). case_bool_decide; [done|].
  destruct (cancelled_group s !! id) as [gs|] eqn:E; [|done].
  destruct (ev_groups _ _ _ He _ _ E) as (gs' & -> & Hsub).
  destruct groups as [|g groups]; [done|]. rewrite !forallb_forall.
  intros Hall x Hx. specialize (Hall x Hx). apply bool_decide_eq_true in Hall.
  apply bool_decide_eq_true. set_solver.
Qed.

Lemma IsCancelled_cancelled s id groups : id ∈ cancelled_list s -> IsCancelled s id groups = true.
Proof. intros Hin. unfold IsCancelled. by rewrite bool_decide_true. Qed.

(** ** Triples for the primitives *)

Section Primitives.
Context (key : Z) (s0 : Judge) (sr : SubmissionAndResult).
Hypothesis Hsr : submission_list s0 !! key = Some sr.

(** The computation stays within [evolves]. *)
Definition keeps {A} (m : M A) : Prop :=
  triple allowed (evolves key s0) m (fun _ s => evolves key s0 s).

Lemma keeps_ret {A} (a : A) : keeps (mret a).
Proof. by apply triple_ret. Qed.

Lemma keeps_bind {A B} (m : M A) (k : A -> M B) :
  keeps m -> (forall a, keeps (k a)) -> keeps (m ≫= k).
Proof. intros Hm Hk. by eapply triple_bind. Qed.

Lemma keeps_emit es : overall_of es = [] -> keeps (emit es).
Proof.
  intros Hes. apply triple_modify. intros s He. etrans; [exact He|]. split; try done.
  - simpl. by rewrite overall_of_app, Hes, app_nil_r.
  - intros k gs Hk. by exists gs.
  - intros x Hx. exists (sr_result x). split; [by destruct x|done].
Qed.

Lemma keeps_when b m : keeps m -> keeps (when b m).
Proof. intros Hm. destruct b; [done|apply keeps_ret]. Qed.

Lemma keeps_if {A} (b : bool) (m m' : M A) : keeps m -> keeps m' -> keeps (if b then m else m').
Proof. by destruct b. Qed.

Lemma keeps_get : keeps get.
Proof. by apply triple_get. Qed.

Lemma keeps_or_crash {A} (o : option A) f : allowed f -> keeps (or_crash o f).
Proof. intros Hf. destruct o; [apply keeps_ret|]. by intros s _. Qed.

Lemma keeps_lift {A} (o : outcome A) : (forall f, o = Crash f -> allowed f) -> keeps (lift_outcome o).
Proof. intros Hf s Hs. unfold lift_outcome. destruct o; [done|]. by apply Hf. Qed.

Lemma keeps_lift_bind {A B} (o : outcome A) a (k : A -> M B) :
  o = Done a -> keeps (k a) -> keeps (lift_outcome o ≫= k).
Proof. intros -> Hk s Hs. unfold mbind, M_bind. by apply Hk. Qed.

(** The submission as the state has it. *)
Definition sees (r : SubmissionResult) (s : Judge) : Prop :=
  evolves key s0 s /\ submission_list s !! key = Some (with_result sr r) /\
  res_evolves (sr_sub sr) (sr_result sr) r.

Lemma evolves_sees s : evolves key s0 s -> exists r, sees r s.
Proof using Hsr.
  intros He. destruct (ev_sub _ _ _ He sr Hsr) as (r & Hr & Hev). exists r. by split.
Qed.

Lemma get_sub_spec s : evolves key s0 s ->
  exists r, get_sub key s = Done (with_result sr r, s) /\ sees r s.
Proof using Hsr.
  intros He. destruct (evolves_sees s He) as (r & Hs). exists r. split; [|done].
  unfold get_sub, get, mbind, M_bind. destruct Hs as (_ & -> & _). done.
Qed.

Lemma keeps_get_sub {B} (k : SubmissionAndResult -> M B) :
  (forall r, res_evolves (sr_sub sr) (sr_result sr) r -> keeps (k (with_result sr r))) ->
  keeps (get_sub key ≫= k).
Proof using Hsr.
  intros Hk s Hs. destruct (get_sub_spec s Hs) as (r & Hg & Hsee).
  unfold mbind, M_bind. rewrite Hg. apply Hk; [apply Hsee|done].
Qed.

Lemma keeps_get_res {B} (k : SubmissionResult -> M B) :
  (forall r, res_evolves (sr_sub sr) (sr_result sr) r -> keeps (k r)) -> keeps (get_res key ≫= k).
Proof using Hsr.
  intros Hk s Hs. destruct (get_sub_spec s Hs) as (r & Hg & Hsee).
  unfold get_res, mbind, M_bind. rewrite Hg. simpl. apply (Hk r); [apply Hsee|done].
Qed.

Lemma put_res_spec r r' s : sees r s -> res_evolves (sr_sub sr) r r' ->
  exists s', put_res key r' s = Done (tt, s') /\ sees r' s'.
Proof using Hsr.
  intros (He & Hl & Hr) Hr'. destruct (get_sub_spec s He) as (r0 & Hg & _).
  assert (r0 = r) as ->.
  { unfold get_sub, get, mbind, M_bind in Hg. rewrite Hl in Hg. by injection Hg. }
  eexists. unfold put_res, mbind at 1, M_bind at 1. rewrite Hg. split; [reflexivity|].
  split; [|split; [simpl; by rewrite lookup_insert_eq|by etrans]].
  etrans; [exact He|]. split; try done; simpl.
  - intros k gs Hk. by exists gs.
  - intros k Hk. by rewrite lookup_insert_ne.
  - intros x Hx. rewrite Hl in Hx. injection Hx as <-. exists r'. rewrite lookup_insert_eq. by split.
Qed.

Lemma keeps_put_res r' : (forall r, res_evolves (sr_sub sr) (sr_result sr) r -> res_evolves (sr_sub sr) r r') ->
  keeps (put_res key r').
Proof using Hsr.
  intros Hr' s Hs. destruct (evolves_sees s Hs) as (r & Hsee).
  destruct (put_res_spec r r' s Hsee (Hr' r (proj2 (proj2 Hsee)))) as (s' & -> & Hsee'). apply Hsee'.
Qed.

Lemma modify_res_spec f r s : sees r s -> res_evolves (sr_sub sr) r (f r) ->
  exists s', modify_res key f s = Done (tt, s') /\ sees (f r) s'.
Proof using Hsr.
  intros Hsee Hf. pose proof (proj1 Hsee) as He. destruct (get_sub_spec s He) as (r0 & Hg & _).
  assert (r0 = r) as ->.
  { destruct Hsee as (_ & Hl & _). unfold get_sub, get, mbind, M_bind in Hg. rewrite Hl in Hg. by injection Hg. }
  destruct (put_res_spec r (f r) s Hsee Hf) as (s' & Hp & Hsee'). exists s'. split; [|done].
  unfold modify_res, get_res, mbind, M_bind. rewrite Hg. exact Hp.
Qed.

Lemma keeps_modify_res f : (forall r, res_evolves (sr_sub sr) r (f r)) -> keeps (modify_res key f).
Proof using Hsr.
  intros Hf s Hs. destruct (evolves_sees s Hs) as (r & Hsee).
  destruct (modify_res_spec f r s Hsee (Hf r)) as (s' & -> & Hsee'). apply Hsee'.
Qed.

Lemma vec_at_spec {A} (l : list A) i (s : Judge) : 0 <= i < Z.of_nat (length l) ->
  exists a, l !! Z.to_nat i = Some a /\ vec_at l i s = Done (a, s).
Proof using.
  intros Hi. destruct (lookup_lt_is_Some_2 l (Z.to_nat i)) as [a Ha]; [lia|]. exists a. split; [done|].
  unfold vec_at. rewrite (proj2 (Z.leb_le 0 i)) by lia. by rewrite Ha.
Qed.

Lemma keeps_vec_at {A B} (l : list A) i (k : A -> M B) : 0 <= i < Z.of_nat (length l) ->
  (forall a, l !! Z.to_nat i = Some a -> keeps (k a)) -> keeps (vec_at l i ≫= k).
Proof using.
  intros Hi Hk s Hs. destruct (vec_at_spec l i s Hi) as (a & Ha & Hv).
  unfold mbind, M_bind. rewrite Hv. by apply (Hk a Ha).
Qed.

(** Access to an element that already exists in the starting state. *)
Definition executed (i : Z) : Prop := 0 <= i < Z.of_nat (length (td_results (sr_result sr))).

Lemma keeps_get_td {B} i (k : TestdataResult -> M B) : executed i ->
  (forall td, (res_ok (sr_sub sr) (sr_result sr) -> td_runtime td) -> keeps (k td)) ->
  keeps (get_td key i ≫= k).
Proof using Hsr.
  intros Hi Hk s Hs. destruct (get_sub_spec s Hs) as (r & Hg & Hsee).
  unfold executed in Hi. destruct Hsee as (_ & _ & Hr). pose proof (re_length _ _ _ Hr).
  destruct (vec_at_spec (td_results r) i s) as (td & Htd & Hv); [lia|].
  unfold get_td, get_res, mbind, M_bind. rewrite Hg. simpl. rewrite Hv. apply Hk; [|done].
  intros Hok. apply (re_ok _ _ _ Hr) in Hok.
  exact (Forall_lookup_1 _ _ _ _ (ro_runtime _ _ Hok) Htd).
Qed.

Lemma keeps_put_td i td : executed i -> (res_ok (sr_sub sr) (sr_result sr) -> td_runtime td) ->
  res_ok (sr_sub sr) (sr_result sr) -> keeps (put_td key i td).
Proof using Hsr.
  intros Hi Htd Hok s Hs. destruct (get_sub_spec s Hs) as (r & Hg & Hsee).
  unfold executed in Hi. pose proof (re_length _ _ _ (proj2 (proj2 Hsee))).
  destruct (vec_at_spec (td_results r) i s) as (td0 & _ & Hv); [lia|].
  destruct (put_res_spec r _ s Hsee (res_evolves_td (sr_sub sr) r (Z.to_nat i) td (Htd Hok)))
    as (s' & Hp & Hsee').
  unfold put_td, get_res, mbind, M_bind. rewrite Hg. simpl. rewrite Hv, Hp. apply Hsee'.
Qed.

Lemma keeps_modify_td i f : executed i -> res_ok (sr_sub sr) (sr_result sr) ->
  (forall td, td_runtime td -> td_runtime (f td)) -> keeps (modify_td key i f).
Proof using Hsr.
  intros Hi Hok Hf. unfold modify_td. apply keeps_get_td; [done|]. intros td Htd.
  apply keeps_put_td; auto.
Qed.

Lemma keeps_cancel_groups id groups : keeps (modify (cancel_groups id groups)).
Proof using.
  clear Hsr. apply triple_modify. intros s He. etrans; [exact He|]. split; try done; simpl.
  - intros k gs Hk. rewrite lookup_insert. case_decide; subst.
    + rewrite Hk. simpl. eexists. split; [done|set_solver].
    + by exists gs.
  - intros x Hx. exists (sr_result x). split; [by destruct x|done].
Qed.
End Primitives.

(** ** The handlers *)

Lemma ReadSpecjudgeResult_runtime `{JsonText} env sub info last out upath dir td :
  td_runtime td -> td_runtime (fst (ReadSpecjudgeResult env sub info last out upath dir td)).
Proof.
  unfold td_runtime. intros Htd.
  assert (Hov : forall n brk sc st, verdict_lt (td_verdict (os_td st)) CE = true ->
    verdict_lt (td_verdict (override_loop n brk sc st)) CE = true).
  { induction n as [|n IH]; intros brk sc st Hst; [done|]. simpl.
    destruct (extract_word _) as [[w|] s]; [|done].
    destruct (override_command _ _ _ _) as [st'|] eqn:E; [|done]. apply IH. revert E.
    unfold override_command, override_long. simpl.
    repeat (case_match; try done; simpl); intros [= <-]; simpl; try done; apply AbrToVerdict_runtime. }
  assert (Hac : forall t, verdict_lt (td_verdict t) CE = true ->
    verdict_lt (td_verdict (SetACOrContinue last t)) CE = true) by (intros t Ht; by destruct last).
  assert (Hsf : forall p f t, verdict_lt (td_verdict t) CE = true ->
    verdict_lt (td_verdict (score_from_file env p f t)) CE = true).
  { intros p f t Ht. unfold score_from_file. repeat case_match; done. }
  unfold ReadSpecjudgeResult. destruct (specjudge_failed _ _ _ _).
  { simpl. case_match; simpl; [by case_match|done]. }
  assert (Hnew : verdict_lt (td_verdict (default td (ReadNewSpecjudgeResult env out td))) CE = true).
  { unfold ReadNewSpecjudgeResult. destruct (parse_file env out) as [j|]; [|done]. simpl.
    set (td1 := match json_find j "verdict" with Some (JStr _) => _ | _ => _ end).
    assert (H1 : verdict_lt (td_verdict td1) CE = true).
    { unfold td1. repeat case_match; simpl; try done; apply AbrToVerdict_runtime. }
    clearbody td1. destruct (json_score j), (json_long j "time_us"), (json_long j "vss_kib"),
      (json_long j "rss_kib"); repeat case_match; done. }
  destruct (specjudge_type sub); simpl; try done.
  - unfold ReadOldSpecjudgeResult. destruct (extract_int32 _) as [[x|] fin]; [|done].
    case_match; [|done]. by apply Hov, Hac.
  - unfold ReadPolygonSpecjudgeResult. case_match; [done|]. cbv zeta.
    set (p := if _ =? 7 then _ else _).
    assert (Hp : verdict_lt (td_verdict (fst p)) CE = true).
    { unfold p. repeat case_match; simpl; by apply Hac. }
    destruct p as [t fin]. simpl in Hp.
    assert (Ht : verdict_lt (td_verdict (if td_score t <? full_score then set_td_verdict WA t else t)) CE = true)
      by (by case_match).
    destruct (stream_ok fin); [by apply Hov|done].
  - unfold ReadKattisSpecjudgeResult. set (p := if _ =? 42 then _ else _).
    assert (Hp : verdict_lt (td_verdict (fst p)) CE = true).
    { unfold p. case_match; [|done]. set (q := if last then _ else _).
      assert (Hq : verdict_lt (td_verdict (fst q)) CE = true)
        by (unfold q; repeat case_match; simpl; try done; by apply Hac).
      destruct q as [t evs]. simpl in *. by apply Hsf, Hsf. }
    destruct p as [t evs]. simpl in *.
    case_match; [apply Hov; simpl|]; by case_match.
Qed.

Lemma ReadSpecjudgeResult_overall `{JsonText} env sub info last out upath dir td :
  overall_of (snd (ReadSpecjudgeResult env sub info last out upath dir td)) = [].
Proof.
  unfold ReadSpecjudgeResult. destruct (specjudge_failed _ _ _ _); [done|].
  destruct (specjudge_type sub); try done. unfold ReadKattisSpecjudgeResult.
  destruct (si_status info =? 42), last; try done. by destruct (env_is_regular env _).
Qed.

Lemma settle_stage_runtime last td : td_runtime td -> td_runtime (settle_stage last td).
Proof. unfold td_runtime, settle_stage. intros ?. by repeat case_match. Qed.

Lemma record_usage_verdict `{Config} stage res td : td_verdict (record_usage stage res td) = td_verdict td.
Proof. unfold record_usage. by case_match. Qed.

Lemma execute_verdict_runtime strict lim res td : verdict_lt (execute_verdict strict lim res td) CE = true.
Proof. unfold execute_verdict. by repeat case_match. Qed.

Section Keeps.
Context `{PathRoots} `{Config} `{JsonText} (env : Env).
Context (key : Z) (s0 : Judge) (sr : SubmissionAndResult).
Hypothesis Hsr : submission_list s0 !! key = Some sr.
Hypothesis Hok : res_ok (sr_sub sr) (sr_result sr).

#[local] Abbreviation stays := (keeps key s0).

(** Structure of a handler: reads of its submission, effects, tests. *)
#[local] Ltac step :=
  first
  [ apply (keeps_get_sub key s0 sr Hsr); intros ? ?
  | apply (keeps_get_res key s0 sr Hsr); intros ? ?
  | apply keeps_ret | apply keeps_emit; first [reflexivity|assumption] | apply keeps_get | apply keeps_cancel_groups
  | apply keeps_when | apply keeps_if
  | apply keeps_bind; [|intros ?] ].

Lemma copy_headers_overall box headers : overall_of (concat (map (copy_header box) headers)) = [].
Proof using.
  induction headers as [|[parent name] headers IH]; [done|].
  change (overall_of (copy_header box (parent, name) ++ concat (map (copy_header box) headers)) = []).
  by rewrite overall_of_app, IH.
Qed.

Lemma SetupCompile_keeps task :
  CompileSubtask_of_Z (tk_subtask task) <> None -> stays (SetupCompile env key task).
Proof using Hsr.
  intros Ht. unfold SetupCompile. step. destruct (CompileSubtask_of_Z _) as [s|]; [|done].
  apply keeps_bind; [apply keeps_ret|intros subtask].
  apply keeps_bind; [apply keeps_get|intros s1].
  apply keeps_if; [step|]. step; [step|].
  apply keeps_bind; [|intros _; step].
  destruct subtask; [|apply keeps_emit, copy_headers_overall..].
  apply keeps_bind; [repeat step|intros _]. case_match; step.
Qed.

Lemma read_compile_message_allowed path f : read_compile_message env path = Crash f -> allowed f.
Proof using. unfold read_compile_message. repeat case_match; try done. intros [= <-]. by left. Qed.

Lemma FinalizeCompile_keeps task res :
  CompileSubtask_of_Z (tk_subtask task) <> None -> stays (FinalizeCompile env key task res).
Proof using Hsr.
  intros Ht. unfold FinalizeCompile. step. destruct (CompileSubtask_of_Z _) as [s|]; [|done].
  apply keeps_bind; [apply keeps_ret|intros subtask]. cbv zeta.
  apply keeps_if; [step|]. apply keeps_if.
  { apply (keeps_modify_res key s0 sr Hsr). intros r0. by apply res_evolves_same. }
  step.
  { apply (keeps_modify_res key s0 sr Hsr). intros r0. apply res_evolves_same; [done|].
    simpl. intros Hv E. unfold verdict_max, verdict_lt in E.
    destruct (verdict r0), (compile_verdict subtask res _); done. }
  apply keeps_bind; [apply keeps_lift, read_compile_message_allowed|intros message].
  destruct subtask.
  - step; [apply (keeps_modify_res key s0 sr Hsr); intros r0; by apply res_evolves_same|].
    step. step. step.
  - step; [apply (keeps_modify_res key s0 sr Hsr); intros r0; by apply res_evolves_same|].
    step. step. step.
  - apply (keeps_modify_res key s0 sr Hsr); intros r0. case_match; [by apply res_evolves_same|done].
  - step; [apply (keeps_modify_res key s0 sr Hsr); intros r0; by apply res_evolves_same|].
    step. step. step.
Qed.

(** The element of a test data exists, or will not be asked for. *)
Definition td_ready (s : Judge) (i : Z) : Prop :=
  executed sr i \/ verdict (sr_result sr) <> NUL \/
  exists item, testdata (sr_sub sr) !! Z.to_nat i = Some item /\
    IsCancelled s (submission_internal_id (sr_sub sr)) (td_groups item) = true.

Lemma executed_later r i : res_evolves (sr_sub sr) (sr_result sr) r -> executed sr i ->
  0 <= i < Z.of_nat (length (td_results r)).
Proof using. intros Hr Hi. pose proof (re_length _ _ _ Hr). unfold executed in Hi. lia. Qed.

Lemma SetupExecute_keeps task :
  0 <= tk_subtask task < Z.of_nat (length (testdata (sr_sub sr))) ->
  (0 < tk_stage task -> td_ready s0 (tk_subtask task)) -> stays (SetupExecute env key task).
Proof using Hsr.
  intros Hi Hready. unfold SetupExecute. step. simpl sr_sub. simpl sr_result.
  destruct (bool_decide (verdict r = NUL)) eqn:Ev; simpl; [|step].
  apply keeps_vec_at; [done|]. intros item Hitem.
  intros s Hs. unfold mbind at 1, M_bind at 1, get at 1. revert s Hs.
  intros s Hs. destruct (IsCancelled s _ _) eqn:Ec; [by apply keeps_ret|].
  assert (Hx : 0 < tk_stage task -> executed sr (tk_subtask task)).
  { intros Hst. destruct (Hready Hst) as [?|[Hv|(item' & Hitem' & Hc)]]; [done| |].
    - apply bool_decide_eq_true in Ev. by destruct (re_verdict _ _ _ H2 Hv).
    - simplify_eq. apply (IsCancelled_evolves key s0 s) in Hc; [congruence|done]. }
  revert s Hs Ec. intros s Hs _. revert s Hs.
  match goal with |- forall s, _ -> match ?m s with _ => _ end => change (stays m) end.
  assert (Hrest : forall b : bool, stays (if b then mret false else
    _ ← emit [EvCreateDirs (Workdir (ExecuteBoxPath (submission_internal_id (sr_sub sr)) (tk_subtask task) (tk_stage task))) None];
    _ ← emit []; mret true)) by (intros []; repeat step).
  clear Hrest. apply keeps_bind.
  - destruct (0 <? tk_stage task) eqn:E0; [|step].
    apply Z.ltb_lt in E0. apply keeps_vec_at; [by apply executed_later, Hx|]. intros td _. step.
  - intros []; [step|]. step; [step|]. step.
    { step. step; [apply keeps_or_crash; by left|]. step; [apply keeps_or_crash; by left|]. step. }
    repeat step.
Qed.

Lemma FinalizeExecute_keeps task res :
  0 <= tk_subtask task < Z.of_nat (length (testdata (sr_sub sr))) -> stays (FinalizeExecute env key task res).
Proof using Hsr Hok.
  intros Hi s Hs. destruct (get_sub_spec key s0 sr Hsr s Hs) as (r & Hg & Hsee).
  unfold FinalizeExecute. unfold mbind at 1, M_bind at 1. rewrite Hg. simpl sr_sub.
  set (n := Z.to_nat (tk_subtask task + 1)).
  destruct (modify_res_spec key s0 sr Hsr (grow_td_results n) r s Hsee) as (s1 & Hm & Hsee1).
  { apply res_evolves_grow. unfold n. lia. }
  unfold mbind at 1, M_bind at 1. rewrite Hm.
  (* from here on the element exists *)
  destruct Hsee1 as (He1 & Hl1 & Hr1).
  set (sr1 := with_result sr (grow_td_results n r)) in *.
  assert (Hx : executed sr1 (tk_subtask task)).
  { unfold executed. simpl. pose proof (grow_length n r). unfold n in *. lia. }
  assert (Hok1 : res_ok (sr_sub sr1) (sr_result sr1)) by (by apply (re_ok _ _ _ Hr1)).
  assert (Hrun : forall f, (forall td, td_runtime td -> td_runtime (f td)) ->
    keeps key s1 (modify_td key (tk_subtask task) f)) by (intros f Hf; by apply (keeps_modify_td key s1 sr1)).
  match goal with |- match ?m s1 with _ => _ end => assert (Hk : keeps key s1 m) end.
  { apply keeps_bind; [by apply Hrun|intros _]. cbv zeta.
    do 5 (apply keeps_bind;
      [repeat first [apply keeps_ret|apply keeps_emit; reflexivity|apply keeps_when|apply keeps_if]|intros _]).
    apply keeps_vec_at; [done|]. intros lim _. apply keeps_bind.
    - apply Hrun. intros td Htd. unfold td_runtime. by rewrite record_usage_verdict.
    - intros _. apply Hrun. intros td _. apply execute_verdict_runtime. }
  specialize (Hk s1 (reflexivity s1)).
  match goal with |- match ?o with _ => _ end => destruct o as [[[] s2]|f] end; [|done].
  by etrans.
Qed.

Lemma FinalizeScoring_keeps task res skipped :
  0 <= tk_subtask task < Z.of_nat (length (testdata (sr_sub sr))) -> executed sr (tk_subtask task) ->
  stays (FinalizeScoring env key task res skipped).
Proof using Hsr Hok.
  intros Hi Hx. unfold FinalizeScoring. step. simpl sr_sub.
  apply (keeps_get_td key s0 sr Hsr); [done|]. intros td Htd. specialize (Htd Hok).
  set (p := if skipped then _ else _).
  assert (Hp : td_runtime (fst p)).
  { unfold p. destruct skipped; [done|]. by apply ReadSpecjudgeResult_runtime. }
  assert (He : overall_of (snd p) = []).
  { unfold p. destruct skipped; [done|]. apply ReadSpecjudgeResult_overall. }
  destruct p as [td1 evs]. simpl in Hp, He. step; [step|].
  step. { apply (keeps_put_td key s0 sr Hsr); [done|intros _; by apply settle_stage_runtime|done]. }
  apply keeps_vec_at; [done|]. intros item _.
  step; [repeat step|]. step; [repeat step|]. step; [repeat step|]. step; [repeat step|].
  step; [step|]. step. step. step.
Qed.

Lemma SetupScoring_keeps task :
  0 <= tk_subtask task < Z.of_nat (length (testdata (sr_sub sr))) ->
  td_ready s0 (tk_subtask task) -> stays (SetupScoring env key task).
Proof using Hsr Hok.
  intros Hi Hready. unfold SetupScoring. step. simpl sr_sub. simpl sr_result.
  destruct (bool_decide (verdict r = NUL)) eqn:Ev; simpl; [|step].
  apply keeps_vec_at; [done|]. intros item Hitem.
  intros s Hs. unfold mbind at 1, M_bind at 1, get at 1.
  destruct (IsCancelled s _ _) eqn:Ec; [by apply keeps_ret|].
  assert (Hx : executed sr (tk_subtask task)).
  { destruct Hready as [?|[Hv|(item' & Hitem' & Hc)]]; [done| |].
    - apply bool_decide_eq_true in Ev. by destruct (re_verdict _ _ _ H2 Hv).
    - simplify_eq. apply (IsCancelled_evolves key s0 s) in Hc; [congruence|done]. }
  clear Ec. revert s Hs.
  match goal with |- forall s, _ -> match ?m s with _ => _ end => change (stays m) end.
  apply keeps_vec_at; [by apply executed_later|]. intros td _.
  step; [step|]. step.
  { step; [by apply FinalizeScoring_keeps|step]. }
  step; [step|]. step.
  { step; [step|]. step; [by apply FinalizeScoring_keeps|step]. }
  repeat step.
Qed.

Lemma overall_verdict_done items tds v : (length tds <= length items)%nat ->
  exists v', overall_verdict items tds v = Done v' /\
    (verdict_lt v CE = true -> Forall td_runtime tds -> verdict_lt v' CE = true) /\
    (v <> NUL -> v' <> NUL).
Proof using.
  revert items v. induction tds as [|td tds IH]; intros [|item items] v Hl; simpl in *; try lia;
    [by exists v..|].
  destruct (IH items (if ignore_verdict item then v
     else if verdict_lt v (td_verdict td) then td_verdict td else v) ltac:(lia)) as (v' & -> & Hv' & Hn).
  exists v'. split; [done|]. split.
  - intros Hv [Htd Htds]%Forall_cons. apply Hv'; [|done]. by repeat case_match.
  - intros Hv. apply Hn. case_match; [done|]. unfold verdict_lt.
    by destruct v, (td_verdict td).
Qed.

Lemma summary_testdata_length items tds f : (length tds <= length items)%nat ->
  summary_testdata items tds = Crash f -> f = LengthError.
Proof using.
  revert items. induction tds as [|td tds IH]; intros [|item items] Hl; simpl in *; try (done || lia).
  unfold testdata_summary. destruct (ScoreToString _); [|by intros [= <-]].
  destruct (summary_testdata items tds) eqn:E; [done|]. intros [= <-]. apply (IH items); [lia|done].
Qed.

Lemma SummaryMeta_length sub res f : (length (td_results res) <= length (testdata sub))%nat ->
  SummaryMeta sub res = Crash f -> f = LengthError.
Proof using.
  intros Hres. unfold SummaryMeta. destruct (summary_testdata _ _) eqn:E.
  - assert (Hsc : forall l f, summary_scores l = Crash f -> f = LengthError).
    { induction l as [|x l IH]; intros g; [done|]. simpl.
      destruct (ScoreToString x); [|by intros [= <-]].
      destruct (summary_scores l); [done|]. intros [= <-]. by apply IH. }
    destruct (summary_scores _) eqn:E2; [done|]. intros [= <-]. by eapply Hsc.
  - intros [= <-]. by eapply summary_testdata_length.
Qed.

Lemma SummaryMeta_allowed sub res f : res_ok sub res -> SummaryMeta sub res = Crash f -> allowed f.
Proof using. intros Hres Hf. right. eapply SummaryMeta_length; [apply Hres|done]. Qed.

Lemma SetupSummary_keeps task : stays (SetupSummary env key task).
Proof using Hsr Hok.
  unfold SetupSummary. step. simpl sr_sub. simpl sr_result.
  assert (Hr : res_ok (sr_sub sr) r) by (by apply (re_ok _ _ _ H2)).
  destruct (overall_verdict_done (testdata (sr_sub sr)) (td_results r) AC (ro_length _ _ Hr))
    as (v' & Hv' & _ & Hn).
  assert (Hv : exists v, (if bool_decide (verdict r = NUL)
    then overall_verdict (testdata (sr_sub sr)) (td_results r) AC else Done (verdict r)) = Done v /\
    v <> NUL).
  { case_bool_decide; [exists v'; split; [done|by apply Hn]|by eexists]. }
  destruct Hv as (v & Hv & Hvn). apply (keeps_lift_bind _ _ _ v); [done|].
  step; [apply (keeps_modify_res key s0 sr Hsr); intros r0; by apply res_evolves_same|].
  step; [step|]. cbv zeta. step; [step|]. step; [repeat step|].
  step. step; [|repeat step]. apply keeps_lift. intros f. apply SummaryMeta_allowed.
  by match goal with Hx : res_evolves _ _ ?x |- res_ok _ ?x => apply (re_ok _ _ _ Hx) end.
Qed.
End Keeps.

(** ** Totals *)

Definition groups_ok (sub : Submission) : Prop :=
  forall item g, item ∈ testdata sub -> g ∈ td_groups item -> 0 <= g < Z.of_nat (length (group_score sub)).

Lemma lower_groups_done score groups scores n :
  length scores = n -> (forall g, g ∈ groups -> 0 <= g < Z.of_nat n) ->
  exists scores', lower_groups score groups scores = Done scores' /\ length scores' = n.
Proof.
  revert scores. induction groups as [|g groups IH]; intros scores Hl Hg; simpl; [by eauto|].
  assert (0 <= g < Z.of_nat n) by (apply Hg; set_solver).
  rewrite (proj2 (Z.ltb_ge g 0)) by lia.
  destruct (lookup_lt_is_Some_2 scores (Z.to_nat g)) as [old ->]; [lia|].
  apply IH; [by rewrite length_insert|]. intros g' Hg'. apply Hg. set_solver.
Qed.

Lemma sum_testdata_done items tds t n :
  (length tds <= length items)%nat -> length (tot_scores t) = n ->
  (forall item g, item ∈ items -> g ∈ td_groups item -> 0 <= g < Z.of_nat n) ->
  exists t', sum_testdata items tds t = Done t'.
Proof.
  revert items t. induction tds as [|td tds IH]; intros [|item items] t Hl Ht Hg; simpl in *;
    try lia; [by eexists..|].
  assert (Hg' : forall item g, item ∈ items -> g ∈ td_groups item -> 0 <= g < Z.of_nat n)
    by (intros; eapply Hg; [by right|done]).
  destruct (ignore_verdict item); [apply IH; [lia|done|done]|].
  destruct (lower_groups_done (td_score td) (td_groups item) (tot_scores t) n Ht) as (sc & -> & Hsc).
  { intros g Hgi. eapply Hg; [by left|done]. }
  apply IH; [lia|done|done].
Qed.

Lemma compute_totals_done sub r : res_ok sub r -> groups_ok sub ->
  exists r', compute_totals sub r = Done r' /\ verdict r' = verdict r /\ td_results r' = td_results r.
Proof.
  intros Hr Hg. unfold compute_totals. cbv zeta. simpl verdict. simpl td_results.
  destruct (verdict_lt (verdict r) CE); [|by eexists].
  destruct (sum_testdata_done (testdata sub) (td_results r)
    {| tot_memory := 0; tot_time := 0; tot_scores := replicate (length (group_score sub)) kInfScore |}
    (length (group_score sub))) as (t & ->); [apply Hr|apply length_replicate|exact Hg|].
  eexists. split; [done|]. done.
Qed.

(** ** What particular handlers establish *)

Section Results.
Context `{PathRoots} `{Config} `{JsonText} (env : Env).
Context (key : Z) (s : Judge) (sr : SubmissionAndResult).
Hypothesis Hsr : submission_list s !! key = Some sr.

Lemma get_sub_run : get_sub key s = Done (sr, s).
Proof using Hsr. unfold get_sub, get, mbind, M_bind. by rewrite Hsr. Qed.

(** An execution of the first stage is only skipped for a reason that lasts. *)
Lemma SetupExecute_skipped task s' :
  tk_stage task = 0 -> SetupExecute env key task s = Done (false, s') ->
  s' = s /\ (verdict (sr_result sr) <> NUL \/ exists item,
    testdata (sr_sub sr) !! Z.to_nat (tk_subtask task) = Some item /\
    IsCancelled s (submission_internal_id (sr_sub sr)) (td_groups item) = true).
Proof using Hsr.
  intros Hst. unfold SetupExecute. unfold mbind at 1, M_bind at 1. rewrite get_sub_run.
  destruct (bool_decide (verdict (sr_result sr) = NUL)) eqn:Ev; simpl.
  2:{ intros [= <-]. apply bool_decide_eq_false in Ev. auto. }
  unfold mbind at 1, M_bind at 1. unfold vec_at at 1.
  destruct (0 <=? tk_subtask task); [|done]. unfold or_crash at 1.
  destruct (testdata (sr_sub sr) !! Z.to_nat (tk_subtask task)) as [item|]; [|done]. simpl.
  unfold mbind at 1, M_bind at 1. simpl. destruct (IsCancelled _ _ _) eqn:Ec.
  { intros [= <-]. split; [done|]. right. by exists item. }
  rewrite Hst. simpl. unfold mbind, M_bind. intros Hd. exfalso. revert Hd.
  unfold when, or_crash, mret, M_ret. simpl.
  destruct (sandbox_strict (sr_sub sr)); simpl; [done|].
  destruct (env_file_size _ _); simpl; [|done]. by destruct (env_file_size _ _).
Qed.

Lemma modify_res_run f : modify_res key f s =
  Done (tt, set_submission_list
    (<[key := with_result sr (f (sr_result sr))]> (submission_list s)) s).
Proof using Hsr.
  unfold modify_res, get_res, put_res, mbind, M_bind. rewrite get_sub_run. simpl. by rewrite get_sub_run.
Qed.

Lemma put_res_run r : put_res key r s =
  Done (tt, set_submission_list (<[key := with_result sr r]> (submission_list s)) s).
Proof using Hsr. unfold put_res, mbind, M_bind. by rewrite get_sub_run. Qed.

(** ** The end of a submission *)

(** The result [FinalizeSummary] reports. *)
Definition final_result (sub : Submission) (r : SubmissionResult) (cjail_res : cjail_result)
    (skipped : bool) : option SubmissionResult :=
  match compute_totals sub r with
  | Done r' => Some (if skipped then r'
                     else apply_summary env (SummaryBoxOutput (submission_internal_id sub) false) cjail_res r')
  | Crash _ => None
  end.

Definition summary_events (r : SubmissionResult) : list Event :=
  let sub := sr_sub sr in
  let id := submission_internal_id sub in
  (if remove_submission sub then [EvRemoveAll (SubmissionCodePath id)] else []) ++
  [EvRemoveAll (SubmissionRunPath id)] ++
  (if negb (bool_decide (id ∈ cancelled_list s)) && ReportOverallResult (reporter sub)
   then [EvOverallResult sub r] else []) ++
  (if ReportFinalized (reporter sub) then [EvFinalized sub (Z.of_nat (size (submission_list s)))] else []).

Lemma FinalizeSummary_run task cjail_res skipped r :
  submission_internal_id (sr_sub sr) = key ->
  final_result (sr_sub sr) (sr_result sr) cjail_res skipped = Some r ->
  FinalizeSummary env key task cjail_res skipped s = Done (tt, {|
    task_count := task_count s; graph := graph s; handle_map := handle_map s;
    submission_list := delete key (submission_list s);
    submission_id_map := delete key (submission_id_map s);
    cancelled_list := cancelled_list s ∖ {[key]};
    cancelled_group := delete key (cancelled_group s);
    trace := trace s ++ summary_events r |}).
Proof using Hsr.
  intros Hid. unfold final_result. destruct (compute_totals _ _) as [r0|] eqn:Ec; [|done].
  intros [= Hr]. unfold FinalizeSummary. unfold mbind at 1, M_bind at 1. rewrite get_sub_run.
  unfold mbind at 1, M_bind at 1, lift_outcome. rewrite Ec. cbv zeta. rewrite Hr.
  unfold mbind at 1, M_bind at 1. rewrite put_res_run.
  assert (Hsz : forall x, size (<[key := x]> (submission_list s)) = size (submission_list s)).
  { intros x. apply map_size_insert_Some. by eexists. }
  unfold summary_events. rewrite Hid.
  unfold mbind, M_bind, when, emit, modify, add_events, get, mret, M_ret, set_submission_list,
    set_cancelled_list, set_cancelled_group, set_submission_id_map.
  destruct (remove_submission (sr_sub sr)); simpl;
    destruct (decide (key ∈ cancelled_list s)) as [Hc|Hc];
    [rewrite (bool_decide_true _ Hc)|rewrite (bool_decide_false _ Hc)|
     rewrite (bool_decide_true _ Hc)|rewrite (bool_decide_false _ Hc)]; simpl;
    destruct (ReportOverallResult (reporter (sr_sub sr))), (ReportFinalized (reporter (sr_sub sr))); simpl;
    rewrite ?delete_insert_eq, ?Hsz, <- ?(assoc_L (++)), ?app_nil_r; simpl;
    try (rewrite (difference_disjoint_L (cancelled_list s)) by set_solver); done.
Qed.

End Results.

Lemma final_result_some `{PathRoots} `{JsonText} env task_sub r cjail_res skipped : res_ok task_sub r -> groups_ok task_sub ->
  exists r', final_result env task_sub r cjail_res skipped = Some r'.
Proof.
  intros Hr Hg. unfold final_result. destruct (compute_totals_done task_sub r Hr Hg) as (r' & -> & _).
  by eexists.
Qed.

(** ** The end of an execution *)

Section ExecuteRun.
Context `{PathRoots} `{Config} (env : Env).

(** The test data's entry after an execution. *)
Definition executed_td (strict : bool) (lim : TestdataItem) (stage : Z) (cjail_res : cjail_result)
    (td : TestdataResult) : TestdataResult :=
  let td := record_usage stage cjail_res (set_execute_result cjail_res td) in
  set_td_verdict (execute_verdict strict lim cjail_res td) td.

Definition execute_events (sub : Submission) (task : Task) : list Event :=
  let id := submission_internal_id sub in
  let subtask := tk_subtask task in
  let stage := tk_stage task in
  let output_path := ExecuteBoxOutput id subtask stage (sandbox_strict sub) false in
  let output_dest := ExecuteBoxFinalOutput id subtask stage in
  let workdir := Workdir (ExecuteBoxPath id subtask stage) in
  (if env_is_regular env output_path then [EvMove output_path output_dest (Some kPerm666)]
   else [EvWrite output_dest ""; EvPermissions output_dest kPerm666]) ++
  [EvChownRoot output_dest] ++
  (if negb (sandbox_strict sub) then [EvUmount workdir] else []) ++
  [EvRemoveAll workdir] ++
  (if 0 <? stage then [EvRemoveAll (ExecuteBoxPath id subtask (stage - 1))] else []).

Lemma list_insert_is_alter {A} (f : A -> A) (l : list A) i x :
  l !! i = Some x -> <[i := f x]> l = alter f i l.
Proof.
  revert i. induction l as [|y l IH]; intros [|i] Hl; simplify_eq/=; [done|].
  f_equal. by apply IH.
Qed.

(** Writing one entry of [td_results]. *)
Definition update_td (i : Z) (f : TestdataResult -> TestdataResult) (r : SubmissionResult)
    : SubmissionResult :=
  set_td_results (alter f (Z.to_nat i) (td_results r)) r.

Lemma modify_td_run key s sr i f :
  submission_list s !! key = Some sr -> executed sr i ->
  modify_td key i f s = Done (tt, set_submission_list
    (<[key := with_result sr (update_td i f (sr_result sr))]> (submission_list s)) s).
Proof.
  intros Hsr Hi. unfold executed in Hi.
  destruct (vec_at_spec (td_results (sr_result sr)) i s Hi) as (td & Htd & Hv).
  unfold modify_td, get_td, put_td, get_res, mbind, M_bind.
  rewrite (get_sub_run key s sr Hsr). simpl. rewrite Hv.
  rewrite (get_sub_run key s sr Hsr). simpl. rewrite Hv. rewrite (put_res_run key s sr Hsr).
  do 4 f_equal. unfold update_td. f_equal. f_equal. by apply list_insert_is_alter.
Qed.

Lemma update_td_length i f r : length (td_results (update_td i f r)) = length (td_results r).
Proof. apply length_alter. Qed.

Lemma update_td_compose i f g r : update_td i g (update_td i f r) = update_td i (fun td => g (f td)) r.
Proof.
  unfold update_td, set_td_results. simpl. f_equal.
  generalize (td_results r). intros l. generalize (Z.to_nat i). clear. intros i. revert i.
  induction l as [|x l IH]; intros [|i]; simpl; try done. f_equal. apply IH.
Qed.

Lemma FinalizeExecute_run key s sr task cjail_res :
  submission_list s !! key = Some sr ->
  0 <= tk_subtask task < Z.of_nat (length (testdata (sr_sub sr))) ->
  exists lim, testdata (sr_sub sr) !! Z.to_nat (tk_subtask task) = Some lim /\
  FinalizeExecute env key task cjail_res s = Done (tt, add_events (execute_events (sr_sub sr) task)
    (set_submission_list (<[key := with_result sr
      (update_td (tk_subtask task)
        (executed_td (sandbox_strict (sr_sub sr)) lim (tk_stage task) cjail_res)
        (grow_td_results (Z.to_nat (tk_subtask task + 1)) (sr_result sr)))]> (submission_list s)) s)).
Proof.
  intros Hsr Hi.
  destruct (vec_at_spec (testdata (sr_sub sr)) (tk_subtask task) s Hi) as (lim & Hlim & Hv0).
  exists lim. split; [done|]. unfold FinalizeExecute.
  unfold mbind at 1, M_bind at 1. rewrite (get_sub_run key s sr Hsr).
  set (n := Z.to_nat (tk_subtask task + 1)). cbv zeta.
  unfold mbind at 1, M_bind at 1. rewrite (modify_res_run key s sr Hsr).
  set (sr1 := with_result sr (grow_td_results n (sr_result sr))).
  set (s1 := set_submission_list _ s).
  assert (Hsr1 : submission_list s1 !! key = Some sr1) by apply lookup_insert_eq.
  assert (Hx : executed sr1 (tk_subtask task)).
  { unfold executed. simpl. pose proof (grow_length n (sr_result sr)). unfold n in *. lia. }
  unfold mbind at 1, M_bind at 1. rewrite (modify_td_run key s1 sr1 _ _ Hsr1 Hx).
  (* the effects *)
  set (sr2 := with_result sr1 _). set (s2 := set_submission_list _ s1).
  match goal with |- ?m s2 = _ =>
    assert (Hm : m s2 = (lim ← vec_at (testdata (sr_sub sr)) (tk_subtask task);
      _ ← modify_td key (tk_subtask task) (record_usage (tk_stage task) cjail_res);
      modify_td key (tk_subtask task) (fun td =>
        set_td_verdict (execute_verdict (sandbox_strict (sr_sub sr)) lim cjail_res td) td))
      (add_events (execute_events (sr_sub sr) task) s2)) end.
  { unfold execute_events, when, emit, modify, mbind, M_bind, mret, M_ret, add_events.
    destruct (env_is_regular env _), (sandbox_strict (sr_sub sr)), (0 <? tk_stage task); simpl;
      rewrite <- ?(assoc_L (++)); simpl; done. }
  rewrite Hm. clear Hm. unfold mbind at 1, M_bind at 1.
  destruct (vec_at_spec (testdata (sr_sub sr)) (tk_subtask task) (add_events (execute_events (sr_sub sr) task) s2) Hi)
    as (lim' & Hlim' & ->). simplify_eq.
  set (s3 := add_events _ s2).
  assert (Hsr2 : submission_list s3 !! key = Some sr2) by apply lookup_insert_eq.
  assert (Hx2 : executed sr2 (tk_subtask task)).
  { unfold executed, sr2. simpl. rewrite length_alter. exact Hx. }
  unfold mbind at 1, M_bind at 1. rewrite (modify_td_run key s3 sr2 _ _ Hsr2 Hx2).
  set (sr3 := with_result sr2 _). set (s4 := set_submission_list _ s3).
  assert (Hsr3 : submission_list s4 !! key = Some sr3) by apply lookup_insert_eq.
  assert (Hx3 : executed sr3 (tk_subtask task)).
  { unfold executed, sr3. simpl. rewrite length_alter. exact Hx2. }
  rewrite (modify_td_run key s4 sr3 _ _ Hsr3 Hx3).
  unfold s4, s3, s2, s1, sr3, sr2, sr1, set_submission_list, add_events. simpl.
  rewrite !insert_insert_eq. unfold with_result. simpl. rewrite !update_td_compose. done.
Qed.
End ExecuteRun.
