(* ===== verification/WorkLoop.v ===== *)
(** * The work loop

    [FinalizeTask], [DispatchTask], [WaitTask], [WorkLoop] and the queue
    queries of src/tioj/submission.cpp, as a labelled transition system: the
    thread that runs [WorkLoop] and the threads that call [PushSubmission]
    while it has released [task_mtx]. *)

From S2P Require Import Prelude Enums Paths CNum Scores Data TaskGraph State Specjudge Push Handlers.

Section WorkLoop.
Context `{PathRoots} `{Config} `{JsonText}.

Definition FinalizeTask (env : Env) (tid : Z) (res : cjail_result) (skipped : bool) : M unit :=
  s ← get;
  entry ← or_crash (task_list (graph s) !! tid) NoSuchKey;
  let key := te_submission_internal_id entry in
  let task := te_task entry in
  _ ← when (negb skipped || bool_decide (tk_type task = SUMMARY))
        (match tk_type task with
         | COMPILE => FinalizeCompile env key task res
         | EXECUTE => FinalizeExecute env key task res
         | SCORING => FinalizeScoring env key task res false
         | SUMMARY => FinalizeSummary env key task res skipped
         end);
  s ← get;
  g ← lift_outcome (Remove entry (graph s));
  modify (set_graph g).

(** The [switch] of [DispatchTask]. *)
Definition SetupTask (env : Env) (key : Z) (task : Task) : M bool :=
  match tk_type task with
  | COMPILE => SetupCompile env key task
  | EXECUTE => SetupExecute env key task
  | SCORING => SetupScoring env key task
  | SUMMARY => SetupSummary env key task
  end.

(** [handle] is what [RunTask] returns. *)
Definition DispatchTask (env : Env) (handle : Z) (tid : Z) : M bool :=
  s ← get;
  entry ← or_crash (task_list (graph s) !! tid) NoSuchKey;
  let key := te_submission_internal_id entry in
  let task := te_task entry in
  res ← SetupTask env key task;
  if negb res then
    _ ← FinalizeTask env tid zero_cjail_result true;
    mret false
  else
    _ ← emit [EvRunTask key task handle];
    _ ← modify (fun s => set_handle_map (<[handle := tid]> (handle_map s)) s);
    mret true.

(** [handle] is the one [WaitAnyResult] reports. *)
Definition WaitTask (handle : Z) : M Z :=
  s ← get;
  tid ← or_crash (handle_map s !! handle) NoSuchKey;
  _ ← modify (set_handle_map (delete handle (handle_map s)));
  mret tid.

(** [task_queue.pop()] of the top element. *)
Definition pop_task (t : Z) (s : Judge) : Judge :=
  set_graph {| task_list := task_list (graph s); task_queue := remove_one t (task_queue (graph s)) |} s.

(** Where the thread of [WorkLoop] is: in [task_cv.wait], between two
    iterations, or in [WaitTask] with the mutex released. *)
Inductive pc := Idle | Busy | Waiting.

#[global] Instance pc_eq_dec : EqDecision pc.
Proof. solve_decision. Defined.

Record Loop := { lp_judge : Judge; lp_running : Z; lp_pc : pc }.

Inductive action :=
| Push_ (sub : Submission) (max_queue : Z)
| Wake
| Sleep
| StartWait
| Dispatch (env : Env) (t handle : Z)
| Finish (env : Env) (handle : Z) (res : cjail_result).

(** What the caller of [PushSubmission] guarantees: a fresh internal id
    that fits an [int], problem-program stages that exist, and group numbers
    that have a score. *)
Record push_ok (s : Judge) (sub : Submission) : Prop := {
  pk_int : is_int (submission_internal_id sub);
  pk_fresh : submission_list s !! submission_internal_id sub = None;
  pk_prob : forall j, j ∈ problem_prog_stages sub -> 0 <= j < Z.min (Z.max 1 (stages sub)) 32;
  pk_groups : forall item g, item ∈ testdata sub -> g ∈ td_groups item ->
    0 <= g < Z.of_nat (length (group_score sub));
}.

(** The only action of another thread. *)
Definition is_push (a : action) : bool := match a with Push_ _ _ => true | _ => false end.

Definition can_dispatch (kMaxParallel : Z) (l : Loop) : Prop :=
  lp_running l < kMaxParallel /\ task_queue (graph (lp_judge l)) <> [].

Definition enabled (kMaxParallel : Z) (l : Loop) (a : action) : Prop :=
  match a with
  | Push_ sub max_queue => (lp_pc l = Idle \/ lp_pc l = Waiting) /\ push_ok (lp_judge l) sub
  | Wake => lp_pc l = Idle /\ task_queue (graph (lp_judge l)) <> []
  | Sleep => lp_pc l = Busy /\ lp_running l = 0 /\ task_queue (graph (lp_judge l)) = []
  | StartWait =>
      lp_pc l = Busy /\ ~ (lp_running l = 0 /\ task_queue (graph (lp_judge l)) = []) /\
      ~ can_dispatch kMaxParallel l
  | Dispatch _ t handle =>
      lp_pc l = Busy /\ can_dispatch kMaxParallel l /\ is_top (graph (lp_judge l)) t /\
      handle_map (lp_judge l) !! handle = None
  | Finish _ handle _ => lp_pc l = Waiting /\ is_Some (handle_map (lp_judge l) !! handle)
  end.

Definition run {A} (m : M A) (l : Loop) (f : A -> Z) (p : pc) : outcome Loop :=
  match m (lp_judge l) with
  | Crash e => Crash e
  | Done (a, s) => Done {| lp_judge := s; lp_running := lp_running l + f a; lp_pc := p |}
  end.

Definition perform (l : Loop) (a : action) : outcome Loop :=
  match a with
  | Push_ sub max_queue => run (PushSubmission sub max_queue) l (fun _ => 0) (lp_pc l)
  | Wake => Done {| lp_judge := lp_judge l; lp_running := 0; lp_pc := Busy |}
  | Sleep => Done {| lp_judge := lp_judge l; lp_running := lp_running l; lp_pc := Idle |}
  | StartWait => Done {| lp_judge := lp_judge l; lp_running := lp_running l; lp_pc := Waiting |}
  | Dispatch env t handle =>
      run (_ ← modify (pop_task t); DispatchTask env handle t) l Z.b2z Busy
  | Finish env handle res =>
      run (tid ← WaitTask handle; FinalizeTask env tid res false) l (fun _ => -1) Busy
  end.

Definition initial : Loop := {| lp_judge := empty_Judge; lp_running := 0; lp_pc := Idle |}.

Inductive reachable (kMaxParallel : Z) : Loop -> Prop :=
| reach_initial : reachable kMaxParallel initial
| reach_step l a l' : reachable kMaxParallel l -> enabled kMaxParallel l a -> perform l a = Done l' ->
    reachable kMaxParallel l'.

Definition CurrentSubmissionQueueSize (s : Judge) : Z := Z.of_nat (size (submission_list s)).

Definition GetQueuedSubmissionID (s : Judge) : list Z :=
  omap (fun '(key, sr) =>
    if bool_decide (key ∈ cancelled_list s) then None else Some (submission_id (sr_sub sr)))
    (map_to_list (submission_list s)).
End WorkLoop.
