(* ===== verification/LoopInv.v ===== *)
(** * The invariant of the scheduler

    What holds of the judge's state between the steps of the work loop, and
    that finishing tasks, dispatching them and pushing submissions keep it. *)

From S2P Require Import Prelude Enums Text Paths CNum Scores Data TaskGraph TdOrder State Specjudge Push PushBuild PushRows PushGraph Handlers HandlerFacts WorkLoop.

(** What is known of a submission in the list. *)
Record sub_state (s : Judge) (key : Z) (sr : SubmissionAndResult) : Prop := {
  ss_id : submission_internal_id (sr_sub sr) = key;
  ss_ok : sub_ok (sr_sub sr);
  ss_groups : groups_ok (sr_sub sr);
  ss_res : res_ok (sr_sub sr) (sr_result sr);
  ss_graph : sub_graph (task_list (graph s)) key (sr_sub sr);
  ss_ready : forall i, 0 <= i < Z.of_nat (length (testdata (sr_sub sr))) ->
    (exists t e, task_list (graph s) !! t = Some e /\ te_submission_internal_id e = key /\
       te_task e = exec_task i 0) \/ td_ready sr s i;
}.

(** [running] are the tasks popped from the queue and not yet removed. *)
Record judge_inv (s : Judge) (running : list Z) : Prop := {
  ji_graph : graph_ok (task_list (graph s));
  ji_ready : ready_ok (graph s) running;
  ji_fresh : forall t, is_Some (task_list (graph s) !! t) -> t < task_count s;
  ji_owner : forall t e, task_list (graph s) !! t = Some e ->
    is_Some (submission_list s !! te_submission_internal_id e);
  ji_sub : forall key sr, submission_list s !! key = Some sr -> sub_state s key sr;
}.

Lemma ready_ok_perm g l k : l ≡ₚ k -> ready_ok g l -> ready_ok g k.
Proof.
  intros Hlk [H1 H2]. split; [by rewrite <- Hlk|]. intros t. by rewrite <- Hlk.
Qed.

Lemma judge_inv_perm s l k : l ≡ₚ k -> judge_inv s l -> judge_inv s k.
Proof. intros Hlk [H1 H2 H3 H4 H5]. split; try done. by eapply ready_ok_perm. Qed.

Lemma judge_inv_empty : judge_inv empty_Judge [].
Proof.
  split; simpl.
  - split; intros t e; by rewrite lookup_empty.
  - split; [constructor|]. intros t. split; [intros Ht; by apply elem_of_nil in Ht|].
    intros (e & He & _). simpl in He. by rewrite lookup_empty in He.
  - intros t [e He]. simpl in He. by rewrite lookup_empty in He.
  - intros t e. by rewrite lookup_empty.
  - intros key sr. by rewrite lookup_empty.
Qed.

(** ** Steps inside the critical section *)

Lemma pop_inv s running t :
  judge_inv s running -> t ∈ task_queue (graph s) -> judge_inv (pop_task t s) (t :: running).
Proof.
  intros [H1 [Hnd Hrd] H3 H4 H5] Ht. pose proof (remove_one_perm t _ Ht) as Hp.
  assert (Hq : remove_one t (task_queue (graph s)) ++ t :: running ≡ₚ task_queue (graph s) ++ running).
  { rewrite Hp at 2. simpl. by rewrite <- Permutation_middle. }
  split; try done.
  - split; [by rewrite Hq|]. intros u. rewrite Hq. apply Hrd.
  - intros key sr Hk. destruct (H5 key sr Hk). by split.
Qed.

Lemma td_ready_evolves sr key s s' r i :
  evolves key s s' -> res_evolves (sr_sub sr) (sr_result sr) r -> td_ready sr s i ->
  td_ready (with_result sr r) s' i.
Proof.
  intros He Hr [Hx|[Hv|(item & Hi & Hc)]].
  - left. unfold executed in *. pose proof (re_length _ _ _ Hr). simpl. lia.
  - right. left. by apply (re_verdict _ _ _ Hr).
  - right. right. exists item. split; [done|]. by eapply IsCancelled_evolves.
Qed.

Lemma td_ready_other sr key s s' i : evolves key s s' -> td_ready sr s i -> td_ready sr s' i.
Proof.
  intros He [Hx|[Hv|(item & Hi & Hc)]]; [by left|by right; left|].
  right. right. exists item. split; [done|]. by eapply IsCancelled_evolves.
Qed.

Lemma evolves_inv key s s' running :
  is_Some (submission_list s !! key) -> evolves key s s' -> judge_inv s running -> judge_inv s' running.
Proof.
  intros [sr0 Hsr0] He [H1 H2 H3 H4 H5]. split.
  - by rewrite (ev_graph _ _ _ He).
  - by rewrite (ev_graph _ _ _ He).
  - rewrite (ev_graph _ _ _ He), (ev_count _ _ _ He). done.
  - intros t e. rewrite (ev_graph _ _ _ He). intros Ht.
    destruct (decide (te_submission_internal_id e = key)) as [->|Hne].
    + destruct (ev_sub _ _ _ He sr0 Hsr0) as (r & -> & _). by eexists.
    + rewrite (ev_other _ _ _ He) by done. by eapply H4.
  - intros k sr Hk. destruct (decide (k = key)) as [->|Hne].
    + destruct (ev_sub _ _ _ He sr0 Hsr0) as (r & Hr & Hev). rewrite Hr in Hk. injection Hk as <-.
      destruct (H5 key sr0 Hsr0) as [A1 A2 A3 A4 A5 A6]. split; try done.
      * by apply (re_ok _ _ _ Hev).
      * by rewrite (ev_graph _ _ _ He).
      * intros i Hi. rewrite (ev_graph _ _ _ He). destruct (A6 i Hi); [by left|right].
        by eapply td_ready_evolves.
    + rewrite (ev_other _ _ _ He) in Hk by done.
      destruct (H5 k sr Hk) as [A1 A2 A3 A4 A5 A6]. split; try done.
      * by rewrite (ev_graph _ _ _ He).
      * intros i Hi. rewrite (ev_graph _ _ _ He). destruct (A6 i Hi); [by left|right].
        by eapply td_ready_other.
Qed.

(** ** Removing a finished task *)

Lemma depends_gone s running t e t' e' sr :
  judge_inv s running -> task_list (graph s) !! t = Some e -> te_indeg e = 0 ->
  task_list (graph s) !! t' = Some e' -> te_submission_internal_id e' = te_submission_internal_id e ->
  submission_list s !! te_submission_internal_id e = Some sr ->
  ~ depends_on (sr_sub sr) (te_task e) (te_task e').
Proof.
  intros Hj Ht Hz Ht' Hid Hsr Hdep.
  pose proof (ss_graph _ _ _ (ji_sub _ _ Hj _ _ Hsr)) as Hg.
  pose proof (sg_depends _ _ _ Hg t' e' t e Ht' Hid Ht eq_refl Hdep) as Hr.
  pose proof (reach_indeg _ _ _ (ji_graph _ _ Hj) Hr e Ht). lia.
Qed.

Lemma sub_graph_remove tl tl' key sub t e :
  graph_ok tl -> tl !! t = Some e -> tl' !! t = None ->
  (forall u, u <> t -> exists d, tl' !! u = with_indeg d <$> tl !! u) ->
  (forall u v, u <> t -> reach tl u v -> reach tl' u v) ->
  (te_submission_internal_id e = key -> te_task e <> summary_task) ->
  sub_graph tl key sub -> sub_graph tl' key sub.
Proof.
  intros Hgo Ht Hgone Hl Hr Hns [A1 A2 A3 A4].
  assert (Hback : forall u eu, tl' !! u = Some eu -> u <> t /\ exists e0, tl !! u = Some e0 /\
    te_task eu = te_task e0 /\ te_submission_internal_id eu = te_submission_internal_id e0).
  { intros u eu Hu. assert (u <> t) as Hne by congruence. split; [done|].
    destruct (Hl u Hne) as [d Hd]. rewrite Hd in Hu. apply fmap_Some in Hu as (e0 & He0 & ->). by exists e0. }
  split.
  - intros u eu Hu Hk. destruct (Hback u eu Hu) as (_ & e0 & He0 & -> & Hid). eapply A1; [done|congruence].
  - intros u eu u' eu' Hu Hk Hu' Hk' Hdep.
    destruct (Hback u eu Hu) as (Hne & e0 & He0 & E & Hid), (Hback u' eu' Hu') as (_ & e1 & He1 & E' & Hid').
    apply Hr; [done|]. rewrite E, E' in Hdep. eapply A2; [exact He0|congruence|exact He1|congruence|done].
  - intros u eu u' eu' Hu Hk Hu' Hk' Heq.
    destruct (Hback u eu Hu) as (_ & e0 & He0 & E & Hid), (Hback u' eu' Hu') as (_ & e1 & He1 & E' & Hid').
    eapply A3; [exact He0|congruence|exact He1|congruence|congruence].
  - destruct A4 as (u & eu & Hu & Hk & Hs).
    assert (u <> t) as Hne by (intros ->; simplify_eq; by apply Hns).
    destruct (Hl u Hne) as [d Hd]. rewrite Hu in Hd. eexists u, _. split; [exact Hd|]. done.
Qed.

(** What is needed of the removal when an execution of a first stage ends. *)
Definition exec_ready (s : Judge) (e : TaskEntry) : Prop :=
  forall sr i, submission_list s !! te_submission_internal_id e = Some sr -> te_task e = exec_task i 0 ->
  td_ready sr s i.

Lemma remove_inv s running t e :
  judge_inv s (t :: running) -> task_list (graph s) !! t = Some e -> te_task e <> summary_task ->
  exec_ready s e ->
  exists g, Remove e (graph s) = Done g /\ judge_inv (set_graph g s) running /\
    task_list g !! t = None /\ (forall u, is_Some (task_list g !! u) -> is_Some (task_list (graph s) !! u)).
Proof.
  intros Hj Ht Hns Hx. destruct Hj as [H1 H2 H3 H4 H5].
  destruct (Remove_ok (graph s) running t e H1 H2 Ht) as (g & Hg & Hgo & Hro & Hgone & Hl & Hreach).
  assert (Hback : forall u eu, task_list g !! u = Some eu -> u <> t /\ exists e0,
    task_list (graph s) !! u = Some e0 /\ te_submission_internal_id eu = te_submission_internal_id e0).
  { intros u eu Hu. assert (u <> t) as Hne by congruence. split; [done|].
    destruct (Hl u Hne) as [d Hd]. rewrite Hd in Hu. apply fmap_Some in Hu as (e0 & He0 & ->). by exists e0. }
  assert (Hdom : forall u, is_Some (task_list g !! u) -> is_Some (task_list (graph s) !! u)).
  { intros u [eu Hu]. destruct (Hback u eu Hu) as (_ & e0 & He0 & _). by eexists. }
  exists g. split; [done|]. split; [|done]. split; simpl; try done.
  - intros u Hu. apply H3. by apply Hdom.
  - intros u eu Hu. destruct (Hback u eu Hu) as (_ & e0 & He0 & ->). by eapply H4.
  - intros key sr Hk. destruct (H5 key sr Hk) as [A1 A2 A3 A4 A5 A6]. split; try done.
    + by eapply (sub_graph_remove (task_list (graph s))).
    + intros i Hi. destruct (A6 i Hi) as [(u & eu & Hu & Hid & Htask)|?]; [|by right].
      destruct (decide (u = t)) as [->|Hne].
      * simplify_eq. right. rewrite <- Hid in Hk. exact (Hx sr i Hk Htask).
      * left. destruct (Hl u Hne) as [d Hd]. rewrite Hu in Hd. eexists u, _. split; [exact Hd|]. done.
Qed.

(** The summary comes last: nothing of its submission is left beside it. *)
Lemma summary_last s running t e t' e' :
  judge_inv s running -> task_list (graph s) !! t = Some e -> te_indeg e = 0 -> te_task e = summary_task ->
  task_list (graph s) !! t' = Some e' -> te_submission_internal_id e' = te_submission_internal_id e -> t' = t.
Proof.
  intros Hj Ht Hz Hs Ht' Hid. destruct (ji_owner _ _ Hj t e Ht) as [sr Hsr].
  destruct (decide (te_task e' = summary_task)) as [Es|Es].
  - eapply (sg_uniq _ _ _ (ss_graph _ _ _ (ji_sub _ _ Hj _ _ Hsr))); [exact Ht'|done|exact Ht|done|congruence].
  - exfalso. eapply (depends_gone s running t e t' e' sr); try done.
    right. right. right. left. done.
Qed.

(** Removing the summary together with its submission. *)
Lemma remove_summary_inv s s' running t e :
  judge_inv s (t :: running) -> task_list (graph s) !! t = Some e -> te_task e = summary_task ->
  graph s' = graph s -> task_count s' = task_count s ->
  submission_list s' = delete (te_submission_internal_id e) (submission_list s) ->
  (forall k gs, k <> te_submission_internal_id e -> cancelled_group s !! k = Some gs ->
     cancelled_group s' !! k = Some gs) ->
  (forall k, k <> te_submission_internal_id e -> k ∈ cancelled_list s -> k ∈ cancelled_list s') ->
  exists g, Remove e (graph s') = Done g /\ judge_inv (set_graph g s') running /\ task_list g !! t = None.
Proof.
  intros Hj Ht Hs Eg Ec El Hcg Hcl. pose proof Hj as [H1 H2 H3 H4 H5].
  assert (Hz : te_indeg e = 0) by (by eapply (Remove_indeg (graph s) running t e)).
  destruct (Remove_ok (graph s) running t e H1 H2 Ht) as (g & Hg & Hgo & Hro & Hgone & Hl & Hreach).
  set (key := te_submission_internal_id e) in *.
  assert (Hback : forall u eu, task_list g !! u = Some eu -> u <> t /\ exists e0,
    task_list (graph s) !! u = Some e0 /\ te_submission_internal_id eu = te_submission_internal_id e0).
  { intros u eu Hu. assert (u <> t) as Hne by congruence. split; [done|].
    destruct (Hl u Hne) as [d Hd]. rewrite Hd in Hu. apply fmap_Some in Hu as (e0 & He0 & ->). by exists e0. }
  exists g. rewrite Eg. split; [done|]. split; [|done]. split; simpl; try done.
  - rewrite Ec. intros u [eu Hu]. destruct (Hback u eu Hu) as (_ & e0 & He0 & _). apply H3. by eexists.
  - intros u eu Hu. destruct (Hback u eu Hu) as (Hne & e0 & He0 & ->). rewrite El.
    rewrite lookup_delete_ne; [by eapply H4|]. intros Hid. apply Hne.
    by eapply (summary_last s (t :: running)).
  - intros k sr. rewrite El. rewrite lookup_delete_Some. intros [Hne Hk].
    destruct (H5 k sr Hk) as [A1 A2 A3 A4 A5 A6]. split; try done.
    + eapply (sub_graph_remove (task_list (graph s))); try done.
    + intros i Hi. destruct (A6 i Hi) as [(u & eu & Hu & Hid & Htask)|Hrd].
      * left. assert (u <> t) as Hut by (intros ->; simplify_eq; by destruct Hne).
        destruct (Hl u Hut) as [d Hd]. rewrite Hu in Hd. eexists u, _. split; [exact Hd|]. done.
      * right. destruct Hrd as [?|[?|(item & Hitem & Hc)]]; [by left|by right; left|].
        right. right. exists item. split; [done|]. rewrite A1 in *. revert Hc. unfold IsCancelled. simpl.
        case_bool_decide as Hin; [rewrite bool_decide_true; [done|by apply Hcl]|].
        destruct (cancelled_group s !! k) as [gs|] eqn:Egs; [|done].
        rewrite (Hcg k gs) by done. by case_bool_decide.
Qed.

(** ** Scoring tasks that run have something to score *)

Definition scoring_ok (s : Judge) (t : Z) : Prop :=
  forall e sr, task_list (graph s) !! t = Some e -> tk_type (te_task e) = SCORING ->
  submission_list s !! te_submission_internal_id e = Some sr -> executed sr (tk_subtask (te_task e)).

Lemma scoring_ok_evolves key s s' t :
  is_Some (submission_list s !! key) -> evolves key s s' -> scoring_ok s t -> scoring_ok s' t.
Proof.
  intros [sr0 Hsr0] He Hs e sr. rewrite (ev_graph _ _ _ He). intros Ht Hty Hsr.
  destruct (decide (te_submission_internal_id e = key)) as [Hk|Hne].
  - rewrite Hk in Hsr. destruct (ev_sub _ _ _ He sr0 Hsr0) as (r & Hr & Hev).
    rewrite Hr in Hsr. injection Hsr as <-. specialize (Hs e sr0 Ht Hty).
    rewrite Hk in Hs. specialize (Hs Hsr0). unfold executed in *. pose proof (re_length _ _ _ Hev).
    simpl. lia.
  - rewrite (ev_other _ _ _ He) in Hsr by done. by apply (Hs e sr).
Qed.

(** Entries keep their task and owner, submissions their executed test data. *)
Lemma scoring_ok_shrinks s s' t :
  (forall e', task_list (graph s') !! t = Some e' -> exists e, task_list (graph s) !! t = Some e /\
     te_task e' = te_task e /\ te_submission_internal_id e' = te_submission_internal_id e) ->
  (forall k sr, submission_list s' !! k = Some sr -> submission_list s !! k = Some sr) ->
  scoring_ok s t -> scoring_ok s' t.
Proof.
  intros Ht Hk Hs e' sr He' Hty Hsr. destruct (Ht e' He') as (e & He & E1 & E2).
  rewrite E1 in *. rewrite E2 in Hsr. apply Hs; [done|done|]. by apply Hk.
Qed.

Lemma Remove_entries g g' running t e u e' :
  graph_ok (task_list g) -> ready_ok g (t :: running) -> task_list g !! t = Some e ->
  Remove e g = Done g' -> task_list g' !! u = Some e' -> exists e0, task_list g !! u = Some e0 /\
    te_task e' = te_task e0 /\ te_submission_internal_id e' = te_submission_internal_id e0.
Proof.
  intros H1 H2 Ht Hg Hu.
  destruct (Remove_ok g running t e H1 H2 Ht) as (g'' & Hg'' & _ & _ & Hgone & Hl & _).
  rewrite Hg in Hg''. injection Hg'' as <-.
  assert (u <> t) as Hne by congruence. destruct (Hl u Hne) as [d Hd]. rewrite Hd in Hu.
  apply fmap_Some in Hu as (e0 & He0 & ->). by exists e0.
Qed.

Lemma Remove_size g g' running t e :
  graph_ok (task_list g) -> ready_ok g (t :: running) -> task_list g !! t = Some e ->
  Remove e g = Done g' -> size (task_list g) = S (size (task_list g')).
Proof.
  intros H1 H2 Ht Hg.
  destruct (Remove_ok g running t e H1 H2 Ht) as (g'' & Hg'' & _ & _ & Hgone & Hl & _).
  rewrite Hg in Hg''. injection Hg'' as <-.
  assert (Hdom : dom (task_list g) = {[t]} ∪ dom (task_list g')).
  { apply set_eq. intros u. rewrite elem_of_union, elem_of_singleton, !elem_of_dom.
    destruct (decide (u = t)) as [->|Hne]; [rewrite Ht; naive_solver|].
    destruct (Hl u Hne) as [d ->]. rewrite fmap_is_Some. naive_solver. }
  rewrite <- !size_dom, Hdom, size_union, size_singleton; [done|].
  apply disjoint_singleton_l. rewrite elem_of_dom, Hgone. by intros [? ?].
Qed.

(** ** What happens to the submissions *)

(** No submission comes or goes and no overall result is reported. *)
Record quiet (s s' : Judge) : Prop := {
  qu_list : forall k, option_map sr_sub (submission_list s' !! k) = option_map sr_sub (submission_list s !! k);
  qu_cancelled : cancelled_list s' = cancelled_list s;
  qu_overall : overall_of (trace s') = overall_of (trace s);
}.

(** What is reported of a finished submission: nothing when cancelled. *)
Definition final_report (s : Judge) (key : Z) (sub : Submission) (r : SubmissionResult)
    : list (Submission * SubmissionResult) :=
  if negb (bool_decide (key ∈ cancelled_list s)) && ReportOverallResult (reporter sub) then [(sub, r)]
  else [].

(** One submission is finished. *)
Definition finished (s s' : Judge) : Prop :=
  exists key sr r, submission_list s !! key = Some sr /\
    (forall k, option_map sr_sub (submission_list s' !! k) =
       if decide (k = key) then None else option_map sr_sub (submission_list s !! k)) /\
    cancelled_list s' = cancelled_list s ∖ {[key]} /\
    overall_of (trace s') = overall_of (trace s) ++ final_report s key (sr_sub sr) r.

Lemma evolves_quiet key s s' : is_Some (submission_list s !! key) -> evolves key s s' -> quiet s s'.
Proof.
  intros [sr Hsr] He. split; [|apply He|apply He]. intros k. destruct (decide (k = key)) as [->|Hne].
  - destruct (ev_sub _ _ _ He sr Hsr) as (r & -> & _). by rewrite Hsr.
  - by rewrite (ev_other _ _ _ He).
Qed.

Lemma quiet_finished s s1 s' : quiet s s1 -> finished s1 s' -> finished s s'.
Proof.
  intros [Q1 Q2 Q3] (key & sr & r & F1 & F2 & F3 & F4).
  pose proof (Q1 key) as Hk. rewrite F1 in Hk.
  destruct (submission_list s !! key) as [sr0|] eqn:E0; [|done]. injection Hk as Hk.
  exists key, sr0, r. split; [done|]. split_and!.
  - intros k. rewrite F2. by case_decide.
  - by rewrite F3, Q2.
  - rewrite F4, Q3. unfold final_report. by rewrite Q2, Hk.
Qed.

Lemma quiet_trans s s1 s' : quiet s s1 -> quiet s1 s' -> quiet s s'.
Proof. intros [Q1 Q2 Q3] [P1 P2 P3]. split; [|congruence..]. intros k. by rewrite P1, Q1. Qed.

Section Tasks.
Context `{PathRoots} `{Config} `{JsonText} (env : Env).

(** The effect of a step that removes the task [t]. *)
Record removed (s s' : Judge) (running : list Z) (t : Z) : Prop := {
  rm_inv : judge_inv s' running;
  rm_handle : handle_map s' = handle_map s;
  rm_size : size (task_list (graph s)) = S (size (task_list (graph s')));
  rm_scoring : forall u, scoring_ok s u -> scoring_ok s' u;
  rm_report : quiet s s' \/ finished s s';
  rm_gone : task_list (graph s') !! t = None;
  rm_entries : forall u e', task_list (graph s') !! u = Some e' -> exists e, task_list (graph s) !! u = Some e /\
    te_task e' = te_task e /\ te_submission_internal_id e' = te_submission_internal_id e;
}.

Lemma entry_facts s running t e :
  judge_inv s running -> task_list (graph s) !! t = Some e ->
  exists sr, submission_list s !! te_submission_internal_id e = Some sr /\
    sub_state s (te_submission_internal_id e) sr /\ expected (sr_sub sr) (te_task e).
Proof.
  intros Hj Ht. destruct (ji_owner _ _ Hj t e Ht) as [sr Hsr]. exists sr. split; [done|].
  pose proof (ji_sub _ _ Hj _ _ Hsr) as Hs. split; [done|].
  eapply (sg_expected _ _ _ (ss_graph _ _ _ Hs)); done.
Qed.

Lemma remove_step s0 s running t e :
  judge_inv s0 (t :: running) -> task_list (graph s0) !! t = Some e ->
  evolves (te_submission_internal_id e) s0 s -> te_task e <> summary_task -> exec_ready s e ->
  exists g, Remove e (graph s) = Done g /\ removed s0 (set_graph g s) running t.
Proof.
  intros Hj Ht He Hns Hx. assert (Ho := ji_owner _ _ Hj t e Ht).
  pose proof (evolves_inv _ _ _ _ Ho He Hj) as Hj'.
  assert (Ht' : task_list (graph s) !! t = Some e) by (by rewrite (ev_graph _ _ _ He)).
  destruct (remove_inv s running t e Hj' Ht' Hns Hx) as (g & Hg & Hjg & Hgone & _).
  assert (Hg0 := Hg). rewrite (ev_graph _ _ _ He) in Hg0.
  exists g. split; [done|]. split; try done.
  - apply He.
  - by eapply (Remove_size (graph s0) g running t e); [apply Hj|apply Hj| |].
  - intros u Hu. apply (scoring_ok_shrinks s).
    + intros e' He'. eapply (Remove_entries (graph s) g running t e u); [apply Hj'|apply Hj'|done|done|done].
    + done.
    + by eapply scoring_ok_evolves.
  - left. destruct (evolves_quiet _ _ _ Ho He). by split.
  - intros u e'. by eapply (Remove_entries (graph s0) g running t e u); [apply Hj|apply Hj| |].
Qed.

Lemma summary_events_overall s sr r :
  overall_of (summary_events s sr r) = final_report s (submission_internal_id (sr_sub sr)) (sr_sub sr) r.
Proof.
  unfold summary_events, final_report. rewrite !overall_of_app.
  destruct (remove_submission _), (negb _ && _), (ReportFinalized _); done.
Qed.

Lemma remove_summary_step s running t e sr res skipped :
  judge_inv s (t :: running) -> task_list (graph s) !! t = Some e -> te_task e = summary_task ->
  submission_list s !! te_submission_internal_id e = Some sr ->
  exists s1 g, FinalizeSummary env (te_submission_internal_id e) (te_task e) res skipped s = Done (tt, s1) /\
    Remove e (graph s1) = Done g /\ removed s (set_graph g s1) running t.
Proof.
  intros Hj Ht Hs Hsr. pose proof (ji_sub _ _ Hj _ _ Hsr) as [A1 A2 A3 A4 A5 A6].
  destruct (final_result_some env (sr_sub sr) (sr_result sr) res skipped A4 A3) as [r Hr].
  pose proof (FinalizeSummary_run env _ s sr Hsr (te_task e) res skipped r A1 Hr) as Hrun.
  match type of Hrun with _ = Done (tt, ?x) => set (s1 := x) in * end.
  destruct (remove_summary_inv s s1 running t e Hj Ht Hs) as (g & Hg & Hjg & Hgone); try done.
  { intros k gs Hne Hk. simpl. by rewrite lookup_delete_ne. }
  { intros k Hne Hk. simpl. set_solver. }
  exists s1, g. split; [exact Hrun|]. split; [exact Hg|]. split; try done.
  - by eapply (Remove_size (graph s) g running t e); [apply Hj|apply Hj| |].
  - intros u. apply scoring_ok_shrinks.
    + intros e' He'. eapply (Remove_entries (graph s) g running t e u); [apply Hj|apply Hj|done|done|done].
    + intros k x. simpl. rewrite lookup_delete_Some. by intros [_ ?].
  - right. exists (te_submission_internal_id e), sr, r. split; [done|]. simpl. split_and!.
    + intros k. rewrite lookup_delete. case_decide as Hd; [by rewrite decide_True|by rewrite decide_False].
    + done.
    + by rewrite overall_of_app, summary_events_overall, A1.
  - intros u e'. by eapply (Remove_entries (graph s) g running t e u); [apply Hj|apply Hj| |].
Qed.

Lemma expected_subtask sub task : expected sub task -> tk_type task = COMPILE ->
  CompileSubtask_of_Z (tk_subtask task) <> None.
Proof.
  unfold expected. intros Hx Hty. rewrite Hty in Hx. destruct Hx as (s & -> & _). simpl.
  by rewrite CompileSubtask_of_to_Z.
Qed.

Lemma not_summary task : tk_type task <> SUMMARY -> task <> summary_task.
Proof. by intros Hn ->. Qed.

Lemma exec_ready_other s e : tk_type (te_task e) <> EXECUTE -> exec_ready s e.
Proof. intros Hn sr i _ E. by rewrite E in Hn. Qed.

Lemma FinalizeExecute_ready s e sr res s' :
  submission_list s !! te_submission_internal_id e = Some sr ->
  0 <= tk_subtask (te_task e) < Z.of_nat (length (testdata (sr_sub sr))) ->
  FinalizeExecute env (te_submission_internal_id e) (te_task e) res s = Done (tt, s') -> exec_ready s' e.
Proof.
  intros Hsr Hi Hrun.
  destruct (FinalizeExecute_run env _ s sr (te_task e) res Hsr Hi) as (lim & _ & Hr).
  rewrite Hr in Hrun. injection Hrun as <-. intros sr' i Hsr' Ht. left. simpl in Hsr'.
  rewrite lookup_insert_eq in Hsr'. injection Hsr' as <-. unfold executed.
  rewrite Ht in *. simpl in *. rewrite length_alter.
  pose proof (grow_length (Z.to_nat (i + 1)) (sr_result sr)). lia.
Qed.

(** [FinalizeTask], unless it is the summary's. *)
Lemma FinalizeTask_other s running t e (m : M unit) :
  judge_inv s (t :: running) -> task_list (graph s) !! t = Some e -> te_task e <> summary_task ->
  keeps (te_submission_internal_id e) s m ->
  (forall s', m s = Done (tt, s') -> exec_ready s' e) ->
  match (_ ← m; s ← get; g ← lift_outcome (Remove e (graph s)); modify (set_graph g)) s with
  | Done (_, s') => removed s s' running t
  | Crash f => allowed f
  end.
Proof.
  intros Hj Ht Hns Hm Hx. specialize (Hm s (reflexivity s)).
  unfold mbind at 1, M_bind at 1. destruct (m s) as [[[] s1]|f] eqn:Em; [|done].
  destruct (remove_step s s1 running t e Hj Ht Hm Hns) as (g & Hg & Hr); [by apply Hx|].
  unfold mbind, M_bind, get, lift_outcome, modify. by rewrite Hg.
Qed.

Lemma FinalizeTask_inv s running t e res (skipped : bool) :
  judge_inv s (t :: running) -> task_list (graph s) !! t = Some e ->
  (skipped = true -> exec_ready s e) -> (skipped = false -> scoring_ok s t) ->
  match FinalizeTask env t res skipped s with
  | Done (_, s') => removed s s' running t
  | Crash f => allowed f
  end.
Proof.
  intros Hj Ht Hsk Hsc.
  destruct (entry_facts s _ t e Hj Ht) as (sr & Hsr & Hss & Hexp).
  unfold FinalizeTask. unfold mbind at 1, M_bind at 1, get at 1.
  unfold mbind at 1, M_bind at 1. rewrite Ht. simpl or_crash. unfold mret at 1, M_ret at 1.
  destruct (decide (tk_type (te_task e) = SUMMARY)) as [Hty|Hty].
  { assert (Hs : te_task e = summary_task) by (unfold expected in Hexp; by rewrite Hty in Hexp).
    destruct (remove_summary_step s running t e sr res skipped Hj Ht Hs Hsr) as (s1 & g & Hf & Hg & Hr).
    rewrite Hs in *. simpl tk_type. rewrite bool_decide_true by done. rewrite orb_true_r. simpl when.
    unfold mbind at 1, M_bind at 1. rewrite Hf.
    unfold mbind, M_bind, get, lift_outcome, modify. by rewrite Hg. }
  pose proof (not_summary _ Hty) as Hns.
  rewrite (bool_decide_false _ Hty), orb_false_r.
  destruct skipped; simpl negb; simpl when.
  { apply FinalizeTask_other; try done; [apply keeps_ret|]. intros s' [= <-]. by apply Hsk. }
  assert (Hi : (tk_type (te_task e) = EXECUTE \/ tk_type (te_task e) = SCORING) ->
    0 <= tk_subtask (te_task e) < Z.of_nat (length (testdata (sr_sub sr)))).
  { unfold expected in Hexp. intros [E|E]; rewrite E in Hexp; apply Hexp. }
  destruct (tk_type (te_task e)) eqn:Et; try done; apply FinalizeTask_other; try done.
  - apply (FinalizeCompile_keeps env _ s sr Hsr). by eapply expected_subtask.
  - intros s' _. apply exec_ready_other. by rewrite Et.
  - apply (FinalizeExecute_keeps env _ s sr Hsr); [apply Hss|by apply Hi; left].
  - intros s' Hrun. eapply FinalizeExecute_ready; [done|by apply Hi; left|done].
  - apply (FinalizeScoring_keeps env _ s sr Hsr); [apply Hss|by apply Hi; right|].
    by apply (Hsc eq_refl e sr).
  - intros s' _. apply exec_ready_other. by rewrite Et.
Qed.

(** ** Dispatching *)

Lemma SetupScoring_executes key s sr task s' :
  submission_list s !! key = Some sr -> td_ready sr s (tk_subtask task) ->
  SetupScoring env key task s = Done (true, s') -> executed sr (tk_subtask task).
Proof.
  intros Hsr Hready. unfold SetupScoring. unfold mbind at 1, M_bind at 1.
  rewrite (get_sub_run key s sr Hsr).
  destruct (bool_decide (verdict (sr_result sr) = NUL)) eqn:Ev; simpl; [|by intros [= ]].
  unfold mbind at 1, M_bind at 1, vec_at at 1.
  destruct (0 <=? tk_subtask task); [|done]. unfold or_crash at 1.
  destruct (testdata (sr_sub sr) !! Z.to_nat (tk_subtask task)) as [item|] eqn:Ei; [|done]. simpl.
  unfold mbind at 1, M_bind at 1. simpl. destruct (IsCancelled _ _ _) eqn:Ec; [by intros [= ]|].
  intros _. apply bool_decide_eq_true in Ev.
  destruct Hready as [?|[?|(item' & Hi' & Hc)]]; [done|done|]. simplify_eq. congruence.
Qed.

(** A stage that is not the first comes after the first. *)
Lemma ready_of_later s running t e sr :
  judge_inv s running -> task_list (graph s) !! t = Some e -> te_indeg e = 0 ->
  submission_list s !! te_submission_internal_id e = Some sr -> judging (te_task e) ->
  te_task e <> exec_task (tk_subtask (te_task e)) 0 -> expected (sr_sub sr) (te_task e) ->
  td_ready sr s (tk_subtask (te_task e)).
Proof.
  intros Hj Ht Hz Hsr Hjd Hne Hexp. pose proof (ji_sub _ _ Hj _ _ Hsr) as Hss.
  assert (Hi : 0 <= tk_subtask (te_task e) < Z.of_nat (length (testdata (sr_sub sr))) /\
    0 <= tk_stage (te_task e)).
  { unfold expected in Hexp. pose proof (so_stages _ (ss_ok _ _ _ Hss)).
    unfold first_scoring in Hexp. destruct Hjd as [E|E]; rewrite E in Hexp; [lia|].
    destruct (judge_between_stages (sr_sub sr)); lia. }
  destruct (ss_ready _ _ _ Hss _ (proj1 Hi)) as [(t' & e' & Ht' & Hid & Htask)|?]; [|done].
  exfalso. eapply (depends_gone s running t e t' e' sr); try done.
  do 4 right. split; [done|]. rewrite Htask. split; [by left|]. split; [done|].
  destruct (te_task e) as [ty i j]. simpl in *. unfold rank. simpl.
  destruct Hjd as [E|E]; simpl in E; subst ty; [|lia].
  assert (j <> 0) as Hj0; [|lia]. intros ->. by apply Hne.
Qed.

(** The setup of a task: what it keeps, and what a task that goes on to run
    or is skipped has established. *)
Lemma setup_spec s running t e sr :
  judge_inv s (t :: running) -> task_list (graph s) !! t = Some e ->
  submission_list s !! te_submission_internal_id e = Some sr ->
  let key := te_submission_internal_id e in
  let task := te_task e in
  let m := SetupTask env key task in
  keeps key s m /\
  (forall s', m s = Done (false, s') -> exec_ready s' e) /\
  (forall s', m s = Done (true, s') -> scoring_ok s t).
Proof.
  intros Hj Ht Hsr. cbv zeta. unfold SetupTask.
  destruct (entry_facts s _ t e Hj Ht) as (sr' & Hsr' & Hss & Hexp). simplify_eq.
  assert (Hz : te_indeg e = 0) by (apply (Remove_indeg (graph s) running t e); first [exact Ht|apply Hj]).
  assert (Hi : judging (te_task e) ->
    0 <= tk_subtask (te_task e) < Z.of_nat (length (testdata (sr_sub sr)))).
  { unfold expected in Hexp. intros [E|E]; rewrite E in Hexp; apply Hexp. }
  assert (Hlater := ready_of_later s _ t e sr Hj Ht Hz Hsr).
  assert (Hns : tk_type (te_task e) <> SCORING -> scoring_ok s t).
  { intros Hn e0 sr0 He0 Hty. simplify_eq. }
  destruct (tk_type (te_task e)) eqn:Et.
  - split; [apply (SetupCompile_keeps env _ s sr Hsr); by eapply expected_subtask|].
    split; [intros s' _; apply exec_ready_other; by rewrite Et|intros; by apply Hns].
  - split; [|split; [|intros; by apply Hns]].
    + apply (SetupExecute_keeps env _ s sr Hsr); [apply Hi; by left|].
      intros Hst. apply Hlater; [by left| |done]. intros E. rewrite E in Hst. simpl in Hst. lia.
    + intros s' Hrun sr' i Hsr' E. rewrite E in Hrun.
      destruct (SetupExecute_skipped env _ s sr Hsr (exec_task i 0) s' eq_refl Hrun) as [-> Hr]. simplify_eq.
      destruct Hr as [?|?]; [right; by left|right; by right].
  - assert (Hready : td_ready sr s (tk_subtask (te_task e))).
    { apply Hlater; [by right| |done]. intros E. by rewrite E in Et. }
    split; [apply (SetupScoring_keeps env _ s sr Hsr); [apply Hss|apply Hi; by right|done]|].
    split; [intros s' _; apply exec_ready_other; by rewrite Et|].
    intros s' Hrun e0 sr0 He0 _ Hsr0. simplify_eq. by eapply SetupScoring_executes.
  - split; [apply (SetupSummary_keeps env _ s sr Hsr); apply Hss|].
    split; [intros s' _; apply exec_ready_other; by rewrite Et|intros; by apply Hns].
Qed.

Lemma DispatchTask_inv s running t e handle :
  judge_inv s (t :: running) -> task_list (graph s) !! t = Some e ->
  match DispatchTask env handle t s with
  | Done (true, s') =>
      judge_inv s' (t :: running) /\ handle_map s' = <[handle := t]> (handle_map s) /\
      graph s' = graph s /\ scoring_ok s' t /\ (forall u, scoring_ok s u -> scoring_ok s' u) /\
      quiet s s'
  | Done (false, s') => removed s s' running t
  | Crash f => allowed f
  end.
Proof.
  intros Hj Ht. destruct (entry_facts s _ t e Hj Ht) as (sr & Hsr & Hss & Hexp).
  destruct (setup_spec s running t e sr Hj Ht Hsr) as (Hk & Hfalse & Htrue).
  unfold DispatchTask. unfold mbind at 1, M_bind at 1, get at 1.
  unfold mbind at 1, M_bind at 1. rewrite Ht. simpl or_crash. unfold mret at 1, M_ret at 1. cbv zeta in *.
  unfold mbind at 1, M_bind at 1. specialize (Hk s (reflexivity s)).
  destruct (SetupTask env _ (te_task e) s) as [[[] s1]|f]; [| |done].
  - simpl. unfold mbind, M_bind, emit, modify. simpl.
    assert (Ho : is_Some (submission_list s !! te_submission_internal_id e)) by by eexists.
    pose proof (evolves_inv _ _ _ _ Ho Hk Hj) as Hj1.
    assert (Hsco : forall u, scoring_ok s u -> scoring_ok s1 u)
      by (intros u; by eapply scoring_ok_evolves).
    split_and!.
    + destruct Hj1 as [B1 B2 B3 B4 B5]. split; try done.
      intros key x Hx. destruct (B5 key x Hx). by split.
    + by rewrite (ev_handle _ _ _ Hk).
    + apply Hk.
    + apply (Hsco t). by eapply Htrue.
    + intros u Hu. by apply Hsco.
    + destruct (evolves_quiet _ _ _ Ho Hk) as [Q1 Q2 Q3]. split; [done|done|].
      simpl. by rewrite overall_of_app, Q3, app_nil_r.
  - cbn [negb]. unfold mbind at 1, M_bind at 1. cbv beta iota.
    assert (Ho : is_Some (submission_list s !! te_submission_internal_id e)) by by eexists.
    pose proof (evolves_inv _ _ _ _ Ho Hk Hj) as Hj1.
    assert (Ht1 : task_list (graph s1) !! t = Some e) by (by rewrite (ev_graph _ _ _ Hk)).
    assert (Hx : exec_ready s1 e) by (by apply Hfalse).
    pose proof (FinalizeTask_inv s1 running t e zero_cjail_result true Hj1 Ht1 (fun _ => Hx)
      ltac:(discriminate)) as Hf.
    destruct (FinalizeTask env t zero_cjail_result true s1) as [[[] s2]|f]; [|exact Hf].
    + destruct Hf as [C1 C2 C3 C4 C5 C6 C7]. pose proof (evolves_quiet _ _ _ Ho Hk) as Hq. split.
      * done.
      * by rewrite C2, (ev_handle _ _ _ Hk).
      * by rewrite <- C3, (ev_graph _ _ _ Hk).
      * intros u Hu. apply C4. by eapply scoring_ok_evolves.
      * destruct C5 as [C5|C5]; [left; by eapply quiet_trans|right; by eapply quiet_finished].
      * done.
      * by rewrite <- (ev_graph _ _ _ Hk).
Qed.
End Tasks.
