(* ===== verification/LoopSafe.v ===== *)
(** * Safety and progress of the work loop

    The invariant holds in every reachable state of the work loop, so that no
    step fails but for the file system, every task runs after what it depends
    on, no submission is forgotten, and without new submissions the loop comes
    to rest. *)

From S2P Require Import Prelude Enums Text Paths CNum Scores Data TaskGraph TdOrder State Specjudge Push PushBuild PushRows PushGraph Handlers HandlerFacts WorkLoop LoopInv.

(** ** Pushing *)

(** The values of the handle map. *)
Definition handle_tasks (s : Judge) : list Z := (map_to_list (handle_map s)).*2.

Lemma clamp_ok s sub : push_ok s sub ->
  sub_ok (with_stages (Z.min (Z.max 1 (stages sub)) 32) sub) /\
  groups_ok (with_stages (Z.min (Z.max 1 (stages sub)) 32) sub).
Proof.
  intros [H1 H2 H3 H4]. split; [|exact H4]. split; simpl; [lia|]. exact H3.
Qed.

Definition clamped (sub : Submission) : Submission :=
  with_stages (Z.min (Z.max 1 (stages sub)) 32) sub.

(** What accepting a submission does to the state. *)
Record accepted (s s' : Judge) (running : list Z) (sub : Submission) : Prop := {
  ac_inv : judge_inv s' running;
  ac_handle : handle_map s' = handle_map s;
  ac_scoring : forall t, t ∈ running -> scoring_ok s t -> scoring_ok s' t;
  ac_list : submission_list s' = <[submission_internal_id sub :=
    {| sr_sub := clamped sub; sr_result := empty_SubmissionResult |}]> (submission_list s);
  ac_complete : forall x, expected (clamped sub) x -> exists t e,
    task_list (graph s') !! t = Some e /\
    te_submission_internal_id e = submission_internal_id sub /\ te_task e = x;
  ac_trace : trace s' = trace s;
  ac_pushed : exists st, graph s' = b_graph st /\
    pushed (graph s) running (submission_internal_id sub) (clamped sub) st;
  ac_cancelled : forall old, submission_id_map s !! submission_id sub = Some old ->
    old ∈ cancelled_list s';
  ac_idmap : submission_id_map s' =
    <[submission_id sub := submission_internal_id sub]> (submission_id_map s);
}.

Lemma IsCancelled_more s s' id groups :
  (forall k, k ∈ cancelled_list s -> k ∈ cancelled_list s') -> cancelled_group s' = cancelled_group s ->
  IsCancelled s id groups = true -> IsCancelled s' id groups = true.
Proof.
  intros Hl Hg. unfold IsCancelled. rewrite Hg.
  case_bool_decide as Hin; [rewrite bool_decide_true; [done|by apply Hl]|]. by case_bool_decide.
Qed.

Lemma push_inv s running sub st s' :
  judge_inv s running -> push_ok s sub ->
  pushed (graph s) running (submission_internal_id sub) (clamped sub) st -> task_count s <= b_count st ->
  graph s' = b_graph st -> task_count s' = b_count st -> handle_map s' = handle_map s ->
  submission_list s' = <[submission_internal_id sub :=
    {| sr_sub := clamped sub; sr_result := empty_SubmissionResult |}]> (submission_list s) ->
  (forall k, k ∈ cancelled_list s -> k ∈ cancelled_list s') -> cancelled_group s' = cancelled_group s ->
  trace s' = trace s ->
  (forall old, submission_id_map s !! submission_id sub = Some old -> old ∈ cancelled_list s') ->
  submission_id_map s' = <[submission_id sub := submission_internal_id sub]> (submission_id_map s) ->
  accepted s s' running sub.
Proof.
  intros [H1 H2 H3 H4 H5] Hpk Hpu Hc Eg Ec Eh El Hcl Hcg Et Hprev Him.
  pose proof Hpu as [P1 P2 P3 P4 P5 P6 P7].
  set (id := submission_internal_id sub) in *.
  assert (Hnew : submission_list s !! id = None) by apply Hpk.
  split; try done.
  - split.
    + by rewrite Eg.
    + by rewrite Eg.
    + rewrite Eg, Ec. done.
    + rewrite Eg, El. intros t e He. destruct (P5 t e He) as [He0|[-> _]].
      * apply lookup_insert_is_Some'. right. by eapply H4.
      * apply lookup_insert_is_Some'. by left.
    + intros key sr. rewrite El, lookup_insert. case_decide as Hd.
      * intros [= <-]. subst key. destruct (clamp_ok s sub Hpk) as [Hso Hgo]. split; try done.
        -- split; simpl; [lia|constructor].
        -- by rewrite Eg.
        -- simpl. intros i Hi. left. rewrite Eg. apply P7. unfold expected. simpl.
           pose proof (so_stages _ Hso). simpl in *. lia.
      * intros Hk. destruct (H5 key sr Hk) as [A1 A2 A3 A4 [B1 B2 B3 B4] A6].
        assert (Hold : forall t e, task_list (b_graph st) !! t = Some e ->
          te_submission_internal_id e = key -> task_list (graph s) !! t = Some e).
        { intros t e He Hid. destruct (P5 t e He) as [?|[E _]]; [done|]. rewrite E in Hid. by destruct Hd. }
        split; try done.
        -- rewrite Eg. split.
           ++ intros t e He Hid. eapply B1; [by apply Hold|done].
           ++ intros t e t' e' He Hid He' Hid' Hdep.
              eapply (reach_mono (task_list (graph s))).
              ** intros u eu Hu. exists eu. split; [by apply P4|done].
              ** eapply B2; [by apply Hold|done|by apply Hold|done|done].
           ++ intros t e t' e' He Hid He' Hid'. apply B3; [by apply Hold|done|by apply Hold|done].
           ++ destruct B4 as (t & e & He & ? & ?). exists t, e. split; [by apply P4|done].
        -- intros i Hi. destruct (A6 i Hi) as [(t & e & He & Hid & Htask)|[?|[?|(item & Hitem & Hcc)]]].
           ++ left. exists t, e. rewrite Eg. split; [by apply P4|done].
           ++ right. by left.
           ++ right. right. by left.
           ++ right. right. right. exists item. split; [done|]. by apply (IsCancelled_more s).
  - intros t Ht Hs e sr He Hty Hsr. rewrite Eg in He.
    destruct (P5 t e He) as [He0|[Hid _]].
    + apply Hs; [done|done|]. rewrite El, lookup_insert in Hsr. case_decide as Hd; [|done].
      destruct (H4 t e He0) as [x Hx]. congruence.
    + exfalso. destruct (proj1 (ro_ready _ _ H2 t)) as (e0 & He0 & _); [set_solver|].
      pose proof (P4 t e0 He0). simplify_eq. destruct (H4 t e He0) as [x Hx]. congruence.
  - intros x Hx. rewrite Eg. by apply P7.
  - by exists st.
Qed.

Lemma PushSubmission_spec s running sub max_queue :
  judge_inv s running -> push_ok s sub ->
  (PushSubmission sub max_queue s = Done (false, s) /\
     0 < max_queue <= Z.of_nat (size (submission_list s))) \/
  (~ 0 < max_queue <= Z.of_nat (size (submission_list s)) /\
   exists s', PushSubmission sub max_queue s = Done (true, s') /\ accepted s s' running sub).
Proof.
  intros Hj Hpk. unfold PushSubmission. unfold mbind at 1, M_bind at 1, get at 1.
  destruct ((0 <? max_queue) && (max_queue <=? Z.of_nat (size (submission_list s)))) eqn:Em.
  { left. split; [done|]. apply andb_true_iff in Em as [?%Z.ltb_lt ?%Z.leb_le]. lia. }
  right. split; [apply andb_false_iff in Em as [?%Z.ltb_ge|?%Z.leb_gt]; lia|].
  fold (clamped sub). cbv zeta.
  assert (Hid : to_int (submission_internal_id (clamped sub)) = submission_internal_id sub)
    by (apply wrap_signed_id; [lia|apply Hpk]).
  rewrite Hid. set (id := submission_internal_id sub) in *.
  destruct (build_graph_pushed id (task_count s) (graph s) running (clamped sub)) as (st & Hb & Hc & Hp).
  { apply Hj. } { apply Hj. } { apply Hj. }
  { intros t e He Hid'. destruct (ji_owner _ _ Hj t e He) as [x Hx].
    rewrite Hid' in Hx. pose proof (pk_fresh _ _ Hpk). unfold id in Hx. congruence. }
  { by destruct (clamp_ok s sub Hpk). }
  unfold mbind at 1, M_bind at 1, get at 1. rewrite Em.
  unfold mbind at 1, M_bind at 1, lift_outcome.
  change {| b_count := task_count s; b_store := ∅; b_graph := graph s |} with (start (task_count s) (graph s)).
  rewrite Hb.
  unfold mbind, M_bind, modify. simpl. unfold id. rewrite (pk_fresh _ _ Hpk).
  destruct (submission_id_map s !! submission_id sub) as [old|] eqn:Eold; simpl;
    rewrite ?Eold; eexists; (split; [reflexivity|]); eapply (push_inv s running sub st); try done;
    simpl; intros; simplify_eq; set_solver.
Qed.

(** ** The loop *)

Record loop_inv (kMaxParallel : Z) (l : Loop) : Prop := {
  li_judge : judge_inv (lp_judge l) (handle_tasks (lp_judge l));
  li_running : lp_running l = Z.of_nat (size (handle_map (lp_judge l)));
  li_bound : lp_running l <= Z.max 0 kMaxParallel;
  li_scoring : forall t, t ∈ handle_tasks (lp_judge l) -> scoring_ok (lp_judge l) t;
  li_pc : match lp_pc l with
          | Idle => lp_running l = 0
          | Busy => True
          | Waiting => 0 < lp_running l
          end;
}.

Lemma handle_tasks_insert s h t :
  handle_map s !! h = None ->
  (map_to_list (<[h := t]> (handle_map s))).*2 ≡ₚ t :: (map_to_list (handle_map s)).*2.
Proof. intros Hh. by rewrite map_to_list_insert. Qed.

Lemma handle_tasks_delete s h t :
  handle_map s !! h = Some t ->
  (map_to_list (handle_map s)).*2 ≡ₚ t :: (map_to_list (delete h (handle_map s))).*2.
Proof.
  intros Hh. rewrite <- (insert_delete_id (handle_map s) h t) at 1 by done.
  by rewrite map_to_list_insert by apply lookup_delete_eq.
Qed.

Lemma running_entry s running t : judge_inv s running -> t ∈ task_queue (graph s) ++ running ->
  exists e, task_list (graph s) !! t = Some e /\ te_indeg e = 0.
Proof. intros Hj. apply (ro_ready _ _ (ji_ready _ _ Hj)). Qed.

Section Loop.
Context `{PathRoots} `{Config} `{JsonText} (kMaxParallel : Z) (Hpar : 0 < kMaxParallel).

Lemma initial_inv : loop_inv kMaxParallel initial.
Proof.
  split; simpl.
  - apply judge_inv_empty.
  - done.
  - lia.
  - intros t Ht. by apply elem_of_nil in Ht.
  - done.
Qed.

(** A dispatch that leads to a running task, or removes the task. *)
Lemma dispatch_inv l env t handle :
  loop_inv kMaxParallel l -> enabled kMaxParallel l (Dispatch env t handle) ->
  match perform l (Dispatch env t handle) with
  | Done l' => loop_inv kMaxParallel l' /\
      (quiet (lp_judge l) (lp_judge l') \/ finished (lp_judge l) (lp_judge l')) /\
      ((exists e, task_list (graph (lp_judge l)) !! t = Some e /\
          lp_running l' = lp_running l + 1 /\
          size (task_list (graph (lp_judge l'))) = size (task_list (graph (lp_judge l))) /\
          handle_map (lp_judge l') = <[handle := t]> (handle_map (lp_judge l))) \/
       (lp_running l' = lp_running l /\
          size (task_list (graph (lp_judge l))) = S (size (task_list (graph (lp_judge l')))) /\
          handle_map (lp_judge l') = handle_map (lp_judge l)))
  | Crash f => allowed f
  end.
Proof.
  intros [Hj Hr Hb Hsc Hpc] (Hbusy & (Hlt & _) & (Htop & _) & Hh).
  destruct (running_entry _ _ t Hj) as (e & He & _); [set_solver|].
  set (s := lp_judge l) in *. pose proof (pop_inv s _ t Hj Htop) as Hj1.
  simpl. unfold run. fold s. unfold mbind, M_bind, modify.
  assert (Hsc1 : forall u, scoring_ok s u -> scoring_ok (pop_task t s) u) by done.
  pose proof (DispatchTask_inv env (pop_task t s) (handle_tasks s) t e handle Hj1 He) as Hd.
  destruct (DispatchTask env handle t (pop_task t s)) as [[[] s1]|f]; [| |done].
  - destruct Hd as (D1 & D2 & D3 & D4 & D5 & D6). simpl in D2.
    assert (Hperm : handle_tasks s1 ≡ₚ t :: handle_tasks s)
      by (unfold handle_tasks; rewrite D2; by apply handle_tasks_insert).
    split.
    + split; simpl.
      * eapply judge_inv_perm; [symmetry; exact Hperm|done].
      * rewrite D2, map_size_insert_None by done. lia.
      * lia.
      * intros u. rewrite Hperm. intros [->|Hu]%elem_of_cons; [done|]. by apply D5, Hsc1, Hsc.
      * done.
    + split; [left; apply (quiet_trans _ (pop_task t s)); [done|exact D6]|].
      left. exists e. cbn. rewrite D3. by split_and!.
  - destruct Hd as [D1 D2 D3 D4 D5]. simpl in D2.
    assert (Hperm : handle_tasks s1 = handle_tasks s) by (unfold handle_tasks; by rewrite D2).
    split.
    + split; simpl.
      * by rewrite Hperm.
      * rewrite D2. lia.
      * lia.
      * intros u. rewrite Hperm. intros Hu. by apply D4, Hsc1, Hsc.
      * done.
    + split; [|right; split_and!; [simpl; lia|exact D3|done]].
      destruct D5 as [D5|D5]; [left; apply (quiet_trans _ (pop_task t s)); [done|exact D5]|].
      right. apply (quiet_finished _ (pop_task t s)); [done|exact D5].
Qed.

Lemma finish_inv l env handle res :
  loop_inv kMaxParallel l -> enabled kMaxParallel l (Finish env handle res) ->
  match perform l (Finish env handle res) with
  | Done l' => loop_inv kMaxParallel l' /\
      (quiet (lp_judge l) (lp_judge l') \/ finished (lp_judge l) (lp_judge l')) /\
      lp_running l' = lp_running l - 1 /\
      size (task_list (graph (lp_judge l))) = S (size (task_list (graph (lp_judge l'))))
  | Crash f => allowed f
  end.
Proof.
  intros [Hj Hr Hb Hsc Hpc] (Hw & t & Hh). set (s := lp_judge l) in *.
  pose proof (handle_tasks_delete s handle t Hh) as Hperm.
  set (s1 := set_handle_map (delete handle (handle_map s)) s).
  assert (Hj1 : judge_inv s1 (t :: handle_tasks s1)).
  { apply (judge_inv_perm s1 (handle_tasks s)); [exact Hperm|].
    destruct Hj as [A1 A2 A3 A4 A5]. split; try done. intros key x Hx. destruct (A5 key x Hx). by split. }
  destruct (running_entry s1 _ t Hj1) as (e & He & _); [set_solver|].
  assert (Hst : scoring_ok s1 t) by (apply (Hsc t); unfold handle_tasks; rewrite Hperm; by left).
  simpl. unfold run. fold s. unfold mbind, M_bind, WaitTask.
  unfold mbind, M_bind, get, modify. rewrite Hh. simpl. fold s1.
  pose proof (FinalizeTask_inv env s1 (handle_tasks s1) t e res false Hj1 He ltac:(discriminate) (fun _ => Hst))
    as Hf.
  destruct (FinalizeTask env t res false s1) as [[[] s2]|f]; [|done].
  destruct Hf as [D1 D2 D3 D4 D5]. simpl in D2.
  assert (Hsz : size (handle_map s) = S (size (handle_map s2))).
  { rewrite D2, <- (insert_delete_id (handle_map s) handle t) by done.
    rewrite delete_insert_eq, map_size_insert_None by apply lookup_delete_eq.
    by rewrite delete_delete_eq. }
  assert (Hrep : quiet s s2 \/ finished s s2).
  { destruct D5 as [D5|D5]; [left|right].
    - apply (quiet_trans _ s1); [done|exact D5].
    - apply (quiet_finished _ s1); [done|exact D5]. }
  split; [|split; [exact Hrep|split; [simpl; lia|exact D3]]]. split; simpl.
  - replace (handle_tasks s2) with (handle_tasks s1) by (unfold handle_tasks; by rewrite D2). done.
  - lia.
  - lia.
  - intros u Hu. apply D4, (Hsc u). unfold handle_tasks in *. rewrite D2 in Hu. rewrite Hperm. by right.
  - done.
Qed.

Lemma push_loop_inv l sub max_queue :
  loop_inv kMaxParallel l -> enabled kMaxParallel l (Push_ sub max_queue) ->
  exists l', perform l (Push_ sub max_queue) = Done l' /\ loop_inv kMaxParallel l'.
Proof.
  intros [Hj Hr Hb Hsc Hpc] [Hp Hok]. simpl. unfold run.
  destruct (PushSubmission_spec _ _ sub max_queue Hj Hok) as [[-> _]|(_ & s' & -> & [A1 A2 A3 A4 A5 A6 _ _ _])].
  - eexists. split; [done|]. split; simpl; try done; rewrite ?Z.add_0_r; done.
  - eexists. split; [done|].
    assert (Ht : handle_tasks s' = handle_tasks (lp_judge l)) by (unfold handle_tasks; by rewrite A2).
    split; simpl; rewrite ?Z.add_0_r.
    + by rewrite Ht.
    + by rewrite A2.
    + done.
    + intros t. rewrite Ht. intros Hin. apply A3; auto.
    + done.
Qed.

Lemma wake_running l : loop_inv kMaxParallel l -> enabled kMaxParallel l Wake -> lp_running l = 0.
Proof. intros [A1 A2 A3 A4 A5] [E _]. by rewrite E in A5. Qed.

Lemma wait_running l : loop_inv kMaxParallel l -> enabled kMaxParallel l StartWait -> 0 < lp_running l.
Proof.
  intros [A1 A2 A3 A4 A5] (_ & Hn & Hd). destruct (decide (lp_running l = 0)) as [E0|]; [|lia].
  exfalso. apply Hn. split; [done|].
  destruct (task_queue (graph (lp_judge l))) eqn:Eq; [done|].
  exfalso. apply Hd. split; [lia|]. by rewrite Eq.
Qed.

Lemma step_safe l a : loop_inv kMaxParallel l -> enabled kMaxParallel l a ->
  match perform l a with Done l' => loop_inv kMaxParallel l' | Crash f => allowed f end.
Proof.
  intros Hl He. destruct a.
  - by destruct (push_loop_inv l sub max_queue Hl He) as (l' & -> & ?).
  - pose proof (wake_running l Hl He) as Hr. destruct Hl as [A1 A2 A3 A4 A5].
    split; simpl; try done; lia.
  - destruct Hl as [A1 A2 A3 A4 A5]. destruct He as (_ & E0 & _). by split.
  - pose proof (wait_running l Hl He) as Hr. destruct Hl as [A1 A2 A3 A4 A5]. by split.
  - pose proof (dispatch_inv l env t handle Hl He) as Hd.
    destruct (perform l (Dispatch env t handle)); [apply Hd|done].
  - pose proof (finish_inv l env handle res Hl He) as Hd.
    destruct (perform l (Finish env handle res)); [apply Hd|done].
Qed.

Lemma reachable_inv l : reachable kMaxParallel l -> loop_inv kMaxParallel l.
Proof.
  intros Hr. induction Hr as [|l a l' _ IH He Hp]; [apply initial_inv|].
  pose proof (step_safe l a IH He) as Hs. by rewrite Hp in Hs.
Qed.

(** ** Rest *)

Lemma no_tasks_rest l : loop_inv kMaxParallel l -> task_list (graph (lp_judge l)) = ∅ ->
  submission_list (lp_judge l) = ∅ /\ handle_map (lp_judge l) = ∅.
Proof.
  intros [A1 A2 A3 A4 A5] He. split.
  - apply map_empty. intros key. apply eq_None_not_Some. intros [sr Hsr].
    pose proof (ss_graph _ _ _ (ji_sub _ _ A1 _ _ Hsr)) as [_ _ _ (t & e & Ht & _)].
    by rewrite He, lookup_empty in Ht.
  - apply map_empty. intros h. apply eq_None_not_Some. intros [t Ht].
    destruct (running_entry _ _ t A1) as (e & Hl & _); [|by rewrite He, lookup_empty in Hl].
    apply elem_of_app. right. apply list_elem_of_fmap. exists (h, t). split; [done|].
    by apply elem_of_map_to_list.
Qed.

Lemma nothing_ready l : loop_inv kMaxParallel l -> task_queue (graph (lp_judge l)) = [] ->
  lp_running l = 0 -> task_list (graph (lp_judge l)) = ∅.
Proof using Type.
  clear Hpar.
  intros [A1 A2 A3 A4 A5] Hq Hr.
  destruct (decide (task_list (graph (lp_judge l)) = ∅)) as [|Hne]; [done|exfalso].
  destruct (graph_progress _ (ji_graph _ _ A1) Hne) as (t & e & Ht & Hz).
  assert (Hin : t ∈ task_queue (graph (lp_judge l)) ++ handle_tasks (lp_judge l))
    by (apply (ro_ready _ _ (ji_ready _ _ A1)); eauto).
  rewrite Hq in Hin. simpl in Hin.
  assert (Hz0 : size (handle_map (lp_judge l)) = 0%nat) by lia.
  apply map_size_empty_inv in Hz0. unfold handle_tasks in Hin. rewrite Hz0, map_to_list_empty in Hin.
  by apply elem_of_nil in Hin.
Qed.

(** ** The work left *)

Definition pc_work (l : Loop) : Z :=
  match lp_pc l with
  | Idle => if bool_decide (task_queue (graph (lp_judge l)) = []) then 0 else 3
  | Busy => 2
  | Waiting => 1
  end.

Definition work (l : Loop) : Z :=
  3 * (2 * Z.of_nat (size (task_list (graph (lp_judge l)))) - lp_running l) + pc_work l.


Lemma work_nonneg l : loop_inv kMaxParallel l -> 0 <= work l.
Proof using Type.
  clear Hpar.
  intros [A1 A2 A3 A4 A5]. unfold work.
  assert (0 <= pc_work l) by (unfold pc_work; destruct (lp_pc l); try lia; case_match; lia).
  assert (Z.of_nat (size (handle_map (lp_judge l))) <=
    Z.of_nat (size (task_list (graph (lp_judge l))))); [|lia].
  apply Nat2Z.inj_le. rewrite <- (length_map_to_list (handle_map (lp_judge l))).
  rewrite <- (length_fmap snd), <- (size_dom (task_list _)).
  change ((map_to_list (handle_map (lp_judge l))).*2) with (handle_tasks (lp_judge l)).
  pose proof (ro_nodup _ _ (ji_ready _ _ A1)) as Hnd. apply NoDup_app in Hnd as (_ & _ & Hnd).
  rewrite <- (size_list_to_set (C := gset Z) _ Hnd). apply subseteq_size.
  intros t Ht. apply elem_of_list_to_set in Ht. apply elem_of_dom.
  destruct (running_entry _ _ t A1) as (e & Hl & _); [set_solver|]. by eexists.
Qed.

Lemma run_pc {A} (m : M A) l f p l' : run m l f p = Done l' -> lp_pc l' = p.
Proof. unfold run. destruct (m (lp_judge l)) as [[]|]; [|done]. by intros [= <-]. Qed.

Lemma step_work l a l' : loop_inv kMaxParallel l -> enabled kMaxParallel l a -> perform l a = Done l' ->
  is_push a = false -> work l' < work l.
Proof.
  intros Hl He Hp Hn. destruct a; try done; unfold work, pc_work.
  - pose proof (wake_running l Hl He) as Hr. destruct He as [E Hq]. injection Hp as <-. simpl.
    rewrite E, bool_decide_false by done. lia.
  - destruct He as (E & E0 & Hq). injection Hp as <-. simpl. rewrite E, Hq, bool_decide_true by done. lia.
  - destruct He as (E & _). injection Hp as <-. simpl. rewrite E. lia.
  - pose proof (dispatch_inv l env t handle Hl He) as Hd. rewrite Hp in Hd.
    destruct He as (E & _). rewrite E. destruct Hd as (_ & _ & Hd).
    assert (E' : lp_pc l' = Busy) by (exact (run_pc _ _ _ _ _ Hp)).
    rewrite E'. destruct Hd as [(e & _ & -> & -> & _)|(-> & -> & _)]; lia.
  - pose proof (finish_inv l env handle res Hl He) as Hd. rewrite Hp in Hd.
    destruct He as (E & _). rewrite E. destruct Hd as (_ & _ & -> & ->).
    assert (E' : lp_pc l' = Busy) by (exact (run_pc _ _ _ _ _ Hp)).
    rewrite E'. lia.
Qed.
End Loop.
