(* ===== verification/Scenario.v ===== *)
(** * Concrete runs of the work loop

    A checker for the steps of the transition system, and one configuration,
    file system and submission on which the theorems about the loop are
    instantiated. *)

From S2P Require Import Prelude Enums Text Paths CNum Scores Data TaskGraph State Specjudge Push Handlers WorkLoop.
From Stdlib Require Import SpecFloat.

(** ** Executable steps *)

Definition push_okb (s : Judge) (sub : Submission) : bool :=
  bool_decide (is_int (submission_internal_id sub)) &&
  bool_decide (submission_list s !! submission_internal_id sub = None) &&
  forallb (fun j => (0 <=? j) && (j <? Z.min (Z.max 1 (stages sub)) 32)) (elements (problem_prog_stages sub)) &&
  forallb (fun item => forallb (fun g => (0 <=? g) && (g <? Z.of_nat (length (group_score sub))))
                         (td_groups item)) (testdata sub).

Lemma push_okb_ok s sub : push_okb s sub = true -> push_ok s sub.
Proof.
  unfold push_okb. rewrite !andb_true_iff, !bool_decide_eq_true, !forallb_forall.
  intros (((H1 & H2) & H3) & H4). split; [done|done| |].
  - intros j Hj. assert (Hin : j ∈ elements (problem_prog_stages sub)) by set_solver.
    apply list_elem_of_In, H3 in Hin. lia.
  - intros item g Hi Hg. specialize (H4 item). rewrite <- list_elem_of_In, forallb_forall in H4.
    specialize (H4 Hi g). rewrite <- list_elem_of_In in H4. specialize (H4 Hg). lia.
Qed.

Definition is_topb (g : TaskGraph) (t : Z) : bool :=
  bool_decide (t ∈ task_queue g) &&
  forallb (fun u => negb (PriorityCompare (task_list g) t u)) (task_queue g).

Lemma is_topb_ok g t : is_topb g t = true -> is_top g t.
Proof.
  unfold is_topb. rewrite andb_true_iff, bool_decide_eq_true, forallb_forall. intros [H1 H2].
  split; [done|]. intros u Hu%list_elem_of_In. by apply negb_true_iff, H2.
Qed.

Definition queue_empty (l : Loop) : bool := bool_decide (task_queue (graph (lp_judge l)) = []).

Definition enabledb (kMaxParallel : Z) (l : Loop) (a : action) : bool :=
  match a with
  | Push_ sub max_queue => negb (bool_decide (lp_pc l = Busy)) && push_okb (lp_judge l) sub
  | Wake => bool_decide (lp_pc l = Idle) && negb (queue_empty l)
  | Sleep => bool_decide (lp_pc l = Busy) && (lp_running l =? 0) && queue_empty l
  | StartWait =>
      bool_decide (lp_pc l = Busy) && negb ((lp_running l =? 0) && queue_empty l) &&
      negb ((lp_running l <? kMaxParallel) && negb (queue_empty l))
  | Dispatch _ t handle =>
      bool_decide (lp_pc l = Busy) && (lp_running l <? kMaxParallel) && negb (queue_empty l) &&
      is_topb (graph (lp_judge l)) t && bool_decide (handle_map (lp_judge l) !! handle = None)
  | Finish _ handle _ =>
      bool_decide (lp_pc l = Waiting) && negb (bool_decide (handle_map (lp_judge l) !! handle = None))
  end.

Lemma queue_empty_false l : queue_empty l = false <-> task_queue (graph (lp_judge l)) <> [].
Proof. apply bool_decide_eq_false. Qed.

Lemma queue_empty_true l : queue_empty l = true <-> task_queue (graph (lp_judge l)) = [].
Proof. apply bool_decide_eq_true. Qed.

Lemma enabledb_ok kMaxParallel l a : enabledb kMaxParallel l a = true -> enabled kMaxParallel l a.
Proof.
  destruct a; simpl; unfold can_dispatch;
    rewrite ?andb_true_iff, ?negb_true_iff, ?andb_false_iff, ?negb_false_iff, ?bool_decide_eq_true,
      ?bool_decide_eq_false, ?queue_empty_false, ?queue_empty_true, ?Z.eqb_eq, ?Z.eqb_neq,
      ?Z.ltb_lt, ?Z.ltb_ge.
  - intros [Hp Ho%push_okb_ok]. split; [|done]. destruct (lp_pc l); [by left|done|by right].
  - done.
  - naive_solver.
  - intros ((Hp & Hn) & Hd). split_and!; [done| |].
    + intros [? ?]. naive_solver.
    + intros [? ?]. destruct Hd as [?|?]; [lia|done].
  - intros ((((Hp & Hr) & Hq) & Ht%is_topb_ok) & Hh). done.
  - intros [Hp Hh]. split; [done|]. by apply not_eq_None_Some.
Qed.

Section Run.
Context `{PathRoots} `{Config} `{JsonText} (kMaxParallel : Z).

(** Performing a list of actions, each of which has to be enabled. *)
Fixpoint run_actions (acts : list action) (l : Loop) : option Loop :=
  match acts with
  | [] => Some l
  | a :: acts' =>
      if enabledb kMaxParallel l a then
        match perform l a with Done l' => run_actions acts' l' | Crash _ => None end
      else None
  end.

Lemma run_actions_reachable acts l l' :
  reachable kMaxParallel l -> run_actions acts l = Some l' -> reachable kMaxParallel l'.
Proof.
  revert l. induction acts as [|a acts IH]; intros l Hl; simpl; [by intros [= <-]|].
  destruct (enabledb kMaxParallel l a) eqn:Ee; [|done].
  destruct (perform l a) as [l1|] eqn:Ep; [|done]. apply IH.
  eapply reach_step; [done|by apply enabledb_ok|done].
Qed.

(** The state after the actions; the initial one if some are not enabled. *)
Definition after (acts : list action) : Loop := default initial (run_actions acts initial).

Lemma after_reachable acts : reachable kMaxParallel (after acts).
Proof.
  unfold after. destruct (run_actions acts initial) eqn:E; simpl.
  - eapply run_actions_reachable; [apply reach_initial|done].
  - apply reach_initial.
Qed.
End Run.

(** ** A configuration and a submission *)

Definition sample_roots : PathRoots := {|
  kBoxRoot := "/tmp/tioj_box"; kSubmissionRoot := "/tmp/tioj_submissions";
  kDataDir := "/var/lib/tioj-judge"; kTestdataRoot := "/var/lib/tioj-judge";
|}.

Definition sample_config : Config := {| kMaxOutput := 1048576; kTimeMultiplier := dbl_of_Z 1 |}.

(** Every text is the same accepting document. *)
Definition sample_json : JsonText := {|
  json_parse := fun _ => Some (JObj [("verdict", JStr "AC"); ("score", JStr "100")]);
  json_dump := fun _ => "{}";
|}.

(** Every file is there, and has 100 bytes. *)
Definition sample_env : Env := {|
  env_is_regular := fun _ => true; env_exists := fun _ => true; env_file_size := fun _ => Some 100;
  env_read := fun _ => Some "0"; env_header_files := [];
|}.

Definition sample_item (groups : list Z) : TestdataItem := {|
  input_file := "/td/in"; answer_file := "/td/ans"; lim_vss := 0; lim_rss := 0; lim_output := 65536;
  lim_time := 1000000; ignore_verdict := false; td_groups := groups;
|}.

Definition sample_reporter : Reporter := {|
  ReportStartCompiling := true; ReportOverallResult := true; ReportScoringResult := true;
  ReportCEMessage := true; ReportJCEMessage := true; ReportFinalized := true;
|}.

Definition sample_submission (id sid : Z) (items : list TestdataItem) (ty : SpecjudgeType) (skip : bool)
    : Submission := {|
  submission_internal_id := id; submission_id := sid; contest_id := 0; priority := 0;
  submission_time := 0; submitter_id := 1; submitter_name := "a"; submitter_nickname := "b";
  lang := GCC_CPP_17; problem_id := 1; specjudge_type := ty; interlib_type := INTERLIB_NONE;
  summary_type := SUMMARY_NONE; specjudge_lang := GCC_CPP_17; summary_lang := GCC_CPP_17;
  problem_prog_lang := GCC_CPP_17; user_compile_args := ""; specjudge_compile_args := "";
  problem_prog_compile_args := ""; stages := 1; problem_prog_stages := ∅;
  judge_between_stages := false; judge_abnormally_terminated := false;
  specjudge_re_as_wa := true; sandbox_strict := false; process_limit := 1;
  default_scoring_args := []; testdata := items; group_score := [100000000]; skip_group := skip;
  reporter := sample_reporter; report_intermediate_stage := false; remove_submission := true;
|}.

Definition sample_sub (id sid : Z) (items : list TestdataItem) (ty : SpecjudgeType) : Submission :=
  sample_submission id sid items ty false.

Definition exited_ok : cjail_result := {|
  timekill := 0; oomkill := 0; si_code := CLD_EXITED; si_status := 0; hiwater_vm := 1000;
  ru_maxrss := 800; ru_utime := {| tv_sec := 0; tv_usec := 5000 |}; ru_stime := zero_timeval;
  real_time := {| tv_sec := 0; tv_usec := 6000 |};
|}.

(** A single submission (internal id 7) with two test data in group 0 and the
    result [r]. *)
Definition sample_record (ty : SpecjudgeType) (skip : bool) (r : SubmissionResult) : SubmissionAndResult :=
  {| sr_sub := sample_submission 7 100 [sample_item [0]; sample_item [0]] ty skip; sr_result := r |}.

Definition sample_state (ty : SpecjudgeType) (skip : bool) (r : SubmissionResult) : Judge :=
  set_submission_list {[7 := sample_record ty skip r]} empty_Judge.

(** The result after both test data have been executed. *)
Definition both_executed : SubmissionResult :=
  set_td_results [empty_TestdataResult; empty_TestdataResult] empty_SubmissionResult.

#[local] Existing Instance sample_roots.
#[local] Existing Instance sample_config.
#[local] Existing Instance sample_json.

Definition sample : Submission := sample_sub 7 100 [sample_item [0]] SJ_NORMAL.

(** The submission pushed and the loop woken: only the compilation (task 3)
    is ready. *)
Definition start_actions : list action := [Push_ sample 0; Wake].

(** Compilation, execution and scoring run one after the other; the summary
    is finished at once. *)
Definition whole_run : list action := start_actions ++ [
  Dispatch sample_env 3 0; StartWait; Finish sample_env 0 exited_ok;
  Dispatch sample_env 1 0; StartWait; Finish sample_env 0 exited_ok;
  Dispatch sample_env 2 0; StartWait; Finish sample_env 0 exited_ok;
  Dispatch sample_env 0 0; Sleep].

Definition overall_results (s : Judge) : list (Z * Verdict * Z) :=
  omap (fun e => match e with
                 | EvOverallResult sub r => Some (submission_id sub, verdict r, total_score r)
                 | _ => None
                 end) (trace s).

Example whole_run_result :
  from_option (fun l => overall_results (lp_judge l)) [] (run_actions 4 whole_run initial)
  = [(100, AC, 100000000)].
Proof. vm_compute. reflexivity. Qed.
