(* ===== verification/LoopSpec.v ===== *)
(** * What the work loop guarantees

    The theorems about src/tioj/submission.cpp's scheduler as a whole:
    safety, the order of the tasks, progress, termination, and what pushing
    and finishing a submission mean. *)

From S2P Require Import Prelude Enums Text Paths CNum Scores Data TaskGraph TdOrder State Specjudge Push PushBuild PushRows PushGraph Handlers HandlerFacts WorkLoop LoopInv LoopSafe Scenario.

(** A sequence of [n] steps of the loop's own thread. *)
Inductive own_steps `{PathRoots} `{Config} `{JsonText} (kMaxParallel : Z) : nat -> Loop -> Loop -> Prop :=
| own_refl l : own_steps kMaxParallel 0 l l
| own_step n l a l' l'' : is_push a = false -> enabled kMaxParallel l a -> perform l a = Done l' ->
    own_steps kMaxParallel n l' l'' -> own_steps kMaxParallel (S n) l l''.

(** Nothing is left to do. *)
Definition at_rest (l : Loop) : Prop :=
  lp_pc l = Idle /\ lp_running l = 0 /\ task_list (graph (lp_judge l)) = ∅ /\
  submission_list (lp_judge l) = ∅ /\ handle_map (lp_judge l) = ∅.

(** The submissions whose overall result is still to be reported. *)
Definition reportable (cancelled : gset Z) (entry : Z * Submission) : option Submission :=
  if negb (bool_decide (entry.1 ∈ cancelled)) && ReportOverallResult (reporter entry.2)
  then Some entry.2 else None.

Definition pending_reports (s : Judge) : list Submission :=
  omap (reportable (cancelled_list s)) (map_to_list (sr_sub <$> submission_list s)).

Lemma quiet_pending s s' : quiet s s' -> pending_reports s' = pending_reports s.
Proof.
  intros [Q1 Q2 Q3]. unfold pending_reports. rewrite Q2.
  replace (sr_sub <$> submission_list s') with (sr_sub <$> submission_list s); [done|].
  apply map_eq. intros k. rewrite !lookup_fmap. symmetry. apply Q1.
Qed.

Lemma finished_pending s s' : finished s s' -> exists rs,
  overall_of (trace s') = overall_of (trace s) ++ rs /\
  pending_reports s ≡ₚ rs.*1 ++ pending_reports s'.
Proof.
  intros (key & sr & r & F1 & F2 & F3 & F4). exists (final_report s key (sr_sub sr) r).
  split; [done|]. unfold pending_reports.
  assert (Hd : sr_sub <$> submission_list s' = delete key (sr_sub <$> submission_list s)).
  { apply map_eq. intros k. rewrite lookup_delete, !lookup_fmap. etrans; [apply F2|].
    case_decide as E1; case_decide as E2; done || congruence. }
  assert (Hk : (sr_sub <$> submission_list s) !! key = Some (sr_sub sr)) by (by rewrite lookup_fmap, F1).
  rewrite Hd, F3. rewrite <- (map_to_list_delete _ _ _ Hk). simpl omap.
  assert (Hrest : omap (reportable (cancelled_list s ∖ {[key]})) (map_to_list (delete key (sr_sub <$> submission_list s)))
    = omap (reportable (cancelled_list s)) (map_to_list (delete key (sr_sub <$> submission_list s)))).
  { apply list_omap_ext, Forall_Forall2_diag, Forall_forall. intros [k x] Hin.
    apply elem_of_map_to_list, lookup_delete_Some in Hin as [Hne _].
    unfold reportable. simpl. by rewrite (bool_decide_ext _ (k ∈ cancelled_list s)) by set_solver. }
  rewrite Hrest. unfold reportable at 1, final_report. simpl.
  by destruct (negb _ && _).
Qed.

Section Spec.
Context `{PathRoots} `{Config} `{JsonText} (kMaxParallel : Z) (Hpar : 0 < kMaxParallel).

Lemma own_steps_inv n l l' : loop_inv kMaxParallel l -> own_steps kMaxParallel n l l' -> loop_inv kMaxParallel l'.
Proof using Hpar.
  intros Hl Hs. induction Hs as [l|n l a l1 l2 _ He Hp _ IH]; [done|].
  apply IH. pose proof (step_safe kMaxParallel Hpar l a Hl He) as Hx. by rewrite Hp in Hx.
Qed.

Lemma own_steps_work n l l' :
  loop_inv kMaxParallel l -> own_steps kMaxParallel n l l' -> Z.of_nat n <= work l.
Proof.
  intros Hl Hs. revert Hl. induction Hs as [l|n l a l' l'' Ha He Hp _ IH]; intros Hl.
  - pose proof (work_nonneg kMaxParallel l Hl). lia.
  - pose proof (step_work kMaxParallel Hpar l a l' Hl He Hp Ha).
    pose proof (step_safe kMaxParallel Hpar l a Hl He) as Hl'. rewrite Hp in Hl'.
    specialize (IH Hl'). lia.
Qed.

Lemma top_exists l : loop_inv kMaxParallel l -> task_queue (graph (lp_judge l)) <> [] ->
  exists t, is_top (graph (lp_judge l)) t.
Proof.
  intros Hl Hne. destruct (queue_top (graph (lp_judge l))) as [t|] eqn:E.
  - exists t. apply queue_top_spec; [|done]. intros u Hu.
    destruct (running_entry _ _ u (li_judge _ _ Hl)) as (e & He & _); [set_solver|]. by eexists.
  - unfold queue_top in E. by destruct (task_queue _).
Qed.

(** The loop's own thread can move, whatever the file system and the sandbox
    answer, unless it is at rest. *)
Ltac own_action a :=
  left; exists a; split; [done|split; [|split; intros; simplify_eq; done]].

Lemma waiting_finish env res l : loop_inv kMaxParallel l -> lp_pc l = Waiting ->
  exists h, enabled kMaxParallel l (Finish env h res).
Proof.
  intros Hl Ep. pose proof (li_pc _ _ Hl) as Hr. rewrite Ep, (li_running _ _ Hl) in Hr.
  destruct (map_choose (handle_map (lp_judge l))) as (h & t & Hh).
  { intros E. rewrite E, map_size_empty in Hr. lia. }
  exists h. split; [done|by eexists].
Qed.

Lemma own_progress env res l : loop_inv kMaxParallel l ->
  (exists a, is_push a = false /\ enabled kMaxParallel l a /\
     (forall e t h, a = Dispatch e t h -> e = env) /\
     (forall e h r, a = Finish e h r -> e = env /\ r = res)) \/ at_rest l.
Proof.
  intros Hl. destruct (lp_pc l) eqn:Ep.
  - destruct (decide (task_queue (graph (lp_judge l)) = [])) as [Hq|Hq]; [|by own_action Wake].
    right. pose proof (li_pc _ _ Hl) as Hr. rewrite Ep in Hr.
    pose proof (nothing_ready _ l Hl Hq Hr) as Ht. by destruct (no_tasks_rest _ l Hl Ht).
  - destruct (decide (task_queue (graph (lp_judge l)) = [])) as [Hq|Hq].
    + destruct (decide (lp_running l = 0)) as [Hr|Hr]; [by own_action Sleep|].
      own_action StartWait. split; [done|]. unfold can_dispatch. naive_solver.
    + destruct (decide (lp_running l < kMaxParallel)) as [Hr|Hr].
      * destruct (top_exists l Hl Hq) as [t Ht].
        own_action (Dispatch env t (fresh (dom (handle_map (lp_judge l))))).
        split; [done|]. split; [done|]. split; [done|]. apply not_elem_of_dom. apply is_fresh.
      * own_action StartWait. split; [done|]. unfold can_dispatch. naive_solver.
  - destruct (waiting_finish env res l Hl Ep) as [h Hh]. by own_action (Finish env h res).
Qed.

(** C1: in every reachable state, every step that can happen is carried out: no
    element of a vector is read or written outside of it, no absent map entry is
    used, no enumeration is out of range; the only ways out are an exception of
    the file system and the [length_error] of printing a negative score.  The
    number of running tasks is counted exactly and never exceeds the configured
    parallelism.

    What the claim leaves out: signed arithmetic wraps in the model, while
    overflow is undefined in C++; the reference [SetupExecute] binds to
    [td_results[subtask]] in stage 0 mostly refers to no element, which is
    undefined by the letter, and is not used ([first_reference_dangles]); a task
    is started with a handle that is not in use, that is, at most one running
    task is one that [RunTask] failed to start ([failed_runs_overwrite] shows
    what two of them lead to). *)
Theorem loop_safe l a : reachable kMaxParallel l -> enabled kMaxParallel l a ->
  match perform l a with
  | Done l' => 0 <= lp_running l' <= kMaxParallel /\
      lp_running l' = Z.of_nat (size (handle_map (lp_judge l')))
  | Crash f => f = FilesystemError \/ f = LengthError
  end.
Proof using Hpar.
  intros Hr He. pose proof (step_safe kMaxParallel Hpar l a (reachable_inv _ Hpar l Hr) He) as Hs.
  destruct (perform l a) as [l'|f]; [|done]. destruct Hs as [A1 A2 A3 A4 A5]. lia.
Qed.

(** C2: a task is dispatched only when no task of its submission it depends
    on (the compilations it uses, the earlier stages of its test data, for the
    summary every other task) is left in the task list, whether queued,
    waiting or running; and no queued task is before it in the order
    (priority, older submission first, td_order). *)
Theorem dispatch_order l env t handle :
  reachable kMaxParallel l -> enabled kMaxParallel l (Dispatch env t handle) ->
  exists e sr,
    task_list (graph (lp_judge l)) !! t = Some e /\
    submission_list (lp_judge l) !! te_submission_internal_id e = Some sr /\
    (forall t' e', task_list (graph (lp_judge l)) !! t' = Some e' ->
       te_submission_internal_id e' = te_submission_internal_id e ->
       ~ depends_on (sr_sub sr) (te_task e) (te_task e')) /\
    (forall u eu, u ∈ task_queue (graph (lp_judge l)) ->
       task_list (graph (lp_judge l)) !! u = Some eu -> task_lt e eu = false).
Proof using Hpar.
  intros Hr (_ & _ & (Hin & Hmax) & _). pose proof (reachable_inv _ Hpar l Hr) as Hl.
  pose proof (li_judge _ _ Hl) as Hj.
  destruct (running_entry _ _ t Hj) as (e & He & Hz); [set_solver|].
  destruct (ji_owner _ _ Hj t e He) as [sr Hsr]. exists e, sr. split_and!; try done.
  - intros t' e' He' Hid. eapply depends_gone; done.
  - intros u eu Hu Heu. specialize (Hmax u Hu). unfold PriorityCompare in Hmax. by rewrite He, Heu in Hmax.
Qed.

(** C6: the loop never gets stuck and forgets nothing.  In a reachable state
    its thread has a step, for any answer of the file system and the sandbox,
    or it waits for work and there is none: no task is queued or running and
    every submission has been finished. *)
Theorem loop_progress env res l : reachable kMaxParallel l ->
  (exists a, is_push a = false /\ enabled kMaxParallel l a /\
     (forall e t h, a = Dispatch e t h -> e = env) /\
     (forall e h r, a = Finish e h r -> e = env /\ r = res)) \/
  (lp_pc l = Idle /\ lp_running l = 0 /\ task_list (graph (lp_judge l)) = ∅ /\
   submission_list (lp_judge l) = ∅ /\ handle_map (lp_judge l) = ∅).
Proof using Hpar. intros Hr. by apply own_progress, reachable_inv. Qed.

(** C15: without new submissions the loop comes to rest: from a reachable
    state with [k] tasks no run of its thread has more than [6 k + 3] steps,
    and some run ends at rest or in one of the admitted exceptions. *)
Theorem loop_terminates env res l : reachable kMaxParallel l ->
  (forall n l', own_steps kMaxParallel n l l' ->
     (n <= 6 * size (task_list (graph (lp_judge l))) + 3)%nat) /\
  exists n l', own_steps kMaxParallel n l l' /\
    (at_rest l' \/ exists a f, is_push a = false /\ enabled kMaxParallel l' a /\
       (forall e t h, a = Dispatch e t h -> e = env) /\
       (forall e h r, a = Finish e h r -> e = env /\ r = res) /\
       perform l' a = Crash f /\ (f = FilesystemError \/ f = LengthError)).
Proof using Hpar.
  intros Hr. apply (reachable_inv _ Hpar) in Hr. split.
  - intros n l' Hs. pose proof (own_steps_work n l l' Hr Hs) as Hw. unfold work in Hw.
    assert (pc_work l <= 3) by (unfold pc_work; destruct (lp_pc l); try lia; case_match; lia).
    pose proof (li_running _ _ Hr). lia.
  - remember (Z.to_nat (work l)) as m eqn:Em. revert l Hr Em.
    induction (lt_wf m) as [m _ IH]. intros l Hl ->.
    destruct (own_progress env res l Hl) as [(a & Ha & He & Hd & Hf)|Hrest];
      [|exists 0%nat, l; split; [apply own_refl|by left]].
    pose proof (step_safe kMaxParallel Hpar l a Hl He) as Hs.
    destruct (perform l a) as [l1|f] eqn:Ep.
    + pose proof (step_work kMaxParallel Hpar l a l1 Hl He Ep Ha).
      pose proof (work_nonneg kMaxParallel l1 Hs).
      destruct (IH (Z.to_nat (work l1)) ltac:(lia) l1 Hs eq_refl) as (n & l' & Hn & Hend).
      exists (S n), l'. split; [by eapply own_step|done].
    + exists 0%nat, l. split; [apply own_refl|]. right. exists a, f. by split_and!.
Qed.
(** C16: pushing a submission fails exactly when the queue is limited and
    full, and then changes nothing.  Otherwise the submission is stored with
    an empty result and the number of stages clamped to 1..32, the tasks of
    other submissions are unchanged, the tasks of the new one are exactly the
    expected ones, each once, and whenever a task depends on another there is a
    path of edges that makes it wait.  If an earlier submission with the same
    submission id is recorded, it is cancelled. *)
Theorem push_complete l sub max_queue :
  reachable kMaxParallel l -> enabled kMaxParallel l (Push_ sub max_queue) ->
  let s := lp_judge l in
  let id := submission_internal_id sub in
  let stored := with_stages (Z.min (Z.max 1 (stages sub)) 32) sub in
  (0 < max_queue <= Z.of_nat (size (submission_list s)) ->
     PushSubmission sub max_queue s = Done (false, s)) /\
  (~ 0 < max_queue <= Z.of_nat (size (submission_list s)) ->
   exists s', PushSubmission sub max_queue s = Done (true, s') /\
     submission_list s' =
       <[id := {| sr_sub := stored; sr_result := empty_SubmissionResult |}]> (submission_list s) /\
     (forall t e, te_submission_internal_id e <> id ->
        task_list (graph s') !! t = Some e <-> task_list (graph s) !! t = Some e) /\
     (forall x, expected stored x <-> exists t e, task_list (graph s') !! t = Some e /\
        te_submission_internal_id e = id /\ te_task e = x) /\
     (forall t e t' e', task_list (graph s') !! t = Some e -> task_list (graph s') !! t' = Some e' ->
        te_submission_internal_id e = id -> te_submission_internal_id e' = id ->
        (te_task e = te_task e' -> t = t') /\
        (depends_on stored (te_task e') (te_task e) -> reach (task_list (graph s')) t t')) /\
     (forall old, submission_id_map s !! submission_id sub = Some old -> old ∈ cancelled_list s')).
Proof using Hpar.
  intros Hr [_ Hok]. cbv zeta. pose proof (li_judge _ _ (reachable_inv _ Hpar l Hr)) as Hj.
  destruct (PushSubmission_spec _ _ sub max_queue Hj Hok) as [[-> Hq]|(Hq & s' & -> & Ha)];
    (split; [done|]); [done|].
  intros _. exists s'. split; [done|]. split; [apply Ha|].
  destruct (ac_pushed _ _ _ _ Ha) as (st & Eg & Hp). rewrite Eg.
  pose proof (pu_sub _ _ _ _ _ Hp) as Hg.
  split_and!.
  - intros t e Hid. split; [|apply (pu_old _ _ _ _ _ Hp)].
    intros Ht. destruct (pu_new _ _ _ _ _ Hp t e Ht) as [?|[? _]]; done.
  - intros x. split; [apply (pu_complete _ _ _ _ _ Hp)|].
    intros (t & e & Ht & Hid & <-). by eapply (sg_expected _ _ _ Hg).
  - intros t e t' e' Ht Ht' Hid Hid'. split; [by eapply (sg_uniq _ _ _ Hg)|by eapply (sg_depends _ _ _ Hg)].
  - apply Ha.
Qed.
Lemma own_step_reports l a l' : loop_inv kMaxParallel l -> enabled kMaxParallel l a ->
  is_push a = false -> perform l a = Done l' -> exists rs,
  overall_of (trace (lp_judge l')) = overall_of (trace (lp_judge l)) ++ rs /\
  pending_reports (lp_judge l) ≡ₚ rs.*1 ++ pending_reports (lp_judge l').
Proof using Hpar.
  intros Hl He Ha Hp.
  assert (Hq : quiet (lp_judge l) (lp_judge l') \/ finished (lp_judge l) (lp_judge l')).
  { destruct a; try done; try (injection Hp as <-; by left).
    - pose proof (dispatch_inv kMaxParallel Hpar l env t handle Hl He) as Hd. rewrite Hp in Hd. apply Hd.
    - pose proof (finish_inv kMaxParallel Hpar l env handle res Hl He) as Hd. rewrite Hp in Hd. apply Hd. }
  destruct Hq as [Hq|Hf]; [|by apply finished_pending].
  exists []. rewrite (quiet_pending _ _ Hq), (qu_overall _ _ Hq), app_nil_r. done.
Qed.

Lemma own_steps_reports n l l' : loop_inv kMaxParallel l -> own_steps kMaxParallel n l l' -> exists rs,
  overall_of (trace (lp_judge l')) = overall_of (trace (lp_judge l)) ++ rs /\
  pending_reports (lp_judge l) ≡ₚ rs.*1 ++ pending_reports (lp_judge l').
Proof using Hpar.
  intros Hl Hs. revert Hl. induction Hs as [l|n l a l' l'' Ha He Hp _ IH]; intros Hl.
  { exists []. by rewrite app_nil_r. }
  pose proof (step_safe kMaxParallel Hpar l a Hl He) as Hl'. rewrite Hp in Hl'.
  destruct (own_step_reports l a l' Hl He Ha Hp) as (rs & Ho & Hr).
  destruct (IH Hl') as (rs' & Ho' & Hr'). exists (rs ++ rs'). split.
  - by rewrite Ho', Ho, (assoc_L (++)).
  - by rewrite fmap_app, <- (assoc_L (++)), <- Hr'.
Qed.

(** C3: when the loop has come to rest, it has reported an overall result
    exactly once for every submission that was in the list, was not cancelled
    and asks for the report, and for no other. *)
Theorem run_reports n l l' : reachable kMaxParallel l -> own_steps kMaxParallel n l l' ->
  task_list (graph (lp_judge l')) = ∅ -> exists rs,
  overall_of (trace (lp_judge l')) = overall_of (trace (lp_judge l)) ++ rs /\
  rs.*1 ≡ₚ pending_reports (lp_judge l).
Proof using Hpar.
  intros Hr Hs Ht. pose proof (reachable_inv _ Hpar l Hr) as Hl.
  destruct (own_steps_reports n l l' Hl Hs) as (rs & Ho & Hp). exists rs. split; [done|].
  pose proof (own_steps_inv n l l' Hl Hs) as Hl'.
  destruct (no_tasks_rest _ l' Hl' Ht) as [He _]. rewrite Hp.
  assert (pending_reports (lp_judge l') = []) as ->; [|by rewrite app_nil_r].
  unfold pending_reports. by rewrite He, fmap_empty, map_to_list_empty.
Qed.
End Spec.

(** ** A superseded submission whose result is reported

    [FinalizeSummary] erases [submission_id_map] by internal id although it
    is keyed by submission id.  Here submission 2 (internal id 1) is judged,
    the internal id 2 finishes, submission 2 is pushed again: the first run is
    no longer known and is not cancelled, so that both results are reported. *)

#[local] Existing Instance sample_roots.
#[local] Existing Instance sample_config.
#[local] Existing Instance sample_json.

Definition superseded_run : list action := [
  Push_ (sample_sub 1 2 [sample_item [0]] SJ_NORMAL) 0; Push_ (sample_sub 2 5 [] SJ_NORMAL) 0; Wake;
  Dispatch sample_env 3 0; Dispatch sample_env 5 1; StartWait; Finish sample_env 1 exited_ok;
  Dispatch sample_env 4 1; StartWait;
  Push_ (sample_sub 3 2 [sample_item [0]] SJ_NORMAL) 0; Finish sample_env 0 exited_ok;
  Dispatch sample_env 1 0; Dispatch sample_env 9 1; StartWait; Finish sample_env 0 exited_ok;
  Dispatch sample_env 2 0; StartWait; Finish sample_env 0 exited_ok; Dispatch sample_env 0 0;
  StartWait; Finish sample_env 1 exited_ok; Dispatch sample_env 7 0; StartWait;
  Finish sample_env 0 exited_ok; Dispatch sample_env 8 0; StartWait; Finish sample_env 0 exited_ok;
  Dispatch sample_env 6 0; Sleep].

(** The same without the submission that finishes in between. *)
Definition cancelled_run : list action := [
  Push_ (sample_sub 1 2 [sample_item [0]] SJ_NORMAL) 0; Wake; Dispatch sample_env 3 0; StartWait;
  Push_ (sample_sub 3 2 [sample_item [0]] SJ_NORMAL) 0; Finish sample_env 0 exited_ok;
  Dispatch sample_env 1 0; Dispatch sample_env 2 0; Dispatch sample_env 0 0;
  Dispatch sample_env 7 0; StartWait; Finish sample_env 0 exited_ok;
  Dispatch sample_env 5 0; StartWait; Finish sample_env 0 exited_ok;
  Dispatch sample_env 6 0; StartWait; Finish sample_env 0 exited_ok; Dispatch sample_env 4 0; Sleep].

(** Two complete runs in which submission 2 is pushed again while it is
    being judged.  Usually the first run is cancelled and one result is
    reported; but when a submission whose internal id is 2 has finished in
    between, the first run is not cancelled and both its result and that of the
    second run are reported. *)
Lemma superseded_result_reported :
  (exists l, run_actions 4 cancelled_run initial = Some l /\ at_rest l /\
     (overall_results (lp_judge l)).*1.*1 = [2]) /\
  (exists l, run_actions 4 superseded_run initial = Some l /\ at_rest l /\
     (overall_results (lp_judge l)).*1.*1 = [5; 2; 2]).
Proof. split; (eexists; split; [vm_compute; reflexivity|]; vm_compute; repeat split; reflexivity). Qed.

(** ** What is left out of [loop_safe] *)

Definition entry_of (l : Loop) (t : Z) : option (Z * Task) :=
  e ← task_list (graph (lp_judge l)) !! t; Some (te_submission_internal_id e, te_task e).

(** The first execution of a test data starts although the reference to its entry is
    one to no element. *)
Lemma first_reference_dangles : exists l l' sr,
  reachable 4 l /\ enabled 4 l (Dispatch sample_env 1 0) /\ perform l (Dispatch sample_env 1 0) = Done l' /\
  entry_of l 1 = Some (7, exec_task 0 0) /\ submission_list (lp_judge l) !! 7 = Some sr /\
  dangling (vec_ref (td_results (sr_result sr)) 0) = true.
Proof.
  set (acts := start_actions ++ [Dispatch sample_env 3 0; StartWait; Finish sample_env 0 exited_ok]).
  exists (after 4 acts), (after 4 (acts ++ [Dispatch sample_env 1 0])). eexists. split; [apply after_reachable|].
  split; [apply enabledb_ok; vm_compute; reflexivity|]. split_and!; vm_compute; reflexivity.
Qed.

(** Two executions that [RunTask] fails to start have the same handle: the first is
    lost, and after the second has been finished [WaitTask] finds no task. *)
Definition two_ready : Loop := after 4 [Push_ (sample_sub 7 100 [sample_item [0]; sample_item [0]] SJ_NORMAL) 0; Wake;
  Dispatch sample_env 5 0; StartWait; Finish sample_env 0 exited_ok].

Fixpoint perform_all (l : Loop) (acts : list action) : outcome Loop :=
  match acts with [] => Done l | a :: acts' => match perform l a with Done l' => perform_all l' acts' | r => r end end.

Lemma failed_runs_overwrite :
  (exists l, perform_all two_ready [Dispatch sample_env 1 (-1); Dispatch sample_env 3 (-1)] = Done l /\
     lp_running l = 2 /\ map_to_list (handle_map (lp_judge l)) = [(-1, 3)]) /\
  perform_all two_ready [Dispatch sample_env 1 (-1); Dispatch sample_env 3 (-1); StartWait;
    Finish sample_env (-1) zero_cjail_result; Finish sample_env (-1) zero_cjail_result] = Crash NoSuchKey.
Proof. split; [eexists; split_and!|]; vm_compute; reflexivity. Qed.

(** ** Witnesses *)

Lemma loop_safe_witness :
  match perform (after 4 start_actions) (Dispatch sample_env 3 0) with
  | Done l' => 0 <= lp_running l' <= 4 /\ lp_running l' = Z.of_nat (size (handle_map (lp_judge l')))
  | Crash f => f = FilesystemError \/ f = LengthError
  end.
Proof.
  apply (loop_safe 4); [lia|apply after_reachable|]. apply enabledb_ok. vm_compute. reflexivity.
Defined.

Lemma dispatch_order_witness : exists e sr,
  task_list (graph (lp_judge (after 4 start_actions))) !! 3 = Some e /\
  submission_list (lp_judge (after 4 start_actions)) !! te_submission_internal_id e = Some sr /\
  (forall t' e', task_list (graph (lp_judge (after 4 start_actions))) !! t' = Some e' ->
     te_submission_internal_id e' = te_submission_internal_id e ->
     ~ depends_on (sr_sub sr) (te_task e) (te_task e')) /\
  (forall u eu, u ∈ task_queue (graph (lp_judge (after 4 start_actions))) ->
     task_list (graph (lp_judge (after 4 start_actions))) !! u = Some eu -> task_lt e eu = false).
Proof.
  apply (dispatch_order 4 ltac:(lia) _ sample_env 3 0); [apply after_reachable|].
  apply enabledb_ok. vm_compute. reflexivity.
Defined.

Lemma loop_progress_witness : exists a,
  is_push a = false /\ enabled 4 (after 4 start_actions) a.
Proof.
  destruct (loop_progress 4 ltac:(lia) sample_env exited_ok (after 4 start_actions)) as
    [(a & Ha & He & _)|(Hp & _)]; [apply after_reachable|by exists a|].
  exfalso. vm_compute in Hp. discriminate.
Defined.

Lemma loop_terminates_witness : exists n l',
  own_steps 4 n (after 4 start_actions) l' /\ (n <= 27)%nat.
Proof.
  destruct (loop_terminates 4 ltac:(lia) sample_env exited_ok (after 4 start_actions)) as
    [Hb (n & l' & Hs & _)]; [apply after_reachable|].
  exists n, l'. split; [exact Hs|]. specialize (Hb n l' Hs). vm_compute in Hb. exact Hb.
Defined.

Lemma push_complete_witness : exists s',
  PushSubmission sample 5 (lp_judge (after 4 [])) = Done (true, s') /\
  exists t e, task_list (graph s') !! t = Some e /\ te_task e = exec_task 0 0.
Proof.
  destruct (push_complete 4 ltac:(lia) (after 4 []) sample 5) as [_ Hp];
    [apply after_reachable|apply enabledb_ok; vm_compute; reflexivity|].
  destruct Hp as (s' & Hs & _ & _ & Hx & _); [vm_compute; intros [_ Hn]; by apply Hn|].
  exists s'. split; [exact Hs|]. destruct (proj1 (Hx (exec_task 0 0))) as (t & e & Ht & _ & He);
    [vm_compute; repeat split; discriminate|]. by exists t, e.
Defined.

Lemma run_actions_own_steps acts l l' :
  forallb (fun a => negb (is_push a)) acts = true -> run_actions 4 acts l = Some l' ->
  own_steps 4 (length acts) l l'.
Proof.
  revert l. induction acts as [|a acts IH]; intros l; simpl; [intros _ [= <-]; apply own_refl|].
  intros [Ha Hs]%andb_true_iff. destruct (enabledb 4 l a) eqn:Ee; [|done].
  destruct (perform l a) as [l1|] eqn:Ep; [|done]. intros Hr.
  eapply own_step; [by apply negb_true_iff|by apply enabledb_ok|done|by apply IH].
Qed.

(** The submission of [whole_run] is the one that is reported. *)
Lemma run_reports_witness : exists rs,
  overall_of (trace (lp_judge (after 4 whole_run))) =
    overall_of (trace (lp_judge (after 4 start_actions))) ++ rs /\ rs.*1 ≡ₚ [sample].
Proof.
  apply (run_reports 4 ltac:(lia) (length (drop 2 whole_run)) (after 4 start_actions) (after 4 whole_run)).
  - apply after_reachable.
  - apply run_actions_own_steps; vm_compute; reflexivity.
  - vm_compute. reflexivity.
Defined.
