(* ===== verification/ExecuteSpec.v ===== *)
(** * What compiling and executing guarantee

    The theorems about SetupCompile, FinalizeCompile, SetupExecute and
    FinalizeExecute of src/tioj/submission.cpp. *)

From S2P Require Import Prelude Enums Text Paths CNum Scores Data State Specjudge PushGraph Handlers HandlerFacts WorkLoop Scenario.
From Stdlib Require Import SpecFloat.

(** ** The verdict of an execution *)

(** The program was ended by a signal. *)
Definition signalled (res : cjail_result) : Prop := si_code res = CLD_KILLED \/ si_code res = CLD_DUMPED.

Definition within_memory (lim : TestdataItem) (td : TestdataResult) : Prop :=
  (lim_vss lim = 0 \/ td_vss td <= lim_vss lim) /\ (lim_rss lim = 0 \/ td_rss td <= lim_rss lim).

Lemma over_memory_spec lim td : over_memory lim td = false <-> within_memory lim td.
Proof.
  unfold over_memory, within_memory.
  rewrite orb_false_iff, !andb_false_iff, !negb_false_iff, !Z.eqb_eq, !Z.ltb_ge. done.
Qed.

Lemma signalled_spec res :
  (si_code res =? CLD_KILLED) || (si_code res =? CLD_DUMPED) = true <-> signalled res.
Proof. by rewrite orb_true_iff, !Z.eqb_eq. Qed.

Lemma signalled_dec res : {signalled res} + {~ signalled res}.
Proof. unfold signalled. destruct (decide (si_code res = CLD_KILLED)), (decide (si_code res = CLD_DUMPED)); tauto. Qed.

(** The signals of a program that writes too much. *)
Definition output_signal (strict : bool) (res : cjail_result) : bool :=
  (si_status res =? SIGXFSZ) || (strict && (si_status res =? SIGPIPE)).

Lemma output_signal_spec strict res : output_signal strict res = true <->
  si_status res = SIGXFSZ \/ (strict = true /\ si_status res = SIGPIPE).
Proof. unfold output_signal. by rewrite orb_true_iff, andb_true_iff, !Z.eqb_eq. Qed.

Ltac verdict_case :=
  cbn [negb];
  repeat match goal with |- _ /\ _ => split end;
  first [ reflexivity
        | split; intros; first [discriminate | reflexivity | tauto]
        | intros; first [discriminate | tauto] ].

(** C22: an execution passes (NUL) exactly when the sandbox worked, nothing
    was killed, the program exited with status 0 and stayed within the memory
    and time limits that are set; every other verdict has its cause, the
    sandbox's own failure taking precedence, then the memory cgroup, then the
    time limit, then the output limit. *)
Theorem execute_verdict_spec strict lim res td :
  let v := execute_verdict strict lim res td in
  (v = NUL <-> timekill res = 0 /\ oomkill res <= 0 /\ ~ signalled res /\ si_status res = 0 /\
     within_memory lim td /\ td_time td <= lim_time lim) /\
  (v = EE <-> timekill res = -1) /\
  (v = MLE <-> timekill res <> -1 /\ (0 < oomkill res \/
     (timekill res = 0 /\ ~ within_memory lim td /\
      ~ (signalled res /\ (si_status res = SIGXFSZ \/ (strict = true /\ si_status res = SIGPIPE)))))) /\
  (v = OLE <-> timekill res = 0 /\ oomkill res <= 0 /\ signalled res /\
     (si_status res = SIGXFSZ \/ (strict = true /\ si_status res = SIGPIPE))) /\
  (v = SIG -> signalled res /\ within_memory lim td) /\
  (v = RE -> ~ signalled res /\ si_status res <> 0 /\ within_memory lim td) /\
  (v = TLE -> timekill res <> 0 \/ lim_time lim < td_time td) /\
  verdict_lt v CE = true.
Proof.
  unfold execute_verdict.
  assert (Hneg : timekill res = -1 -> timekill res <> 0) by lia.
  assert (Hle : oomkill res <= 0 <-> ~ 0 < oomkill res) by lia.
  assert (Htm : lim_time lim < td_time td <-> ~ td_time td <= lim_time lim) by lia.
  destruct (Z.eqb_spec (timekill res) (-1)) as [Et|Et]; [verdict_case|].
  destruct (Z.ltb_spec 0 (oomkill res)) as [Eo|Eo]; [verdict_case|].
  destruct (Z.eqb_spec (timekill res) 0) as [Ek|Ek]; [|verdict_case].
  destruct (signalled_dec res) as [Hs|Hs]; [rewrite (proj2 (signalled_spec res) Hs)|].
  - destruct (output_signal strict res) eqn:E2; unfold output_signal in E2; rewrite E2; simpl.
    + apply output_signal_spec in E2. verdict_case.
    + rewrite <- not_true_iff_false in E2. fold (output_signal strict res) in E2.
      rewrite output_signal_spec in E2.
      destruct (over_memory lim td) eqn:Em; [apply not_false_iff_true in Em|]; rewrite over_memory_spec in Em;
        verdict_case.
  - rewrite <- signalled_spec, not_true_iff_false in Hs. rewrite Hs.
    rewrite <- not_true_iff_false, signalled_spec in Hs.
    destruct (over_memory lim td) eqn:Em; [apply not_false_iff_true in Em|]; rewrite over_memory_spec in Em;
      [verdict_case|].
    destruct (Z.eqb_spec (si_status res) 0); [|verdict_case].
    destruct (Z.ltb_spec (lim_time lim) (td_time td)); [verdict_case|].
    verdict_case.
Qed.

(** ** The effect of an execution *)

Section Execute.
Context `{PathRoots} `{Config} `{JsonText} (env : Env).

Lemma grow_lookup n r i : td_results (grow_td_results n r) !! i =
  if decide (i < Nat.max n (length (td_results r)))%nat
  then Some (default empty_TestdataResult (td_results r !! i)) else None.
Proof.
  unfold grow_td_results. destruct (Nat.ltb_spec (length (td_results r)) n) as [Hn|Hn]; simpl.
  - case_decide as Hi.
    + destruct (decide (i < length (td_results r))%nat) as [Hl|Hl].
      * rewrite lookup_app_l by done. by destruct (lookup_lt_is_Some_2 _ _ Hl) as [x ->].
      * rewrite lookup_app_r by lia. rewrite lookup_replicate_2 by lia.
        by rewrite lookup_ge_None_2 by lia.
    + apply lookup_ge_None_2. rewrite length_app, length_replicate. lia.
  - case_decide as Hi; [|apply lookup_ge_None_2; lia].
    by destruct (lookup_lt_is_Some_2 (td_results r) i) as [x ->]; [lia|].
Qed.

Lemma execute_verdict_set strict lim res v td :
  execute_verdict strict lim res (set_td_verdict v td) = execute_verdict strict lim res td.
Proof. reflexivity. Qed.

Lemma executed_td_fields strict lim stage res td0 :
  let td := executed_td strict lim stage res td0 in
  let time := to_long (us (ru_utime res) + us (ru_stime res)) in
  execute_result td = res /\ td_verdict td = execute_verdict strict lim res td /\
  message_type td = message_type td0 /\ message td = message td0 /\ skip_stage td = skip_stage td0 /\
  (stage = 0 -> td_vss td = hiwater_vm res /\ td_rss td = ru_maxrss res /\ td_time td = time /\
     td_score td = 0) /\
  (stage <> 0 -> td_vss td = Z.max (td_vss td0) (hiwater_vm res) /\
     td_rss td = Z.max (td_rss td0) (ru_maxrss res) /\ td_time td = to_long (td_time td0 + time) /\
     td_score td = td_score td0).
Proof.
  cbv zeta. unfold executed_td. rewrite execute_verdict_set. unfold record_usage. cbv zeta.
  generalize (to_long (us (ru_utime res) + us (ru_stime res))). intros time.
  destruct (Z.eqb_spec stage 0) as [E|E]; (split_and!; try done; intros E'; try contradiction;
    by split_and!).
Qed.

(** C28: finishing an execution changes one entry of the results and nothing
    else of the judge's state: the vector is extended with empty entries as far
    as needed; the entry gets the sandbox's result, the usage (set by stage 0,
    accumulated later) and the verdict; the output becomes the final output of
    the stage (an empty file when it is missing or not regular), the tmpfs is
    unmounted and the box and that of the stage before are removed. *)
Theorem FinalizeExecute_effect s key sr task res :
  submission_list s !! key = Some sr ->
  0 <= tk_subtask task < Z.of_nat (length (testdata (sr_sub sr))) ->
  let sub := sr_sub sr in
  let i := Z.to_nat (tk_subtask task) in
  let old := td_results (sr_result sr) in
  exists lim tds, testdata sub !! i = Some lim /\
  FinalizeExecute env key task res s = Done (tt, add_events (execute_events env sub task)
    (set_submission_list (<[key := with_result sr (set_td_results tds (sr_result sr))]> (submission_list s)) s)) /\
  length tds = Nat.max (S i) (length old) /\
  (forall j, j <> i -> (j < length tds)%nat -> tds !! j = Some (default empty_TestdataResult (old !! j))) /\
  exists td, tds !! i = Some td /\ let td0 := default empty_TestdataResult (old !! i) in
    let time := to_long (us (ru_utime res) + us (ru_stime res)) in
    execute_result td = res /\ td_verdict td = execute_verdict (sandbox_strict sub) lim res td /\
    message_type td = message_type td0 /\ message td = message td0 /\ skip_stage td = skip_stage td0 /\
    (tk_stage task = 0 -> td_vss td = hiwater_vm res /\ td_rss td = ru_maxrss res /\ td_time td = time /\
       td_score td = 0) /\
    (tk_stage task <> 0 -> td_vss td = Z.max (td_vss td0) (hiwater_vm res) /\
       td_rss td = Z.max (td_rss td0) (ru_maxrss res) /\ td_time td = to_long (td_time td0 + time) /\
       td_score td = td_score td0).
Proof.
  intros Hsr Hi. cbv zeta. set (i := Z.to_nat (tk_subtask task)).
  destruct (FinalizeExecute_run env key s sr task res Hsr Hi) as (lim & Hlim & Hrun).
  set (r := grow_td_results (Z.to_nat (tk_subtask task + 1)) (sr_result sr)) in *.
  set (f := executed_td (sandbox_strict (sr_sub sr)) lim (tk_stage task) res) in *.
  assert (Hn : Z.to_nat (tk_subtask task + 1) = S i) by (unfold i; lia).
  exists lim, (alter f i (td_results r)). split; [done|]. split_and!.
  - rewrite Hrun. do 4 f_equal. unfold update_td, r, grow_td_results, set_td_results. by case_match.
  - rewrite length_alter. unfold r. rewrite Hn. unfold grow_td_results.
    destruct (Nat.ltb_spec (length (td_results (sr_result sr))) (S i)); [|lia].
    simpl. rewrite length_app, length_replicate. lia.
  - intros j Hj Hl. rewrite length_alter in Hl. rewrite list_lookup_alter_ne by done.
    apply lookup_lt_is_Some_2 in Hl as [x Hx]. rewrite Hx. unfold r in Hx. rewrite grow_lookup in Hx.
    by case_decide.
  - exists (f (default empty_TestdataResult (td_results (sr_result sr) !! i))). split.
    { rewrite list_lookup_alter. unfold r. rewrite grow_lookup, Hn. rewrite decide_True by done.
      case_decide as Hd; [done|]. by destruct Hd; lia. }
    apply executed_td_fields.
Qed.

(** The stages of a test data, one after the other. *)
Fixpoint execute_stages (strict : bool) (lim : TestdataItem) (stage : Z) (runs : list cjail_result)
    (td : TestdataResult) : TestdataResult :=
  match runs with
  | [] => td
  | res :: runs' => execute_stages strict lim (stage + 1) runs' (executed_td strict lim stage res td)
  end.

Definition cpu_time (res : cjail_result) : Z := us (ru_utime res) + us (ru_stime res).
Definition max_list (l : list Z) (d : Z) : Z := foldl Z.max d l.
Definition sum_list_Z (l : list Z) : Z := foldr Z.add 0 l.

Lemma wrap_signed_eqm w a b : a `mod` 2 ^ w = b `mod` 2 ^ w -> wrap_signed w a = wrap_signed w b.
Proof.
  intros E. unfold wrap_signed. f_equal.
  by rewrite <- (Zplus_mod_idemp_l a), <- (Zplus_mod_idemp_l b), E.
Qed.

Lemma to_long_add a b : to_long (to_long a + b) = to_long (a + b).
Proof.
  apply wrap_signed_eqm. by rewrite <- Zplus_mod_idemp_l, wrap_signed_mod, Zplus_mod_idemp_l by lia.
Qed.

Lemma execute_later strict lim stage runs td : 0 < stage ->
  let td' := execute_stages strict lim stage runs td in
  td_time td' = (if decide (runs = []) then td_time td
                 else to_long (td_time td + sum_list_Z (map cpu_time runs))) /\
  td_rss td' = max_list (map ru_maxrss runs) (td_rss td) /\
  td_vss td' = max_list (map hiwater_vm runs) (td_vss td).
Proof.
  revert stage td. induction runs as [|res runs IH]; intros stage td Hst; simpl; [done|].
  destruct (IH (stage + 1) (executed_td strict lim stage res td) ltac:(lia)) as (-> & -> & ->).
  unfold executed_td, record_usage. rewrite (proj2 (Z.eqb_neq stage 0)) by lia. simpl.
  split_and!; [|done|done]. fold (cpu_time res).
  assert (E : to_long (td_time td + to_long (cpu_time res)) = to_long (td_time td + cpu_time res))
    by (rewrite Z.add_comm, to_long_add; f_equal; lia).
  rewrite E. destruct (decide (runs = [])) as [->|Hne]; simpl; [f_equal; lia|].
  rewrite to_long_add. f_equal. lia.
Qed.

Fixpoint last_run (res : cjail_result) (runs : list cjail_result) : cjail_result :=
  match runs with [] => res | res' :: runs' => last_run res' runs' end.

Lemma execute_last strict lim stage res runs td :
  let td' := execute_stages strict lim stage (res :: runs) td in
  td_verdict td' = execute_verdict strict lim (last_run res runs) td'.
Proof.
  revert stage res td. induction runs as [|res' runs IH]; intros stage res td.
  { simpl. unfold executed_td. by rewrite execute_verdict_set. }
  apply (IH (stage + 1) res' (executed_td strict lim stage res td)).
Qed.

(** Over the stages of a test data the time is the sum of the CPU times of
    all stages (modulo the 64 bits of the counter), the memory the maximum
    over the stages, and the verdict that of the last stage run, judged on
    these totals. *)
Theorem stages_accumulate strict lim res runs td :
  let td' := execute_stages strict lim 0 (res :: runs) td in
  td_time td' = to_long (sum_list_Z (map cpu_time (res :: runs))) /\
  td_rss td' = max_list (map ru_maxrss runs) (ru_maxrss res) /\
  td_vss td' = max_list (map hiwater_vm runs) (hiwater_vm res) /\
  td_verdict td' = execute_verdict strict lim (last_run res runs) td'.
Proof.
  cbv zeta. cbn [execute_stages].
  destruct (execute_later strict lim (0 + 1) runs (executed_td strict lim 0 res td) ltac:(lia))
    as (-> & -> & ->).
  split_and!; [|done|done|].
  - unfold executed_td, record_usage. simpl. fold (cpu_time res).
    destruct (decide (runs = [])) as [->|Hne]; simpl; [by rewrite Z.add_0_r|].
    by rewrite to_long_add.
  - apply (execute_last strict lim 0).
Qed.
End Execute.

(** ** Compilation *)

Section Compile.
Context `{PathRoots} `{Config} `{JsonText} (env : Env).

(** What a failed compilation makes of the result. *)
Definition failed_compile (c : CompileSubtask) (verd : Verdict) (message : string) (r : SubmissionResult)
    : SubmissionResult :=
  let r := set_verdict (verdict_max (verdict r) verd) r in
  match c with
  | USERPROG => set_ce_message message r
  | PROBPROG | SPECJUDGE => set_jce_message message r
  | CS_SUMMARY => if bool_decide (jce_message r = "") then set_jce_message message r else r
  end.

Definition compile_events (sub : Submission) (c : CompileSubtask) (r : SubmissionResult) : list Event :=
  match c with
  | USERPROG => if ReportCEMessage (reporter sub) then [EvCEMessage sub r] else []
  | PROBPROG | SPECJUDGE => if ReportJCEMessage (reporter sub) then [EvJCEMessage sub r] else []
  | CS_SUMMARY => []
  end.

Definition has_output (sub : Submission) (c : CompileSubtask) : bool :=
  env_is_regular env (CompileBoxOutput (submission_internal_id sub) c (GetLang sub c) false).

Lemma FinalizeCompile_run s key sr task c res :
  submission_list s !! key = Some sr -> CompileSubtask_of_Z (tk_subtask task) = Some c ->
  let verd := compile_verdict c res (has_output (sr_sub sr) c) in
  let put r := set_submission_list (<[key := with_result sr r]> (submission_list s)) s in
  FinalizeCompile env key task res s =
    if bool_decide (verd = NUL) then Done (tt, s)
    else if bool_decide (verd = JE) then Done (tt, put (set_verdict JE (sr_result sr)))
    else match read_compile_message env (CompileBoxMessage (submission_internal_id (sr_sub sr)) c false) with
         | Crash f => Crash f
         | Done message =>
             let r := failed_compile c verd message (sr_result sr) in
             Done (tt, add_events (compile_events (sr_sub sr) c r) (put r))
         end.
Proof.
  intros Hsr Hc verd put. unfold FinalizeCompile. unfold mbind at 1, M_bind at 1.
  rewrite (get_sub_run key s sr Hsr). unfold mbind at 1, M_bind at 1. rewrite Hc. simpl or_crash.
  unfold mret at 1, M_ret at 1. cbv zeta. fold (has_output (sr_sub sr) c). fold verd.
  destruct (bool_decide (verd = NUL)); [done|].
  destruct (bool_decide (verd = JE)); [apply (modify_res_run key s sr Hsr)|].
  unfold mbind at 1, M_bind at 1. rewrite (modify_res_run key s sr Hsr).
  unfold mbind at 1, M_bind at 1, lift_outcome.
  destruct (read_compile_message _ _) as [message|f]; [|done].
  set (r1 := set_verdict _ _). set (sr1 := with_result sr r1). fold (put r1). set (s1 := put r1).
  assert (Hsr1 : submission_list s1 !! key = Some sr1) by apply lookup_insert_eq.
  assert (Hput : forall r, set_submission_list (<[key := with_result sr1 r]> (submission_list s1)) s1 = put r).
  { intros r. unfold s1, put, set_submission_list. simpl. by rewrite insert_insert_eq. }
  assert (Hev : forall s0 : Judge, add_events [] s0 = s0).
  { intros []. unfold add_events. simpl. by rewrite app_nil_r. }
  assert (Hget : forall r, get_res key (put r) = Done (r, put r)).
  { intros r. unfold get_res, mbind, M_bind.
    by rewrite (get_sub_run key (put r) (with_result sr r)) by apply lookup_insert_eq. }
  unfold failed_compile. fold r1. unfold compile_events. destruct c.
  1,2,4: unfold mbind at 1, M_bind at 1; rewrite (modify_res_run key s1 sr1 Hsr1), Hput;
    unfold mbind at 1, M_bind at 1; rewrite Hget; unfold when, mret, M_ret, emit, modify;
    case_match; by rewrite ?Hev.
  rewrite (modify_res_run key s1 sr1 Hsr1), Hput. rewrite Hev. done.
Qed.

Lemma compile_verdict_JE c res has_out : compile_verdict c res has_out = JE <-> timekill res = -1.
Proof.
  unfold compile_verdict. destruct (Z.eqb_spec (timekill res) (-1)); [done|].
  split; [|done]. intros E. exfalso. revert E. by repeat case_match.
Qed.

(** A compilation succeeds exactly when nothing was killed, the compiler
    exited with 0 and left a regular file.  What a failure means depends on
    the program: the judge's own programs give JCE, the user's CLE when a limit
    was hit and CE otherwise. *)
Theorem compile_verdict_spec c res has_out :
  let v := compile_verdict c res has_out in
  let killed := timekill res <> 0 \/ 0 < oomkill res in
  let failed := killed \/ si_status res <> 0 \/ has_out = false in
  (v = NUL <-> ~ failed) /\
  (v = JE <-> timekill res = -1) /\
  (v = JCE <-> timekill res <> -1 /\ failed /\ c <> USERPROG) /\
  (v = CLE <-> timekill res <> -1 /\ killed /\ c = USERPROG) /\
  (v = CE <-> failed /\ ~ killed /\ c = USERPROG).
Proof.
  cbv zeta. unfold compile_verdict.
  assert (Hneg : timekill res = -1 -> timekill res <> 0) by lia.
  destruct (Z.eqb_spec (timekill res) (-1)) as [Et|Et]; [verdict_case|].
  assert (Hc : c = USERPROG \/ c <> USERPROG) by (destruct c; auto).
  destruct (Z.eqb_spec (timekill res) 0) as [Ek|Ek], (Z.ltb_spec 0 (oomkill res)) as [Eo|Eo];
    cbn [negb orb].
  all: try (assert (Eo' : ~ 0 < oomkill res) by lia).
  all: try (destruct (Z.eqb_spec (si_status res) 0) as [Es|Es], has_out; cbn [negb orb]).
  all: try (case_bool_decide as Hu; cbn [negb]).
  all: assert (Hft : false <> true) by done; assert (Htf : true <> false) by done.
  all: verdict_case.
Qed.

(** C31: after a failed compilation the submission has the worst compilation
    verdict so far (JE when the sandbox failed) and no execution and no scoring
    of it is started any more. *)
Theorem compile_failure_stops s key sr task c res s' :
  submission_list s !! key = Some sr -> CompileSubtask_of_Z (tk_subtask task) = Some c ->
  compile_verdict c res (has_output (sr_sub sr) c) <> NUL ->
  FinalizeCompile env key task res s = Done (tt, s') ->
  exists sr', submission_list s' !! key = Some sr' /\ sr_sub sr' = sr_sub sr /\
    verdict (sr_result sr') =
      (if bool_decide (timekill res = -1) then JE
       else verdict_max (verdict (sr_result sr)) (compile_verdict c res (has_output (sr_sub sr) c))) /\
    forall task', SetupExecute env key task' s' = Done (false, s') /\
      SetupScoring env key task' s' = Done (false, s').
Proof.
  intros Hsr Hc Hv. rewrite (FinalizeCompile_run s key sr task c res Hsr Hc). cbv zeta.
  set (v := compile_verdict c res (has_output (sr_sub sr) c)) in *.
  rewrite (bool_decide_false _ Hv). intros Hrun.
  assert (Hje : v = JE <-> timekill res = -1) by by apply compile_verdict_JE.
  assert (Hx : exists r, submission_list s' !! key = Some (with_result sr r) /\
    verdict r = (if bool_decide (timekill res = -1) then JE else verdict_max (verdict (sr_result sr)) v)).
  { rewrite <- (bool_decide_ext _ _ Hje). destruct (bool_decide (v = JE)).
    - injection Hrun as <-. eexists. split; [apply lookup_insert_eq|done].
    - destruct (read_compile_message _ _) as [message|]; [|done]. injection Hrun as <-.
      eexists. split; [apply lookup_insert_eq|]. unfold failed_compile. destruct c; try done. by case_match. }
  destruct Hx as (r & Hl & Hr). exists (with_result sr r). split_and!; [done|done|done|].
  assert (Hn : verdict r <> NUL).
  { rewrite Hr. case_bool_decide; [done|]. unfold verdict_max, verdict_lt.
    destruct (verdict (sr_result sr)), v; done. }
  intros task'. unfold SetupExecute, SetupScoring, mbind, M_bind.
  rewrite (get_sub_run key s' _ Hl). simpl. by rewrite (bool_decide_false _ Hn).
Qed.
End Compile.

(** ** The size of the box *)

Lemma page_kib_bounds size : 0 <= size ->
  size < 1024 * page_kib size <= size + 4096.
Proof. intros Hs. unfold page_kib. pose proof (Z.div_mod size 4096). pose proof (Z.mod_pos_bound size 4096). lia. Qed.

(** The tmpfs of a box holds the copies of the program and the input and
    leaves [min (2 * limit) kMaxOutput] KiB for the output, with at most two
    pages of slack; in particular an output limit of 0, which the interface
    calls unlimited, leaves no room for output at all. *)
Theorem tmpfs_size_room `{Config} prog_size input_size limit :
  0 <= prog_size < 2 ^ 50 -> 0 <= input_size < 2 ^ 50 -> 0 <= limit < 2 ^ 50 -> 0 <= kMaxOutput < 2 ^ 50 ->
  let size := tmpfs_size prog_size input_size limit in
  let room := Z.min (2 * limit) kMaxOutput in
  prog_size + input_size + 1024 * room < 1024 * size <= prog_size + input_size + 1024 * room + 8192 /\
  (limit = 0 -> 1024 * size <= prog_size + input_size + 8192).
Proof.
  intros Hp Hi Hl Hk. cbv zeta. unfold tmpfs_size.
  pose proof (page_kib_bounds prog_size ltac:(lia)). pose proof (page_kib_bounds input_size ltac:(lia)).
  assert (E50 : 2 ^ 50 = 1125899906842624) by reflexivity. rewrite E50 in *.
  no_wrap 64 (limit * 2).
  rewrite wrap_signed_id by in_width. lia.
Qed.

(** ** Witnesses *)

#[local] Existing Instance sample_roots.
#[local] Existing Instance sample_config.
#[local] Existing Instance sample_json.

(** The second test data is executed first. *)
Lemma FinalizeExecute_effect_witness : exists lim tds,
  testdata (sr_sub (sample_record SJ_NORMAL false empty_SubmissionResult)) !! 1%nat = Some lim /\
  length tds = 2%nat /\ tds !! 0%nat = Some empty_TestdataResult /\
  from_option td_rss 0 (tds !! 1%nat) = 800.
Proof.
  destruct (FinalizeExecute_effect sample_env (sample_state SJ_NORMAL false empty_SubmissionResult) 7
    (sample_record SJ_NORMAL false empty_SubmissionResult)
    {| tk_type := EXECUTE; tk_subtask := 1; tk_stage := 0 |} exited_ok)
    as (lim & tds & Hlim & _ & Hlen & Hother & td & Htd & _ & _ & _ & _ & _ & Hst & _);
    [reflexivity|simpl; lia|].
  exists lim, tds. split; [exact Hlim|]. split; [exact Hlen|]. split.
  - apply Hother; [simpl; lia|]. rewrite Hlen. simpl. lia.
  - change (Z.to_nat _) with 1%nat in Htd. rewrite Htd. apply (Hst eq_refl).
Defined.

Definition compile_failed : cjail_result := {|
  timekill := 0; oomkill := 0; si_code := CLD_EXITED; si_status := 1; hiwater_vm := 1000;
  ru_maxrss := 800; ru_utime := zero_timeval; ru_stime := zero_timeval; real_time := zero_timeval;
|}.

Lemma compile_failure_stops_witness :
  match FinalizeCompile sample_env 7 (Push.compile_task USERPROG) compile_failed (sample_state SJ_NORMAL false empty_SubmissionResult) with
  | Done (_, s') => exists sr', submission_list s' !! 7 = Some sr' /\ verdict (sr_result sr') = CE
  | Crash _ => False
  end.
Proof.
  destruct (FinalizeCompile sample_env 7 (Push.compile_task USERPROG) compile_failed (sample_state SJ_NORMAL false empty_SubmissionResult))
    as [[[] s']|f] eqn:E; [|vm_compute in E; discriminate].
  destruct (compile_failure_stops sample_env (sample_state SJ_NORMAL false empty_SubmissionResult) 7
    (sample_record SJ_NORMAL false empty_SubmissionResult)
    (Push.compile_task USERPROG) USERPROG compile_failed s')
    as (sr' & Hl & _ & Hv & _); [reflexivity|reflexivity|discriminate|exact E|].
  exists sr'. split; [exact Hl|exact Hv].
Defined.

Lemma tmpfs_size_room_witness :
  5000 + 300 + 1024 * Z.min 131072 1048576 < 1024 * tmpfs_size 5000 300 65536 /\
  1024 * tmpfs_size 5000 300 0 <= 5000 + 300 + 8192.
Proof.
  split.
  - destruct (tmpfs_size_room 5000 300 65536) as [[Hs _] _]; [simpl; lia..|exact Hs].
  - destruct (tmpfs_size_room 5000 300 0) as [_ Hs]; [simpl; lia..|exact (Hs eq_refl)].
Defined.
