(* ===== verification/ScoringSpec.v ===== *)
(** * What scoring guarantees

    The theorems about SetupScoring and FinalizeScoring of
    src/tioj/submission.cpp: the effect of a scored stage, the cancellation of
    groups, and the test data whose special judge is skipped. *)

From S2P Require Import Prelude Enums Text Paths CNum Scores Data State Specjudge PushGraph Handlers HandlerFacts WorkLoop Scenario.
From Stdlib Require Import SpecFloat.

Section Scoring.
Context `{PathRoots} `{Config} `{JsonText} (env : Env).

Definition is_last_stage (sub : Submission) (task : Task) : bool := tk_stage task =? stages sub - 1.

(** The entry after a scored stage, and the effects of reading the output. *)
Definition scored_td (sub : Submission) (task : Task) (res : cjail_result) (skipped : bool)
    (td : TestdataResult) : TestdataResult * list Event :=
  let id := submission_internal_id sub in
  let i := tk_subtask task in
  let j := tk_stage task in
  let p := if skipped then (set_td_score 0 td, [])
           else ReadSpecjudgeResult env sub res (is_last_stage sub task) (ScoringBoxOutput id i j false)
                  (ScoringBoxUserOutput id i j false) (ScoringBoxTempdir id i j false) (set_td_score 0 td) in
  (settle_stage (is_last_stage sub task) p.1, p.2).

(** The effects that follow. *)
Definition scoring_events (sub : Submission) (task : Task) (skipped cancelled : bool)
    (td : TestdataResult) (r : SubmissionResult) : list Event :=
  let id := submission_internal_id sub in
  let i := tk_subtask task in
  let j := tk_stage task in
  let last := is_last_stage sub task in
  (if negb last && negb skipped && negb (skip_stage td) && negb (bool_decide (specjudge_type sub = SJ_SKIP))
   then [EvMove (ScoringBoxUserOutput id i j false) (ExecuteBoxFinalOutput id i j) None] else []) ++
  (if last then EvRemoveAll (ExecuteBoxPath id i (stages sub - 1)) ::
     (if negb skipped then [EvRemoveAll (ScoringBoxPath id i (stages sub - 1))] else []) else []) ++
  (if judge_between_stages sub && (0 <? j) then [EvRemoveAll (ScoringBoxPath id i (j - 1))] else []) ++
  (if negb cancelled && ReportScoringResult (reporter sub) &&
      (report_intermediate_stage sub || last || skip_stage td)
   then [EvScoringResult sub r i j] else []).

Lemma add_events_app es es' s : add_events es' (add_events es s) = add_events (es ++ es') s.
Proof. unfold add_events. simpl. by rewrite (assoc_L (++)). Qed.

Lemma add_events_nil s : add_events [] s = s.
Proof. destruct s. unfold add_events. simpl. by rewrite app_nil_r. Qed.

Lemma when_emit b es s : when b (emit es) s = Done (tt, add_events (if b then es else []) s).
Proof. destruct b; [done|]. unfold when, mret, M_ret. by rewrite add_events_nil. Qed.

Lemma when_emit2 b b' es es' s : when b (_ ← emit es; when b' (emit es')) s =
  Done (tt, add_events (if b then es ++ (if b' then es' else []) else []) s).
Proof.
  unfold when at 1. destruct b; [|unfold mret, M_ret; by rewrite add_events_nil].
  unfold mbind, M_bind, emit at 1, modify at 1. by rewrite when_emit, add_events_app.
Qed.

Lemma when_modify b f s : when b (modify f) s = Done (tt, if b then f s else s).
Proof. by destruct b. Qed.

Lemma FinalizeScoring_run s key sr task res skipped td item :
  submission_list s !! key = Some sr ->
  0 <= tk_subtask task -> td_results (sr_result sr) !! Z.to_nat (tk_subtask task) = Some td ->
  testdata (sr_sub sr) !! Z.to_nat (tk_subtask task) = Some item ->
  let sub := sr_sub sr in
  let id := submission_internal_id sub in
  let td' := (scored_td sub task res skipped td).1 in
  let r := set_td_results (<[Z.to_nat (tk_subtask task) := td']> (td_results (sr_result sr))) (sr_result sr) in
  let s1 := set_submission_list (<[key := with_result sr r]> (submission_list s)) s in
  let s2 := if skip_group sub && is_failure (td_verdict td') then cancel_groups id (td_groups item) s1 else s1 in
  FinalizeScoring env key task res skipped s = Done (tt, add_events ((scored_td sub task res skipped td).2 ++
    scoring_events sub task skipped (bool_decide (id ∈ cancelled_list s)) td' r) s2).
Proof.
  intros Hsr Hi Htd Hitem sub id td' r s1 s2.
  assert (Hat : forall A (l : list A) x (s : Judge), l !! Z.to_nat (tk_subtask task) = Some x ->
    vec_at l (tk_subtask task) s = Done (x, s)).
  { intros A l x s0 Hl. unfold vec_at. rewrite (proj2 (Z.leb_le 0 _)) by done. by rewrite Hl. }
  assert (Hget : forall s, submission_list s !! key = Some sr ->
    get_td key (tk_subtask task) s = Done (td, s)).
  { intros s0 H0'. unfold get_td, get_res, mbind, M_bind. rewrite (get_sub_run key s0 sr H0').
    simpl. by apply Hat. }
  unfold FinalizeScoring. unfold mbind at 1, M_bind at 1. rewrite (get_sub_run key s sr Hsr).
  fold sub. cbv zeta. unfold mbind at 1, M_bind at 1. rewrite (Hget s Hsr).
  fold (is_last_stage sub task). fold id.
  set (p := if skipped then _ else _). change td' with (settle_stage (is_last_stage sub task) p.1) in *.
  change ((scored_td sub task res skipped td).2) with p.2. clearbody p. destruct p as [td1 evs]. simpl fst in *. simpl snd in *.
  set (td2 := settle_stage _ td1) in *.
  unfold mbind at 1, M_bind at 1, emit at 1, modify at 1. set (s0 := add_events evs s).
  assert (Hsr0 : submission_list s0 !! key = Some sr) by done.
  unfold mbind at 1, M_bind at 1, put_td at 1, get_res at 1. unfold mbind at 1, M_bind at 1.
  unfold mbind at 1, M_bind at 1. rewrite (get_sub_run key s0 sr Hsr0). unfold mret at 1, M_ret at 1.
  unfold mbind at 1, M_bind at 1. rewrite (Hat _ _ td s0 Htd). rewrite (put_res_run key s0 sr Hsr0).
  fold r. unfold mbind at 1, M_bind at 1. rewrite (Hat _ _ item _ Hitem).
  unfold mbind at 1, M_bind at 1. rewrite when_modify.
  set (s3 := if skip_group sub && _ then _ else _).
  assert (Hs3 : s3 = add_events evs s2).
  { unfold s3, s2. fold td' in s3. by destruct (skip_group sub && is_failure (td_verdict td2)). }
  assert (Hsr3 : forall es, submission_list (add_events es s3) !! key = Some (with_result sr r)).
  { intros es. rewrite Hs3. unfold s2. destruct (skip_group sub && _); apply lookup_insert_eq. }
  assert (Hcl : forall es, cancelled_list (add_events es s3) = cancelled_list s).
  { intros es. rewrite Hs3. unfold s2. by destruct (skip_group sub && _). }
  unfold mbind at 1, M_bind at 1. rewrite when_emit.
  unfold mbind at 1, M_bind at 1. rewrite when_emit2, add_events_app.
  unfold mbind at 1, M_bind at 1. rewrite when_emit, add_events_app.
  unfold mbind at 1, M_bind at 1, get at 1.
  unfold mbind at 1, M_bind at 1, get_res, mbind at 1, M_bind at 1.
  rewrite (get_sub_run key _ _ (Hsr3 _)). unfold mret at 1, M_ret at 1.
  rewrite when_emit, add_events_app, Hcl, Hs3, add_events_app. unfold scoring_events.
  fold (is_last_stage sub task). rewrite <- !(assoc_L (++)). done.
Qed.
Lemma settle_last last td : last = true -> td_verdict (settle_stage last td) <> NUL.
Proof using.
  intros ->. unfold settle_stage. simpl. destruct (decide (td_verdict td = NUL)) as [E|E].
  - by rewrite (bool_decide_true _ E).
  - by rewrite (bool_decide_false _ E).
Qed.

Lemma settle_not_last last td : last = false -> td_verdict (settle_stage last td) <> NUL ->
  skip_stage (settle_stage last td) = true.
Proof using.
  intros ->. unfold settle_stage. simpl. destruct (decide (td_verdict td = NUL)) as [E|E].
  - by rewrite (bool_decide_true _ E).
  - by rewrite (bool_decide_false _ E).
Qed.

(** C29: the exact effect of finishing the scoring of a stage.  The entry of its test
    data, with the score reset, is read from the files of the special judge by
    [ReadSpecjudgeResult] unless the judge was skipped, and settled: after the last
    stage the verdict is decided, a verdict before it makes the later stages skipped;
    it replaces the old entry and nothing else of the results changes.  When the
    submission skips groups, exactly a failing test data cancels its groups.  The file
    operations and reports are, in this order, what reading did, the output going
    back for the next stage, the removal of the boxes that are not needed any more, and
    the report unless the submission is cancelled. *)
Theorem FinalizeScoring_effect s key sr task res (skipped : bool) td item :
  submission_list s !! key = Some sr -> submission_internal_id (sr_sub sr) = key ->
  0 <= tk_subtask task -> td_results (sr_result sr) !! Z.to_nat (tk_subtask task) = Some td ->
  testdata (sr_sub sr) !! Z.to_nat (tk_subtask task) = Some item ->
  let sub := sr_sub sr in
  let i := tk_subtask task in
  let j := tk_stage task in
  let last := j =? stages sub - 1 in
  let output := ScoringBoxOutput key i j false in
  let user_output := ScoringBoxUserOutput key i j false in
  let read := ReadSpecjudgeResult env sub res last output user_output (ScoringBoxTempdir key i j false) (set_td_score 0 td) in
  let scored := if skipped then set_td_score 0 td else read.1 in
  exists s' td',
    FinalizeScoring env key task res skipped s = Done (tt, s') /\
    td' = (if decide (td_verdict scored = NUL) then (if last then set_td_verdict WA scored else scored)
           else if last then scored else set_skip_stage true scored) /\
    (last = true -> td_verdict td' <> NUL) /\
    let r := set_td_results (<[Z.to_nat i := td']> (td_results (sr_result sr))) (sr_result sr) in
    submission_list s' = <[key := with_result sr r]> (submission_list s) /\
    cancelled_group s' !! key =
      (if skip_group sub && is_failure (td_verdict td')
       then Some (default ∅ (cancelled_group s !! key) ∪ list_to_set (td_groups item))
       else cancelled_group s !! key) /\
    trace s' = trace s ++ (if skipped then [] else read.2) ++
      (if negb last && negb skipped && negb (skip_stage td') && negb (bool_decide (specjudge_type sub = SJ_SKIP))
       then [EvMove user_output (ExecuteBoxFinalOutput key i j) None] else []) ++
      (if last then EvRemoveAll (ExecuteBoxPath key i j) ::
         (if skipped then [] else [EvRemoveAll (ScoringBoxPath key i j)]) else []) ++
      (if judge_between_stages sub && (0 <? j) then [EvRemoveAll (ScoringBoxPath key i (j - 1))] else []) ++
      (if negb (bool_decide (key ∈ cancelled_list s)) && ReportScoringResult (reporter sub) &&
          (report_intermediate_stage sub || last || skip_stage td')
       then [EvScoringResult sub r i j] else []) /\
    graph s' = graph s /\ handle_map s' = handle_map s /\ cancelled_list s' = cancelled_list s.
Proof.
  intros Hsr Hid Hi Htd Hitem sub i j last output user_output read scored.
  pose proof (FinalizeScoring_run s key sr task res skipped td item Hsr Hi Htd Hitem) as Hrun.
  cbv zeta in Hrun. rewrite Hid in Hrun. fold sub i in Hrun.
  assert (Et : (scored_td sub task res skipped td).1 = settle_stage last scored).
  { unfold scored_td, scored, read, output, user_output. rewrite <- Hid. by destruct skipped. }
  assert (Ee : (scored_td sub task res skipped td).2 = if skipped then [] else read.2).
  { unfold scored_td, read, output, user_output. rewrite <- Hid. by destruct skipped. }
  rewrite Et, Ee in Hrun. set (td' := settle_stage last scored) in *.
  eexists _, td'. split; [exact Hrun|]. cbv zeta; split_and!.
  - unfold td', settle_stage. destruct last; simpl; destruct (decide (td_verdict scored = NUL)) as [E|E];
      rewrite ?(bool_decide_true _ E), ?(bool_decide_false _ E); done.
  - by apply settle_last.
  - simpl. by destruct (skip_group sub && _).
  - destruct (skip_group sub && _); [|done]. simpl. by rewrite lookup_insert_eq.
  - assert (Htr : forall s1 es, trace (add_events es s1) = trace s1 ++ es) by done. rewrite Htr. f_equal.
    + by destruct (skip_group sub && _).
    + f_equal. unfold scoring_events, is_last_stage. rewrite (Hid : submission_internal_id sub = key). fold i j last output user_output. f_equal. f_equal.
      destruct last eqn:El; [|done]. apply Z.eqb_eq in El. rewrite <- El. by destruct skipped.
  - by destruct (skip_group sub && _).
  - by destruct (skip_group sub && _).
  - by destruct (skip_group sub && _).
Qed.

(** ** Skipped test data *)

Lemma IsCancelled_groups s id groups gs :
  cancelled_group s !! id = Some gs -> groups <> [] -> (forall g, g ∈ groups -> g ∈ gs) ->
  IsCancelled s id groups = true.
Proof.
  intros Hg Hne Hsub. unfold IsCancelled. case_bool_decide; [done|]. rewrite Hg.
  destruct groups as [|g groups]; [done|]. apply forallb_forall. intros x Hx.
  apply bool_decide_eq_true. apply Hsub, list_elem_of_In, Hx.
Qed.

Lemma setup_cancelled s key sr task item :
  submission_list s !! key = Some sr -> 0 <= tk_subtask task ->
  testdata (sr_sub sr) !! Z.to_nat (tk_subtask task) = Some item ->
  IsCancelled s (submission_internal_id (sr_sub sr)) (td_groups item) = true ->
  SetupExecute env key task s = Done (false, s) /\ SetupScoring env key task s = Done (false, s).
Proof.
  intros Hsr Hi Hitem Hc.
  assert (Hat : vec_at (testdata (sr_sub sr)) (tk_subtask task) s = Done (item, s)).
  { unfold vec_at. rewrite (proj2 (Z.leb_le 0 _)) by done. by rewrite Hitem. }
  split; [unfold SetupExecute|unfold SetupScoring]; unfold mbind at 1, M_bind at 1;
    rewrite (get_sub_run key s sr Hsr); (destruct (negb (bool_decide _)); [done|]);
    unfold mbind at 1, M_bind at 1; rewrite Hat; unfold mbind at 1, M_bind at 1, get at 1; by rewrite Hc.
Qed.

(** C30: with group skipping, once a test data has failed, every test data all
    of whose groups are among the groups of the failed one is neither executed
    nor scored any more. *)
Theorem failed_groups_skipped s key sr task res skipped td item :
  submission_list s !! key = Some sr -> submission_internal_id (sr_sub sr) = key ->
  0 <= tk_subtask task -> td_results (sr_result sr) !! Z.to_nat (tk_subtask task) = Some td ->
  testdata (sr_sub sr) !! Z.to_nat (tk_subtask task) = Some item ->
  skip_group (sr_sub sr) = true ->
  exists s' td', FinalizeScoring env key task res skipped s = Done (tt, s') /\
    from_option (fun sr' => td_results (sr_result sr') !! Z.to_nat (tk_subtask task)) None
      (submission_list s' !! key) = Some td' /\
    (is_failure (td_verdict td') = true -> forall task' item',
       0 <= tk_subtask task' -> testdata (sr_sub sr) !! Z.to_nat (tk_subtask task') = Some item' ->
       td_groups item' <> [] -> (forall g, g ∈ td_groups item' -> g ∈ td_groups item) ->
       SetupExecute env key task' s' = Done (false, s') /\ SetupScoring env key task' s' = Done (false, s')).
Proof.
  intros Hsr Hid Hi Htd Hitem Hskip.
  pose proof (FinalizeScoring_run s key sr task res skipped td item Hsr Hi Htd Hitem) as Hrun.
  cbv zeta in Hrun. rewrite Hid, Hskip, andb_true_l in Hrun.
  set (td' := (scored_td (sr_sub sr) task res skipped td).1) in *.
  eexists _, td'. split; [exact Hrun|].
  set (s' := add_events _ _).
  set (r := set_td_results (<[Z.to_nat (tk_subtask task) := td']> (td_results (sr_result sr))) (sr_result sr)) in *.
  assert (Hl : submission_list s' !! key = Some (with_result sr r)).
  { unfold s'. simpl. destruct (is_failure _); apply lookup_insert_eq. }
  split.
  - rewrite Hl. simpl. apply list_lookup_insert_eq. by eapply lookup_lt_Some.
  - intros Hf task' item' Hi' Hitem' Hne Hsub.
    apply (setup_cancelled s' key (with_result sr r) task' item'); try done. simpl. rewrite Hid.
    eapply IsCancelled_groups; [|done|].
    + unfold s'. rewrite Hf. simpl. apply lookup_insert_eq.
    + intros g Hg. apply elem_of_union_r, elem_of_list_to_set. auto.
Qed.

Lemma vec_at_done {A} (l : list A) i s x s1 : vec_at l i s = Done (x, s1) ->
  s1 = s /\ 0 <= i /\ l !! Z.to_nat i = Some x.
Proof using.
  unfold vec_at. destruct (Z.leb_spec 0 i); [|done]. unfold or_crash.
  destruct (l !! Z.to_nat i); [|done]. by intros [= -> ->].
Qed.

(** What a setup that starts the special judge does before it. *)
Definition judge_prog (sub : Submission) : string :=
  if bool_decide (specjudge_type sub = SJ_NORMAL) then DefaultScoringPath
  else CompileBoxOutput (submission_internal_id sub) SPECJUDGE (specjudge_lang sub) false.

Definition judge_meta (sub : Submission) (item : TestdataItem) (td : TestdataResult) (task : Task) : string :=
  if bool_decide (specjudge_type sub = SPECJUDGE_OLD) then TestdataMetaOld td (tk_subtask task)
  else json_dump (TestdataMeta sub item td (tk_subtask task) (tk_stage task)).

Definition setup_scoring_events (sub : Submission) (item : TestdataItem) (td : TestdataResult) (task : Task) : list Event :=
  let id := submission_internal_id sub in
  let i := tk_subtask task in
  let j := tk_stage task in
  let user_output := ExecuteBoxFinalOutput id i j in
  let scoring_user_output := ScoringBoxUserOutput id i j false in
  [EvCreateDirs (Workdir (ScoringBoxPath id i j)) (Some perms_all);
   EvCopy (judge_prog sub) (ScoringBoxProgram id i j (specjudge_lang sub) false) (Some perms_all);
   EvCopy (SubmissionUserCode id) (ScoringBoxUserCode id i j (lang sub) false) (Some kPerm666)] ++
  (if env_exists env user_output then [EvMove user_output scoring_user_output (Some kPerm666)]
   else [EvWrite scoring_user_output ""; EvPermissions scoring_user_output kPerm666]) ++
  [EvCopy (input_file item) (ScoringBoxTdInput id i j false) (Some kPerm666);
   EvCopy (answer_file item) (ScoringBoxTdOutput id i j false) (Some kPerm666);
   (if negb (judge_between_stages sub) || (j =? 0) then EvCreateDirs (ScoringBoxTempdir id i j false) (Some perms_all)
    else EvMove (ScoringBoxTempdir id i (j - 1) false) (ScoringBoxTempdir id i j false) None);
   EvWrite (ScoringBoxMetaFile id i j false) (judge_meta sub item td task)].

Lemma SetupScoring_true s key sr task s' :
  submission_list s !! key = Some sr -> SetupScoring env key task s = Done (true, s') ->
  let sub := sr_sub sr in
  exists item td, testdata sub !! Z.to_nat (tk_subtask task) = Some item /\
    td_results (sr_result sr) !! Z.to_nat (tk_subtask task) = Some td /\
    verdict (sr_result sr) = NUL /\ IsCancelled s (submission_internal_id sub) (td_groups item) = false /\
    skip_stage td = false /\ (td_verdict td = NUL \/ judge_abnormally_terminated sub = true) /\
    specjudge_type sub <> SJ_SKIP /\ s' = add_events (setup_scoring_events sub item td task) s.
Proof.
  intros Hsr. unfold SetupScoring. unfold mbind at 1, M_bind at 1. rewrite (get_sub_run key s sr Hsr).
  destruct (bool_decide (verdict (sr_result sr) = NUL)) eqn:Ev; cbn [negb]; cbv beta iota zeta; [|done].
  apply bool_decide_eq_true in Ev. unfold mbind at 1, M_bind at 1.
  destruct (vec_at (testdata _) _ s) as [[item s1]|] eqn:Ei; [|done].
  apply vec_at_done in Ei as (-> & _ & Eitem). unfold mbind at 1, M_bind at 1, get at 1.
  destruct (IsCancelled s _ _) eqn:Ec; [done|]. unfold mbind at 1, M_bind at 1.
  destruct (vec_at (td_results _) _ s) as [[td s1]|] eqn:Ei; [|done].
  apply vec_at_done in Ei as (-> & _ & Etd). destruct (skip_stage td) eqn:Es; [done|].
  destruct (_ && _) eqn:Ea.
  { unfold mbind, M_bind. by destruct (FinalizeScoring _ _ _ _ _ _) as [[]|]. }
  unfold mbind at 1, M_bind at 1, emit at 1, modify at 1.
  destruct (bool_decide (specjudge_type (sr_sub sr) = SJ_SKIP)) eqn:Ek.
  { unfold mbind, M_bind. simpl. by destruct (FinalizeScoring _ _ _ _ _ _) as [[]|]. }
  apply bool_decide_eq_false in Ek. intros Hrun. exists item, td. split_and!; try done.
  - apply andb_false_iff in Ea as [Ea|Ea].
    + left. by apply negb_false_iff, bool_decide_eq_true in Ea.
    + right. by apply negb_false_iff.
  - revert Hrun. unfold setup_scoring_events, judge_prog, judge_meta. unfold mbind, M_bind, emit, modify, mret, M_ret.
    destruct (env_exists env _), (_ || _); intros [= <-]; by rewrite !add_events_app.
Qed.

(** A special judge is started only for a submission without a verdict
    that is not cancelled, for a test data that is not skipped, has no verdict
    yet (unless judging after an abnormal end is asked for), and whose type of
    special judge is not SKIP. *)
Theorem SetupScoring_starts s key sr task s' :
  submission_list s !! key = Some sr -> SetupScoring env key task s = Done (true, s') ->
  let sub := sr_sub sr in
  exists item td, testdata sub !! Z.to_nat (tk_subtask task) = Some item /\
    td_results (sr_result sr) !! Z.to_nat (tk_subtask task) = Some td /\
    verdict (sr_result sr) = NUL /\ IsCancelled s (submission_internal_id sub) (td_groups item) = false /\
    skip_stage td = false /\ (td_verdict td = NUL \/ judge_abnormally_terminated sub = true) /\
    specjudge_type sub <> SJ_SKIP /\ submission_list s' = submission_list s.
Proof.
  intros Hsr Hrun. destruct (SetupScoring_true s key sr task s' Hsr Hrun) as (item & td & ? & ? & ? & ? & ? & ? & ? & ->).
  exists item, td. by split_and!.
Qed.

(** ** Special judges that are skipped *)

(** A test data of type SKIP, whose output is to be taken as the output of
    the special judge, is never accepted: [FinalizeScoring] is called with an
    all-zero result, whose [si_code] is not [CLD_EXITED], so that the output is
    not read.  Whatever the program wrote, the verdict is WA, or JRE when
    special judge errors are not treated as WA. *)
Theorem skipped_judge_rejects s key sr task td item :
  submission_list s !! key = Some sr -> submission_internal_id (sr_sub sr) = key ->
  specjudge_type (sr_sub sr) = SJ_SKIP ->
  0 <= tk_subtask task -> td_results (sr_result sr) !! Z.to_nat (tk_subtask task) = Some td ->
  testdata (sr_sub sr) !! Z.to_nat (tk_subtask task) = Some item ->
  verdict (sr_result sr) = NUL -> IsCancelled s key (td_groups item) = false ->
  skip_stage td = false -> td_verdict td = NUL ->
  exists s' td', SetupScoring env key task s = Done (false, s') /\
    from_option (fun sr' => td_results (sr_result sr') !! Z.to_nat (tk_subtask task)) None
      (submission_list s' !! key) = Some td' /\
    td_verdict td' = (if specjudge_re_as_wa (sr_sub sr) then WA else JRE) /\ td_score td' = 0.
Proof.
  intros Hsr Hid Hty Hi Htd Hitem Hv Hc Hs Htv.
  assert (Hat : forall A (l : list A) x (s : Judge), l !! Z.to_nat (tk_subtask task) = Some x ->
    vec_at l (tk_subtask task) s = Done (x, s)).
  { intros A l x s0 Hl. unfold vec_at. rewrite (proj2 (Z.leb_le 0 _)) by done. by rewrite Hl. }
  unfold SetupScoring. unfold mbind at 1, M_bind at 1. rewrite (get_sub_run key s sr Hsr).
  rewrite (bool_decide_true _ Hv). cbn [negb]. cbv beta iota zeta.
  unfold mbind at 1, M_bind at 1. rewrite (Hat _ _ item s Hitem).
  unfold mbind at 1, M_bind at 1, get at 1. rewrite Hid, Hc.
  unfold mbind at 1, M_bind at 1. rewrite (Hat _ _ td s Htd), Hs, (bool_decide_true _ Htv).
  cbn [negb andb]. cbv beta iota. unfold mbind at 1, M_bind at 1, emit at 1, modify at 1.
  rewrite (bool_decide_true _ Hty). unfold mbind at 1, M_bind at 1, emit at 1, modify at 1.
  set (s1 := add_events _ (add_events _ s)). unfold mbind at 1, M_bind at 1.
  rewrite (FinalizeScoring_run s1 key sr task zero_cjail_result false td item Hsr Hi Htd Hitem).
  set (td' := (scored_td (sr_sub sr) task zero_cjail_result false td).1).
  eexists _, td'. split; [done|]. split.
  - simpl. rewrite Hid. destruct (skip_group _ && _); simpl; rewrite lookup_insert_eq; simpl;
      apply list_lookup_insert_eq; by eapply lookup_lt_Some.
  - unfold td', scored_td, ReadSpecjudgeResult. rewrite Hty.
    assert (Hf : forall b, specjudge_failed SJ_SKIP b (si_code zero_cjail_result) (si_status zero_cjail_result) = true)
      by (by intros []).
    rewrite Hf. simpl. rewrite (bool_decide_true _ Htv). simpl.
    unfold settle_stage. by destruct (specjudge_re_as_wa _), (is_last_stage _ _).
Qed.
End Scoring.

(** ** Witnesses *)

#[local] Existing Instance sample_roots.
#[local] Existing Instance sample_config.
#[local] Existing Instance sample_json.

Definition score0 : Task := {| tk_type := SCORING; tk_subtask := 0; tk_stage := 0 |}.

Lemma FinalizeScoring_effect_witness : exists s' td',
  FinalizeScoring sample_env 7 score0 exited_ok false (sample_state SJ_NORMAL true both_executed)
    = Done (tt, s') /\ td_verdict td' <> NUL /\
  submission_list s' !! 7 = Some (sample_record SJ_NORMAL true
    (set_td_results [td'; empty_TestdataResult] both_executed)).
Proof.
  destruct (FinalizeScoring_effect sample_env (sample_state SJ_NORMAL true both_executed) 7
    (sample_record SJ_NORMAL true both_executed) score0 exited_ok false empty_TestdataResult (sample_item [0]))
    as (s' & td' & Hrun & _ & Hlast & Hl & _); [reflexivity|reflexivity|simpl; lia|reflexivity|reflexivity|].
  exists s', td'. split; [exact Hrun|]. split; [exact (Hlast eq_refl)|]. rewrite Hl. reflexivity.
Defined.

(** The second test data is not executed once the first has failed. *)
Lemma failed_groups_skipped_witness : exists s',
  FinalizeScoring sample_env 7 score0 zero_cjail_result false (sample_state SJ_NORMAL true both_executed)
    = Done (tt, s') /\
  SetupExecute sample_env 7 {| tk_type := EXECUTE; tk_subtask := 1; tk_stage := 0 |} s' = Done (false, s').
Proof.
  destruct (failed_groups_skipped sample_env (sample_state SJ_NORMAL true both_executed) 7
    (sample_record SJ_NORMAL true both_executed) score0 zero_cjail_result false empty_TestdataResult
    (sample_item [0]))
    as (s' & td' & Hrun & Hl & Hskip);
    [reflexivity|reflexivity|simpl; lia|reflexivity|reflexivity|reflexivity|].
  exists s'. split; [exact Hrun|].
  apply (Hskip ltac:(vm_compute in Hrun; injection Hrun as <-; vm_compute in Hl; injection Hl as <-; reflexivity)
    {| tk_type := EXECUTE; tk_subtask := 1; tk_stage := 0 |} (sample_item [0]));
    [simpl; lia|reflexivity|discriminate|by intros g Hg].
Defined.

Lemma SetupScoring_starts_witness :
  match SetupScoring sample_env 7 score0 (sample_state SJ_NORMAL true both_executed) with
  | Done (true, s') => submission_list s' = {[7 := sample_record SJ_NORMAL true both_executed]}
  | _ => False
  end.
Proof.
  destruct (SetupScoring sample_env 7 score0 (sample_state SJ_NORMAL true both_executed))
    as [[[] s']|f] eqn:E; [|vm_compute in E; discriminate..].
  destruct (SetupScoring_starts sample_env (sample_state SJ_NORMAL true both_executed) 7 (sample_record SJ_NORMAL true both_executed) score0 s'
    ltac:(reflexivity) E) as (_ & _ & _ & _ & _ & _ & _ & _ & _ & Hl). exact Hl.
Defined.

Lemma skipped_judge_rejects_witness : exists s' td',
  SetupScoring sample_env 7 score0 (sample_state SJ_SKIP false both_executed) = Done (false, s') /\
  from_option (fun sr' => td_results (sr_result sr') !! 0%nat) None (submission_list s' !! 7) = Some td' /\
  td_verdict td' = WA.
Proof.
  destruct (skipped_judge_rejects sample_env (sample_state SJ_SKIP false both_executed) 7
    (sample_record SJ_SKIP false both_executed) score0 empty_TestdataResult (sample_item [0]))
    as (s' & td' & Hrun & Hl & Hv & _);
    [reflexivity|reflexivity|reflexivity|simpl; lia|reflexivity..|].
  by exists s', td'.
Defined.
