(* ===== verification/SummarySpec.v ===== *)
(** * What the summary guarantees

    The theorems about SetupSummary and FinalizeSummary of
    src/tioj/submission.cpp: the overall verdict, the totals and the weighted
    score, and what finishing a submission leaves behind. *)

From S2P Require Import Prelude Enums Text Paths CNum Scores Data State Specjudge PushGraph Handlers HandlerFacts WorkLoop Scenario.
From Stdlib Require Import SpecFloat.

(** The test data that count, with their results. *)
Definition counted (items : list TestdataItem) (tds : list TestdataResult)
    : list (TestdataItem * TestdataResult) :=
  filter (fun p => ignore_verdict p.1 = false) (zip items tds).

Lemma counted_cons item items td tds : counted (item :: items) (td :: tds) =
  (if ignore_verdict item then [] else [(item, td)]) ++ counted items tds.
Proof. unfold counted. simpl. rewrite filter_cons. simpl. destruct (ignore_verdict item); by case_decide. Qed.

(** ** The verdict *)

Definition severity (td : TestdataResult) : nat := Verdict_to_nat (td_verdict td).

Lemma overall_verdict_max items tds v : (length tds <= length items)%nat ->
  exists v', overall_verdict items tds v = Done v' /\
    Verdict_to_nat v' = foldl Nat.max (Verdict_to_nat v) (map severity (counted items tds).*2).
Proof.
  revert items v. induction tds as [|td tds IH]; intros [|item items] v Hl; simpl in Hl; try lia;
    [by exists v..|].
  rewrite counted_cons. cbn [overall_verdict]. destruct (ignore_verdict item).
  - apply IH. lia.
  - destruct (IH items (if verdict_lt v (td_verdict td) then td_verdict td else v) ltac:(lia)) as (v' & -> & Hv').
    exists v'. split; [done|]. rewrite Hv'. simpl. f_equal. fold (verdict_max v (td_verdict td)).
    apply verdict_max_lub.
Qed.

(** ** Totals *)

Lemma lower_groups_spec score groups scores :
  (forall g, g ∈ groups -> 0 <= g < Z.of_nat (length scores)) ->
  exists scores', lower_groups score groups scores = Done scores' /\ length scores' = length scores /\
    forall g x, scores !! g = Some x -> scores' !! g =
      Some (if bool_decide (Z.of_nat g ∈ groups) then Z.min x score else x).
Proof.
  revert scores. induction groups as [|g groups IH]; intros scores Hg; simpl.
  { exists scores. by split_and!. }
  destruct (Hg g) as [Hg0 Hg1]; [by left|]. rewrite (proj2 (Z.ltb_ge g 0)) by done.
  destruct (lookup_lt_is_Some_2 scores (Z.to_nat g)) as [old Hold]; [lia|]. rewrite Hold.
  destruct (IH (<[Z.to_nat g := Z.min old score]> scores)) as (sc & -> & Hlen & Hsc).
  { intros g' Hg'. rewrite length_insert. apply Hg. by right. }
  exists sc. split; [done|]. split; [by rewrite Hlen, length_insert|].
  intros k x Hk. destruct (decide (k = Z.to_nat g)) as [->|Hne].
  - rewrite Hold in Hk. injection Hk as ->.
    rewrite (Hsc (Z.to_nat g) (Z.min x score)) by (apply list_lookup_insert_eq; by eapply lookup_lt_Some).
    rewrite (bool_decide_true (_ ∈ g :: groups)) by (rewrite Z2Nat.id by done; by left).
    case_bool_decide; f_equal; lia.
  - rewrite (Hsc k x) by (by rewrite list_lookup_insert_ne).
    rewrite (bool_decide_ext (Z.of_nat k ∈ g :: groups) (Z.of_nat k ∈ groups)); [done|].
    rewrite elem_of_cons. split; [intros [?|?]; [lia|done]|by right].
Qed.

(** The score of group [g]: the least of its counted test data. *)
Definition group_min (g : nat) (start : Z) (l : list (TestdataItem * TestdataResult)) : Z :=
  foldl (fun acc p => if bool_decide (Z.of_nat g ∈ td_groups p.1) then Z.min acc (td_score p.2) else acc)
    start l.

Lemma sum_testdata_spec items tds t : (length tds <= length items)%nat ->
  (forall item g, item ∈ items -> g ∈ td_groups item -> 0 <= g < Z.of_nat (length (tot_scores t))) ->
  exists t', sum_testdata items tds t = Done t' /\
    tot_memory t' = foldl Z.max (tot_memory t) (map td_rss (counted items tds).*2) /\
    tot_time t' = foldl (fun acc x => to_long (acc + x)) (tot_time t) (map td_time (counted items tds).*2) /\
    length (tot_scores t') = length (tot_scores t) /\
    forall g x, tot_scores t !! g = Some x -> tot_scores t' !! g = Some (group_min g x (counted items tds)).
Proof.
  revert items t. induction tds as [|td tds IH]; intros [|item items] t Hl Hg; simpl in Hl; try lia;
    [exists t; by split_and!..|].
  rewrite counted_cons. cbn [sum_testdata].
  assert (Hg' : forall item g, item ∈ items -> g ∈ td_groups item -> 0 <= g < Z.of_nat (length (tot_scores t)))
    by (intros; eapply Hg; [by right|done]).
  destruct (ignore_verdict item); [apply IH; [lia|done]|].
  destruct (lower_groups_spec (td_score td) (td_groups item) (tot_scores t)) as (sc & -> & Hlen & Hsc).
  { intros g Hgi. eapply Hg; [by left|done]. }
  destruct (IH items {| tot_memory := Z.max (tot_memory t) (td_rss td);
    tot_time := to_long (tot_time t + td_time td); tot_scores := sc |}) as (t' & -> & Hm & Ht & Hlt & Hs);
    [lia|simpl; by rewrite Hlen|].
  exists t'. split; [done|]. split; [exact Hm|]. split; [exact Ht|]. split; [simpl in Hlt; congruence|].
  intros g x Hx. simpl. by apply Hs, Hsc.
Qed.

Definition group_scores (n : nat) (l : list (TestdataItem * TestdataResult)) : list Z :=
  (fun g => group_min g kInfScore l) <$> seq 0 n.

(** The weighted sum without overflow; a group without test data counts full. *)
Fixpoint weighted_sum (scores weights : list Z) : Z :=
  match scores, weights with
  | score :: scores', weight :: weights' =>
      (if score =? kInfScore then 100000000 else score) * weight + weighted_sum scores' weights'
  | _, _ => 0
  end.

Lemma weigh_groups_exact scores weights acc n :
  Forall (fun x => Z.abs x <= kInfScore) scores -> Forall is_long weights ->
  (length scores <= n)%nat -> Z.of_nat n <= 2 ^ 20 ->
  Z.abs acc <= (2 ^ 20 - Z.of_nat n) * 2 ^ 104 ->
  weigh_groups scores weights acc = acc + weighted_sum scores weights /\
  Z.abs (acc + weighted_sum scores weights) <= 2 ^ 124.
Proof.
  revert weights acc n. induction scores as [|x scores IH]; intros weights acc n Hs Hw Hn Hb Ha.
  { destruct weights; simpl; split; lia. }
  destruct weights as [|w weights]; [simpl; split; lia|].
  apply Forall_cons in Hs as [Hx Hs]. apply Forall_cons in Hw as [Hw Hws]. simpl in Hn.
  cbn [weigh_groups weighted_sum]. set (y := if x =? kInfScore then _ else x).
  assert (Hy : Z.abs (y * w) <= 2 ^ 104).
  { rewrite Z.abs_mul. unfold in_signed in Hw. simpl in Hw.
    assert (Z.abs y <= 2 ^ 41) by (unfold y, kInfScore in *; destruct (_ =? _); lia).
    assert (Z.abs w <= 2 ^ 63) by lia. replace (2 ^ 104) with (2 ^ 41 * 2 ^ 63) by reflexivity.
    apply Z.mul_le_mono_nonneg; lia. }
  destruct n as [|n]; [lia|].
  assert (Ha' : Z.abs (acc + y * w) <= (2 ^ 20 - Z.of_nat n) * 2 ^ 104) by lia.
  rewrite wrap_signed_id; [|lia|unfold in_signed; simpl; lia].
  destruct (IH weights (acc + y * w) n Hs Hws ltac:(lia) ltac:(lia) Ha') as [-> Hb'].
  split; [lia|]. rewrite Z.add_assoc. done.
Qed.

(** ** The overall score is bounded *)

Lemma ld_of_Z_not_nan z : is_nan (ld_of_Z z) = false.
Proof. destruct z; [done|apply binary_round_not_nan..]. Qed.

Lemma score_quotient_valid x : valid_ld x -> is_nan x = false ->
  let q := ld_div x (ld_of_Z (100000000 * 1000000)) in valid_ld q /\ is_nan q = false.
Proof.
  intros Hx Hn. cbv zeta.
  assert (E : ld_of_Z (100000000 * 1000000) = S754_finite false 13107200000000000000 (-17))
    by (vm_compute; reflexivity).
  rewrite E. unfold ld_div. destruct x as [s|s| |s m e]; try done. unfold SFdiv.
  pose proof (div_round_valid ld_prec ld_emax ltac:(done) ltac:(done) (xorb s false) (Zpos m) e
    13107200000000000000 (-17) ltac:(lia) ltac:(lia)) as Hv.
  pose proof (div_round_not_nan (xorb s false) (Zpos m) e 13107200000000000000 (-17) ltac:(lia) ltac:(lia)) as Hnn.
  destruct (SFdiv_core_binary _ _ _ _ _ _) as [[q e'] l]. done.
Qed.

Lemma overall_score_bound scores weights : Z.abs (overall_score scores weights) <= 10 ^ 12.
Proof.
  unfold overall_score.
  destruct (score_quotient_valid (ld_of_Z (weigh_groups scores weights 0))) as [Hv Hn];
    [apply ld_of_Z_valid|apply ld_of_Z_not_nan|]. by apply NormalizeScore_abs.
Qed.

Lemma group_min_bound g start l : Z.abs start <= kInfScore ->
  Forall (fun p => Z.abs (td_score p.2) <= 10 ^ 12) l -> Z.abs (group_min g start l) <= kInfScore.
Proof.
  unfold group_min, kInfScore. revert start. induction l as [|p l IH]; intros start Hs Hl; simpl; [done|].
  apply Forall_cons in Hl as [Hp Hl]. apply IH; [|done]. case_bool_decide; lia.
Qed.

Lemma elem_of_zip_r {A B} (l : list A) (k : list B) x y : (x, y) ∈ zip l k -> y ∈ k.
Proof.
  revert k. induction l as [|a l IH]; intros [|b k]; simpl; try (intros Hn; by apply elem_of_nil in Hn).
  rewrite !elem_of_cons. intros [[= -> ->]|Hin]; [by left|right; by apply IH].
Qed.

(** ** The theorems *)

Section Summary.
Context `{PathRoots} `{Config} `{JsonText} (env : Env).

(** C24: when no compilation failed, the overall verdict is the worst verdict
    of the test data that count, and AC when none counts; it is stored, and
    only a submission with a summary program (and no JCE) goes on to run it.
    The only failure is the [length_error] of printing a negative score for
    that program. *)
Theorem SetupSummary_verdict s key sr task :
  submission_list s !! key = Some sr ->
  (length (td_results (sr_result sr)) <= length (testdata (sr_sub sr)))%nat ->
  verdict (sr_result sr) = NUL ->
  exists v,
    Verdict_to_nat v = foldl Nat.max (Verdict_to_nat AC)
      (map severity (counted (testdata (sr_sub sr)) (td_results (sr_result sr))).*2) /\
    match SetupSummary env key task s with
    | Done (b, s') =>
        submission_list s' = <[key := with_result sr (set_verdict v (sr_result sr))]> (submission_list s) /\
        (b = true <-> summary_type (sr_sub sr) <> SUMMARY_NONE /\ v <> JCE)
    | Crash f => f = LengthError /\ summary_type (sr_sub sr) <> SUMMARY_NONE
    end.
Proof.
  intros Hsr Hlen Hv.
  destruct (overall_verdict_max _ _ AC Hlen) as (v & Hov & Hmax). exists v. split; [done|].
  unfold SetupSummary. unfold mbind at 1, M_bind at 1. rewrite (get_sub_run key s sr Hsr).
  rewrite (bool_decide_true _ Hv), Hov. unfold mbind at 1, M_bind at 1, lift_outcome at 1.
  unfold mbind at 1, M_bind at 1. rewrite (modify_res_run key s sr Hsr).
  set (r := set_verdict v (sr_result sr)). set (s1 := set_submission_list _ s).
  destruct (bool_decide (summary_type (sr_sub sr) = SUMMARY_NONE) || bool_decide (v = JCE)) eqn:Ec.
  { split; [done|]. split; [done|]. apply orb_true_iff in Ec as [E%bool_decide_eq_true|E%bool_decide_eq_true];
      by intros [? ?]. }
  apply orb_false_iff in Ec as [E1%bool_decide_eq_false E2%bool_decide_eq_false].
  unfold mbind at 1, M_bind at 1, emit at 1, modify at 1.
  set (s2 := add_events _ s1).
  assert (Hif : exists evs, (if env_is_regular env (CompileBoxMessage (submission_internal_id (sr_sub sr)) USERPROG false)
    then emit [EvMove (CompileBoxMessage (submission_internal_id (sr_sub sr)) USERPROG false)
      (SummaryBoxCEMessage (submission_internal_id (sr_sub sr)) false) (Some kPerm666)]
    else emit [EvWrite (SummaryBoxCEMessage (submission_internal_id (sr_sub sr)) false) "";
      EvPermissions (SummaryBoxCEMessage (submission_internal_id (sr_sub sr)) false) kPerm666]) s2
    = Done (tt, add_events evs s2)) by (destruct (env_is_regular _ _); by eexists).
  destruct Hif as [evs Hif]. unfold mbind at 1, M_bind at 1. rewrite Hif.
  set (s3 := add_events evs s2).
  assert (Hsr3 : submission_list s3 !! key = Some (with_result sr r)) by apply lookup_insert_eq.
  unfold mbind at 1, M_bind at 1, get_res at 1. unfold mbind at 1, M_bind at 1.
  rewrite (get_sub_run key s3 _ Hsr3). unfold mret at 1, M_ret at 1.
  unfold mbind at 1, M_bind at 1, lift_outcome at 1.
  destruct (SummaryMeta (sr_sub sr) (sr_result (with_result sr r))) as [meta|f] eqn:Em.
  - unfold mbind, M_bind, emit, modify, mret, M_ret. split; [done|]. split; done.
  - split; [|done]. eapply SummaryMeta_length; [|exact Em]. exact Hlen.
Qed.
(** C23: unless a compilation failed, the totals of a submission are: the
    largest resident memory and the 64-bit sum of the times of the test data
    that count; as score the weighted sum of the groups, each with the least
    score of its test data that count and full score when it has none.  The
    score lies within +-10^12 (10^6 points), and the weighted sum does not
    overflow its 128 bits for scores a special judge can give and fewer than
    2^20 groups. *)
Theorem compute_totals_spec sub r :
  (length (td_results r) <= length (testdata sub))%nat -> groups_ok sub -> verdict_lt (verdict r) CE = true ->
  let l := counted (testdata sub) (td_results r) in
  let scores := group_scores (length (group_score sub)) l in
  exists r', compute_totals sub r = Done r' /\ verdict r' = verdict r /\ td_results r' = td_results r /\
    total_memory r' = foldl Z.max 0 (map td_rss l.*2) /\
    total_time r' = foldl (fun acc x => to_long (acc + x)) 0 (map td_time l.*2) /\
    total_score r' = overall_score scores (group_score sub) /\ Z.abs (total_score r') <= 10 ^ 12 /\
    (Forall (fun td => Z.abs (td_score td) <= 10 ^ 12) (td_results r) -> Forall is_long (group_score sub) ->
     Z.of_nat (length (group_score sub)) < 2 ^ 20 ->
     weigh_groups scores (group_score sub) 0 = weighted_sum scores (group_score sub)).
Proof.
  intros Hlen Hg Hv. cbv zeta. unfold compute_totals. cbv zeta. simpl verdict. rewrite Hv.
  set (n := length (group_score sub)).
  destruct (sum_testdata_spec (testdata sub) (td_results r)
    {| tot_memory := 0; tot_time := 0; tot_scores := replicate n kInfScore |} Hlen)
    as (t & Ht & Hm & Htm & Hl & Hs).
  { simpl. rewrite length_replicate. exact Hg. }
  assert (Hscores : tot_scores t = group_scores n (counted (testdata sub) (td_results r))).
  { simpl in Hl. rewrite length_replicate in Hl. apply list_eq. intros g. unfold group_scores.
    destruct (decide (g < n)%nat) as [Hn|Hn].
    - rewrite (Hs g kInfScore) by (by apply lookup_replicate_2).
      by rewrite list_lookup_fmap, lookup_seq_lt.
    - rewrite !lookup_ge_None_2; [done|rewrite length_fmap, length_seq; lia|lia]. }
  simpl td_results. rewrite Ht, Hscores. eexists. split; [done|]. split_and!; try done.
  - apply overall_score_bound.
  - intros Hb Hw Hn. simpl td_results.
    destruct (weigh_groups_exact (group_scores n (counted (testdata sub) (td_results r))) (group_score sub) 0 n)
      as [-> _]; [|done|by unfold group_scores; rewrite length_fmap, length_seq|lia|lia|lia].
    apply Forall_fmap, Forall_forall. intros g _. apply group_min_bound.
    + done.
    + apply Forall_forall. intros [item td] Hin. unfold counted in Hin. apply list_elem_of_filter in Hin as [_ Hin].
      apply elem_of_zip_r in Hin. by eapply Forall_forall in Hb.
Qed.

(** C27: finishing a submission always succeeds; it removes the submission and
    its cancellation from the judge, reports the overall result (the totals,
    as changed by the summary program if one ran) exactly once unless the
    submission was cancelled, and removes its files. *)
Theorem FinalizeSummary_effect s key sr task res skipped :
  submission_list s !! key = Some sr -> submission_internal_id (sr_sub sr) = key ->
  res_ok (sr_sub sr) (sr_result sr) -> groups_ok (sr_sub sr) ->
  exists s' r evs, FinalizeSummary env key task res skipped s = Done (tt, s') /\
    final_result env (sr_sub sr) (sr_result sr) res skipped = Some r /\
    submission_list s' = delete key (submission_list s) /\
    cancelled_list s' = cancelled_list s ∖ {[key]} /\ cancelled_group s' !! key = None /\
    graph s' = graph s /\ handle_map s' = handle_map s /\
    trace s' = trace s ++ evs /\ EvRemoveAll (SubmissionRunPath key) ∈ evs /\
    (remove_submission (sr_sub sr) = true -> EvRemoveAll (SubmissionCodePath key) ∈ evs) /\
    overall_of evs = (if bool_decide (key ∈ cancelled_list s) then []
                      else if ReportOverallResult (reporter (sr_sub sr)) then [(sr_sub sr, r)] else []).
Proof.
  intros Hsr Hid Hok Hg.
  destruct (final_result_some env (sr_sub sr) (sr_result sr) res skipped Hok Hg) as [r Hr].
  eexists _, r, _. split; [exact (FinalizeSummary_run env key s sr Hsr task res skipped r Hid Hr)|].
  split_and!; try done.
  - apply lookup_delete_eq.
  - unfold summary_events. rewrite Hid. set_solver.
  - unfold summary_events. rewrite Hid. intros ->. set_solver.
  - unfold summary_events. rewrite Hid, !overall_of_app.
    destruct (remove_submission _), (ReportOverallResult _), (ReportFinalized _), (bool_decide _); done.
Qed.
End Summary.

(** ** Witnesses *)

#[local] Existing Instance sample_roots.
#[local] Existing Instance sample_config.
#[local] Existing Instance sample_json.

(** One accepted test data and one with a wrong answer and 30 points. *)
Definition half_right : SubmissionResult :=
  set_td_results
    [set_td_time 500 (set_td_rss 800 (set_td_score 100000000 (set_td_verdict AC empty_TestdataResult)));
     set_td_time 700 (set_td_rss 300 (set_td_score 30000000 (set_td_verdict WA empty_TestdataResult)))]
    empty_SubmissionResult.

Lemma half_right_ok : res_ok (sr_sub (sample_record SJ_NORMAL false half_right)) half_right.
Proof. split; [simpl; lia|]. repeat constructor. Qed.

Lemma sample_groups_ok r : groups_ok (sr_sub (sample_record SJ_NORMAL false r)).
Proof.
  intros item g Hi Hg. simpl in Hi. rewrite !elem_of_cons in Hi.
  destruct Hi as [->|[->|Hi]]; [..|by apply elem_of_nil in Hi]; simpl in Hg;
    apply list_elem_of_singleton in Hg; subst; simpl; lia.
Qed.

Lemma SetupSummary_verdict_witness : exists v, v = WA /\
  match SetupSummary sample_env 7 Push.summary_task (sample_state SJ_NORMAL false half_right) with
  | Done (b, s') => submission_list s' !! 7 = Some (sample_record SJ_NORMAL false (set_verdict v half_right))
  | Crash _ => False
  end.
Proof.
  destruct (SetupSummary_verdict sample_env (sample_state SJ_NORMAL false half_right) 7
    (sample_record SJ_NORMAL false half_right) Push.summary_task) as (v & Hv & Hm);
    [reflexivity|simpl; lia|reflexivity|].
  exists v. split; [destruct v; vm_compute in Hv; congruence|].
  destruct (SetupSummary _ _ _ _) as [[b s']|f]; [|destruct Hm as [_ Hn]; by apply Hn].
  destruct Hm as [-> _]. reflexivity.
Defined.

Lemma compute_totals_spec_witness : exists r',
  compute_totals (sr_sub (sample_record SJ_NORMAL false half_right)) (set_verdict WA half_right) = Done r' /\
  total_memory r' = 800 /\ total_time r' = 1200 /\ total_score r' = 30000000.
Proof.
  destruct (compute_totals_spec (sr_sub (sample_record SJ_NORMAL false half_right)) (set_verdict WA half_right))
    as (r' & Hr & _ & _ & Hm & Ht & Hs & _); [simpl; lia|apply sample_groups_ok|reflexivity|].
  exists r'. rewrite Hm, Ht, Hs. split; [exact Hr|]. vm_compute. repeat split.
Defined.

Lemma FinalizeSummary_effect_witness : exists s' r,
  FinalizeSummary sample_env 7 Push.summary_task zero_cjail_result true (sample_state SJ_NORMAL false half_right)
    = Done (tt, s') /\ submission_list s' = ∅ /\
  overall_of (trace s') = [(sr_sub (sample_record SJ_NORMAL false half_right), r)].
Proof.
  destruct (FinalizeSummary_effect sample_env (sample_state SJ_NORMAL false half_right) 7
    (sample_record SJ_NORMAL false half_right) Push.summary_task zero_cjail_result true)
    as (s' & r & evs & Hrun & _ & Hl & _ & _ & _ & _ & Ht & _ & _ & Ho);
    [reflexivity|reflexivity|apply half_right_ok|apply sample_groups_ok|].
  exists s', r. split; [exact Hrun|]. split; [rewrite Hl; reflexivity|].
  rewrite Ht. exact Ho.
Defined.
