(* ===== verification/MessageSpec.v ===== *)
(** * The filter of compiler messages

    FinalizeCompile of src/tioj/submission.cpp replaces the parts of a message
    that come from the headers of the judge. *)

From S2P Require Import Prelude Enums Text Stream Handlers.

Lemma strip_prefix_length p s r : strip_prefix p s = Some r ->
  (String.length s = String.length p + String.length r)%nat.
Proof.
  revert s. induction p as [|a p IH]; intros [|b s]; simpl; try done; [by intros [= <-]..|].
  destruct (is_char a b); [|done]. intros Hs. by rewrite (IH s Hs).
Qed.

Lemma after_first_length p s r : after_first p s = Some r -> (String.length r + String.length p <= String.length s)%nat.
Proof.
  induction s as [|c s IH]; simpl.
  - destruct (strip_prefix p "") eqn:E; [|done]. intros [= <-]. apply strip_prefix_length in E. simpl in *. lia.
  - destruct (strip_prefix p (String c s)) eqn:E.
    + intros [= <-]. apply strip_prefix_length in E. simpl in *. lia.
    + intros Hr. specialize (IH Hr). lia.
Qed.

Definition header_line : string := NL +:+ header_start.

Fixpoint no_newline (p : string) : Prop :=
  match p with EmptyString => True | String a p' => a <> ascii_of_nat 10 /\ no_newline p' end.

(** One step of the filter that does not match. *)
Lemma filter_loop_copy fuel c s : strip_prefix header_line (String c s) = None ->
  filter_loop (S fuel) false (String c s) = String c (filter_loop fuel false s).
Proof. intros E. cbn [filter_loop]. unfold header_line in E. by rewrite E. Qed.

(** One that does. *)
Lemma filter_loop_match fuel s rest : strip_prefix header_line s = Some rest ->
  filter_loop (S fuel) false s = NL +:+ header_note +:+
    match after_first header_end rest with
    | Some rest' => header_end +:+ filter_loop fuel false rest'
    | None => ""
    end.
Proof. intros E. cbn [filter_loop]. unfold header_line in E. by rewrite E. Qed.

(** What precedes the first line break is copied. *)
Lemma filter_loop_prefix p fuel s : no_newline p ->
  strip_prefix p (filter_loop fuel false s) <> None -> strip_prefix p s <> None.
Proof.
  revert p s. induction fuel as [|fuel IH]; intros p s Hp; [done|].
  destruct p as [|a p]; [done|]. destruct Hp as [Ha Hp].
  destruct (strip_prefix header_line s) as [rest|] eqn:E.
  { rewrite (filter_loop_match _ _ _ E). unfold NL. simpl. unfold is_char.
    rewrite bool_decide_false by congruence. done. }
  destruct s as [|c s]; [done|]. rewrite filter_loop_copy by done. cbn [strip_prefix].
  destruct (is_char a c); [|done]. by apply IH.
Qed.

Lemma after_first_copy p c s : strip_prefix p (String c s) = None ->
  after_first p (String c s) = after_first p s.
Proof. intros E. cbn [after_first]. by rewrite E. Qed.

Lemma strip_prefix_line c s : strip_prefix header_line (String c s) <> None ->
  c = ascii_of_nat 10 /\ strip_prefix header_start s <> None.
Proof.
  change header_line with (String (ascii_of_nat 10) header_start). cbn [strip_prefix]. unfold is_char.
  case_bool_decide; done.
Qed.

(** Text without a line break at its start cannot begin a line. *)
Lemma after_first_skip c s : c <> ascii_of_nat 10 ->
  after_first header_line (String c s) = after_first header_line s.
Proof.
  intros Hc. apply after_first_copy. destruct (strip_prefix _ _) eqn:E; [|done].
  destruct (strip_prefix_line c s) as [? _]; [by rewrite E|done].
Qed.

Lemma after_first_text p s : no_newline p ->
  after_first header_line (p +:+ s) = after_first header_line s.
Proof.
  induction p as [|a p IH]; [done|]. intros [Ha Hp].
  change (String a p +:+ s) with (String a (p +:+ s)).
  by rewrite after_first_skip, IH.
Qed.

Lemma after_first_note s : after_first header_line (header_note +:+ s) = after_first header_line s.
Proof. apply after_first_text. vm_compute. by repeat split. Qed.

(** A line break that is not followed by the trace. *)
Lemma after_first_break c s : c <> "I"%char ->
  after_first header_line (String (ascii_of_nat 10) (String c s)) = after_first header_line (String c s).
Proof.
  intros Hc. apply after_first_copy. change header_line with (String (ascii_of_nat 10) header_start).
  cbn [strip_prefix]. unfold is_char at 1. rewrite bool_decide_true by done.
  change header_start with (String "I"%char (String.substring 1 20 header_start)).
  cbn [strip_prefix]. unfold is_char at 1. by rewrite bool_decide_false.
Qed.

Lemma after_first_end s : after_first header_line (header_end +:+ s) = after_first header_line s.
Proof.
  change (header_end +:+ s) with (String (ascii_of_nat 10) (String "/" ("workdir/prog" +:+ s))).
  rewrite after_first_break by done. change (String "/" ("workdir/prog" +:+ s)) with ("/workdir/prog" +:+ s).
  apply after_first_text. vm_compute. by repeat split.
Qed.

Lemma after_first_NL_note s :
  after_first header_line (NL +:+ header_note +:+ s) = after_first header_line s.
Proof.
  rewrite <- (after_first_note s).
  apply (after_first_break "[" (String.substring 1 37 header_note +:+ s)). done.
Qed.

Lemma filter_loop_lines fuel s : (String.length s < fuel)%nat ->
  after_first header_line (filter_loop fuel false s) = None.
Proof.
  revert s. induction fuel as [|fuel IH]; intros s Hf; [lia|].
  destruct (strip_prefix header_line s) as [rest|] eqn:E.
  - rewrite (filter_loop_match _ _ _ E), after_first_NL_note.
    destruct (after_first header_end rest) as [rest'|] eqn:Ea; [|done].
    rewrite after_first_end. apply IH. apply strip_prefix_length in E. apply after_first_length in Ea.
    unfold header_line, header_end in *. simpl in *. lia.
  - destruct s as [|c s]; [done|]. rewrite filter_loop_copy by done. simpl in Hf.
    rewrite after_first_copy; [apply IH; lia|].
    destruct (strip_prefix header_line (String c (filter_loop fuel false s))) eqn:E2; [|done].
    destruct (strip_prefix_line c (filter_loop fuel false s)) as [-> Hp]; [by rewrite E2|].
    exfalso. apply filter_loop_prefix in Hp; [|by vm_compute; repeat split].
    apply Hp. change header_line with (String (ascii_of_nat 10) header_start) in E.
    cbn [strip_prefix] in E. unfold is_char in E. by rewrite bool_decide_true in E.
Qed.

Lemma filter_loop_id fuel s : after_first header_line s = None -> filter_loop fuel false s = s.
Proof.
  revert s. induction fuel as [|fuel IH]; intros s Hs; [done|].
  destruct s as [|c s]; [done|]. cbn [after_first] in Hs.
  destruct (strip_prefix header_line (String c s)) eqn:E; [done|].
  rewrite filter_loop_copy by done. by rewrite IH.
Qed.

(** Whatever a compiler prints, no line of the filtered message starts
    with the include trace of a header, neither the first line nor a later
    one; a message without such a line is left as it is. *)
Theorem filter_headers_clean s :
  (strip_prefix header_start (filter_headers s) = None /\
   after_first header_line (filter_headers s) = None) /\
  (strip_prefix header_start s = None -> after_first header_line s = None -> filter_headers s = s).
Proof.
  unfold filter_headers. cbn [filter_loop]. fold header_line.
  destruct (strip_prefix header_start s) as [rest|] eqn:Es.
  - split; [|done]. split; [reflexivity|].
    match goal with |- after_first _ ("" +:+ ?x) = _ => change ("" +:+ x) with x end.
    rewrite after_first_note.
    destruct (after_first header_end rest) as [rest'|] eqn:Ea; [|done].
    rewrite after_first_end. apply filter_loop_lines. apply strip_prefix_length in Es.
    apply after_first_length in Ea. simpl in *. lia.
  - assert (Hl : filter_loop (S (String.length s)) false s =
      match strip_prefix header_line s with
      | Some rest => NL +:+ header_note +:+
          match after_first header_end rest with
          | Some rest' => header_end +:+ filter_loop (String.length s) false rest'
          | None => ""
          end
      | None => match s with
                | EmptyString => ""
                | String c s' => String c (filter_loop (String.length s) false s')
                end
      end) by reflexivity.
    rewrite <- Hl. split; [split|].
    + destruct (strip_prefix header_start (filter_loop _ false s)) eqn:E; [|done].
      exfalso. apply (filter_loop_prefix header_start (S (String.length s)) s); [by vm_compute; repeat split| |done].
      by rewrite E.
    + apply filter_loop_lines. lia.
    + intros _ Hs. by apply filter_loop_id.
Qed.
