(* ===== verification/Sandbox.v ===== *)
(** * The sandbox options and their transfer

    [SandboxOptions] of src/tioj/sandbox.h and sandbox.cpp, its serialisation,
    the translation to cjail's context, and the exchange between
    [SandboxExec] (sandbox_exec.cpp) and the sandbox-exec program
    (sandbox_main.cpp) over pipes read and written with [ReadFull] and
    [WriteFull] (sandbox_io.h).

    A byte buffer is a [string].  [Int] is [long]: 8 bytes, little endian, as
    on the supported target.  Reading past the end of the buffer and resizing
    to a negative length have no result. *)

From S2P Require Import Prelude Text Data.

Definition kUidBase : Z := 50000.
Definition kUidPoolSize : Z := 100.
Definition kSandboxMaxPayload : Z := 2 ^ 20.

Record SandboxOptions := {
  boxdir : string;
  command : list string;
  preserve_env : bool;
  envs : list string;
  workdir : string; opt_input : string; opt_output : string; opt_error : string;
  fd_input : Z; fd_output : Z; fd_error : Z;
  cpu_set : list Z;
  uid : Z; gid : Z;
  wall_time : Z; cpu_time : Z;
  opt_rss : Z; opt_vss : Z;
  proc_num : Z;
  file_num : Z;
  fsize : Z;
  dirs : list string;
}.

(** ** Bytes *)

Definition byte_of (z : Z) : ascii := ascii_of_nat (Z.to_nat (z `mod` 256)).
Definition byte_value (c : ascii) : Z := Z.of_nat (nat_of_ascii c).

Fixpoint int_bytes (n : nat) (z : Z) : string :=
  match n with
  | O => ""
  | S n' => String (byte_of z) (int_bytes n' (z / 256))
  end.

Fixpoint bytes_int (n : nat) (s : string) : option (Z * string) :=
  match n, s with
  | O, _ => Some (0, s)
  | S _, EmptyString => None
  | S n', String c s' =>
      match bytes_int n' s' with
      | Some (r, rest) => Some (byte_value c + 256 * r, rest)
      | None => None
      end
  end.

(** ** Serialize *)

Definition PushInt (r : Z) : string := int_bytes 8 r.
Definition PushString (str : string) : string := PushInt (Z.of_nat (String.length str)) +:+ str.

Fixpoint push_all {A} (push : A -> string) (l : list A) : string :=
  match l with [] => "" | x :: l' => push x +:+ push_all push l' end.
Definition PushVector {A} (push : A -> string) (l : list A) : string :=
  PushInt (Z.of_nat (length l)) +:+ push_all push l.

Definition uid_allowed (u : Z) : bool := (kUidBase <=? u) && (u <? kUidBase + kUidPoolSize).

Definition payload (o : SandboxOptions) : string :=
  PushString (boxdir o) +:+ PushVector PushString (command o) +:+ PushInt (Z.b2z (preserve_env o)) +:+
  PushVector PushString (envs o) +:+ PushString (workdir o) +:+ PushString (opt_input o) +:+
  PushString (opt_output o) +:+ PushString (opt_error o) +:+
  PushInt (fd_input o) +:+ PushInt (fd_output o) +:+ PushInt (fd_error o) +:+
  PushVector PushInt (cpu_set o) +:+ PushInt (uid o) +:+ PushInt (gid o) +:+
  PushInt (wall_time o) +:+ PushInt (cpu_time o) +:+ PushInt (opt_rss o) +:+ PushInt (opt_vss o) +:+
  PushInt (proc_num o) +:+ PushInt (file_num o) +:+ PushInt (fsize o) +:+ PushVector PushString (dirs o).

Definition Serialize (o : SandboxOptions) : string :=
  if uid_allowed (uid o) && uid_allowed (gid o) then payload o else "".

(** ** The constructor from a buffer *)

Definition reader (A : Type) : Type := string -> option (A * string).
#[global] Instance reader_ret : MRet reader := fun A a s => Some (a, s).
#[global] Instance reader_bind : MBind reader := fun A B k m s =>
  match m s with Some (a, s') => k a s' | None => None end.

Definition read_fail {A} : reader A := fun _ => None.

Definition ReadInt : reader Z := fun s =>
  match bytes_int 8 s with Some (r, s') => Some (to_long r, s') | None => None end.

(** The first [n] bytes. *)
Fixpoint take_bytes (n : nat) (s : string) : option (string * string) :=
  match n, s with
  | O, _ => Some ("", s)
  | S _, EmptyString => None
  | S n', String c s' =>
      match take_bytes n' s' with Some (t, r) => Some (String c t, r) | None => None end
  end.

Definition ReadString : reader string :=
  size ← ReadInt;
  if size <? 0 then read_fail else (take_bytes (Z.to_nat size) : reader string).

Fixpoint read_all {A} (read : reader A) (n : nat) : reader (list A) :=
  match n with
  | O => mret []
  | S n' => x ← read; l ← read_all read n'; mret (x :: l)
  end.

Definition ReadVector {A} (read : reader A) : reader (list A) :=
  n ← ReadInt;
  if n <? 0 then read_fail else read_all read (Z.to_nat n).

(** An [int] member. *)
Definition ReadInt32 : reader Z := r ← ReadInt; mret (to_int r).

Definition Deserialize : reader SandboxOptions :=
  boxdir ← ReadString;
  command ← ReadVector ReadString;
  preserve_env ← ReadInt;
  envs ← ReadVector ReadString;
  workdir ← ReadString;
  input ← ReadString;
  output ← ReadString;
  error ← ReadString;
  fd_input ← ReadInt32;
  fd_output ← ReadInt32;
  fd_error ← ReadInt32;
  cpu_set ← ReadVector ReadInt32;
  uid ← ReadInt32;
  gid ← ReadInt32;
  wall_time ← ReadInt;
  cpu_time ← ReadInt;
  rss ← ReadInt;
  vss ← ReadInt;
  proc_num ← ReadInt32;
  file_num ← ReadInt32;
  fsize ← ReadInt;
  dirs ← ReadVector ReadString;
  mret {| boxdir := boxdir; command := command; preserve_env := negb (preserve_env =? 0); envs := envs;
          workdir := workdir; opt_input := input; opt_output := output; opt_error := error;
          fd_input := fd_input; fd_output := fd_output; fd_error := fd_error; cpu_set := cpu_set;
          uid := uid; gid := gid; wall_time := wall_time; cpu_time := cpu_time; opt_rss := rss;
          opt_vss := vss; proc_num := proc_num; file_num := file_num; fsize := fsize; dirs := dirs |}.

(** ** Pipes

    What one call of [read] or [write] may do: transfer some bytes, be
    interrupted, fail, or report the end. *)

Inductive transfer :=
| Moved (n : nat)       (* a positive count *)
| Interrupted           (* -1 with EINTR *)
| Failed                (* -1 with another errno *)
| Ended.                (* 0 *)

(** [ReadFull] on a pipe that delivers [available]: the bytes read and the
    rest; [calls] is what the successive calls of [read] do. *)
Fixpoint ReadFull (calls : list transfer) (n : nat) (available : string) : option (string * string) :=
  match n with
  | O => Some ("", available)
  | _ =>
      match calls with
      | [] => None
      | Interrupted :: calls' => ReadFull calls' n available
      | Failed :: _ | Ended :: _ => None
      | Moved k :: calls' =>
          if (0 <? k)%nat && (k <=? n)%nat then
            match take_bytes k available with
            | None => None
            | Some (got, rest) =>
                match ReadFull calls' (n - k) rest with
                | Some (got', rest') => Some (got +:+ got', rest')
                | None => None
                end
            end
          else None
      end
  end.

(** [WriteFull]: what has gone into the pipe. *)
Fixpoint WriteFull (calls : list transfer) (buf : string) : bool * string :=
  match buf with
  | EmptyString => (true, "")
  | _ =>
      match calls with
      | [] => (false, "")
      | Interrupted :: calls' => WriteFull calls' buf
      | Failed :: _ | Ended :: _ => (false, "")
      | Moved k :: calls' =>
          match (if (0 <? k)%nat then take_bytes k buf else None) with
          | None => (false, "")
          | Some (now, rest) =>
              let '(ok, sent) := WriteFull calls' rest in (ok, now +:+ sent)
          end
      end
  end.

(** ** The exchange *)

(** What [SandboxExec] writes, or nothing when it kills the child. *)
Definition request (o : SandboxOptions) : option string :=
  let vec := Serialize o in
  if bool_decide (vec = "") || (kSandboxMaxPayload <? Z.of_nat (String.length vec)) then None
  else Some (PushInt (Z.of_nat (String.length vec)) +:+ vec).

(** What the child's [main] makes of its input; [None]: it exits with 1. *)
Definition read_request (calls1 calls2 : list transfer) (stdin : string) : outcome (option SandboxOptions) :=
  match ReadFull calls1 8 stdin with
  | None => Done None
  | Some (head, rest) =>
      match ReadInt head with
      | None => Done None
      | Some (sz, _) =>
          if (sz <=? 0) || (kSandboxMaxPayload <? sz) then Done None
          else
            match ReadFull calls2 (Z.to_nat sz) rest with
            | None => Done None
            | Some (buf, _) =>
                match Deserialize buf with
                | Some (o, _) => Done (Some o)
                | None => Crash OutOfBounds
                end
            end
      end
  end.

(** ** The context of cjail *)

(** The members of [struct cjail_ctx] that are set; [None] leaves the
    library's default. *)
Record jail_mount := { mnt_source : string; mnt_target : string; mnt_rw : bool }.

Record cjail_ctx := {
  ctx_fd_input : option Z; ctx_fd_output : option Z; ctx_fd_error : option Z;
  ctx_redir_input : option string; ctx_redir_output : option string; ctx_redir_error : option string;
  ctx_argv : list string;
  ctx_environ : option (list string);     (* None: the caller's environment *)
  ctx_chroot : string; ctx_working_dir : string;
  ctx_cpuset : option (gset Z);
  ctx_uid : Z; ctx_gid : Z;
  ctx_rlim_as : Z; ctx_rlim_core : Z; ctx_rlim_nofile : Z; ctx_rlim_fsize : Z; ctx_rlim_proc : Z;
  ctx_cg_rss : Z;
  ctx_lim_time : Z * Z; ctx_lim_cputime : Z * Z;   (* seconds, microseconds *)
  ctx_mounts : list jail_mount;
}.

Definition NUL_char : ascii := ascii_of_nat 0.

(** [find('\0')]: the parts before and after. *)
Fixpoint split_nul (s : string) : string * option string :=
  match s with
  | EmptyString => ("", None)
  | String c s' =>
      if bool_decide (c = NUL_char) then ("", Some s')
      else let '(a, b) := split_nul s' in (String c a, b)
  end.

Definition mount_of (i : string) : jail_mount :=
  match split_nul i with
  | (src, None) => {| mnt_source := src; mnt_target := src; mnt_rw := false |}
  | (src, Some rest) =>
      let '(target, opts) := split_nul rest in
      {| mnt_source := src; mnt_target := target; mnt_rw := bool_decide (opts = Some "rw") |}
  end.

(** [CPU_SET] ignores what does not fit a [cpu_set_t] (1024 bits). *)
Definition cpu_in_range (i : Z) : Prop := 0 <= i < 1024.

Definition unless_empty (s : string) : option string := if bool_decide (s = "") then None else Some s.
Definition unless_minus_one (fd : Z) : option Z := if fd =? -1 then None else Some fd.
Definition to_timeval (us : Z) : Z * Z := (Z.quot us 1000000, Z.rem us 1000000).

Definition ToCJailCtx (o : SandboxOptions) : cjail_ctx := {|
  ctx_fd_input := unless_minus_one (fd_input o); ctx_fd_output := unless_minus_one (fd_output o);
  ctx_fd_error := unless_minus_one (fd_error o);
  ctx_redir_input := unless_empty (opt_input o); ctx_redir_output := unless_empty (opt_output o);
  ctx_redir_error := unless_empty (opt_error o);
  ctx_argv := command o;
  ctx_environ := if preserve_env o then None else Some (envs o);
  ctx_chroot := boxdir o; ctx_working_dir := workdir o;
  ctx_cpuset := match cpu_set o with [] => None | l => Some (list_to_set (filter cpu_in_range l)) end;
  ctx_uid := uid o; ctx_gid := gid o;
  ctx_rlim_as := opt_vss o; ctx_rlim_core := 0; ctx_rlim_nofile := file_num o;
  ctx_rlim_fsize := fsize o; ctx_rlim_proc := proc_num o;
  ctx_cg_rss := opt_rss o;
  ctx_lim_time := to_timeval (wall_time o); ctx_lim_cputime := to_timeval (cpu_time o);
  ctx_mounts := mount_of <$> dirs o;
|}.

(** [FilterDirs]; [exists_] is [std::filesystem::exists], which follows a
    path only up to its first zero byte. *)
Definition FilterDirs (exists_ : string -> bool) (l : list string) : list string :=
  filter (fun path => exists_ path = true) l.
