(* ===== verification/SandboxSpec.v ===== *)
(** * The transfer of the sandbox options is faithful

    The round trip of [Serialize] and the constructor from a buffer, reading
    and writing in pieces, and the exchange with the sandbox-exec program. *)

From S2P Require Import Prelude Text Data Sandbox.

(** ** Writers and readers that match *)

Class Codec {A} (push : A -> string) (read : reader A) (ok : A -> Prop) :=
  codec_roundtrip : forall x rest, ok x -> read (push x +:+ rest) = Some (x, rest).

Lemma append_assoc (a b c : string) : (a +:+ b) +:+ c = a +:+ (b +:+ c).
Proof. induction a as [|x a IH]; [done|]. change (String x ((a +:+ b) +:+ c) = String x (a +:+ (b +:+ c))). by rewrite IH. Qed.

Lemma append_nil_r (a : string) : a +:+ "" = a.
Proof. induction a as [|x a IH]; [done|]. change (String x (a +:+ "") = String x a). by rewrite IH. Qed.

Lemma append_cons x (a b : string) : String x a +:+ b = String x (a +:+ b).
Proof. done. Qed.

Lemma length_append (a b : string) : String.length (a +:+ b) = (String.length a + String.length b)%nat.
Proof. induction a as [|x a IH]; [done|]. rewrite append_cons. simpl. by rewrite IH. Qed.

Lemma byte_value_of z : byte_value (byte_of z) = z `mod` 256.
Proof.
  unfold byte_value, byte_of. pose proof (Z.mod_pos_bound z 256).
  rewrite Ascii.nat_ascii_embedding by lia. lia.
Qed.

Lemma bytes_int_app n z s : bytes_int n (int_bytes n z +:+ s) = Some (z `mod` 256 ^ Z.of_nat n, s).
Proof.
  revert z. induction n as [|n IH]; intros z; [by rewrite Z.mod_1_r|].
  cbn [int_bytes]. rewrite append_cons. cbn [bytes_int]. rewrite IH, byte_value_of. do 2 f_equal.
  rewrite Nat2Z.inj_succ, Z.pow_succ_r by lia. symmetry. apply Z.rem_mul_r; lia.
Qed.

Lemma int_bytes_length n z : String.length (int_bytes n z) = n.
Proof. revert z. induction n as [|n IH]; intros z; simpl; [done|]. by rewrite IH. Qed.

#[export] Instance codec_int : Codec PushInt ReadInt is_long.
Proof.
  intros x rest Hx. unfold ReadInt, PushInt. rewrite bytes_int_app. do 2 f_equal.
  rewrite <- (wrap_signed_id 64 x) at 2 by in_width.
  unfold wrap_signed. f_equal. change (256 ^ Z.of_nat 8) with (2 ^ 64). by rewrite Zplus_mod_idemp_l.
Qed.

#[export] Instance codec_int32 : Codec PushInt ReadInt32 is_int.
Proof.
  intros x rest Hx. unfold ReadInt32, mbind, reader_bind.
  rewrite codec_roundtrip by (unfold in_signed in *; simpl in *; lia).
  unfold mret, reader_ret. by rewrite wrap_signed_id by in_width.
Qed.

Lemma take_bytes_app a b : take_bytes (String.length a) (a +:+ b) = Some (a, b).
Proof. induction a as [|c a IH]; [done|]. rewrite append_cons. cbn [String.length take_bytes]. by rewrite IH. Qed.

(** Sizes that fit the 64-bit length fields. *)
Definition size_ok (s : string) : Prop := Z.of_nat (String.length s) < 2 ^ 63.

#[export] Instance codec_string : Codec PushString ReadString size_ok.
Proof.
  intros x rest Hx. unfold ReadString, PushString, mbind, reader_bind, size_ok in *.
  rewrite append_assoc, codec_roundtrip by (unfold in_signed; simpl in *; lia).
  rewrite (proj2 (Z.ltb_ge _ 0)) by lia. rewrite Nat2Z.id. apply take_bytes_app.
Qed.

Lemma read_all_push {A} (push : A -> string) read ok `{!Codec push read ok} l rest :
  Forall ok l -> read_all read (length l) (push_all push l +:+ rest) = Some (l, rest).
Proof.
  induction l as [|x l IH]; intros Hl; [done|]. apply Forall_cons in Hl as [Hx Hl].
  cbn [length read_all push_all]. unfold mbind, reader_bind.
  rewrite append_assoc, codec_roundtrip by done. by rewrite IH.
Qed.

Definition vector_ok {A} (ok : A -> Prop) (l : list A) : Prop :=
  Z.of_nat (length l) < 2 ^ 63 /\ Forall ok l.

#[export] Instance codec_vector {A} (push : A -> string) read ok :
  Codec push read ok -> Codec (PushVector push) (ReadVector read) (vector_ok ok).
Proof.
  intros Hc l rest [Hn Hl]. unfold ReadVector, PushVector, mbind, reader_bind.
  rewrite append_assoc, codec_roundtrip by (unfold in_signed; simpl in *; lia).
  rewrite (proj2 (Z.ltb_ge _ 0)) by lia. rewrite Nat2Z.id. by eapply read_all_push.
Qed.

(** ** The whole record *)

Record ints_ok (o : SandboxOptions) : Prop := {
  io_fds : is_int (fd_input o) /\ is_int (fd_output o) /\ is_int (fd_error o);
  io_cpus : Forall is_int (cpu_set o);
  io_ids : is_int (uid o) /\ is_int (gid o);
  io_limits : is_long (wall_time o) /\ is_long (cpu_time o) /\ is_long (opt_rss o) /\
    is_long (opt_vss o) /\ is_int (proc_num o) /\ is_int (file_num o) /\ is_long (fsize o);
}.

Record sizes_ok (o : SandboxOptions) : Prop := {
  so_boxdir : size_ok (boxdir o); so_command : vector_ok size_ok (command o);
  so_envs : vector_ok size_ok (envs o); so_workdir : size_ok (workdir o);
  so_input : size_ok (opt_input o); so_output : size_ok (opt_output o); so_error : size_ok (opt_error o);
  so_cpus : Z.of_nat (length (cpu_set o)) < 2 ^ 63; so_dirs : vector_ok size_ok (dirs o);
}.

Lemma read_push {A B} (push : A -> string) (read : reader A) ok `{!Codec push read ok} (k : A -> reader B) x rest :
  ok x -> (read ≫= k) (push x +:+ rest) = k x rest.
Proof. intros Hx. unfold mbind, reader_bind. by rewrite codec_roundtrip. Qed.

Lemma bool_is_long b : is_long (Z.b2z b).
Proof. destruct b; unfold in_signed; simpl; lia. Qed.

Lemma Deserialize_payload o rest : ints_ok o -> sizes_ok o ->
  Deserialize (payload o +:+ rest) = Some (o, rest).
Proof.
  intros [(I1 & I2 & I3) I4 (I5 & I6) (I7 & I8 & I9 & I10 & I11 & I12 & I13)] [S1 S2 S3 S4 S5 S6 S7 S8 S9].
  pose proof (fun B => @read_push string B PushString ReadString size_ok _) as Rs.
  pose proof (fun B => @read_push _ B (PushVector PushString) (ReadVector ReadString) (vector_ok size_ok) _) as Rv.
  pose proof (fun B => @read_push Z B PushInt ReadInt is_long _) as Rl.
  pose proof (fun B => @read_push Z B PushInt ReadInt32 is_int _) as Ri.
  pose proof (fun B => @read_push _ B (PushVector PushInt) (ReadVector ReadInt32) (vector_ok (fun z => is_int z)) _) as Rc.
  unfold Deserialize, payload. rewrite !append_assoc.
  rewrite Rs, Rv by done. rewrite Rl by apply bool_is_long. rewrite Rv, !Rs by done.
  rewrite !Ri by done. rewrite Rc by done. rewrite !Ri by done. rewrite !Rl by done. rewrite !Ri by done.
  rewrite Rl, Rv by done.
  unfold mret, reader_ret. do 2 f_equal. destruct o. simpl. f_equal. by destruct preserve_env.
Qed.

(** ** Sizes *)

Lemma PushInt_length z : String.length (PushInt z) = 8%nat.
Proof. apply int_bytes_length. Qed.

Lemma PushString_length s : String.length (PushString s) = (8 + String.length s)%nat.
Proof. unfold PushString. by rewrite length_append, PushInt_length. Qed.

Lemma push_all_string_length l :
  (length l <= String.length (push_all PushString l))%nat /\
  Forall (fun s => (String.length s <= String.length (push_all PushString l))%nat) l.
Proof.
  induction l as [|x l [IH1 IH2]]; [by split|]. cbn [push_all]. rewrite length_append, PushString_length.
  split; [simpl; lia|]. constructor; [lia|]. eapply Forall_impl; [exact IH2|]. simpl. intros; lia.
Qed.

Lemma push_all_int_length l : (length l <= String.length (push_all PushInt l))%nat.
Proof. induction l as [|x l IH]; [done|]. cbn [push_all]. rewrite length_append, PushInt_length. simpl. lia. Qed.

Lemma vector_size_ok l n : (String.length (PushVector PushString l) <= n)%nat -> Z.of_nat n < 2 ^ 63 ->
  vector_ok size_ok l.
Proof.
  unfold PushVector. rewrite length_append, PushInt_length. intros Hn Hb.
  destruct (push_all_string_length l) as [H1 H2]. split; [lia|].
  eapply Forall_impl; [exact H2|]. unfold size_ok. simpl. intros s Hs. lia.
Qed.

Lemma payload_sizes_ok o : Z.of_nat (String.length (payload o)) < 2 ^ 63 -> sizes_ok o.
Proof.
  intros Hp. remember (String.length (payload o)) as n eqn:En. unfold payload in En.
  rewrite !length_append, !PushString_length in En.
  assert (Hc : (length (cpu_set o) <= String.length (PushVector PushInt (cpu_set o)))%nat).
  { unfold PushVector. rewrite length_append. pose proof (push_all_int_length (cpu_set o)). lia. }
  split; unfold size_ok; try lia; apply (vector_size_ok _ n); lia.
Qed.

(** ** Pipes *)

Lemma take_bytes_ok n s a b : take_bytes n s = Some (a, b) -> s = a +:+ b /\ String.length a = n.
Proof.
  revert s a. induction n as [|n IH]; intros s a; [by intros [= <- <-]|].
  destruct s as [|c s]; [done|]. cbn [take_bytes]. destruct (take_bytes n s) as [[t r]|] eqn:E; [|done].
  intros [= <- <-]. destruct (IH s t E) as [-> <-]. done.
Qed.

Lemma ReadFull_ok calls n s a b : ReadFull calls n s = Some (a, b) -> s = a +:+ b /\ String.length a = n.
Proof.
  revert n s a. induction calls as [|c calls IH]; intros [|n] s a; simpl; try done;
    try (by intros [= <- <-]).
  destruct c as [k| | |]; try done; [|apply IH].
  destruct ((0 <? k)%nat && _) eqn:Ek; [|done]. apply andb_true_iff in Ek as [_ Ek%Nat.leb_le].
  destruct (take_bytes k s) as [[g r]|] eqn:Et; [|done].
  destruct (ReadFull calls (S n - k) r) as [[g' r']|] eqn:Er; [|done]. intros [= <- <-].
  destruct (take_bytes_ok _ _ _ _ Et) as [-> Hg]. destruct (IH _ _ _ Er) as [-> Hg'].
  rewrite append_assoc, length_append. split; [done|]. lia.
Qed.

Lemma append_inj (a b c d : string) : String.length a = String.length c ->
  a +:+ b = c +:+ d -> a = c /\ b = d.
Proof.
  revert c. induction a as [|x a IH]; intros [|y c] Hl; try done.
  rewrite !append_cons. intros [= -> E]. simpl in Hl. destruct (IH c ltac:(lia) E) as [-> ->]. done.
Qed.

Lemma ReadFull_app calls n a b : String.length a = n -> ReadFull calls n (a +:+ b) <> None ->
  ReadFull calls n (a +:+ b) = Some (a, b).
Proof.
  intros Hn Hd. destruct (ReadFull calls n (a +:+ b)) as [[g r]|] eqn:E; [|done].
  destruct (ReadFull_ok _ _ _ _ _ E) as [Es Hg]. destruct (append_inj a b g r) as [-> ->]; [lia|done..].
Qed.

(** ** The theorems *)

(** Reading and writing in pieces transfers exactly the bytes asked for.
    However the calls of [read] and [write] split the data and are interrupted,
    a successful [ReadFull] yields the first [n] bytes and leaves the rest in
    the pipe, and a successful [WriteFull] has written the whole buffer; a
    failed one has written a prefix of it. *)
Theorem transfers_exact :
  (forall calls n s got rest, ReadFull calls n s = Some (got, rest) -> take_bytes n s = Some (got, rest)) /\
  (forall calls buf, exists unsent, (WriteFull calls buf).2 +:+ unsent = buf /\
     ((WriteFull calls buf).1 = true -> unsent = "")).
Proof.
  split.
  - intros calls n s got rest Hr. destruct (ReadFull_ok _ _ _ _ _ Hr) as [-> <-]. apply take_bytes_app.
  - intros calls. induction calls as [|c calls IH]; intros buf; destruct buf as [|x buf]; simpl;
      try (by exists ""); [by exists (String x buf)|].
    destruct c as [k| | |]; [|apply IH|by exists (String x buf)..].
    destruct (0 <? k)%nat; [|by exists (String x buf)].
    destruct (take_bytes k (String x buf)) as [[now rest]|] eqn:Et; [|by exists (String x buf)].
    apply take_bytes_ok in Et as [Eb _]. specialize (IH rest).
    destruct (WriteFull calls rest) as [ok sent]. simpl in *. destruct IH as (u & Hu & Hok). exists u.
    split; [|done]. by rewrite append_assoc, Hu.
Qed.

(** The constructor from a buffer inverts [Serialize]; options whose user
    or group is outside the pool of sandbox users are not serialised at all. *)
Theorem Serialize_roundtrip o : ints_ok o -> sizes_ok o ->
  (uid_allowed (uid o) && uid_allowed (gid o) = true -> Deserialize (Serialize o) = Some (o, "")) /\
  (uid_allowed (uid o) && uid_allowed (gid o) = false -> Serialize o = "").
Proof.
  intros Hi Hs. unfold Serialize. split; intros ->; [|done].
  rewrite <- (append_nil_r (payload o)). by apply Deserialize_payload.
Qed.

Lemma request_spec o msg : request o = Some msg ->
  msg = PushInt (Z.of_nat (String.length (Serialize o))) +:+ Serialize o /\ Serialize o = payload o /\
  uid_allowed (uid o) && uid_allowed (gid o) = true /\
  0 < Z.of_nat (String.length (Serialize o)) <= kSandboxMaxPayload.
Proof.
  unfold request. case_bool_decide as He; [done|]. cbn [orb].
  destruct (Z.ltb_spec kSandboxMaxPayload (Z.of_nat (String.length (Serialize o)))) as [|Hm]; [done|].
  intros [= <-]. destruct (uid_allowed (uid o) && uid_allowed (gid o)) eqn:Eu;
    [|exfalso; apply He; unfold Serialize; by rewrite Eu].
  split; [done|]. split; [unfold Serialize; by rewrite Eu|]. split; [done|].
  destruct (Serialize o); [done|simpl in *; lia].
Qed.

Lemma uid_allowed_range u : uid_allowed u = true <-> kUidBase <= u < kUidBase + kUidPoolSize.
Proof. unfold uid_allowed. rewrite andb_true_iff, Z.leb_le, Z.ltb_lt. lia. Qed.

(** What the child makes of a request that reaches it completely: the options
    that were sent when it can read everything, nothing otherwise. *)
Lemma read_request_sent o msg calls1 calls2 : ints_ok o -> request o = Some msg ->
  read_request calls1 calls2 msg =
  Done (if bool_decide (is_Some (ReadFull calls1 8 msg)) &&
           bool_decide (is_Some (ReadFull calls2 (String.length (Serialize o)) (Serialize o)))
        then Some o else None).
Proof.
  intros Hi Hr. destruct (request_spec o msg Hr) as (-> & Ep & _ & Hm). unfold read_request.
  destruct (ReadFull calls1 8 _) as [[h r]|] eqn:E1; [|done].
  rewrite ReadFull_app in E1 by (by rewrite ?E1 || apply PushInt_length). injection E1 as <- <-.
  pose proof (@codec_roundtrip Z PushInt ReadInt _ _ (Z.of_nat (String.length (Serialize o))) "") as Hc.
  rewrite append_nil_r in Hc. assert (EK : kSandboxMaxPayload = 1048576) by reflexivity.
  rewrite Hc by (unfold in_signed; simpl; lia).
  rewrite (proj2 (Z.leb_gt _ _)), (proj2 (Z.ltb_ge _ _)) by lia. cbn [orb]. rewrite Nat2Z.id.
  rewrite (bool_decide_true (is_Some (Some _))) by by eexists.
  destruct (ReadFull calls2 _ (Serialize o)) as [[buf q]|] eqn:E2; [|done].
  destruct (ReadFull_ok _ _ _ _ _ E2) as [Eb Hb].
  rewrite <- (append_nil_r (Serialize o)) in Eb at 1. apply append_inj in Eb as [<- _]; [|done].
  rewrite Ep, <- (append_nil_r (payload o)), Deserialize_payload; [done|done|].
  apply payload_sizes_ok. rewrite <- Ep. lia.
Qed.

(** What [SandboxExec] sends is what the sandbox-exec program runs: for every
    request that is sent, and however the pipe splits it, a child that reads
    its input completely gets the same options back; and a request is only
    sent for a user and group of the pool. *)
Theorem request_received o msg calls1 calls2 : ints_ok o -> request o = Some msg ->
  ReadFull calls1 8 msg <> None ->
  ReadFull calls2 (String.length (Serialize o)) (Serialize o) <> None ->
  read_request calls1 calls2 msg = Done (Some o) /\
  kUidBase <= uid o < kUidBase + kUidPoolSize /\ kUidBase <= gid o < kUidBase + kUidPoolSize.
Proof.
  intros Hi Hr H1 H2. destruct (request_spec o msg Hr) as (_ & _ & Eu & _).
  apply andb_true_iff in Eu as [Eu%uid_allowed_range Eg%uid_allowed_range]. split; [|done].
  apply not_eq_None_Some in H1, H2. rewrite (read_request_sent o msg) by done.
  by rewrite !bool_decide_true by done.
Qed.

(** ** Witnesses *)

Definition sample_options : SandboxOptions := {|
  boxdir := "/tmp/tioj_box/1"; command := ["/prog"; "0"]; preserve_env := false; envs := ["PATH=/bin"];
  workdir := "/workdir"; opt_input := "/workdir/input"; opt_output := "/workdir/output"; opt_error := "";
  fd_input := -1; fd_output := -1; fd_error := -1; cpu_set := [3]; uid := 50001; gid := 50001;
  wall_time := 2000000; cpu_time := 1050000; opt_rss := 65536; opt_vss := 0; proc_num := 1; file_num := 0;
  fsize := 65536; dirs := ["/usr"; "/lib"];
|}.

Lemma sample_ints_ok : ints_ok sample_options.
Proof. split; unfold in_signed; simpl; repeat split; try lia. repeat constructor; lia. Qed.

Lemma sample_sizes_ok : sizes_ok sample_options.
Proof. apply payload_sizes_ok. vm_compute. reflexivity. Qed.

Lemma Serialize_roundtrip_witness : Deserialize (Serialize sample_options) = Some (sample_options, "").
Proof. apply (Serialize_roundtrip sample_options sample_ints_ok sample_sizes_ok). reflexivity. Defined.

Lemma request_received_witness : exists msg, request sample_options = Some msg /\
  read_request [Interrupted; Moved 5; Moved 3]
    [Moved 100; Interrupted; Moved (String.length (Serialize sample_options) - 100)] msg = Done (Some sample_options).
Proof.
  destruct (request sample_options) as [msg|] eqn:E; [|vm_compute in E; discriminate].
  exists msg. split; [reflexivity|]. vm_compute in E. injection E as <-.
  apply (request_received sample_options);
    [apply sample_ints_ok|vm_compute; reflexivity|vm_compute; discriminate|vm_compute; discriminate].
Defined.

Example mounts_of_dirs :
  mount_of ("/src" +:+ String NUL_char ("/dst" +:+ String NUL_char "rw"))
  = {| mnt_source := "/src"; mnt_target := "/dst"; mnt_rw := true |}.
Proof. reflexivity. Qed.
