(* ===== verification/TaskRunner.v ===== *)
(** * Running tasks in the sandbox

    src/tioj/tasks.cpp: the command line and the limits of every kind of task,
    and the pools of user ids and CPUs that [RunTask], [Wait] and
    [WaitAnyResult] hand out and take back. *)

From S2P Require Import Prelude Enums Text Paths CNum Scores Data Specjudge Handlers Sandbox.
From Stdlib Require Import SpecFloat.

Definition kRSSLimitMargin : Z := 1024.
Definition kVSSLimitMargin : Z := 2048.

(** What the child process gets from its surroundings: [wordexp] with INPUT
    and OUTPUT set ([None]: it fails), the PATH variable, which directories
    exist, the configured [kMaxRSS], and the descriptor of the compiler's
    message file. *)
Class RunEnv := {
  wordexp : string -> string -> string -> option (list string);
  env_PATH : option string;
  dir_exists : string -> bool;
  kMaxRSS : Z;
  open_message : string -> Z;
}.

(** ** Command lines *)

Definition GccCompileCommand (lang : Compiler) (input interlib output : string) (is_static : bool)
    : list string :=
  let '(prog, std) :=
    match lang with
    | GCC_CPP_98 => ("g++", "-std=c++98")
    | GCC_CPP_11 => ("g++", "-std=c++11")
    | GCC_CPP_14 => ("g++", "-std=c++14")
    | GCC_CPP_17 => ("g++", "-std=c++17")
    | GCC_CPP_20 => ("g++", "-std=c++20")
    | GCC_C_90 => ("gcc", "-ansi")
    | GCC_C_99 => ("gcc", "-std=c99")
    | GCC_C_11 => ("gcc", "-std=c11")
    | GCC_C_17 => ("gcc", "-std=c17")
    | _ => ("", "")      (* unreachable: only called for these *)
    end in
  ["/usr/bin/env"; prog; std; "-O2"; "-w"] ++ (if is_static then ["-static"] else []) ++
  ["-o"; output; input] ++ (if bool_decide (interlib = "") then [] else [interlib]) ++
  (if bool_decide (prog = "gcc") then ["-lm"] else []).

Definition ExecuteCommand (lang : Compiler) (program : string) : list string :=
  match lang with
  | PYTHON2 => ["/usr/bin/env"; "python2"; program]
  | PYTHON3 => ["/usr/bin/env"; "python3"; program]
  | _ => [program]
  end.

Section Options.
Context `{PathRoots} `{Config} `{RunEnv}.

Definition ParseCommandLine (cmdline input output : string) : list string :=
  if bool_decide (cmdline = "") then [] else default [] (wordexp cmdline input output).

Definition ParseAdditionalArgs (task : CompileSubtask) (sub : Submission) (input output : string)
    : list string :=
  match task with
  | USERPROG => ParseCommandLine (user_compile_args sub) input output
  | SPECJUDGE => ParseCommandLine (specjudge_compile_args sub) input output
  | CS_SUMMARY => []
  | PROBPROG => ParseCommandLine (problem_prog_compile_args sub) input output
  end.

Definition base_command (lang : Compiler) (input interlib output : string) (strict : bool) : list string :=
  match lang with
  | RUSTC_RUST_2021 =>
      ["/usr/bin/env"; "rustc"; input; "-O"; "--edition=2021"; "-o"; output] ++
      (if strict then ["-C"; "target-feature=+crt-static"] else [])
  | HASKELL =>
      ["/usr/bin/env"; "ghc"; "-w"; "-O"; "-tmpdir"; "."; "-o"; output; input] ++
      (if strict then ["-static"; "-optl-pthread"; "-optl-static"; "-optl-fuse-ld=bfd"] else [])
  | PYTHON2 => ["/usr/bin/env"; "python2"; "-m"; "py_compile"; input]
  | PYTHON3 =>
      ["/usr/bin/env"; "python3"; "-c";
       "import py_compile;py_compile.compile('''" +:+ input +:+ "''','''" +:+ output +:+ "''')"]
  | COMPILER_CUSTOM => []
  | _ => GccCompileCommand lang input interlib output strict
  end.

(** [x /= kTimeMultiplier] of a [long]. *)
Definition scale_time (x : Z) : Z := float_to_long (dbl_div (dbl_of_Z x) kTimeMultiplier).

Definition system_dirs : list string := ["/usr"; "/lib"; "/lib64"; "/etc/alternatives"; "/bin"].
Definition judge_dirs : list string :=
  ["/usr"; "/var/lib"; "/lib"; "/lib64"; "/etc/alternatives"; "/bin"].
Definition path_env : list string := match env_PATH with Some path => ["PATH=" +:+ path] | None => [] end.
Definition pinned (cpuid : Z) : list Z := if cpuid =? -1 then [] else [cpuid].

(** The options of [RunCompile]. *)
Definition RunCompile (sub : Submission) (subtask : CompileSubtask) (uid_ cpuid : Z) : SandboxOptions :=
  let id := submission_internal_id sub in
  let lang := GetLang sub subtask in
  let interlib :=
    if bool_decide (subtask = USERPROG) && bool_decide (interlib_type sub = INTERLIB_INCLUDE)
    then CompileBoxInterlibImpl (-1) lang true else "" in
  let input := CompileBoxInput (-1) subtask lang true in
  let output := CompileBoxOutput (-1) subtask lang true in
  let message := open_message (CompileBoxMessage id subtask false) in
  {| boxdir := CompileBoxPath id subtask;
     command := base_command lang input interlib output (sandbox_strict sub) ++
       (if bool_decide (subtask = SPECJUDGE) then
          if bool_decide (specjudge_type sub = SPECJUDGE_NEW) then ["-DTIOJ_NEW_SPECJUDGE"]
          else if bool_decide (specjudge_type sub = SPECJUDGE_POLYGON) then ["-DTESTSYS"] else []
        else []) ++ ParseAdditionalArgs subtask sub input output;
     preserve_env := false;
     envs := (if bool_decide (lang = RUSTC_RUST_2021) then ["TMPDIR=."] else []) ++ path_env;
     workdir := Workdir "/"; opt_input := "/dev/null"; opt_output := ""; opt_error := "";
     fd_input := -1; fd_output := message; fd_error := message;
     cpu_set := pinned cpuid; uid := uid_; gid := uid_;
     wall_time := scale_time (60 * 1000000); cpu_time := 0; opt_rss := kMaxRSS; opt_vss := 0;
     proc_num := 32; file_num := 0; fsize := kMaxOutput;
     dirs := FilterDirs dir_exists
       (system_dirs ++ (if bool_decide (lang = HASKELL) then ["/var/lib/ghc"] else [])) |}.

(** The limits of [RunExecute]; [used] is the time of the earlier stages. *)
Definition twelve_tenths : spec_float := S754_finite false 5404319552844595 (-52).   (* 1.2 *)

Definition time_left (lim : TestdataItem) (stage used : Z) : Z :=
  let lim_time := if 0 <? stage then to_long (lim_time lim - used) else lim_time lim in
  Z.max lim_time 0.

Definition execute_wall_time (lim_time : Z) : Z :=
  scale_time (Z.max (float_to_long (dbl_mul (dbl_of_Z lim_time) twelve_tenths)) (to_long (lim_time + 1000000))).

Definition execute_cpu_time (lim_time : Z) : Z :=
  let t := scale_time (to_long (lim_time + 50000)) in
  if t <=? 0 then 1 else t.

Definition execute_rss (lim : TestdataItem) : Z :=
  if (lim_rss lim <=? 0) || (kMaxRSS <=? lim_rss lim) || (to_long (kMaxRSS - lim_rss lim) <=? kRSSLimitMargin)
  then kMaxRSS else to_long (lim_rss lim + kRSSLimitMargin).

Definition execute_vss (lim : TestdataItem) : Z :=
  if lim_vss lim <=? 0 then 0
  else if LONG_MAX - kVSSLimitMargin <? lim_vss lim then LONG_MAX
  else to_long (lim_vss lim + kVSSLimitMargin).

Definition execute_fsize (lim : TestdataItem) : Z :=
  if (lim_output lim <=? 0) || (kMaxOutput <? lim_output lim) then kMaxOutput else lim_output lim.

(** The options of [RunExecute]; in strict mode [fds] are the ends of the
    pipes the child process has set up. *)
Definition RunExecute (sub : Submission) (lim : TestdataItem) (used : Z) (task : Task) (uid_ cpuid : Z)
    (fds : Z * Z) : SandboxOptions :=
  let id := submission_internal_id sub in
  let subtask := tk_subtask task in
  let stage := tk_stage task in
  let lang := if bool_decide (stage ∈ problem_prog_stages sub) then problem_prog_lang sub else lang sub in
  let strict := sandbox_strict sub in
  let left := time_left lim stage used in
  let size := execute_fsize lim in
  let python := bool_decide (lang = PYTHON2) || bool_decide (lang = PYTHON3) in
  {| boxdir := ExecuteBoxPath id subtask stage;
     command := ExecuteCommand lang (ExecuteBoxProgram (-1) (-1) (-1) lang true) ++
       (if 1 <? stages sub then [to_string stage] else []);
     preserve_env := false;
     envs := if strict && negb python then [] else path_env;
     workdir := Workdir "/";
     opt_input := if strict then "" else ExecuteBoxInput (-1) (-1) (-1) strict true;
     opt_output := if strict then "" else ExecuteBoxOutput (-1) (-1) (-1) strict true;
     opt_error := if strict then "/dev/null" else ExecuteBoxError (-1) (-1) (-1) true;
     fd_input := if strict then fds.1 else -1; fd_output := if strict then fds.2 else -1; fd_error := -1;
     cpu_set := pinned cpuid; uid := uid_; gid := uid_;
     wall_time := execute_wall_time left; cpu_time := execute_cpu_time left;
     opt_rss := if strict then execute_rss lim else to_long (execute_rss lim + size);
     opt_vss := execute_vss lim; proc_num := process_limit sub; file_num := 0; fsize := size;
     dirs := FilterDirs dir_exists (if strict && negb python then [] else system_dirs) |}.

(** The options of [RunScoring]. *)
Definition RunScoring (sub : Submission) (task : Task) (uid_ cpuid : Z) : SandboxOptions :=
  let id := submission_internal_id sub in
  let user_output := ScoringBoxUserOutput (-1) (-1) (-1) true in
  let td_input := ScoringBoxTdInput (-1) (-1) (-1) true in
  let td_output := ScoringBoxTdOutput (-1) (-1) (-1) true in
  let meta := ScoringBoxMetaFile (-1) (-1) (-1) true in
  let tempdir := ScoringBoxTempdir (-1) (-1) (-1) true in
  let output := ScoringBoxOutput (-1) (-1) (-1) true in
  let ty := specjudge_type sub in
  {| boxdir := ScoringBoxPath id (tk_subtask task) (tk_stage task);
     command := ExecuteCommand (specjudge_lang sub) (ScoringBoxProgram (-1) (-1) (-1) (specjudge_lang sub) true) ++
       match ty with
       | SPECJUDGE_OLD =>
           [user_output; td_input; td_output; CompilerName (lang sub);
            ScoringBoxUserCode (-1) (-1) (-1) (lang sub) true; to_string (tk_stage task)]
       | SPECJUDGE_POLYGON => [td_input; user_output; td_output]
       | SPECJUDGE_KATTIS => [td_input; td_output; tempdir // ""; meta]
       | SJ_NORMAL => meta :: default_scoring_args sub
       | _ => [meta]
       end;
     preserve_env := false;
     envs := ["TMPDIR=" +:+ tempdir];
     workdir := Workdir "/";
     opt_input := match ty with
                  | SPECJUDGE_OLD | SPECJUDGE_POLYGON => meta
                  | SPECJUDGE_KATTIS => user_output
                  | _ => "/dev/null"
                  end;
     opt_output := if bool_decide (ty = SPECJUDGE_POLYGON) then "/dev/null" else output;
     opt_error := if bool_decide (ty = SPECJUDGE_POLYGON) then output else "/dev/null";
     fd_input := -1; fd_output := -1; fd_error := -1;
     cpu_set := pinned cpuid; uid := uid_; gid := uid_;
     wall_time := scale_time (60 * 1000000); cpu_time := 0; opt_rss := kMaxRSS; opt_vss := 0;
     proc_num := 10; file_num := 0; fsize := kMaxOutput; dirs := FilterDirs dir_exists judge_dirs |}.

(** The options of [RunSummary]. *)
Definition RunSummary (sub : Submission) (uid_ cpuid : Z) : SandboxOptions :=
  {| boxdir := SummaryBoxPath (submission_internal_id sub);
     command := ExecuteCommand (summary_lang sub) (SummaryBoxProgram (-1) (summary_lang sub) true) ++
       [SummaryBoxMetaFile (-1) true];
     preserve_env := false; envs := [];
     workdir := Workdir "/"; opt_input := "/dev/null"; opt_output := SummaryBoxOutput (-1) true;
     opt_error := "/dev/null";
     fd_input := -1; fd_output := -1; fd_error := -1;
     cpu_set := pinned cpuid; uid := uid_; gid := uid_;
     wall_time := scale_time (60 * 1000000); cpu_time := 0; opt_rss := kMaxRSS; opt_vss := 0;
     proc_num := 10; file_num := 0; fsize := kMaxOutput; dirs := FilterDirs dir_exists judge_dirs |}.
End Options.

(** ** The pools *)

(** [running] is a [std::map], iterated in the order of its keys: a list sorted
    by descriptor.  [finished] is an [unordered_map]. *)
Record RunningTask := { rt_pid : Z; rt_uid : Z; rt_cpu : Z }.

Record Pools := {
  uid_pool : list Z;      (* the back of the vector is the last element *)
  cpuid_pool : list Z;
  running : list (Z * RunningTask);
  finished : gmap Z cjail_result;
}.

Definition count_up (n : nat) : list Z := map Z.of_nat (seq 0 n).

(** [InitPools]; [pinned_cpus] are the CPUs below [get_nprocs()] that are
    pinned. *)
Definition InitPools (pinned_cpus : list Z) : Pools := {|
  uid_pool := map (Z.add kUidBase) (count_up (Z.to_nat kUidPoolSize));
  cpuid_pool := pinned_cpus; running := []; finished := ∅ |}.

(** [running[fd] = t]. *)
Fixpoint map_set (fd : Z) (t : RunningTask) (l : list (Z * RunningTask)) : list (Z * RunningTask) :=
  match l with
  | [] => [(fd, t)]
  | (k, u) :: l' =>
      if fd <? k then (fd, t) :: l
      else if fd =? k then (fd, t) :: l'
      else (k, u) :: map_set fd t l'
  end.

(** The last element and the rest of a vector. *)
Definition pop_back (l : list Z) : option (Z * list Z) :=
  match rev l with [] => None | x :: l' => Some (x, rev l') end.

(** [RunTask] in the parent process.  [pipe] is the read end of the new pipe,
    if one can be made; [fork] what [fork] returns. *)
Definition RunTask (pipe : option Z) (fork : Z) (p : Pools) : outcome (Z * Pools) :=
  match pipe with
  | None => Done (-1, p)
  | Some fd =>
      match pop_back (uid_pool p) with
      | None => Crash OutOfBounds
      | Some (uid_, uids) =>
          let '(cpuid, cpus) :=
            match pop_back (cpuid_pool p) with Some r => r | None => (-1, cpuid_pool p) end in
          if fork <? 0 then
            Done (fork, {| uid_pool := uids ++ [uid_];
                           cpuid_pool := if cpuid =? -1 then cpus else cpus ++ [cpuid];
                           running := running p; finished := finished p |})
          else
            Done (fd, {| uid_pool := uids; cpuid_pool := cpus;
                         running := map_set fd {| rt_pid := fork; rt_uid := uid_; rt_cpu := cpuid |} (running p);
                         finished := finished p |})
      end
  end.

(** [Wait]: [ready] are the descriptors [select] reports (none when it
    fails), [result] what can be read from each. *)
Definition Wait (ready : Z -> bool) (result : Z -> cjail_result) (p : Pools) : Pools :=
  let done := filter (fun i => ready i.1 = true) (running p) in
  {| uid_pool := uid_pool p ++ map (fun i => rt_uid i.2) done;
     cpuid_pool := cpuid_pool p ++ filter (fun c => c <> -1) (map (fun i => rt_cpu i.2) done);
     running := filter (fun i => ready i.1 = false) (running p);
     finished := foldl (fun m i => <[i.1 := result i.1]> m) (finished p) done |}.

(** [finished.erase] of a result that is returned. *)
Definition take_finished (r : Z * cjail_result) (p : Pools) : Pools :=
  {| uid_pool := uid_pool p; cpuid_pool := cpuid_pool p; running := running p;
     finished := delete r.1 (finished p) |}.

(** [WaitAnyResult()]; [pick] is the element [finished.begin()] refers to. *)
Definition WaitAnyResult (ready : Z -> bool) (result : Z -> cjail_result) (pick : Z) (p : Pools)
    : outcome ((Z * cjail_result) * Pools) :=
  if bool_decide (running p = []) && bool_decide (finished p = ∅) then Done ((-1, zero_cjail_result), p)
  else
    let p := if bool_decide (finished p = ∅) then Wait ready result p else p in
    match finished p !! pick with
    | None => Crash NoSuchKey
    | Some res =>
        Done ((pick, res), take_finished (pick, res) p)
    end.

(** [WaitAnyResult(handles)].  The first finished task of [handles]; *)
Fixpoint first_finished (handles : list Z) (p : Pools) : option (Z * cjail_result) :=
  match handles with
  | [] => None
  | i :: handles' =>
      match finished p !! i with
      | Some res => Some (i, res)
      | None => first_finished handles' p
      end
  end.

(** the loop, where [waits] says what each call of [Wait] finds ([None]: it is
    still waiting after these); *)
Fixpoint wait_for (handles : list Z) (waits : list ((Z -> bool) * (Z -> cjail_result))) (p : Pools)
    : option ((Z * cjail_result) * Pools) :=
  match waits with
  | [] => None
  | (ready, result) :: waits' =>
      let p := Wait ready result p in
      match first_finished handles p with
      | Some r => Some (r, take_finished r p)
      | None => wait_for handles waits' p
      end
  end.

Definition is_running (p : Pools) (i : Z) : bool := bool_decide (i ∈ (running p).*1).

(** and the whole function. *)
Definition WaitAnyResult_of (handles : list Z) (waits : list ((Z -> bool) * (Z -> cjail_result))) (p : Pools)
    : option ((Z * cjail_result) * Pools) :=
  match first_finished handles p with
  | Some r => Some (r, take_finished r p)
  | None =>
      if existsb (is_running p) handles then wait_for handles waits p
      else Some ((-1, zero_cjail_result), p)
  end.

(** ** The child of [RunTask]

    The options it gives to the sandbox: the dispatch on the kind of task and,
    for an execution, what is read of the submission first.  [fds] are the ends
    of the pipes of the strict mode; [None] when they cannot be set up and the
    child only reports a failure. *)
Definition child_options `{PathRoots} `{Config} `{RunEnv} (sub : Submission) (res : SubmissionResult) (task : Task)
    (uid_ cpuid : Z) (fds : option (Z * Z)) : outcome (option SandboxOptions) :=
  match tk_type task with
  | COMPILE =>
      match CompileSubtask_of_Z (tk_subtask task) with
      | Some subtask => Done (Some (RunCompile sub subtask uid_ cpuid))
      | None => Crash BadEnum
      end
  | EXECUTE =>
      match (if 0 <=? tk_subtask task then testdata sub !! Z.to_nat (tk_subtask task) else None) with
      | None => Crash OutOfBounds
      | Some lim =>
          match (if 0 <? tk_stage task then td_time <$> td_results res !! Z.to_nat (tk_subtask task)
                 else Some 0) with
          | None => Crash OutOfBounds
          | Some used =>
              match (if sandbox_strict sub then fds else Some (-1, -1)) with
              | Some fds => Done (Some (RunExecute sub lim used task uid_ cpuid fds))
              | None => Done None
              end
          end
      end
  | SCORING => Done (Some (RunScoring sub task uid_ cpuid))
  | SUMMARY => Done (Some (RunSummary sub uid_ cpuid))
  end.
