(* ===== verification/RunnerSpec.v ===== *)
(** * What the task runner guarantees

    Tasks that run at the same time never share a sandbox user or a pinned
    CPU; the limits of an execution are within the configured ones and leave
    the margins that let a violation be seen. *)

From S2P Require Import Prelude Enums Text Paths CNum Scores Data Specjudge Handlers Scenario Sandbox TaskRunner.
From Stdlib Require Import SpecFloat.

(** ** The invariant of the pools *)

Definition uids_of (l : list (Z * RunningTask)) : list Z := map (fun i => rt_uid i.2) l.
Definition cpus_of (l : list (Z * RunningTask)) : list Z :=
  filter (fun c => c <> -1) (map (fun i => rt_cpu i.2) l).

Record pools_ok (cpus : list Z) (p : Pools) : Prop := {
  po_uids : uid_pool p ++ uids_of (running p) ≡ₚ uid_pool (InitPools cpus);
  po_cpus : cpuid_pool p ++ cpus_of (running p) ≡ₚ cpus;
  po_keys : NoDup (running p).*1;
  po_disjoint : forall fd, fd ∈ (running p).*1 -> finished p !! fd = None;
}.

Lemma InitPools_ok cpus : pools_ok cpus (InitPools cpus).
Proof.
  split.
  - change (uid_pool (InitPools cpus) ++ [] ≡ₚ uid_pool (InitPools cpus)). by rewrite app_nil_r.
  - change (cpus ++ [] ≡ₚ cpus). by rewrite app_nil_r.
  - constructor.
  - intros fd Hfd. by apply elem_of_nil in Hfd.
Qed.

Lemma map_set_perm fd t l : fd ∉ l.*1 -> map_set fd t l ≡ₚ (fd, t) :: l.
Proof.
  induction l as [|[k u] l IH]; intros Hn; simpl; [done|].
  rewrite fmap_cons, not_elem_of_cons in Hn. destruct Hn as [Hne Hn]. simpl in Hne.
  destruct (fd <? k); [done|]. rewrite (proj2 (Z.eqb_neq fd k)) by done.
  rewrite IH by done. apply perm_swap.
Qed.

Lemma pop_back_perm l x l' : pop_back l = Some (x, l') -> l = l' ++ [x].
Proof.
  unfold pop_back. destruct (rev l) as [|y k] eqn:E; [done|]. intros [= <- <-].
  rewrite <- (rev_involutive l), E. done.
Qed.

Lemma pop_back_none l : pop_back l = None -> l = [].
Proof.
  unfold pop_back. destruct (rev l) eqn:E; [|done]. intros _.
  by rewrite <- (rev_involutive l), E.
Qed.

Lemma cpus_of_cons fd t l : cpus_of ((fd, t) :: l) = (if rt_cpu t =? -1 then [] else [rt_cpu t]) ++ cpus_of l.
Proof.
  unfold cpus_of. simpl. rewrite filter_cons. simpl.
  destruct (Z.eqb_spec (rt_cpu t) (-1)); by case_decide.
Qed.

#[export] Instance cpus_of_perm : Proper (Permutation ==> Permutation) cpus_of.
Proof. intros l k Hlk. unfold cpus_of. by rewrite Hlk. Qed.

#[export] Instance uids_of_perm : Proper (Permutation ==> Permutation) uids_of.
Proof. intros l k Hlk. unfold uids_of. by rewrite Hlk. Qed.

(** A pipe's descriptor is one that is not open. *)
Definition fresh_fd (fd : Z) (p : Pools) : Prop := fd ∉ (running p).*1 /\ finished p !! fd = None.

Lemma RunTask_ok cpus pipe fork p : pools_ok cpus p -> (-1) ∉ cpus ->
  (forall fd, pipe = Some fd -> fresh_fd fd p) -> (length (running p) < Z.to_nat kUidPoolSize)%nat ->
  exists h p', RunTask pipe fork p = Done (h, p') /\ pools_ok cpus p' /\
    (pipe = None \/ fork < 0 -> running p' = running p /\ h < 0) /\
    (forall fd, pipe = Some fd -> 0 <= fork -> h = fd /\ exists t, running p' ≡ₚ (fd, t) :: running p).
Proof.
  intros [H1 H2 H3 H4] Hm Hf Hlen. unfold RunTask. destruct pipe as [fd|].
  2:{ exists (-1), p. split_and!; try done. }
  destruct (Hf fd eq_refl) as [Hfr Hff].
  destruct (pop_back (uid_pool p)) as [[u uids]|] eqn:Eu.
  2:{ exfalso. apply pop_back_none in Eu. rewrite Eu, app_nil_l in H1. apply Permutation_length in H1.
      assert (L : length (uid_pool (InitPools cpus)) = Z.to_nat kUidPoolSize) by reflexivity.
      rewrite L in H1. unfold uids_of in H1. rewrite length_map in H1. lia. }
  apply pop_back_perm in Eu.
  set (c := match pop_back (cpuid_pool p) with Some r => r | None => (-1, cpuid_pool p) end).
  assert (Hc : cpuid_pool p ≡ₚ c.2 ++ (if c.1 =? -1 then [] else [c.1])).
  { unfold c. destruct (pop_back (cpuid_pool p)) as [[x l]|] eqn:Ec; simpl; [|by rewrite app_nil_r].
    apply pop_back_perm in Ec. rewrite (proj2 (Z.eqb_neq x (-1))); [by rewrite Ec|].
    intros ->. apply Hm. rewrite <- H2, Ec. set_solver. }
  destruct c as [cpuid cs]. simpl in Hc. destruct (Z.ltb_spec fork 0) as [Hfork|Hfork].
  - eexists _, _. split; [done|]. split; [|split; [simpl; intros _; split; [done|lia]|intros ? ? ?; lia]].
    split; simpl; try done.
    + by rewrite <- Eu.
    + rewrite <- H2. apply Permutation_app_tail. rewrite Hc. destruct (cpuid =? -1); [by rewrite app_nil_r|done].
  - eexists _, _. split; [done|]. set (t := {| rt_pid := fork; rt_uid := u; rt_cpu := cpuid |}).
    pose proof (map_set_perm fd t (running p) Hfr) as Hp.
    split; [|split; [intros [?|?]; [done|lia]|]].
    + split; cbn [uid_pool cpuid_pool running finished].
      * rewrite Hp, <- H1, Eu. simpl. by rewrite <- app_assoc.
      * rewrite Hp, cpus_of_cons, <- H2, Hc, <- app_assoc. done.
      * rewrite Hp. simpl. by constructor.
      * intros k. rewrite Hp. simpl. intros [->|Hk]%elem_of_cons; [done|]. by apply H4.
    + intros fd' [= <-] _. split; [done|]. by exists t.
Qed.

(** ** Waiting *)

Lemma filter_split {A} (f : A -> bool) (l : list A) :
  l ≡ₚ filter (fun x => f x = true) l ++ filter (fun x => f x = false) l.
Proof.
  induction l as [|x l IH]; [done|]. rewrite !filter_cons.
  destruct (decide (f x = true)) as [E|E], (decide (f x = false)) as [E'|E']; try congruence.
  - simpl. by constructor.
  - rewrite <- Permutation_middle. by constructor.
  - by destruct (f x).
Qed.

Lemma finished_fold (result : Z -> cjail_result) (done : list (Z * RunningTask)) (m : gmap Z cjail_result) fd :
  foldl (fun m (i : Z * RunningTask) => <[i.1 := result i.1]> m) m done !! fd =
  if decide (fd ∈ done.*1) then Some (result fd) else m !! fd.
Proof.
  revert m. induction done as [|[k t] done IH]; intros m; cbn [foldl].
  - destruct (decide (fd ∈ ([] : list (Z * RunningTask)).*1)) as [Hd|Hd]; [by apply elem_of_nil in Hd|reflexivity].
  - rewrite IH. cbn [fst].
    destruct (decide (fd ∈ done.*1)) as [Hd|Hd], (decide (fd ∈ ((k, t) :: done).*1)) as [Hc|Hc];
      rewrite fmap_cons, elem_of_cons in Hc; cbn [fst] in Hc; try reflexivity.
    + destruct Hc. by right.
    + destruct Hc as [->|?]; [|contradiction]. apply lookup_insert_eq.
    + apply lookup_insert_ne. intros ->. apply Hc. by left.
Qed.

Lemma running_wait ready result p fd :
  fd ∈ (running (Wait ready result p)).*1 <-> fd ∈ (running p).*1 /\ ready fd = false.
Proof.
  simpl. rewrite !list_elem_of_fmap. split.
  - intros ([k t] & -> & Hin). apply list_elem_of_filter in Hin as [Hr Hin]. split; [by exists (k, t)|done].
  - intros [([k t] & -> & Hin) Hr]. exists (k, t). split; [done|]. by apply list_elem_of_filter.
Qed.

Lemma finished_wait ready result p fd :
  finished (Wait ready result p) !! fd =
  if decide (fd ∈ (running p).*1 /\ ready fd = true) then Some (result fd) else finished p !! fd.
Proof.
  simpl. rewrite finished_fold.
  assert (Hiff : fd ∈ (filter (fun i => ready i.1 = true) (running p)).*1 <->
    fd ∈ (running p).*1 /\ ready fd = true).
  { rewrite !list_elem_of_fmap. split.
    - intros ([k t] & -> & Hin). apply list_elem_of_filter in Hin as [Hr Hin]. split; [by exists (k, t)|done].
    - intros [([k t] & -> & Hin) Hr]. exists (k, t). split; [done|]. by apply list_elem_of_filter. }
  case_decide as H1; case_decide as H2; try done; exfalso; tauto.
Qed.

Lemma Wait_ok cpus ready result p : pools_ok cpus p -> pools_ok cpus (Wait ready result p).
Proof.
  intros [H1 H2 H3 H4]. pose proof (filter_split (fun i : Z * RunningTask => ready i.1) (running p)) as Hs.
  split.
  - simpl. rewrite <- H1, <- app_assoc. apply Permutation_app_head. unfold uids_of.
    rewrite Hs at 3. by rewrite map_app.
  - simpl. rewrite <- H2, <- app_assoc. apply Permutation_app_head. unfold cpus_of.
    rewrite Hs at 3. by rewrite map_app, filter_app.
  - simpl. rewrite Hs, fmap_app in H3. by apply NoDup_app in H3 as (_ & _ & ?).
  - intros fd Hin. apply running_wait in Hin as [Hin Hr]. rewrite finished_wait.
    rewrite decide_False by (intros [_ ?]; congruence). by apply H4.
Qed.

(** The tasks started and not yet returned. *)
Definition outstanding (p : Pools) (fd : Z) : Prop := fd ∈ (running p).*1 \/ is_Some (finished p !! fd).

Lemma Wait_outstanding ready result p fd : outstanding (Wait ready result p) fd <-> outstanding p fd.
Proof.
  unfold outstanding. rewrite running_wait, finished_wait.
  destruct (ready fd) eqn:Er.
  - case_decide as Hd.
    + split; [intros _; left; apply Hd|intros _; right; by eexists].
    + split; [intros [[_ ?]|?]; [done|by right]|intros [?|?]; [|by right]].
      exfalso. by apply Hd.
  - rewrite decide_False by (intros [_ ?]; congruence). naive_solver.
Qed.

(** Taking out a finished task. *)
Lemma take_finished_ok cpus h res p : pools_ok cpus p -> finished p !! h = Some res ->
  pools_ok cpus (take_finished (h, res) p) /\
  (forall fd, outstanding (take_finished (h, res) p) fd <-> outstanding p fd /\ fd <> h).
Proof.
  intros [H1 H2 H3 H4] Hh. split.
  - split; try done. simpl. intros fd Hfd. apply lookup_delete_None. right. by apply H4.
  - intros fd. unfold outstanding, take_finished, is_Some. cbn [running finished fst].
    setoid_rewrite lookup_delete_Some. split; [|naive_solver]. intros [Hin|(x & Hne & Hx)]; [|naive_solver].
    split; [by left|]. intros ->. specialize (H4 h Hin). congruence.
Qed.

Lemma WaitAnyResult_ok cpus ready result pick p r p' : pools_ok cpus p ->
  WaitAnyResult ready result pick p = Done (r, p') -> pools_ok cpus p'.
Proof.
  intros Hp. unfold WaitAnyResult. destruct (_ && _); [by intros [= <- <-]|].
  set (p1 := if bool_decide (finished p = ∅) then _ else p).
  assert (Hp1 : pools_ok cpus p1) by (unfold p1; destruct (bool_decide (finished p = ∅)); [by apply Wait_ok|done]).
  destruct (finished p1 !! pick) as [res|] eqn:E; [|done]. intros [= <- <-]. by apply take_finished_ok.
Qed.

(** ** Runs of the task runner

    The parent process calls [RunTask] while fewer tasks run than there are
    users in the pool, and [WaitAnyResult]. *)

Inductive pool_step : Pools -> Pools -> Prop :=
| step_run pipe fork p h p' :
    (forall fd, pipe = Some fd -> fresh_fd fd p) -> (length (running p) < Z.to_nat kUidPoolSize)%nat ->
    RunTask pipe fork p = Done (h, p') -> pool_step p p'
| step_wait ready result pick p r p' :
    WaitAnyResult ready result pick p = Done (r, p') -> pool_step p p'.

Inductive pool_reachable (cpus : list Z) : Pools -> Prop :=
| pools_init : pool_reachable cpus (InitPools cpus)
| pools_step p p' : pool_reachable cpus p -> pool_step p p' -> pool_reachable cpus p'.

Lemma pool_reachable_ok cpus p : (-1) ∉ cpus -> pool_reachable cpus p -> pools_ok cpus p.
Proof.
  intros Hm Hr. induction Hr as [|p p' _ IH Hs]; [apply InitPools_ok|].
  destruct Hs as [pipe fork p h p' Hf Hlen Hrun|ready result pick p r p' Hw].
  - destruct (RunTask_ok cpus pipe fork p IH Hm Hf Hlen) as (h' & p'' & Hrun' & Hok & _).
    rewrite Hrun in Hrun'. by injection Hrun' as -> ->.
  - by eapply WaitAnyResult_ok.
Qed.

Lemma init_uids u : u ∈ uid_pool (InitPools []) -> kUidBase <= u < kUidBase + kUidPoolSize.
Proof.
  change (uid_pool (InitPools [])) with (map (Z.add kUidBase) (map Z.of_nat (seq 0 100))).
  rewrite list_elem_of_In, in_map_iff.
  intros (x & <- & Hx). apply in_map_iff in Hx as (n & <- & Hn). apply in_seq in Hn. unfold kUidPoolSize in *. lia.
Qed.

Lemma init_uids_nodup : NoDup (uid_pool (InitPools [])).
Proof.
  change (uid_pool (InitPools [])) with (map (Z.add kUidBase) (map Z.of_nat (seq 0 100))).
  apply (bool_decide_unpack _). vm_compute. exact I.
Qed.

(** C34: two tasks that run at the same time have different sandbox users, of
    the pool, and are not pinned to the same CPU; and a task can be started
    whenever fewer than 100 run. *)
Theorem running_isolated cpus p : (-1) ∉ cpus -> NoDup cpus -> pool_reachable cpus p ->
  (forall i j fd t gd u, running p !! i = Some (fd, t) -> running p !! j = Some (gd, u) -> i <> j ->
     rt_uid t <> rt_uid u /\ (rt_cpu t <> -1 -> rt_cpu t <> rt_cpu u)) /\
  (forall fd t, (fd, t) ∈ running p -> uid_allowed (rt_uid t) = true /\ (rt_cpu t = -1 \/ rt_cpu t ∈ cpus)) /\
  ((length (running p) < Z.to_nat kUidPoolSize)%nat -> forall pipe fork,
     (forall fd, pipe = Some fd -> fresh_fd fd p) -> exists h p', RunTask pipe fork p = Done (h, p')).
Proof.
  intros Hm Hnd Hr. pose proof (pool_reachable_ok cpus p Hm Hr) as Hok. pose proof Hok as [H1 H2 H3 H4].
  assert (Hu : NoDup (uids_of (running p))).
  { pose proof init_uids_nodup as Hx. change (NoDup (uid_pool (InitPools cpus))) in Hx.
    rewrite <- H1 in Hx. by apply NoDup_app in Hx as (_ & _ & ?). }
  assert (Hc : NoDup (cpus_of (running p))).
  { rewrite <- H2 in Hnd. by apply NoDup_app in Hnd as (_ & _ & ?). }
  split; [|split].
  - intros i j fd t gd u Hi Hj Hij. split.
    + intros E. apply Hij. eapply (NoDup_lookup (uids_of (running p)) i j (rt_uid t)); [done| |];
        unfold uids_of; change (map ?f ?l) with (f <$> l); rewrite list_lookup_fmap, ?Hi, ?Hj; simpl; congruence.
    + intros Hne E. apply Hij. clear -Hc Hi Hj Hne E. revert i j Hi Hj Hc.
      induction (running p) as [|[k x] l IH]; intros i j Hi Hj Hc; [done|].
      rewrite cpus_of_cons in Hc.
      assert (Hin : forall n hd y, l !! n = Some (hd, y) -> rt_cpu y = rt_cpu t -> rt_cpu t ∈ cpus_of l).
      { intros n hd y Hn Ey. unfold cpus_of. apply list_elem_of_filter. split; [done|].
        rewrite <- Ey. change (map ?f ?l) with (f <$> l). apply list_elem_of_fmap. exists (hd, y).
        split; [done|]. by eapply list_elem_of_lookup_2. }
      destruct i as [|i], j as [|j]; simpl in Hi, Hj; simplify_eq; [done| | |].
      * exfalso. rewrite (proj2 (Z.eqb_neq _ _) Hne) in Hc. apply NoDup_app in Hc as (_ & Hc & _).
        apply (Hc (rt_cpu t)); [by left|]. eapply Hin; [exact Hj|done].
      * exfalso. rewrite <- E, (proj2 (Z.eqb_neq _ _) Hne) in Hc. apply NoDup_app in Hc as (_ & Hc & _).
        apply (Hc (rt_cpu t)); [by left|]. eapply Hin; [exact Hi|done].
      * f_equal. apply NoDup_app in Hc as (_ & _ & Hc). by eapply IH.
  - intros fd t Hin. split.
    + assert (Hx : rt_uid t ∈ uid_pool (InitPools [])).
      { change (rt_uid t ∈ uid_pool (InitPools cpus)). rewrite <- H1. apply elem_of_app. right.
        unfold uids_of. change (map ?f ?l) with (f <$> l). apply list_elem_of_fmap. by exists (fd, t). }
      apply init_uids in Hx. unfold uid_allowed. rewrite andb_true_iff, Z.leb_le, Z.ltb_lt. lia.
    + destruct (decide (rt_cpu t = -1)) as [|Hne]; [by left|]. right. rewrite <- H2. apply elem_of_app. right.
      unfold cpus_of. apply list_elem_of_filter. split; [done|]. change (map ?f ?l) with (f <$> l).
      apply list_elem_of_fmap. by exists (fd, t).
  - intros Hlen pipe fork Hf. destruct (RunTask_ok cpus pipe fork p Hok Hm Hf Hlen) as (h & p' & Hrun & _).
    by exists h, p'.
Qed.

(** Every started task is returned exactly once.  With tasks outstanding
    and [select] reporting some of them (or one already finished),
    [WaitAnyResult] can return only an outstanding task, which then is no
    longer outstanding, while every other one still is; the result is what was
    read from its pipe.  Without any outstanding task the handle is -1. *)
Theorem WaitAnyResult_once cpus ready result pick p :
  pools_ok cpus p ->
  ((forall fd, ~ outstanding p fd) ->
     WaitAnyResult ready result pick p = Done ((-1, zero_cjail_result), p)) /\
  ((exists fd, outstanding p fd) ->
   match WaitAnyResult ready result pick p with
   | Done ((h, res), p') => outstanding p h /\ pools_ok cpus p' /\
       (forall fd, outstanding p' fd <-> outstanding p fd /\ fd <> h) /\
       (h ∈ (running p).*1 -> finished p = ∅ -> res = result h)
   | Crash _ => ~ (outstanding p pick /\ (is_Some (finished p !! pick) \/ (finished p = ∅ /\ ready pick = true)))
   end).
Proof.
  intros Hok. split.
  - intros Hno. unfold WaitAnyResult. rewrite !bool_decide_true; [done| |].
    + apply map_empty. intros fd. apply eq_None_not_Some. intros Hs. apply (Hno fd). by right.
    + destruct (running p) as [|[fd t] l] eqn:E; [done|]. exfalso. apply (Hno fd). left. rewrite E. by left.
  - intros [fd0 Hfd0]. unfold WaitAnyResult.
    destruct (bool_decide (running p = []) && bool_decide (finished p = ∅)) eqn:Ee.
    { exfalso. apply andb_true_iff in Ee as [E1%bool_decide_eq_true E2%bool_decide_eq_true].
      destruct Hfd0 as [Hx|[x Hx]]; [rewrite E1 in Hx; by apply elem_of_nil in Hx|].
      by rewrite E2, lookup_empty in Hx. }
    set (p1 := if bool_decide (finished p = ∅) then _ else p) in *.
    assert (Ho : forall fd, outstanding p1 fd <-> outstanding p fd).
    { intros fd. unfold p1. destruct (bool_decide (finished p = ∅)); [apply Wait_outstanding|done]. }
    destruct (finished p1 !! pick) as [res|] eqn:Ef.
    + assert (Hok1 : pools_ok cpus p1) by (unfold p1; destruct (bool_decide (finished p = ∅)); [by apply Wait_ok|done]).
      destruct (take_finished_ok cpus pick res p1 Hok1 Ef) as [Hok2 Ht]. split_and!.
      * apply Ho. right. by eexists.
      * done.
      * intros fd. by rewrite <- Ho.
      * intros Hin He. unfold p1 in Ef. rewrite bool_decide_true in Ef by done.
        rewrite finished_wait in Ef. case_decide as Hd2; [congruence|]. by rewrite He, lookup_empty in Ef.
    + intros [Hout Hready]. unfold p1 in Ef. destruct (decide (finished p = ∅)) as [He|He].
      * rewrite bool_decide_true in Ef by done. rewrite finished_wait in Ef.
        destruct Hready as [[x Hx]|[_ Hr]]; [by rewrite He, lookup_empty in Hx|].
        rewrite decide_True in Ef; [done|]. split; [|done].
        destruct Hout as [?|[x Hx]]; [done|]. by rewrite He, lookup_empty in Hx.
      * rewrite bool_decide_false in Ef by done. destruct Hready as [[x Hx]|[? _]]; [congruence|done].
Qed.

(** *** Waiting for given tasks *)

Lemma first_finished_spec handles p :
  match first_finished handles p with
  | Some (h, res) => h ∈ handles /\ finished p !! h = Some res
  | None => forall h, h ∈ handles -> finished p !! h = None
  end.
Proof.
  induction handles as [|i handles IH]; simpl; [intros h Hh; by apply elem_of_nil in Hh|].
  destruct (finished p !! i) as [res|] eqn:E; [split; [by left|done]|].
  destruct (first_finished handles p) as [[h res]|].
  - destruct IH. split; [by right|done].
  - intros h [->|Hh]%elem_of_cons; [done|]. by apply IH.
Qed.

Lemma wait_for_ok cpus handles waits p h res p' : pools_ok cpus p ->
  wait_for handles waits p = Some ((h, res), p') ->
  h ∈ handles /\ outstanding p h /\ pools_ok cpus p' /\
  (forall fd, outstanding p' fd <-> outstanding p fd /\ fd <> h).
Proof.
  revert p. induction waits as [|[ready result] waits IH]; intros p Hok; [done|]. cbn [wait_for].
  pose proof (Wait_ok cpus ready result p Hok) as Hok1.
  pose proof (first_finished_spec handles (Wait ready result p)) as Hf.
  setoid_rewrite <- (Wait_outstanding ready result p).
  destruct (first_finished handles (Wait ready result p)) as [[k x]|].
  - intros [= -> -> <-]. destruct Hf as [Hin Hk]. destruct (take_finished_ok cpus h res _ Hok1 Hk) as [? ?].
    split_and!; [done|right; by eexists|done..].
  - by apply IH.
Qed.

Lemma wait_for_returns handles waits p h : h ∈ handles -> h ∈ (running p).*1 ->
  Exists (fun w => w.1 h = true) waits -> is_Some (wait_for handles waits p).
Proof.
  intros Hh. revert p. induction waits as [|[ready result] waits IH]; intros p Hr Hw; [by apply Exists_nil in Hw|].
  cbn [wait_for]. pose proof (first_finished_spec handles (Wait ready result p)) as Hf.
  destruct (first_finished handles (Wait ready result p)) as [r|] eqn:E; [by eexists|].
  assert (Hn : ready h = false).
  { specialize (Hf h Hh). rewrite finished_wait in Hf. case_decide as Hd; [done|].
    apply not_true_is_false. intros ?. by apply Hd. }
  apply IH; [by apply running_wait|]. apply Exists_cons in Hw as [Hw|Hw]; [simpl in Hw; congruence|done].
Qed.

(** [WaitAnyResult(handles)] returns one of the given tasks that is
    outstanding, and it alone then is no longer; without any outstanding task
    among them it returns -1 at once; and it returns as soon as [select]
    has reported one of them. *)
Theorem WaitAnyResult_of_once cpus handles waits p : pools_ok cpus p ->
  (forall h res p', WaitAnyResult_of handles waits p = Some ((h, res), p') ->
     (h ∈ handles /\ outstanding p h /\ pools_ok cpus p' /\
        (forall fd, outstanding p' fd <-> outstanding p fd /\ fd <> h)) \/
     (h = -1 /\ p' = p /\ forall fd, fd ∈ handles -> ~ outstanding p fd)) /\
  (forall h, h ∈ handles -> outstanding p h ->
     finished p !! h <> None \/ Exists (fun w => w.1 h = true) waits ->
     exists r p', WaitAnyResult_of handles waits p = Some (r, p') /\ r.1 ∈ handles).
Proof.
  intros Hok. unfold WaitAnyResult_of. pose proof (first_finished_spec handles p) as Hf.
  destruct (first_finished handles p) as [[k x]|] eqn:Ef.
  { destruct Hf as [Hin Hk]. split; [|intros; by eexists _, _].
    intros h res p' [= <- <- <-]. left. destruct (take_finished_ok cpus k x p Hok Hk).
    split_and!; [done|right; by eexists|done..]. }
  destruct (existsb (is_running p) handles) eqn:Ee; split.
  - intros h res p' Hw. left. by eapply wait_for_ok.
  - intros h Hin Ho [?|Hw]; [by rewrite Hf in *|]. destruct Ho as [Hr|[y Hy]]; [|by rewrite Hf in Hy].
    destruct (wait_for_returns handles waits p h Hin Hr Hw) as [[[r y] p'] E]. exists (r, y), p'.
    split; [done|]. by apply (wait_for_ok cpus) in E as [? _].
  - intros h res p' [= <- <- <-]. right. split_and!; [done..|]. intros fd Hin [Hr|[y Hy]].
    + rewrite <- not_true_iff_false, existsb_exists in Ee. apply Ee. exists fd. rewrite <- list_elem_of_In.
      split; [done|]. by apply bool_decide_eq_true.
    + by rewrite Hf in Hy.
  - intros h Hin [Hr|[y Hy]] _; [exfalso|by rewrite Hf in Hy].
    rewrite <- not_true_iff_false, existsb_exists in Ee. apply Ee. exists h. rewrite <- list_elem_of_In.
    split; [done|]. by apply bool_decide_eq_true.
Qed.

(** ** The limits of an execution *)

Section Limits.
Context `{PathRoots} `{Config} `{RunEnv}.

Lemma execute_fsize_range lim : 0 < kMaxOutput ->
  0 < execute_fsize lim <= kMaxOutput /\
  (0 < lim_output lim <= kMaxOutput -> execute_fsize lim = lim_output lim).
Proof.
  intros Hk. unfold execute_fsize.
  destruct (Z.leb_spec (lim_output lim) 0), (Z.ltb_spec kMaxOutput (lim_output lim)); simpl; lia.
Qed.

Lemma execute_rss_range lim : is_long (lim_rss lim) -> is_long kMaxRSS -> 0 < kMaxRSS ->
  0 < execute_rss lim <= kMaxRSS /\
  (0 < lim_rss lim < kMaxRSS -> lim_rss lim < execute_rss lim <= lim_rss lim + kRSSLimitMargin).
Proof.
  unfold in_signed. change (2 ^ (64 - 1)) with 9223372036854775808. intros Hl Hm Hpos. unfold execute_rss, kRSSLimitMargin.
  destruct (Z.leb_spec (lim_rss lim) 0); simpl; [lia|].
  destruct (Z.leb_spec kMaxRSS (lim_rss lim)); simpl; [lia|].
  no_wrap 64 (kMaxRSS - lim_rss lim).
  destruct (Z.leb_spec (kMaxRSS - lim_rss lim) 1024); [lia|].
  rewrite wrap_signed_id by in_width. lia.
Qed.

Lemma execute_vss_range lim : is_long (lim_vss lim) ->
  (execute_vss lim = 0 <-> lim_vss lim <= 0) /\ 0 <= execute_vss lim <= LONG_MAX /\
  (0 < lim_vss lim <= LONG_MAX - kVSSLimitMargin -> execute_vss lim = lim_vss lim + kVSSLimitMargin).
Proof.
  unfold in_signed, execute_vss, LONG_MAX, kVSSLimitMargin. change (2 ^ (64 - 1)) with 9223372036854775808.
  change (2 ^ 63) with 9223372036854775808. intros Hl.
  destruct (Z.leb_spec (lim_vss lim) 0); [lia|].
  destruct (Z.ltb_spec (9223372036854775808 - 1 - 2048) (lim_vss lim)); [lia|].
  rewrite wrap_signed_id by in_width. lia.
Qed.

(** C35: whatever limits a test data has, an execution gets limits that the
    sandbox takes for limits (0 would mean none): a positive output size and a
    memory limit, both within the configured maxima, and a positive CPU time.
    The memory limits leave room above the limits of the test data, so that a
    program that exceeds those is seen to, and nothing overflows.  An
    address space limit is only left out when the test data has none.  Outside
    the strict mode the memory of the output file is added. *)
Theorem execute_limits sub lim used task u cpuid fds :
  is_long (lim_rss lim) -> is_long (lim_vss lim) ->
  0 < kMaxRSS -> 0 < kMaxOutput -> is_long (kMaxRSS + kMaxOutput) ->
  let opt := RunExecute sub lim used task u cpuid fds in
  let extra := if sandbox_strict sub then 0 else fsize opt in
  0 < fsize opt <= kMaxOutput /\ (0 < lim_output lim <= kMaxOutput -> fsize opt = lim_output lim) /\
  0 < opt_rss opt - extra <= kMaxRSS /\
  (0 < lim_rss lim < kMaxRSS -> lim_rss lim < opt_rss opt - extra <= lim_rss lim + kRSSLimitMargin) /\
  (opt_vss opt = 0 <-> lim_vss lim <= 0) /\ 0 <= opt_vss opt <= LONG_MAX /\
  (0 < lim_vss lim <= LONG_MAX - kVSSLimitMargin -> lim_vss lim < opt_vss opt) /\
  1 <= cpu_time opt.
Proof.
  intros Hr Hv Hm Ho Hsum opt extra.
  pose proof (execute_fsize_range lim Ho) as Hf.
  assert (Hml : is_long kMaxRSS) by (unfold in_signed in *; change (2 ^ (64 - 1)) with 9223372036854775808 in *; lia).
  pose proof (execute_rss_range lim Hr Hml Hm) as Hrss.
  pose proof (execute_vss_range lim Hv) as Hvss.
  assert (Hextra : opt_rss opt - extra = execute_rss lim).
  { unfold opt, extra, RunExecute. cbn [opt_rss fsize]. destruct (sandbox_strict sub); [lia|].
    change (fsize opt) with (execute_fsize lim).
    rewrite wrap_signed_id; [lia|done|]. unfold in_signed in *.
    change (2 ^ (64 - 1)) with 9223372036854775808 in *. lia. }
  rewrite Hextra. unfold opt, RunExecute. cbn [fsize opt_vss cpu_time].
  destruct Hf, Hrss, Hvss as (? & ? & Hvss). do 7 (split; [done || (intros Hx; rewrite Hvss by done; unfold kVSSLimitMargin; lia)|]).
  unfold execute_cpu_time. destruct (Z.leb_spec (scale_time (to_long (time_left lim (tk_stage task) used + 50000))) 0); lia.
Qed.
End Limits.

(** ** Witnesses *)

Definition sample_fork (fd pid : Z) (p : Pools) : Pools :=
  match RunTask (Some fd) pid p with Done (_, p') => p' | Crash _ => p end.

Definition sample_wait (ready : Z -> bool) (pick : Z) (p : Pools) : Pools :=
  match WaitAnyResult ready (fun _ => exited_ok) pick p with Done (_, p') => p' | Crash _ => p end.

(** Two tasks are started, one of them is waited for, a third one is started
    on the CPU and with the user that came back. *)
Definition two_running : Pools := sample_fork 12 101 (sample_fork 10 100 (InitPools [0; 1])).
Definition three_started : Pools := sample_fork 14 102 (sample_wait (fun fd => fd =? 10) 10 two_running).

Lemma sample_fork_reachable cpus fd pid p : pool_reachable cpus p -> fresh_fd fd p ->
  (length (running p) < Z.to_nat kUidPoolSize)%nat -> pool_reachable cpus (sample_fork fd pid p).
Proof.
  intros Hr Hf Hlen. unfold sample_fork. destruct (RunTask (Some fd) pid p) as [[h p']|] eqn:E; [|done].
  apply (pools_step _ p); [done|]. by apply (step_run (Some fd) pid p h p'); [intros ? [= <-]| |].
Qed.

Lemma sample_wait_reachable cpus ready pick p : pool_reachable cpus p ->
  pool_reachable cpus (sample_wait ready pick p).
Proof.
  intros Hr. unfold sample_wait. destruct (WaitAnyResult _ _ _ _) as [[h p']|] eqn:E; [|done].
  apply (pools_step _ p); [done|]. by eapply step_wait.
Qed.

Lemma fresh_fd_dec fd p :
  bool_decide (fd ∉ (running p).*1) && bool_decide (finished p !! fd = None) = true -> fresh_fd fd p.
Proof. rewrite andb_true_iff. intros [?%bool_decide_eq_true ?%bool_decide_eq_true]. by split. Qed.

Lemma two_running_reachable : pool_reachable [0; 1] two_running.
Proof.
  repeat (apply sample_fork_reachable; [|apply fresh_fd_dec; reflexivity|vm_compute; lia]). constructor.
Qed.

Lemma three_started_reachable : pool_reachable [0; 1] three_started.
Proof.
  apply sample_fork_reachable; [|apply fresh_fd_dec; reflexivity|vm_compute; lia].
  apply sample_wait_reachable, two_running_reachable.
Qed.

Example three_started_running : map (fun i => (i.1, rt_uid i.2, rt_cpu i.2)) (running three_started)
  = [(12, 50098, 0); (14, 50099, 1)].
Proof. vm_compute. reflexivity. Qed.

Lemma sample_cpus_ok : (-1) ∉ [0; 1] /\ NoDup [0; 1].
Proof. split; [set_solver|]. apply (bool_decide_unpack _). vm_compute. exact I. Qed.

Lemma running_isolated_witness : exists t u : RunningTask,
  running three_started = [(12, t); (14, u)] /\ rt_uid t <> rt_uid u /\ rt_cpu t <> rt_cpu u.
Proof.
  pose (t := {| rt_pid := 101; rt_uid := 50098; rt_cpu := 0 |}).
  pose (u := {| rt_pid := 102; rt_uid := 50099; rt_cpu := 1 |}).
  exists t, u. assert (E : running three_started = [(12, t); (14, u)]) by (vm_compute; reflexivity).
  split; [exact E|].
  destruct (running_isolated [0; 1] three_started (proj1 sample_cpus_ok) (proj2 sample_cpus_ok)
    three_started_reachable) as [Hiso _].
  destruct (Hiso 0%nat 1%nat 12 t 14 u) as [Hu Hc]; [rewrite E; reflexivity|rewrite E; reflexivity|discriminate|].
  split; [exact Hu|]. apply Hc. simpl. lia.
Defined.

Lemma WaitAnyResult_once_witness : exists h res p',
  WaitAnyResult (fun fd => fd =? 12) (fun _ => exited_ok) 12 two_running = Done ((h, res), p') /\
  outstanding two_running h /\ ~ outstanding p' h /\ outstanding p' 10.
Proof.
  assert (Hout : forall fd, fd ∈ [10; 12] -> outstanding two_running fd)
    by (intros fd Hfd; left; vm_compute; exact Hfd).
  pose proof (proj2 (WaitAnyResult_once [0; 1] (fun fd => fd =? 12) (fun _ => exited_ok) 12 two_running
    (pool_reachable_ok [0; 1] two_running (proj1 sample_cpus_ok) two_running_reachable))) as Hw.
  destruct (WaitAnyResult (fun fd => fd =? 12) (fun _ => exited_ok) 12 two_running) as [[[h res] p']|] eqn:E;
    [|vm_compute in E; discriminate].
  destruct Hw as (H1 & _ & H2 & _); [exists 10; apply Hout; set_solver|].
  assert (Eh : h = 12) by (vm_compute in E; congruence).
  exists h, res, p'. split; [reflexivity|]. split; [exact H1|]. split.
  - intros Hx. apply H2 in Hx as [_ Hx]. congruence.
  - apply H2. split; [apply Hout; set_solver|rewrite Eh; discriminate].
Defined.

#[local] Existing Instance sample_roots.
#[local] Existing Instance sample_config.
#[local] Instance sample_run_env : RunEnv := {|
  wordexp := fun _ _ _ => None; env_PATH := Some "/bin"; dir_exists := fun _ => true;
  kMaxRSS := 2097152; open_message := fun _ => 5;
|}.

(** A test data limited to 64 MiB of memory and 64 MiB of output. *)
Definition limited_item : TestdataItem := {|
  input_file := "/td/in"; answer_file := "/td/ans"; lim_vss := 65536; lim_rss := 65536; lim_output := 65536;
  lim_time := 1000000; ignore_verdict := false; td_groups := [];
|}.

Definition first_execution : Task := {| tk_type := EXECUTE; tk_subtask := 0; tk_stage := 0 |}.

Lemma execute_limits_witness :
  let opt := RunExecute sample limited_item 0 first_execution 50000 (-1) (-1, -1) in
  (opt_rss opt, opt_vss opt, fsize opt, cpu_time opt, wall_time opt) = (132096, 67584, 65536, 1050000, 2000000) /\
  lim_vss limited_item < opt_vss opt.
Proof.
  intros opt. split; [vm_compute; reflexivity|].
  destruct (execute_limits sample limited_item 0 first_execution 50000 (-1) (-1, -1))
    as (_ & _ & _ & _ & _ & _ & Hv & _); [..|apply Hv];
    first [vm_compute; reflexivity|vm_compute; split; congruence].
Defined.
