(* ===== verification/SandboxExec.v ===== *)
(** * A task in its sandbox, from the options to the result

    [SandboxExec] (sandbox_exec.cpp) in the process [RunTask] forks, the
    sandbox-exec program (sandbox_main.cpp) it runs, the two pipes between them
    and the one to the judge ([RunTask] and [Wait], tasks.cpp).

    cjail is a parameter, and so is the layout of its result structure, of
    which only the members the program reads are known here.  How the calls of
    [read] and [write] split the data, and which system calls fail, is chosen
    by the environment. *)

From S2P Require Import Prelude Enums Text Paths CNum Scores Data Specjudge Handlers Scenario Sandbox SandboxSpec TaskRunner RunnerSpec ExecuteSpec.

(** ** The sandbox library *)

Class Cjail := {
  cjail_exec : cjail_ctx -> Z * cjail_result;      (* what it returns and what it has filled *)
  cjail_errno : cjail_ctx -> Z;
  result_bytes : cjail_result -> string;           (* the object representation *)
  bytes_result : string -> cjail_result;
  sizeof_result : nat;
}.

(** Every member of the structure is an integer of at most 64 bits. *)
Definition timeval_ok (t : timeval) : Prop := is_long (tv_sec t) /\ is_long (tv_usec t).
Record result_ok (r : cjail_result) : Prop := {
  ro_kills : is_int (timekill r) /\ is_int (oomkill r);
  ro_info : is_int (si_code r) /\ is_int (si_status r);
  ro_stats : is_long (hiwater_vm r) /\ is_long (ru_maxrss r);
  ro_times : timeval_ok (ru_utime r) /\ timeval_ok (ru_stime r) /\ timeval_ok (real_time r);
}.

(** What C++ promises of a trivially copyable structure. *)
Class CjailLaws `{Cjail} : Prop := {
  sizeof_pos : (0 < sizeof_result)%nat;
  result_bytes_size r : String.length (result_bytes r) = sizeof_result;
  result_bytes_inv r : result_ok r -> bytes_result (result_bytes r) = r;
  cjail_result_ok ctx : result_ok (cjail_exec ctx).2 /\ is_int (cjail_errno ctx);
}.

(** [ret.oomkill = errno; ret.timekill = -1]. *)
Definition set_failed (errno : Z) (r : cjail_result) : cjail_result := {|
  timekill := -1; oomkill := errno; si_code := si_code r; si_status := si_status r;
  hiwater_vm := hiwater_vm r; ru_maxrss := ru_maxrss r;
  ru_utime := ru_utime r; ru_stime := ru_stime r; real_time := real_time r |}.

Section Exec.
Context `{Cjail}.

(** ** The sandbox-exec program *)

(** Its [SandboxExec]. *)
Definition jailed (o : SandboxOptions) : cjail_result :=
  let ctx := ToCJailCtx o in
  let '(rc, ret) := cjail_exec ctx in
  if rc <? 0 then set_failed (cjail_errno ctx) ret else ret.

(** Its [main]: the exit status and what it has written. *)
Definition sandbox_main (calls1 calls2 calls3 : list transfer) (stdin : string) : outcome (Z * string) :=
  match read_request calls1 calls2 stdin with
  | Crash f => Crash f
  | Done None => Done (1, "")
  | Done (Some o) =>
      let '(ok, stdout) := WriteFull calls3 (result_bytes (jailed o)) in
      Done ((if ok then 0 else 1), stdout)
  end.

(** ** The forked process *)

(** What the system does during one [SandboxExec]. *)
Record ExecRun := {
  pipes_made : bool;
  forked : bool;
  execed : bool;                                   (* the program can be executed *)
  size_calls : list transfer; vec_calls : list transfer; result_calls : list transfer;
  child_size_calls : list transfer; child_vec_calls : list transfer; child_result_calls : list transfer;
  run_errno : Z;
  leftover : cjail_result;     (* what a [ReadFull] that fails leaves in [ret] *)
  broken_pipe : bool;          (* a failing [write] raises SIGPIPE, which kills the process *)
}.

(** What the child has written to its output; a crash ends it. *)
Definition child_output (w : ExecRun) (stdin : string) : string :=
  if execed w then
    match sandbox_main (child_size_calls w) (child_vec_calls w) (child_result_calls w) stdin with
    | Done (_, stdout) => stdout
    | Crash _ => ""
    end
  else "".

(** [SandboxExec]; [None] when the process is killed by SIGPIPE. *)
Definition SandboxExec (w : ExecRun) (o : SandboxOptions) : option cjail_result :=
  let err ret := Some (set_failed (run_errno w) ret) in
  if negb (pipes_made w) || negb (forked w) then err zero_cjail_result
  else
    let vec := Serialize o in
    let size := Z.of_nat (String.length vec) in
    if bool_decide (vec = "") || (kSandboxMaxPayload <? size) then err zero_cjail_result
    else
      let '(ok1, sent1) := WriteFull (size_calls w) (PushInt size) in
      if negb ok1 then (if broken_pipe w then None else err zero_cjail_result)
      else
        let '(ok2, sent2) := WriteFull (vec_calls w) vec in
        if negb ok2 then (if broken_pipe w then None else err zero_cjail_result)
        else
          match ReadFull (result_calls w) sizeof_result (child_output w (sent1 +:+ sent2)) with
          | None => err (leftover w)
          | Some (bytes, _) => Some (bytes_result bytes)
          end.

(** ** The process and the judge *)

(** What the process of a task writes to the judge, if it gets there;
    [indeterminate] is what the members that [RunExecute] does not set on its
    error path happen to hold. *)
Definition task_process (w : ExecRun) (indeterminate : cjail_result) (o : outcome (option SandboxOptions))
    : option cjail_result :=
  match o with
  | Crash _ => None
  | Done None => Some (set_failed (run_errno w) indeterminate)
  | Done (Some o) => SandboxExec w o
  end.

(** What [Wait] reads: [res] stays as it was initialised when nothing was
    written, and the return value of [read] is not looked at. *)
Definition wait_read (written : option cjail_result) : cjail_result := default zero_cjail_result written.
End Exec.

(** ** What the exchange guarantees *)

Lemma WriteFull_ok calls buf sent : WriteFull calls buf = (true, sent) -> sent = buf.
Proof.
  intros E. destruct (proj2 transfers_exact calls buf) as (u & Hu & Hok). rewrite E in Hu, Hok.
  rewrite (Hok eq_refl), append_nil_r in Hu. done.
Qed.

(** A [WriteFull] that feeds a complete [ReadFull] of the same size has
    delivered everything. *)
Lemma piped_exact n writes reads buf ok sent got rest : String.length buf = n ->
  WriteFull writes buf = (ok, sent) -> ReadFull reads n sent = Some (got, rest) -> got = buf.
Proof.
  intros Hn Hw Hr. destruct (proj2 transfers_exact writes buf) as (u & Hu & _). rewrite Hw in Hu.
  destruct (ReadFull_ok _ _ _ _ _ Hr) as [Es Hg]. cbn [snd] in Hu. rewrite Es, append_assoc in Hu.
  rewrite <- (append_nil_r buf) in Hu. apply append_inj in Hu as [-> _]; [done|lia].
Qed.

Section Exchange.
Context `{CjailLaws}.

Lemma jailed_ok o : result_ok (jailed o).
Proof.
  unfold jailed. destruct (cjail_result_ok (ToCJailCtx o)) as [Hr He].
  destruct (cjail_exec (ToCJailCtx o)) as [rc ret]. cbn [snd] in Hr. destruct (rc <? 0); [|done].
  destruct Hr. split; cbn; [split; [unfold in_signed; lia|done]|done..].
Qed.

(** The result the parent reads, when it can read one. *)
Lemma child_output_read w o msg calls got rest : ints_ok o -> request o = Some msg ->
  ReadFull calls sizeof_result (child_output w msg) = Some (got, rest) -> bytes_result got = jailed o.
Proof.
  intros Hi Hr Hread. assert (Hpos := sizeof_pos).
  assert (Hnone : forall s g r, ReadFull calls sizeof_result s = Some (g, r) -> s <> "").
  { intros s g r Hs ->. apply ReadFull_ok in Hs as [Hs Hl]. destruct g; [simpl in Hl; lia|done]. }
  specialize (Hnone _ _ _ Hread). revert Hnone Hread. unfold child_output, sandbox_main.
  destruct (execed w); [|done]. rewrite (read_request_sent o msg) by done.
  destruct (bool_decide _ && _); [|done].
  destruct (WriteFull (child_result_calls w) (result_bytes (jailed o))) as [ok out] eqn:Ew.
  intros _ Hread. rewrite (piped_exact _ _ _ _ _ _ _ _ (result_bytes_size (jailed o)) Ew Hread).
  apply result_bytes_inv, jailed_ok.
Qed.

(** Everything the exchange needs goes well. *)
Record run_complete (w : ExecRun) (o : SandboxOptions) (msg : string) : Prop := {
  rc_started : pipes_made w && forked w && execed w = true;
  rc_size : (WriteFull (size_calls w) (PushInt (Z.of_nat (String.length (Serialize o))))).1 = true;
  rc_vec : (WriteFull (vec_calls w) (Serialize o)).1 = true;
  rc_head : is_Some (ReadFull (child_size_calls w) 8 msg);
  rc_body : is_Some (ReadFull (child_vec_calls w) (String.length (Serialize o)) (Serialize o));
  rc_result : (WriteFull (child_result_calls w) (result_bytes (jailed o))).1 = true;
  rc_read : is_Some (ReadFull (result_calls w) sizeof_result (result_bytes (jailed o)));
}.

(** The exchange after the guards: both writes are complete or it fails. *)
Lemma SandboxExec_unfold w o msg : request o = Some msg -> pipes_made w && forked w = true ->
  SandboxExec w o =
  if (WriteFull (size_calls w) (PushInt (Z.of_nat (String.length (Serialize o))))).1 &&
     (WriteFull (vec_calls w) (Serialize o)).1
  then match ReadFull (result_calls w) sizeof_result (child_output w msg) with
       | None => Some (set_failed (run_errno w) (leftover w))
       | Some (bytes, _) => Some (bytes_result bytes)
       end
  else if broken_pipe w then None else Some (set_failed (run_errno w) zero_cjail_result).
Proof.
  intros Hr Hp. unfold SandboxExec. apply andb_true_iff in Hp as [-> ->]. cbn [negb orb].
  unfold request in Hr. destruct (bool_decide (Serialize o = "") || _); [done|]. injection Hr as <-.
  destruct (WriteFull (size_calls w) _) as [[] s1] eqn:E1; [|done]. cbn [negb fst andb].
  apply WriteFull_ok in E1 as ->.
  destruct (WriteFull (vec_calls w) _) as [[] s2] eqn:E2; [|done]. by apply WriteFull_ok in E2 as ->.
Qed.

Lemma SandboxExec_refused w o : request o = None ->
  SandboxExec w o = Some (set_failed (run_errno w) zero_cjail_result).
Proof. intros Er. unfold SandboxExec. destruct (_ || _); [done|]. unfold request in Er. by destruct (_ || _). Qed.

Lemma sandboxed_exec_cases w o r : ints_ok o -> SandboxExec w o = Some r ->
  timekill r = -1 \/ r = jailed o.
Proof.
  intros Hi. destruct (request o) as [msg|] eqn:Er.
  - destruct (pipes_made w && forked w) eqn:Ep.
    + rewrite (SandboxExec_unfold w o msg Er Ep).
      destruct (_.1 && _.1); [|by destruct (broken_pipe w); intros [= <-]; left].
      destruct (ReadFull (result_calls w) _ _) as [[g q]|] eqn:Eg; intros [= <-]; [right|by left].
      by eapply child_output_read.
    + unfold SandboxExec. destruct (pipes_made w), (forked w); try done; intros [= <-]; by left.
  - rewrite (SandboxExec_refused w o Er). intros [= <-]. by left.
Qed.

(** C26: the result of a sandboxed command can be trusted.  However pipes are
    split, interrupted or cut, and whatever system call fails, [SandboxExec]
    returns either a failure (timekill = -1) or exactly what the sandbox library
    returned for the context of these very options; it returns nothing
    only when a broken pipe kills the process.  Options outside the pool of
    sandbox users, or too long, run nothing.  And when the calls succeed, the
    result is that of the library. *)
Theorem sandboxed_right w o : ints_ok o ->
  (forall r, SandboxExec w o = Some r -> timekill r = -1 \/ request o <> None /\ r = jailed o) /\
  (SandboxExec w o = None -> broken_pipe w = true /\ request o <> None) /\
  (uid_allowed (uid o) && uid_allowed (gid o) = false \/ kSandboxMaxPayload < Z.of_nat (String.length (Serialize o)) ->
   SandboxExec w o = Some (set_failed (run_errno w) zero_cjail_result)) /\
  (forall msg, request o = Some msg -> run_complete w o msg -> SandboxExec w o = Some (jailed o)).
Proof.
  intros Hi. pose proof (fun r => sandboxed_exec_cases w o r Hi) as Hcases.
  destruct (request o) as [msg|] eqn:Er.
  2:{ rewrite (SandboxExec_refused w o Er). split_and!; [intros r [= <-]; by left|done..]. }
  destruct (request_spec o msg Er) as (_ & _ & Eu & Em).
  split; [naive_solver|]. split; [|split; [intros [?|?]; [congruence|lia]|]].
  - destruct (pipes_made w && forked w) eqn:Ep.
    + rewrite (SandboxExec_unfold w o msg Er Ep).
      destruct (_.1 && _.1); [by destruct (ReadFull _ _ _) as [[]|]|]. by destruct (broken_pipe w).
    + unfold SandboxExec. by destruct (pipes_made w), (forked w).
  - intros m [= <-] [[Ep Ex]%andb_true_iff Hs Hv Hh Hb Hres Hread].
    assert (Ec : child_output w msg = result_bytes (jailed o)).
    { unfold child_output, sandbox_main. rewrite Ex, (read_request_sent o msg), !bool_decide_true by done.
      cbn [andb]. destruct (WriteFull (child_result_calls w) _) as [ok out] eqn:Ew. cbn [fst] in Hres.
      rewrite Hres in Ew. by apply WriteFull_ok in Ew. }
    rewrite (SandboxExec_unfold w o msg Er Ep), Hs, Hv, Ec. cbn [andb].
    destruct Hread as [[g q] Hread]. rewrite Hread. f_equal.
    rewrite <- Ec in Hread. by eapply child_output_read.
Qed.
End Exchange.

(** ** The options of a task fit the members they are stored in *)

Lemma float_to_long_range x : is_long (float_to_long x).
Proof.
  assert (Hz : forall z, is_long (to_long_or_indefinite z)).
  { intros z. unfold to_long_or_indefinite, LONG_MIN, LONG_MAX, in_signed.
    destruct (Z.leb_spec (- 2 ^ 63) z), (Z.leb_spec z (2 ^ 63 - 1)); simpl in *; lia. }
  destruct x; unfold float_to_long; try apply Hz; unfold LONG_MIN, in_signed; simpl; lia.
Qed.

Lemma to_long_range z : is_long (to_long z).
Proof. by apply wrap_signed_range. Qed.

(** The types of the configuration, of the descriptors and of the submission. *)
Record child_typed `{Config} `{RunEnv} (sub : Submission) (uid_ cpuid : Z) (fds : option (Z * Z)) : Prop := {
  ct_limits : is_long kMaxRSS /\ is_long kMaxOutput;
  ct_message : forall path, is_int (open_message path);
  ct_ids : is_int uid_ /\ is_int cpuid;
  ct_fds : forall i o, fds = Some (i, o) -> is_int i /\ is_int o;
  ct_procs : is_int (process_limit sub);
  ct_items : forall i item, testdata sub !! i = Some item ->
    is_long (lim_rss item) /\ is_long (lim_vss item) /\ is_long (lim_output item);
}.

Lemma pinned_ints cpuid : is_int cpuid -> Forall is_int (pinned cpuid).
Proof. intros Hc. unfold pinned. destruct (cpuid =? -1); [apply Forall_nil_2|by apply Forall_singleton]. Qed.

Ltac bool_cases := match goal with |- in_signed _ (if ?b then _ else _) => destruct b end.
Ltac option_fields :=
  split; cbn -[in_signed scale_time execute_wall_time execute_cpu_time execute_rss execute_vss execute_fsize wrap_signed pinned];
  repeat match goal with |- _ /\ _ => split end; try done.

Lemma child_options_ints `{PathRoots} `{Config} `{RunEnv} sub res task u cpuid fds o :
  child_typed sub u cpuid fds -> child_options sub res task u cpuid fds = Done (Some o) -> ints_ok o.
Proof.
  intros [[Hr Ho] Hmsg [Hu Hc] Hf Hp Hi] E. apply pinned_ints in Hc. unfold child_options in E.
  assert (Hsmall : forall z, -1 <= z <= 32 -> is_int z /\ is_long z) by (intros z Hz; unfold in_signed; simpl; lia).
  assert (Hscale : forall z, is_long (scale_time z)) by (intros z; apply float_to_long_range).
  destruct (tk_type task).
  - destruct (CompileSubtask_of_Z _); [|done]. injection E as <-.
    option_fields; apply Hsmall; lia.
  - destruct (if 0 <=? tk_subtask task then _ else None) as [lim|] eqn:El; [|done].
    destruct (0 <=? tk_subtask task); [|done]. destruct (Hi _ _ El) as (Lr & Lv & Lo).
    destruct (if 0 <? tk_stage task then _ else _) as [used|]; [|done].
    destruct (if sandbox_strict sub then fds else _) as [[fi fo]|] eqn:Efds; [|done]. injection E as <-.
    option_fields.
    all: try (destruct (sandbox_strict sub); [by edestruct Hf|apply Hsmall; lia]).
    all: try (apply Hsmall; lia).
    + apply Hscale.
    + unfold execute_cpu_time. cbn zeta. bool_cases; [apply Hsmall; lia|apply Hscale].
    + destruct (sandbox_strict sub); [|apply to_long_range]. unfold execute_rss.
      bool_cases; [done|apply to_long_range].
    + unfold execute_vss. bool_cases; [apply Hsmall; lia|].
      bool_cases; [unfold LONG_MAX, in_signed; simpl; lia|apply to_long_range].
    + unfold execute_fsize. by bool_cases.
  - injection E as <-. option_fields; apply Hsmall; lia.
  - injection E as <-. option_fields; apply Hsmall; lia.
Qed.

(** ** What the judge makes of it

    An execution is judged by what cjail returned for the options of the task,
    or counts as an error of the sandbox, as long as the process of the task
    lives. *)
Lemma task_process_verdict `{CjailLaws} `{PathRoots} `{Config} `{RunEnv} w ind sub res task u cpuid fds strict lim td r :
  child_typed sub u cpuid fds ->
  let opts := child_options sub res task u cpuid fds in
  task_process w ind opts = Some r ->
  execute_verdict strict lim (wait_read (Some r)) td = EE \/
  exists o, opts = Done (Some o) /\ r = jailed o.
Proof.
  intros Ht opts. pose proof (fun o => child_options_ints sub res task u cpuid fds o Ht) as Ho. fold opts in Ho.
  clearbody opts. unfold task_process, wait_read. cbn [default].
  assert (Hf : forall x, timekill x = -1 -> execute_verdict strict lim x td = EE)
    by (intros x Hx; unfold execute_verdict; by rewrite Hx).
  destruct opts as [[o|]|]; [|by intros [= <-]; left; apply Hf|done]. intros Hr.
  destruct (sandboxed_exec_cases w o r (Ho o eq_refl) Hr) as [Hk| ->]; [left; by apply Hf|right; by exists o].
Qed.

(** A process that dies without a result (here by SIGPIPE, when the sandbox
    program is gone before it has read the request) leaves the zero result,
    which an execution within any limits passes ([us zero_timeval] is 0 for
    every finite time multiplier). *)
Lemma lost_task_passes `{Cjail} `{Config} o : us zero_timeval = 0 -> request o <> None -> exists w, SandboxExec w o = None /\
  forall strict lim td, 0 <= lim_vss lim -> 0 <= lim_rss lim -> 0 <= lim_time lim ->
  execute_verdict strict lim (wait_read (SandboxExec w o))
    (record_usage 0 (wait_read (SandboxExec w o)) td) = NUL.
Proof.
  intros Hz Hr. destruct (request o) as [msg|] eqn:Er; [|done].
  exists {| pipes_made := true; forked := true; execed := false; size_calls := [Failed]; vec_calls := [];
    result_calls := []; child_size_calls := []; child_vec_calls := []; child_result_calls := [];
    run_errno := 32; leftover := zero_cjail_result; broken_pipe := true |}.
  rewrite (SandboxExec_unfold _ o msg Er) by done. cbn.
  split; [done|]. intros strict lim td Hv Hm Ht.
  unfold execute_verdict, over_memory, wait_read, record_usage. cbn. rewrite Hz. change (to_long (0 + 0)) with 0.
  rewrite !(proj2 (Z.ltb_ge _ _)) by lia. by rewrite !andb_false_r.
Qed.

(** ** Witnesses *)

Definition timeval_bytes (t : timeval) : string := PushInt (tv_sec t) +:+ PushInt (tv_usec t).
Definition read_timeval : reader timeval :=
  s ← ReadInt; u ← ReadInt; mret {| tv_sec := s; tv_usec := u |}.

#[export] Instance codec_timeval : Codec timeval_bytes read_timeval timeval_ok.
Proof.
  intros [s u] rest [Hs Hu]. pose proof (fun B => @read_push Z B PushInt ReadInt is_long _) as Rl.
  unfold read_timeval, timeval_bytes. rewrite append_assoc, !Rl by done. done.
Qed.

(** A layout of the structure with these members only. *)
Definition sample_result_bytes (r : cjail_result) : string :=
  PushInt (timekill r) +:+ PushInt (oomkill r) +:+ PushInt (si_code r) +:+ PushInt (si_status r) +:+
  PushInt (hiwater_vm r) +:+ PushInt (ru_maxrss r) +:+
  timeval_bytes (ru_utime r) +:+ timeval_bytes (ru_stime r) +:+ timeval_bytes (real_time r).

Definition sample_bytes_result (s : string) : cjail_result :=
  match (tk ← ReadInt32; ok ← ReadInt32; sc ← ReadInt32; st ← ReadInt32; vm ← ReadInt; rss ← ReadInt;
         ut ← read_timeval; sy ← read_timeval; re ← read_timeval;
         mret {| timekill := tk; oomkill := ok; si_code := sc; si_status := st; hiwater_vm := vm;
                 ru_maxrss := rss; ru_utime := ut; ru_stime := sy; real_time := re |} : reader cjail_result) s with
  | Some (r, _) => r
  | None => zero_cjail_result
  end.

#[export] Instance sample_cjail : Cjail := {|
  cjail_exec ctx := if ctx_uid ctx =? 50001 then (0, exited_ok) else (-1, zero_cjail_result);
  cjail_errno _ := 1;
  result_bytes := sample_result_bytes; bytes_result := sample_bytes_result; sizeof_result := 96;
|}.

#[export] Instance sample_cjail_laws : CjailLaws.
Proof.
  split.
  - cbn. lia.
  - intros r. cbn. unfold sample_result_bytes, timeval_bytes. by rewrite !length_append, !PushInt_length.
  - intros r [[K1 K2] [I1 I2] [S1 S2] (T1 & T2 & T3)]. cbn.
    pose proof (fun B => @read_push Z B PushInt ReadInt is_long _) as Rl.
    pose proof (fun B => @read_push Z B PushInt ReadInt32 is_int _) as Ri.
    pose proof (fun B => @read_push timeval B timeval_bytes read_timeval timeval_ok _) as Rt.
    unfold sample_bytes_result, sample_result_bytes.
    rewrite <- (append_nil_r (timeval_bytes (real_time r))).
    rewrite !Ri, !Rl, !Rt by done. by destruct r.
  - intros ctx. cbn. split; [|unfold in_signed; lia].
    destruct (ctx_uid ctx =? 50001); repeat split; vm_compute; congruence.
Qed.

Definition sample_run : ExecRun := {|
  pipes_made := true; forked := true; execed := true;
  size_calls := [Interrupted; Moved 8]; vec_calls := [Moved 100; Interrupted; Moved 199];
  result_calls := [Moved 50; Interrupted; Moved 46];
  child_size_calls := [Moved 3; Moved 5];
  child_vec_calls := [Interrupted; Moved (String.length (Serialize sample_options))];
  child_result_calls := [Moved 96];
  run_errno := 0; leftover := zero_cjail_result; broken_pipe := false |}.

Lemma sandboxed_right_witness :
  SandboxExec sample_run sample_options = Some exited_ok /\
  SandboxExec (Build_ExecRun true true true [Moved 8] [Moved 100; Failed] [] [] [] [] 5 zero_cjail_result false)
    sample_options = Some (set_failed 5 zero_cjail_result).
Proof.
  split; [|vm_compute; reflexivity].
  destruct (request sample_options) as [msg|] eqn:Er; [|vm_compute in Er; discriminate].
  change exited_ok with (jailed sample_options).
  apply (proj2 (proj2 (proj2 (sandboxed_right sample_run sample_options sample_ints_ok))) msg Er).
  vm_compute in Er. injection Er as <-.
  split; vm_compute; first [reflexivity | eexists; reflexivity].
Defined.
