(* ===== verification/DefaultScoring.v ===== *)
(** * The default scoring program

    tools/default-scoring.cpp: the program that judges the test data of
    problems without a special judge, by comparing the user's output with the
    answer.  An [std::ifstream] is an [istream]; the text a comparison writes to
    [message] is part of its result.  A comparison whose loop has not ended
    after [fuel] iterations has no result. *)

From S2P Require Import Prelude Text CNum Stream Data Handlers.
From Stdlib Require Import SpecFloat.

(** ** Lines and characters *)

Definition is_newline (c : ascii) : bool := bool_decide (c = ascii_of_nat 10).

(** [getline(in, s)] with an empty [s]. *)
Definition getline (f : istream) : string * istream :=
  if is_fail f || is_eof f then ("", {| is_rest := is_rest f; is_fail := true; is_eof := is_eof f |})
  else
    let '(l, r) := span (fun c => negb (is_newline c)) (is_rest f) in
    match r with
    | EmptyString => (l, {| is_rest := ""; is_fail := at_end l; is_eof := true |})
    | String _ r' => (l, {| is_rest := r'; is_fail := false; is_eof := false |})
    end.

(** [kWhites] of [LineCompare], and of [WordCompare]. *)
Definition is_line_white (c : ascii) : bool :=
  bool_decide (nat_of_ascii c ∈ [32; 10; 13; 9]%nat).
Definition is_word_white (c : ascii) : bool :=
  bool_decide (nat_of_ascii c ∈ [32; 10; 13; 9; 11; 12]%nat).

(** [s.erase(s.find_last_not_of(whites) + 1)]. *)
Fixpoint erase_tail (white : ascii -> bool) (s : string) : string :=
  match s with
  | EmptyString => ""
  | String c s' =>
      match erase_tail white s' with
      | EmptyString => if white c then "" else String c ""
      | t => String c t
      end
  end.

(** [s.find_last_not_of(whites) == npos]. *)
Definition all_white (white : ascii -> bool) (s : string) : bool := string_forall white s.

(** ** Messages *)

Definition EOFMessage (ans_eof : bool) (line user_lines : Z) : string :=
  if ans_eof then "Unexpected line " +:+ to_string line
  else "Unexpected EOF after line " +:+ to_string user_lines.

Fixpoint common_prefix (a b : string) : nat :=
  match a, b with
  | String x a', String y b' => if bool_decide (x = y) then S (common_prefix a' b') else O
  | _, _ => O
  end.

(** One of the two texts, shortened around [pos]. *)
Definition excerpt (pos : nat) (s : string) : string :=
  if (pos <=? 40)%nat || (String.length s <=? 80)%nat then s
  else "..." +:+ substr (pos - 40) 80 s +:+ (if (pos + 40 <? String.length s)%nat then "..." else "").

Definition DifferMessage (ans usr : string) : string :=
  let pos := common_prefix ans usr in
  "Expected: " +:+ excerpt pos ans +:+ NL +:+ "Got: " +:+ excerpt pos usr.

Section Compare.
Context (verbose : bool).

(** What a comparison returns, with its message. *)
Definition differ (msg : string) : bool * string := (false, if verbose then msg else "").

(** ** Comparing lines *)

(** The loop over the rest of the longer file; [count_lines] whether it counts
    the lines. *)
Fixpoint tail_loop (fuel : nat) (white : ascii -> bool) (count_lines : bool) (f_ans f_usr : istream)
    (line user_lines : Z) : option (bool * string) :=
  match fuel with
  | O => None
  | S fuel' =>
      if negb (is_eof f_ans) || negb (is_eof f_usr) then
        let '(s, f_ans, f_usr) :=
          if negb (is_eof f_ans) then let '(s, f) := getline f_ans in (s, f, f_usr)
          else let '(s, f) := getline f_usr in (s, f_ans, f) in
        if negb (all_white white s) then Some (differ (EOFMessage (is_eof f_ans) line user_lines))
        else tail_loop fuel' white count_lines f_ans f_usr (if count_lines then line + 1 else line) user_lines
      else Some (true, "")
  end.

Fixpoint line_loop (fuel : nat) (strip_tail ignore_tail_empty_lines : bool) (f_ans f_usr : istream)
    (line : Z) : option (bool * string) :=
  match fuel with
  | O => None
  | S fuel' =>
      if Bool.eqb (is_eof f_ans) (is_eof f_usr) then
        if is_eof f_ans then Some (true, "")
        else
          let '(s, f_ans) := getline f_ans in
          let '(t, f_usr) := getline f_usr in
          let s := if strip_tail then erase_tail is_line_white s else s in
          let t := if strip_tail then erase_tail is_line_white t else t in
          if negb (bool_decide (s = t)) then
            Some (differ ("Line " +:+ to_string line +:+ " differ." +:+ NL +:+ DifferMessage s t))
          else line_loop fuel' strip_tail ignore_tail_empty_lines f_ans f_usr (line + 1)
      else
        let user_lines := line - 1 in
        if negb ignore_tail_empty_lines then
          Some (differ (EOFMessage (is_eof f_ans) line user_lines))
        else tail_loop fuel' is_line_white true f_ans f_usr line user_lines
  end.

(** Every iteration reads a line of a file that is not at its end. *)
Definition compare_fuel (f_ans f_usr : istream) : nat :=
  (String.length (is_rest f_ans) + String.length (is_rest f_usr) + 4)%nat.

Definition LineCompare (f_ans f_usr : istream) (strip_tail ignore_tail_empty_lines : bool)
    : option (bool * string) :=
  line_loop (compare_fuel f_ans f_usr) strip_tail ignore_tail_empty_lines f_ans f_usr 1.

(** ** Comparing bytes *)

Definition kBufSize : nat := 65536.

(** [f.read(buf, n)]: the bytes read ([gcount()] of them). *)
Definition read_block (n : nat) (f : istream) : string * istream :=
  if is_fail f || is_eof f then ("", {| is_rest := is_rest f; is_fail := true; is_eof := is_eof f |})
  else
    let got := substr 0 n (is_rest f) in
    let rest := substr n (String.length (is_rest f) - n) (is_rest f) in
    let short := (String.length (is_rest f) <? n)%nat in
    (got, {| is_rest := rest; is_fail := short; is_eof := short |}).

Definition hex_digit (n : Z) : string :=
  substr (Z.to_nat n) 1 "0123456789abcdef".
Definition hex_byte (c : option ascii) : string :=
  let v := match c with Some c => Z.of_nat (nat_of_ascii c) | None => 0 end in
  hex_digit (v / 16) +:+ hex_digit (v mod 16).

Definition block_message (pos : Z) (b1 b2 : string) : string :=
  let offset := common_prefix b1 b2 in
  "Byte " +:+ to_string (pos + Z.of_nat offset) +:+ " differ: expected 0x" +:+
  hex_byte (String.get offset b1) +:+ ", got 0x" +:+ hex_byte (String.get offset b2).

Fixpoint strict_loop (fuel : nat) (f_ans f_usr : istream) (pos : Z) : option (bool * string) :=
  match fuel with
  | O => None
  | S fuel' =>
      if stream_ok f_ans then
        let '(b1, f_ans) := read_block kBufSize f_ans in
        let '(b2, f_usr) := read_block kBufSize f_usr in
        let n1 := Z.of_nat (String.length b1) in
        let n2 := Z.of_nat (String.length b2) in
        if negb (Bool.eqb (is_eof f_ans) (is_eof f_usr)) || negb (n1 =? n2) then
          Some (differ ("Length differ: expected " +:+ to_string (pos + n1) +:+ " bytes, got " +:+
                        to_string (pos + n2) +:+ " bytes"))
        else if negb (bool_decide (b1 = b2)) then Some (differ (block_message pos b1 b2))
        else strict_loop fuel' f_ans f_usr (pos + n2)
      else Some (true, "")
  end.

Definition StrictCompare (f_ans f_usr : istream) : option (bool * string) :=
  strict_loop (compare_fuel f_ans f_usr) f_ans f_usr 0.

(** ** Comparing words *)

(** The loop over the words of two lines; [s] and [t] are what lies behind
    [i1] and [i2].  [None] when the lines agree. *)
Fixpoint word_loop (fuel : nat) (func : string -> string -> bool) (s t : string) (line word : Z)
    : option (bool * string) :=
  match fuel with
  | O => None
  | S fuel' =>
      let s := snd (span is_word_white s) in
      let t := snd (span is_word_white t) in
      if xorb (at_end s) (at_end t) then
        Some (differ
          (if at_end s
           then "Unexpected word: line " +:+ to_string line +:+ ", word " +:+ to_string word
           else "Unexpected EOL after line " +:+ to_string line +:+ ", word " +:+ to_string (word - 1)))
      else if at_end s then None
      else
        let '(u, s) := span (fun c => negb (is_word_white c)) s in
        let '(v, t) := span (fun c => negb (is_word_white c)) t in
        if negb (func u v) then
          Some (differ ("Line " +:+ to_string line +:+ ", word " +:+ to_string word +:+ " differ." +:+ NL +:+
                        DifferMessage u v))
        else word_loop fuel' func s t line (word + 1)
  end.

Fixpoint words_loop (fuel : nat) (func : string -> string -> bool) (f_ans f_usr : istream) (line : Z)
    : option (bool * string) :=
  match fuel with
  | O => None
  | S fuel' =>
      if Bool.eqb (is_eof f_ans) (is_eof f_usr) then
        if is_eof f_ans then Some (true, "")
        else
          let '(s, f_ans) := getline f_ans in
          let '(t, f_usr) := getline f_usr in
          match word_loop (S (String.length s)) func s t line 1 with
          | Some r => Some r
          | None => words_loop fuel' func f_ans f_usr (line + 1)
          end
      else tail_loop fuel' is_word_white false f_ans f_usr line (line - 1)
  end.

Definition WordCompare (func : string -> string -> bool) (f_ans f_usr : istream)
    : option (bool * string) :=
  words_loop (compare_fuel f_ans f_usr) func f_ans f_usr 1.
End Compare.

(** ** Comparing numbers *)

(** The [check] wrapper: words are numbers when both can be converted and the
    answer is written like a floating-point number. *)
Definition is_float_char (c : ascii) : bool :=
  existsb (is_char c) ["."; "e"; "E"; "x"; "X"; "n"; "N"]%char.

Definition check (func : spec_float -> spec_float -> bool) (ans usr : string) : bool :=
  match stold ans, stold usr with
  | Some fans, Some fusr =>
      if negb (string_forall (fun c => negb (is_float_char c)) ans) then func fans fusr
      else bool_decide (ans = usr)
  | _, _ => bool_decide (ans = usr)
  end.

(** [std::max(1.0L, x)]. *)
Definition ld_one : spec_float := ld_of_Z 1.
Definition max_one (x : spec_float) : spec_float := if SFltb ld_one x then x else ld_one.

Definition absolute (threshold ans usr : spec_float) : bool :=
  SFleb (SFabs (ld_sub ans usr)) (ld_of_dbl threshold).
Definition relative (threshold ans usr : spec_float) : bool :=
  SFleb (SFabs (ld_sub ans usr)) (ld_mul (ld_of_dbl threshold) (SFabs ans)).
Definition absolute_relative (threshold ans usr : spec_float) : bool :=
  SFleb (SFabs (ld_sub ans usr)) (ld_mul (ld_of_dbl threshold) (max_one (SFabs ans))).

(** ** The program *)

Record scoring_args := {
  sa_verbose : bool; sa_type : string; sa_subtype : string; sa_threshold : spec_float;
}.

(** [1e-6] as a [double]. *)
Definition default_threshold : spec_float := S754_finite false 4722366482869645 (-72).

Definition default_args : scoring_args := {|
  sa_verbose := false; sa_type := "line"; sa_subtype := "absolute-relative";
  sa_threshold := default_threshold |}.

(** The loop over [argv], from index 2 on. *)
Fixpoint parse_args (argv : list string) (a : scoring_args) : scoring_args :=
  match argv with
  | [] => a
  | str :: argv =>
      if bool_decide (str = "verbose") then
        parse_args argv {| sa_verbose := true; sa_type := sa_type a; sa_subtype := sa_subtype a;
                           sa_threshold := sa_threshold a |}
      else
        let with_type sub th := {| sa_verbose := sa_verbose a; sa_type := str; sa_subtype := sub;
                                   sa_threshold := th |} in
        if bool_decide (str = "float-diff") then
          match argv with
          | [] => with_type (sa_subtype a) (sa_threshold a)
          | subtype :: argv =>
              match argv with
              | [] => with_type subtype (sa_threshold a)
              | th :: argv' =>
                  match stold th with
                  | Some x => parse_args argv' (with_type subtype (dbl_of_ld x))
                  | None => parse_args argv (with_type subtype (sa_threshold a))
                  end
              end
          end
        else parse_args argv (with_type (sa_subtype a) (sa_threshold a))
  end.

(** The comparison the arguments choose. *)
Definition compare_files (a : scoring_args) (f_ans f_usr : istream) : option (bool * string) :=
  let v := sa_verbose a in
  let th := sa_threshold a in
  if bool_decide (sa_type a = "strict") then StrictCompare v f_ans f_usr
  else if bool_decide (sa_type a = "line") then LineCompare v f_ans f_usr true true
  else if bool_decide (sa_type a = "white-diff") then
    WordCompare v (fun ans usr => bool_decide (ans = usr)) f_ans f_usr
  else if bool_decide (sa_type a = "float-diff") then
    if bool_decide (sa_subtype a = "absolute") then WordCompare v (check (absolute th)) f_ans f_usr
    else if bool_decide (sa_subtype a = "relative") then WordCompare v (check (relative th)) f_ans f_usr
    else if bool_decide (sa_subtype a = "absolute-relative") then
      WordCompare v (check (absolute_relative th)) f_ans f_usr
    else Some (false, "")
  else Some (false, "").

Definition scoring_output (verbose : bool) (r : bool * string) : json :=
  if fst r then JObj [("verdict", JStr "AC")]
  else JObj (("verdict", JStr "WA") ::
             if verbose then [("message_type", JStr "text"); ("message", JStr (snd r))] else []).

(** [main]: the document it prints; [meta] is the parsed document of
    [argv[1]], [argv] the arguments behind it.  No result when a member of
    [meta] is missing (an exception escapes) or the comparison does not end. *)
Definition main (env : Env) (meta : json) (argv : list string) : option json :=
  match json_find meta "user_output_file", json_find meta "answer_file" with
  | Some (JStr user_output), answer =>
      if negb (env_is_regular env user_output) then Some (JObj [("verdict", JStr "WA")])
      else
        let a := parse_args argv default_args in
        match answer with
        | Some (JStr answer_file) =>
            scoring_output (sa_verbose a) <$>
              compare_files a (open_file (env_read env answer_file)) (open_file (env_read env user_output))
        | _ => None
        end
  | _, _ => None
  end.
