(* ===== verification/DefaultScoringSpec.v ===== *)
(** * What the default scoring program accepts

    The loops of src/tools/default-scoring.cpp against a reference: a strict
    comparison accepts equal files, a comparison by lines files that are equal
    once white space at the end of lines and empty lines at the end of the file
    are dropped, and a comparison by words files whose lines have related
    words.  Together with [ReadSpecjudgeResult] this gives the verdict of the
    test data of a problem without a special judge. *)

From S2P Require Import Prelude Enums Text Paths CNum Scores Stream Data Specjudge Handlers Scenario DefaultScoring.
From Stdlib Require Import SpecFloat.

(** ** The reference *)

(** The pieces between newlines. *)
Fixpoint lines (s : string) : list string :=
  match s with
  | EmptyString => [""]
  | String c s' =>
      if is_newline c then "" :: lines s'
      else match lines s' with l :: ls => String c l :: ls | [] => [String c ""] end
  end.

Fixpoint words (s : string) : list string :=
  match s with
  | EmptyString => []
  | String c s' =>
      if is_word_white c then words s'
      else match s' with
           | EmptyString => [String c ""]
           | String d _ =>
               if is_word_white d then String c "" :: words s'
               else match words s' with w :: ws => String c w :: ws | [] => [String c ""] end
           end
  end.

(** A list without the blank elements at its end. *)
Fixpoint drop_blank {A} (blank : A -> bool) (l : list A) : list A :=
  match l with
  | [] => []
  | x :: l' =>
      match drop_blank blank l' with
      | [] => if blank x then [] else [x]
      | k => x :: k
      end
  end.

Definition trimmed_lines (s : string) : list string :=
  drop_blank at_end (map (erase_tail is_line_white) (lines s)).

Definition no_words (ws : list string) : bool := match ws with [] => true | _ => false end.
Definition word_lines (s : string) : list (list string) := drop_blank no_words (map words (lines s)).

(** Word for word related by [func]. *)
Definition same_words (func : string -> string -> bool) (ans usr : string) : Prop :=
  Forall2 (Forall2 (fun u v => func u v = true)) (word_lines ans) (word_lines usr).

Definition accepts (a : scoring_args) (ans usr : string) : Prop :=
  if bool_decide (sa_type a = "strict") then ans = usr
  else if bool_decide (sa_type a = "line") then trimmed_lines ans = trimmed_lines usr
  else if bool_decide (sa_type a = "white-diff") then word_lines ans = word_lines usr
  else if bool_decide (sa_type a = "float-diff") then
    if bool_decide (sa_subtype a = "absolute") then
      same_words (check (absolute (sa_threshold a))) ans usr
    else if bool_decide (sa_subtype a = "relative") then
      same_words (check (relative (sa_threshold a))) ans usr
    else if bool_decide (sa_subtype a = "absolute-relative") then
      same_words (check (absolute_relative (sa_threshold a))) ans usr
    else False
  else False.

(** ** Comparing up to a blank tail *)

Section Tails.
Context {A : Type} (blank : A -> bool) (R : A -> A -> bool).
Context (HR : forall x y, R x y = true -> blank x = blank y).
Context (HB : forall x y, blank x = true -> blank y = true -> R x y = true).

Fixpoint tails_match (la lu : list A) : bool :=
  match la, lu with
  | x :: la', y :: lu' => R x y && tails_match la' lu'
  | [], l | l, [] => forallb blank l
  end.

Lemma drop_blank_nil l : drop_blank blank l = [] <-> forallb blank l = true.
Proof.
  induction l as [|x l IH]; [done|]. simpl. destruct (drop_blank blank l) as [|y k].
  - rewrite (proj1 IH) by done. rewrite andb_true_r. by destruct (blank x).
  - split; [done|]. intros [_ E]%andb_true_iff. by apply IH in E.
Qed.

Lemma tails_match_iff la lu : tails_match la lu = true <->
  Forall2 (fun x y => R x y = true) (drop_blank blank la) (drop_blank blank lu).
Proof.
  revert lu. induction la as [|x la IH]; intros lu.
  - transitivity (drop_blank blank lu = []).
    + rewrite drop_blank_nil. by destruct lu.
    + split; [intros ->; constructor|by intros ?%Forall2_nil_inv_l].
  - destruct lu as [|y lu].
    + transitivity (drop_blank blank (x :: la) = []).
      * by rewrite drop_blank_nil.
      * split; [intros ->; constructor|by intros ?%Forall2_nil_inv_r].
    + cbn [tails_match]. rewrite andb_true_iff, IH. cbn [drop_blank].
      destruct (drop_blank blank la) as [|x' da], (drop_blank blank lu) as [|y' du].
      * destruct (blank x) eqn:Ex, (blank y) eqn:Ey.
        -- split; [done|]. intros _. split; [by apply HB|constructor].
        -- split; [intros [E%HR _]; congruence|by intros ?%Forall2_nil_inv_l].
        -- split; [intros [E%HR _]; congruence|by intros ?%Forall2_nil_inv_r].
        -- split; [intros [? _]; by repeat constructor|].
           intros [? _]%Forall2_cons. split; [done|constructor].
      * split; [intros [_ F]; by apply Forall2_nil_inv_l in F|].
        destruct (blank x); intros F; [by apply Forall2_nil_inv_l in F|].
        apply Forall2_cons in F as [_ F]. by apply Forall2_nil_inv_l in F.
      * split; [intros [_ F]; by apply Forall2_nil_inv_r in F|].
        destruct (blank y); intros F; [by apply Forall2_nil_inv_r in F|].
        apply Forall2_cons in F as [_ F]. by apply Forall2_nil_inv_r in F.
      * split; [intros [? ?]; by constructor|by intros [? ?]%Forall2_cons].
Qed.
End Tails.

(** ** Reading lines *)

(** A stream that was opened and read by [getline] only: the lines to come. *)
Definition lines_left (f : istream) : list string := if is_eof f then [] else lines (is_rest f).
Definition readable (f : istream) : Prop := is_fail f = true -> is_eof f = true.

Lemma lines_nonempty s : lines s <> [].
Proof. destruct s as [|c s]; simpl; [done|]. destruct (is_newline c); [done|]. by destruct (lines s). Qed.

Lemma lines_length s : (length (lines s) <= S (String.length s))%nat.
Proof.
  induction s as [|c s IH]; [simpl; lia|]. cbn [lines String.length].
  destruct (is_newline c); [simpl; lia|]. destruct (lines s); simpl in *; lia.
Qed.

Lemma lines_span s :
  lines s = let '(l, r) := span (fun c => negb (is_newline c)) s in
            match r with EmptyString => [l] | String _ r' => l :: lines r' end.
Proof.
  induction s as [|c s IH]; [done|]. cbn [lines span]. destruct (is_newline c) eqn:E; cbn [negb]; [done|].
  rewrite IH. destruct (span _ s) as [l r]. by destruct r.
Qed.

Lemma lines_left_nil f : lines_left f = [] <-> is_eof f = true.
Proof. unfold lines_left. destruct (is_eof f); [done|]. split; [by intros ?%lines_nonempty|done]. Qed.

Lemma lines_left_open s : lines_left (open_stream s) = lines s /\ readable (open_stream s).
Proof. done. Qed.

Lemma getline_spec f : readable f -> is_eof f = false ->
  let '(l, f') := getline f in lines_left f = l :: lines_left f' /\ readable f'.
Proof.
  intros Hr He. unfold getline. assert (is_fail f = false) as ->.
  { destruct (is_fail f) eqn:E; [|done]. specialize (Hr E). congruence. }
  rewrite He. cbn [orb]. unfold lines_left. rewrite He, lines_span.
  destruct (span _ (is_rest f)) as [l r]. by destruct r.
Qed.

Section Loops.
Context (verbose : bool).

(** The result of a comparison is decided; its message is left open. *)
Definition decides (r : option (bool * string)) (b : bool) : Prop := exists msg, r = Some (b, msg).

Lemma decides_false msg : decides (Some (differ verbose msg)) false.
Proof. by eexists. Qed.

Lemma tail_loop_spec fuel white cnt f_ans f_usr line user_lines :
  readable f_ans -> readable f_usr ->
  (length (lines_left f_ans) + length (lines_left f_usr) < fuel)%nat ->
  decides (tail_loop verbose fuel white cnt f_ans f_usr line user_lines)
    (forallb (all_white white) (lines_left f_ans ++ lines_left f_usr)).
Proof.
  revert f_ans f_usr line. induction fuel as [|fuel IH]; intros f_ans f_usr line Ha Hu Hf; [lia|].
  cbn [tail_loop]. destruct (is_eof f_ans) eqn:Ea; cbn [negb orb].
  - rewrite (proj2 (lines_left_nil f_ans) Ea) in *. destruct (is_eof f_usr) eqn:Eu; cbn [negb].
    + rewrite (proj2 (lines_left_nil f_usr) Eu). by eexists.
    + pose proof (getline_spec f_usr Hu Eu) as Hg. destruct (getline f_usr) as [s f]. destruct Hg as [El Hr].
      rewrite El in *. cbn [app forallb]. destruct (all_white white s); cbn [negb andb]; [|apply decides_false].
      rewrite <- (app_nil_l (lines_left f)). rewrite <- (proj2 (lines_left_nil f_ans) Ea).
      apply IH; [done..|]. rewrite (proj2 (lines_left_nil f_ans) Ea). simpl in *. lia.
  - pose proof (getline_spec f_ans Ha Ea) as Hg. destruct (getline f_ans) as [s f]. destruct Hg as [El Hr].
    rewrite El in *. cbn [app forallb]. destruct (all_white white s); cbn [negb andb]; [|apply decides_false].
    apply IH; [done..|]. simpl in *. lia.
Qed.

Lemma erase_tail_nil white s : at_end (erase_tail white s) = all_white white s.
Proof.
  unfold at_end, all_white. induction s as [|c s IH]; [done|]. cbn [erase_tail string_forall].
  destruct (erase_tail white s) as [|d t].
  - assert (E : string_forall white s = true) by (rewrite <- IH; reflexivity). rewrite E, andb_true_r.
    destruct (white c); reflexivity.
  - assert (E : string_forall white s = false) by (rewrite <- IH; reflexivity). by rewrite E, andb_false_r.
Qed.

Lemma forallb_map {A B} (f : A -> B) (p : B -> bool) l : forallb p (map f l) = forallb (fun x => p (f x)) l.
Proof. induction l as [|x l IH]; [done|]. simpl. by rewrite IH. Qed.

Lemma line_tail_blank l :
  forallb (all_white is_line_white) l = forallb at_end (map (erase_tail is_line_white) l).
Proof. rewrite forallb_map. induction l as [|x l IH]; [done|]. simpl. by rewrite erase_tail_nil, IH. Qed.

Definition same_line (x y : string) : bool := bool_decide (x = y).

Lemma line_loop_spec fuel f_ans f_usr line : readable f_ans -> readable f_usr ->
  (S (length (lines_left f_ans) + length (lines_left f_usr)) < fuel)%nat ->
  decides (line_loop verbose fuel true true f_ans f_usr line)
    (tails_match at_end same_line (map (erase_tail is_line_white) (lines_left f_ans))
       (map (erase_tail is_line_white) (lines_left f_usr))).
Proof.
  revert f_ans f_usr line. induction fuel as [|fuel IH]; intros f_ans f_usr line Ha Hu Hf; [lia|].
  cbn [line_loop]. destruct (is_eof f_ans) eqn:Ea, (is_eof f_usr) eqn:Eu; cbn [Bool.eqb].
  - rewrite (proj2 (lines_left_nil f_ans) Ea), (proj2 (lines_left_nil f_usr) Eu). by eexists.
  - cbn [negb]. pose proof (tail_loop_spec fuel is_line_white true f_ans f_usr line (line - 1) Ha Hu ltac:(lia)) as Ht.
    rewrite (proj2 (lines_left_nil f_ans) Ea) in *. rewrite app_nil_l, line_tail_blank in Ht.
    by destruct (map _ (lines_left f_usr)).
  - cbn [negb]. pose proof (tail_loop_spec fuel is_line_white true f_ans f_usr line (line - 1) Ha Hu ltac:(lia)) as Ht.
    rewrite (proj2 (lines_left_nil f_usr) Eu) in *. rewrite app_nil_r, line_tail_blank in Ht.
    by destruct (map _ (lines_left f_ans)).
  - pose proof (getline_spec f_ans Ha Ea) as Hg. destruct (getline f_ans) as [s f]. destruct Hg as [El Hr].
    pose proof (getline_spec f_usr Hu Eu) as Hg. destruct (getline f_usr) as [t g]. destruct Hg as [Em Hr'].
    rewrite El, Em in *. cbn [map tails_match]. unfold same_line at 1.
    destruct (bool_decide _); cbn [negb andb]; [|apply decides_false]. apply IH; [done..|]. simpl in *. lia.
Qed.

(** ** Words *)

Lemma span_fst_forall P s : string_forall P (fst (span P s)) = true.
Proof.
  induction s as [|c s IH]; [done|]. simpl. destruct (P c) eqn:E; [|done].
  destruct (span P s). simpl in *. by rewrite E, IH.
Qed.

Lemma words_skip s : words (snd (span is_word_white s)) = words s.
Proof.
  induction s as [|c s IH]; [done|]. cbn [span words]. destruct (is_word_white c) eqn:E.
  - destruct (span is_word_white s) as [a b]. exact IH.
  - cbn [snd words]. by rewrite E.
Qed.

Lemma words_span c s : is_word_white c = false ->
  words (String c s) = let '(u, r) := span (fun c => negb (is_word_white c)) (String c s) in u :: words r.
Proof.
  revert c. induction s as [|d s IH]; intros c Hc.
  - simpl. by rewrite Hc.
  - cbn [words span]. rewrite Hc. cbn [negb].
    destruct (is_word_white d) eqn:Ed; cbn [negb]; [cbn [words]; rewrite ?Ed; reflexivity|].
    specialize (IH d Ed). cbn [words span] in IH. rewrite Ed in IH. cbn [negb] in IH.
    rewrite IH. by destruct (span _ s).
Qed.

Lemma words_nil s : no_words (words s) = all_white is_word_white s.
Proof.
  unfold all_white. induction s as [|c s IH]; [done|]. cbn [words string_forall].
  destruct (is_word_white c); [done|]. cbn [andb]. destruct s as [|d s]; [done|].
  destruct (is_word_white d); [done|]. by destruct (words (String d s)).
Qed.

Lemma span_snd_head P s : match snd (span P s) with String c _ => P c = false | EmptyString => True end.
Proof.
  induction s as [|c s IH]; [done|]. simpl. destruct (P c) eqn:E; [|done]. by destruct (span P s).
Qed.

Fixpoint words_match (func : string -> string -> bool) (us vs : list string) : bool :=
  match us, vs with
  | [], [] => true
  | u :: us', v :: vs' => func u v && words_match func us' vs'
  | _, _ => false
  end.

Lemma words_match_iff func us vs :
  words_match func us vs = true <-> Forall2 (fun u v => func u v = true) us vs.
Proof.
  revert vs. induction us as [|u us IH]; intros [|v vs]; cbn [words_match].
  - split; [constructor|done].
  - split; [done|by intros ?%Forall2_nil_inv_l].
  - split; [done|by intros ?%Forall2_nil_inv_r].
  - by rewrite andb_true_iff, IH, Forall2_cons.
Qed.

Lemma word_loop_spec fuel func s t line word : (String.length s < fuel)%nat ->
  if words_match func (words s) (words t) then word_loop verbose fuel func s t line word = None
  else decides (word_loop verbose fuel func s t line word) false.
Proof.
  revert s t word. induction fuel as [|fuel IH]; intros s t word Hf; [lia|]. cbn [word_loop].
  rewrite <- (words_skip s), <- (words_skip t).
  pose proof (span_snd_head is_word_white s) as Hs. pose proof (span_snd_head is_word_white t) as Ht.
  pose proof (span_length is_word_white s) as Hl.
  destruct (snd (span is_word_white s)) as [|c s'], (snd (span is_word_white t)) as [|d t'].
  - done.
  - rewrite (words_span d t' Ht). destruct (span _ (String d t')). apply decides_false.
  - rewrite (words_span c s' Hs). destruct (span _ (String c s')). apply decides_false.
  - rewrite (words_span c s' Hs), (words_span d t' Ht). unfold at_end. rewrite !bool_decide_false by done.
    cbn [xorb]. cbn [span]. rewrite Hs, Ht. cbn [negb].
    pose proof (span_length (fun c => negb (is_word_white c)) s') as Hl'.
    destruct (span _ s') as [u s'']. destruct (span _ t') as [v t''].
    cbn [words_match]. destruct (func _ _); cbn [negb andb]; [|apply decides_false].
    apply IH. simpl in *. lia.
Qed.

Lemma words_loop_spec func fuel f_ans f_usr line : readable f_ans -> readable f_usr ->
  (S (length (lines_left f_ans) + length (lines_left f_usr)) < fuel)%nat ->
  decides (words_loop verbose fuel func f_ans f_usr line)
    (tails_match no_words (words_match func) (map words (lines_left f_ans)) (map words (lines_left f_usr))).
Proof.
  assert (Hblank : forall l, forallb (all_white is_word_white) l = forallb no_words (map words l)).
  { intros l. rewrite forallb_map. induction l as [|x l IHl]; [done|]. simpl. by rewrite words_nil, IHl. }
  revert f_ans f_usr line. induction fuel as [|fuel IH]; intros f_ans f_usr line Ha Hu Hf; [lia|].
  cbn [words_loop]. destruct (is_eof f_ans) eqn:Ea, (is_eof f_usr) eqn:Eu; cbn [Bool.eqb].
  - rewrite (proj2 (lines_left_nil f_ans) Ea), (proj2 (lines_left_nil f_usr) Eu). by eexists.
  - pose proof (tail_loop_spec fuel is_word_white false f_ans f_usr line (line - 1) Ha Hu ltac:(lia)) as Ht.
    rewrite (proj2 (lines_left_nil f_ans) Ea) in *. rewrite app_nil_l, Hblank in Ht.
    by destruct (map _ (lines_left f_usr)).
  - pose proof (tail_loop_spec fuel is_word_white false f_ans f_usr line (line - 1) Ha Hu ltac:(lia)) as Ht.
    rewrite (proj2 (lines_left_nil f_usr) Eu) in *. rewrite app_nil_r, Hblank in Ht.
    by destruct (map _ (lines_left f_ans)).
  - pose proof (getline_spec f_ans Ha Ea) as Hg. destruct (getline f_ans) as [s f]. destruct Hg as [El Hr].
    pose proof (getline_spec f_usr Hu Eu) as Hg. destruct (getline f_usr) as [t g]. destruct Hg as [Em Hr'].
    rewrite El, Em in *. cbn [map tails_match].
    pose proof (word_loop_spec (S (String.length s)) func s t line 1 ltac:(lia)) as Hw.
    destruct (words_match func (words s) (words t)); cbn [andb].
    + rewrite Hw. apply IH; [done..|]. simpl in *. lia.
    + destruct Hw as [msg ->]. by eexists.
Qed.
End Loops.

(** ** Blocks *)

Lemma substring_all n s : (String.length s <= n)%nat -> String.substring 0 n s = s.
Proof.
  revert s. induction n as [|n IH]; intros [|c s] Hl; simpl in *; try done; [lia|].
  by rewrite IH by lia.
Qed.

Lemma substring_split n s :
  s = substr 0 n s +:+ substr n (String.length s - n) s.
Proof.
  revert s. induction n as [|n IH]; intros s.
  - rewrite Nat.sub_0_r, (substring_all (String.length s)) by lia. by destruct s.
  - destruct s as [|c s]; [done|]. cbn [String.substring String.length]. rewrite Nat.sub_succ.
    change (String c (substr 0 n s) +:+ ?r) with (String c (substr 0 n s +:+ r)). by rewrite <- IH.
Qed.

Lemma substring_length n s : String.length (substr 0 n s) = Nat.min n (String.length s).
Proof.
  revert s. induction n as [|n IH]; intros s; [by destruct s|].
  destruct s as [|c s]; [done|]. simpl. by rewrite IH.
Qed.

Lemma substring_past n m s : (String.length s <= n)%nat -> substr n m s = "".
Proof.
  revert s. induction n as [|n IH]; intros s Hl.
  - destruct s; [by destruct m|simpl in Hl; lia].
  - destruct s; [done|]. simpl in *. apply IH. lia.
Qed.

Lemma kBufSize_pos : (0 < kBufSize)%nat.
Proof. unfold kBufSize. apply Nat.ltb_lt. vm_compute. reflexivity. Qed.

#[local] Opaque kBufSize kMaxMessageLen.

Lemma strict_loop_spec verbose fuel a u pos : (S (String.length a) < fuel)%nat ->
  decides (strict_loop verbose fuel (open_stream a) (open_stream u) pos) (bool_decide (a = u)).
Proof.
  revert a u pos. induction fuel as [|fuel IH]; intros a u pos Hf; [lia|].
  cbn [strict_loop]. change (stream_ok (open_stream a)) with true. cbv iota.
  unfold read_block. cbn [is_fail is_eof open_stream is_rest orb].
  pose proof kBufSize_pos as Hk. pose proof (substring_split kBufSize a) as Ea.
  pose proof (substring_split kBufSize u) as Eu.
  pose proof (substring_length kBufSize a) as La. pose proof (substring_length kBufSize u) as Lu.
  destruct (Nat.ltb_spec (String.length a) kBufSize) as [Sa|Sa],
    (Nat.ltb_spec (String.length u) kBufSize) as [Su|Su]; cbn [Bool.eqb negb orb].
  - rewrite !substring_all, !substring_past by lia.
    destruct (decide (a = u)) as [->|Hne].
    + rewrite Z.eqb_refl, (bool_decide_true (u = u)) by done. cbn [negb].
      destruct fuel; [lia|]. by eexists.
    + rewrite (bool_decide_false _ Hne). cbn [negb].
      destruct (_ =? _); cbn [negb]; apply decides_false.
  - rewrite bool_decide_false by (intros ->; lia). apply decides_false.
  - rewrite bool_decide_false by (intros ->; lia). apply decides_false.
  - assert (El : String.length (substr 0 kBufSize a) = String.length (substr 0 kBufSize u)) by lia.
    rewrite El, Z.eqb_refl. cbn [negb]. rewrite <- El.
    destruct (decide (substr 0 kBufSize a = substr 0 kBufSize u)) as [Eb|Hne].
    + rewrite (bool_decide_true _ Eb). cbn [negb].
      replace (bool_decide (a = u)) with
        (bool_decide (substr kBufSize (String.length a - kBufSize) a =
                      substr kBufSize (String.length u - kBufSize) u)).
      * apply IH. apply (f_equal String.length) in Ea. rewrite string_length_app in Ea. lia.
      * apply bool_decide_ext. split; [intros E; rewrite Ea, Eu; congruence|].
        intros E. by rewrite E.
    + rewrite (bool_decide_false _ Hne). cbn [negb].
      rewrite bool_decide_false by (intros ->; done). apply decides_false.
Qed.

(** ** The comparisons *)

Lemma Forall2_ext_iff {A B} (P Q : A -> B -> Prop) l k :
  (forall x y, P x y <-> Q x y) -> Forall2 P l k <-> Forall2 Q l k.
Proof. intros E. split; intros F; eapply Forall2_impl; try exact F; intros x y; apply E. Qed.

Lemma lines_fuel ans usr :
  (S (length (lines_left (open_stream ans)) + length (lines_left (open_stream usr))) <
   compare_fuel (open_stream ans) (open_stream usr))%nat.
Proof.
  unfold compare_fuel, lines_left. cbn [is_eof is_rest open_stream].
  pose proof (lines_length ans). pose proof (lines_length usr). lia.
Qed.

Lemma LineCompare_spec verbose ans usr : exists b,
  decides (LineCompare verbose (open_stream ans) (open_stream usr) true true) b /\
  (b = true <-> trimmed_lines ans = trimmed_lines usr).
Proof.
  eexists. split; [apply line_loop_spec; [done|done|apply lines_fuel]|].
  rewrite tails_match_iff.
  - unfold trimmed_lines, lines_left. cbn [is_eof is_rest open_stream]. rewrite list_eq_Forall2.
    apply Forall2_ext_iff; intros x y; unfold same_line; by rewrite bool_decide_eq_true.
  - intros x y ->%bool_decide_eq_true. done.
  - intros x y ->%bool_decide_eq_true ->%bool_decide_eq_true. by apply bool_decide_eq_true.
Qed.

Lemma WordCompare_spec verbose func ans usr : exists b,
  decides (WordCompare verbose func (open_stream ans) (open_stream usr)) b /\
  (b = true <-> same_words func ans usr).
Proof.
  eexists. split; [apply words_loop_spec; [done|done|apply lines_fuel]|].
  rewrite tails_match_iff.
  - unfold same_words, word_lines, lines_left. cbn [is_eof is_rest open_stream].
    apply Forall2_ext_iff; intros x y; by rewrite words_match_iff.
  - intros x y Hm%words_match_iff. by destruct Hm.
  - intros [|] [|]; done.
Qed.

Lemma same_words_eq ans usr :
  same_words (fun u v => bool_decide (u = v)) ans usr <-> word_lines ans = word_lines usr.
Proof.
  unfold same_words. rewrite list_eq_Forall2.
  apply Forall2_ext_iff; intros x y; rewrite list_eq_Forall2; apply Forall2_ext_iff;
    intros u v; by rewrite bool_decide_eq_true.
Qed.

Lemma compare_files_decides a ans usr : exists b msg,
  compare_files a (open_stream ans) (open_stream usr) = Some (b, msg) /\ (b = true <-> accepts a ans usr).
Proof.
  assert (Hx : forall r P, (exists b, decides r b /\ (b = true <-> P)) ->
    exists b msg, r = Some (b, msg) /\ (b = true <-> P)).
  { intros r P (b & [msg ->] & Hb). by exists b, msg. }
  assert (Hf : exists b msg', Some (false, "") = Some (b, msg') /\ (b = true <-> False)).
  { by exists false, "". }
  unfold compare_files, accepts. destruct (bool_decide (sa_type a = "strict")).
  { apply Hx. eexists. split; [apply strict_loop_spec|by rewrite bool_decide_eq_true].
    unfold compare_fuel. simpl. lia. }
  destruct (bool_decide (sa_type a = "line")); [apply Hx, LineCompare_spec|].
  destruct (bool_decide (sa_type a = "white-diff")).
  { apply Hx. destruct (WordCompare_spec (sa_verbose a) (fun u v => bool_decide (u = v)) ans usr) as (b & Hd & E).
    exists b. split; [exact Hd|]. by rewrite E, same_words_eq. }
  destruct (bool_decide (sa_type a = "float-diff")); [|apply Hf].
  repeat (destruct (bool_decide (sa_subtype a = _)); [apply Hx, WordCompare_spec|]). apply Hf.
Qed.

(** C25: every comparison ends, and accepts exactly the outputs of the
    reference: equal files for [strict], equal trimmed lines for [line], equal
    or numerically close words for [white-diff] and [float-diff], and nothing
    for an unknown type.  When the answer cannot be opened, [strict] accepts
    anything. *)
Theorem compare_files_spec a :
  (forall ans usr, exists b msg,
     compare_files a (open_stream ans) (open_stream usr) = Some (b, msg) /\ (b = true <-> accepts a ans usr)) /\
  (forall f_usr, sa_type a = "strict" -> compare_files a (open_file None) f_usr = Some (true, "")).
Proof.
  split; [intros ans usr; apply compare_files_decides|].
  intros f_usr Hs. unfold compare_files. rewrite (bool_decide_true _ Hs).
  unfold StrictCompare, compare_fuel. rewrite Nat.add_comm. reflexivity.
Qed.

(** ** The verdict of a test data without a special judge *)

Section Normal.
Context `{PathRoots} `{Config} `{JsonText}.

(** What the sandboxed program reads: the user's output and the answer. *)
Record scoring_files (env : Env) (ans usr : string) : Prop := {
  sf_regular : env_is_regular env (ScoringBoxUserOutput (-1) (-1) (-1) true) = true;
  sf_usr : env_read env (ScoringBoxUserOutput (-1) (-1) (-1) true) = Some usr;
  sf_ans : env_read env (ScoringBoxTdOutput (-1) (-1) (-1) true) = Some ans;
}.

(** The judge finds in [output_path] what the program printed, and the JSON
    library reads it back. *)
Record printed (env : Env) (output_path : string) (doc : json) : Prop := {
  pr_regular : env_is_regular env output_path = true;
  pr_read : env_read env output_path = Some (json_dump doc);
  pr_parse : json_parse (json_dump doc) = Some doc;
}.

Lemma main_spec env sub item td subtask stage ans usr argv : scoring_files env ans usr ->
  exists b msg, main env (TestdataMeta sub item td subtask stage) argv =
      Some (scoring_output (sa_verbose (parse_args argv default_args)) (b, msg)) /\
    (b = true <-> accepts (parse_args argv default_args) ans usr).
Proof.
  intros [Hreg Hu Ha]. unfold main.
  change (json_find _ "user_output_file") with (Some (JStr (ScoringBoxUserOutput (-1) (-1) (-1) true))).
  change (json_find _ "answer_file") with (Some (JStr (ScoringBoxTdOutput (-1) (-1) (-1) true))).
  cbv beta iota zeta. rewrite Hreg, Hu, Ha. cbn [negb open_file].
  pose proof (compare_files_decides (parse_args argv default_args) ans usr) as (b & msg & -> & Hb).
  by exists b, msg.
Qed.

(** C21: a test data of a problem without a special judge is accepted with the
    full score when the output is one the reference accepts under the
    problem's arguments, and is a wrong answer otherwise; usage is untouched.
    This joins the program with what the judge reads of its output. *)
Theorem normal_judging env sub item td0 subtask stage ans usr : scoring_files env ans usr ->
  let a := parse_args (default_scoring_args sub) default_args in
  exists doc, main env (TestdataMeta sub item td0 subtask stage) (default_scoring_args sub) = Some doc /\
  forall env' info last_stage output_path user_output tempdir td,
    specjudge_type sub = SJ_NORMAL -> si_code info = CLD_EXITED -> si_status info = 0 ->
    printed env' output_path doc ->
    let '(td', evs) := ReadSpecjudgeResult env' sub info last_stage output_path user_output tempdir td in
    evs = [] /\
    (accepts a ans usr -> td_verdict td' = AC /\ td_score td' = full_score) /\
    (~ accepts a ans usr -> td_verdict td' = WA /\ td_score td' = td_score td) /\
    td_time td' = td_time td /\ td_vss td' = td_vss td /\ td_rss td' = td_rss td.
Proof.
  intros Hf a. destruct (main_spec env sub item td0 subtask stage ans usr (default_scoring_args sub) Hf)
    as (b & msg & Hm & Hb). fold a in Hm, Hb. eexists. split; [exact Hm|].
  intros env' info last_stage out uo tmp td Ht Hc Hs [Hr Hread Hp].
  unfold ReadSpecjudgeResult, specjudge_failed. rewrite Ht, Hr, Hc, Hs.
  cbn [negb orb andb Z.eqb]. unfold ReadNewSpecjudgeResult, parse_file. rewrite Hread.
  cbn [mbind option_bind]. rewrite Hp. destruct b.
  - assert (accepts a ans usr) as Hacc by (by apply Hb). cbn. destruct td; split_and!; done.
  - assert (~ accepts a ans usr) as Hrej by (intros Hx; apply Hb in Hx; done).
    destruct (sa_verbose a); cbn; destruct td; split_and!; done.
Qed.
End Normal.

(** ** The table of src/test/default_scoring_test.cpp

    The outputs with their answers, and for each list of arguments which of
    them are accepted. *)

Definition scoring_cases : list (string * string) :=
  [("123" +:+ NL +:+ "234" +:+ NL, "123" +:+ NL +:+ "234" +:+ NL);
   ("123" +:+ NL +:+ "234", "123 " +:+ NL +:+ "234 " +:+ NL +:+ NL);
   (" 123 234" +:+ NL, "123 234" +:+ NL);
   ("123  234" +:+ NL, "123 234" +:+ NL);
   (" 1.0000001  1.0000001 ", "1.0 1.0" +:+ NL);
   (" 1.0000001  1.0000001 " +:+ NL +:+ " a 1.0000001 -1", "1.0 1.0" +:+ NL +:+ "a 1.0 -1" +:+ NL);
   (" 1.00001  1.00001 ", "1.0 1.0" +:+ NL);
   (" 100.00001  100.00001 ", "100.0 100.0" +:+ NL);
   (" 100.00001 0.0100001" +:+ NL, "100.0 0.01" +:+ NL);
   ("1.0000001  1.0000001" +:+ NL, "1.0 1" +:+ NL)].

Definition scoring_table : list (list string * list bool) :=
  [(["strict"], [true; false; false; false; false; false; false; false; false; false]);
   (["line"], [true; true; false; false; false; false; false; false; false; false]);
   ([], [true; true; false; false; false; false; false; false; false; false]);
   (["white-diff"], [true; true; true; true; false; false; false; false; false; false]);
   (["float-diff"; "absolute-relative"; "1e-9"], [true; true; true; true; false; false; false; false; false; false]);
   (["float-diff"; "absolute"; "1e-6"], [true; true; true; true; true; true; false; false; false; false]);
   (["float-diff"; "absolute"], [true; true; true; true; true; true; false; false; false; false]);
   (["float-diff"; "relative"], [true; true; true; true; true; true; false; true; false; false]);
   (["float-diff"; "absolute-relative"], [true; true; true; true; true; true; false; true; true; false]);
   (["float-diff"], [true; true; true; true; true; true; false; true; true; false]);
   (["float-diff"; "relative"; "1e-4"], [true; true; true; true; true; true; true; true; true; false])].

Definition accepted (argv : list string) (c : string * string) : bool :=
  match compare_files (parse_args argv default_args) (open_stream c.2) (open_stream c.1) with
  | Some (b, _) => b
  | None => false
  end.

Example default_scoring_test_table :
  forallb (fun row => bool_decide (map (accepted (fst row)) scoring_cases = snd row)) scoring_table = true.
Proof. vm_compute. reflexivity. Qed.

(** ** Witnesses *)

#[local] Existing Instance sample_roots.
#[local] Existing Instance sample_config.
#[local] Instance verdict_json : JsonText := {|
  json_parse := fun s => if bool_decide (s = "AC") then Some (JObj [("verdict", JStr "AC")]) else None;
  json_dump := fun j => match json_find j "verdict" with Some (JStr v) => v | _ => "" end;
|}.

(** The output has spaces at the end of its line that the answer has not. *)
Definition scoring_env : Env := {|
  env_is_regular := fun _ => true; env_exists := fun _ => true; env_file_size := fun _ => Some 1;
  env_read := fun p => Some (if bool_decide (p = ScoringBoxTdOutput (-1) (-1) (-1) true) then "42"
                             else if bool_decide (p = "/result") then "AC" else "42  " +:+ NL);
  env_header_files := [];
|}.

Lemma scoring_env_files : scoring_files scoring_env "42" ("42  " +:+ NL).
Proof. split; reflexivity. Qed.

Lemma normal_judging_witness :
  let sub := sample_sub 7 100 [sample_item [0]] SJ_NORMAL in
  td_verdict (ReadSpecjudgeResult scoring_env sub exited_ok true "/result" "" "" empty_TestdataResult).1 = AC.
Proof.
  intros sub.
  destruct (normal_judging scoring_env sub (sample_item [0]) empty_TestdataResult 0 0 "42" ("42  " +:+ NL)
    scoring_env_files) as (doc & Hdoc & Hread).
  assert (Ed : doc = JObj [("verdict", JStr "AC")]) by (vm_compute in Hdoc; congruence).
  specialize (Hread scoring_env exited_ok true "/result" "" "" empty_TestdataResult eq_refl eq_refl eq_refl).
  destruct (ReadSpecjudgeResult _ _ _ _ _ _ _ _) as [td' evs].
  apply Hread; [rewrite Ed; split; reflexivity|]. vm_compute. reflexivity.
Defined.

Lemma compare_files_spec_witness :
  (exists msg, compare_files default_args (open_stream "1 2") (open_stream ("1 2 " +:+ NL)) = Some (true, msg)) /\
  compare_files {| sa_verbose := true; sa_type := "strict"; sa_subtype := ""; sa_threshold := default_threshold |}
    (open_file None) (open_stream "anything") = Some (true, "").
Proof.
  split.
  - destruct (proj1 (compare_files_spec default_args) "1 2" ("1 2 " +:+ NL)) as (b & msg & E & Hb).
    exists msg. rewrite E. do 2 f_equal. apply Hb. vm_compute. reflexivity.
  - apply (compare_files_spec {| sa_verbose := true; sa_type := "strict"; sa_subtype := "";
                                 sa_threshold := default_threshold |}). reflexivity.
Defined.
