(* ===== verification/ServerQueue.v ===== *)
(** * The queue of outgoing requests

    src/server_io.cpp: [Request], [PushRequest], [CheckUniqueRequests],
    [ResendBackupRequests] and the thread of [RequestLoop], as a transition
    system.  Every operation but the sending itself holds [request_queue_mtx],
    so that an operation is one step; requests can be pushed while the loop
    waits and while it sends.

    Time is what [MonotonicTimestamp] returns, a [double]. *)

From S2P Require Import Prelude Text CNum Data.
From Stdlib Require Import SpecFloat.

(** ** Requests *)

Record Request := {
  is_subscribe : bool;
  is_unique : bool;
  force_pop : bool;
  rq_key : Z;
  rq_action : string;
  rq_body : json;
}.

Definition kFetchKey : Z := -1.
Definition kReportQueuedKey : Z := -2.

(** 0.5, and the difference of 0.5 and 0.2 as the compiler folds it. *)
Definition kUniqueReqMinInterval : spec_float := S754_finite false 4503599627370496 (-53).
Definition kFetchMinInterval : spec_float := S754_finite false 7205759403792794 (-55).

(** [j["key"] = v] on an object ([null] becomes one). *)
Fixpoint assoc_set {A} (key : string) (v : A) (l : list (string * A)) : list (string * A) :=
  match l with
  | [] => [(key, v)]
  | (k, w) :: l' => if bool_decide (k = key) then (k, v) :: l' else (k, w) :: assoc_set key v l'
  end.
Definition json_set (j : json) (key : string) (v : json) : json :=
  match j with JObj fields => JObj (assoc_set key v fields) | _ => JObj [(key, v)] end.

Definition quote : string := String (ascii_of_nat 34) "".
Definition kChannelIdentifier : string :=
  "{" +:+ quote +:+ "channel" +:+ quote +:+ ":" +:+ quote +:+ "FetchChannel" +:+ quote +:+ "}".

Section Text.
Context `{JsonText}.

Definition ToRequest (r : Request) : string :=
  let ret := [("identifier", JStr kChannelIdentifier);
              ("command", JStr (if is_subscribe r then "subscribe" else "message"))] in
  json_dump (JObj
    (if is_subscribe r then ret
     else ret ++ [("data", JStr (json_dump (json_set (rq_body r) "action" (JStr (rq_action r)))))])).
End Text.

(** What a range-for over a JSON value visits. *)
Definition json_iter (j : json) : list json :=
  match j with
  | JNull => []
  | JArr l => l
  | JObj fields => map snd fields
  | _ => [j]
  end.

(** The results of a body. *)
Definition body_results (body : json) : list json :=
  match json_find body "results" with Some r => json_iter r | None => [] end.

(** The request that replaces one of the same key: results are merged. *)
Definition merge_request (req old : Request) : Request :=
  match json_find (rq_body req) "results" with
  | None => req
  | Some results =>
      {| is_subscribe := is_subscribe req; is_unique := is_unique req; force_pop := force_pop req;
         rq_key := rq_key req; rq_action := rq_action req;
         rq_body := json_set (rq_body req) "results"
                      (JArr (json_iter results ++ body_results (rq_body old))) |}
  end.

(** ** The tables *)

(** [unsent_timestamps] is a [std::set] of pairs: a list in ascending order. *)
Definition stamp_lt (a b : spec_float * Z) : bool :=
  SFltb a.1 b.1 || (negb (SFltb b.1 a.1) && (a.2 <? b.2)).
Definition same_stamp (a b : spec_float * Z) : bool := negb (stamp_lt a b) && negb (stamp_lt b a).

Fixpoint stamp_insert (e : spec_float * Z) (l : list (spec_float * Z)) : list (spec_float * Z) :=
  match l with
  | [] => [e]
  | x :: l' => if stamp_lt e x then e :: l else if stamp_lt x e then x :: stamp_insert e l' else l
  end.
Definition stamp_erase (e : spec_float * Z) (l : list (spec_float * Z)) : list (spec_float * Z) :=
  filter (fun x => same_stamp e x = false) l.

Record Queues := {
  unsent_timestamps : list (spec_float * Z);
  unique_timestamp_map : gmap Z spec_float;
  unique_requests : gmap Z Request;
  request_queue : list Request;
  backup_queue : list Request;
}.

Definition empty_Queues : Queues := {|
  unsent_timestamps := []; unique_timestamp_map := ∅; unique_requests := ∅;
  request_queue := []; backup_queue := [] |}.

Definition set_tables (u : list (spec_float * Z)) (m : gmap Z spec_float) (r : gmap Z Request) (q : Queues)
    : Queues := {|
  unsent_timestamps := u; unique_timestamp_map := m; unique_requests := r;
  request_queue := request_queue q; backup_queue := backup_queue q |}.
Definition set_request_queue (l : list Request) (q : Queues) : Queues := {|
  unsent_timestamps := unsent_timestamps q; unique_timestamp_map := unique_timestamp_map q;
  unique_requests := unique_requests q; request_queue := l; backup_queue := backup_queue q |}.
Definition set_backup_queue (l : list Request) (q : Queues) : Queues := {|
  unsent_timestamps := unsent_timestamps q; unique_timestamp_map := unique_timestamp_map q;
  unique_requests := unique_requests q; request_queue := request_queue q; backup_queue := l |}.

Definition zero_stamp : spec_float := S754_zero false.

Definition PushRequest (req : Request) (q : Queues) : Queues :=
  let key := rq_key req in
  if is_unique req then
    match unique_requests q !! key with
    | Some old =>
        set_tables (unsent_timestamps q) (unique_timestamp_map q)
          (<[key := merge_request req old]> (unique_requests q)) q
    | None =>
        match unique_timestamp_map q !! key with
        | Some ts =>
            set_tables (stamp_insert (ts, key) (unsent_timestamps q)) (unique_timestamp_map q)
              (<[key := req]> (unique_requests q)) q
        | None =>
            set_tables (stamp_insert (zero_stamp, key) (unsent_timestamps q))
              (<[key := zero_stamp]> (unique_timestamp_map q)) (<[key := req]> (unique_requests q)) q
        end
    end
  else if force_pop req then
    let q :=
      match unique_timestamp_map q !! key with
      | Some ts =>
          set_tables (stamp_erase (ts, key) (unsent_timestamps q)) (unique_timestamp_map q)
            (delete key (unique_requests q)) q
      | None => q
      end in
    set_request_queue (request_queue q ++ [req]) q
  else if is_subscribe req then set_request_queue (req :: request_queue q) q
  else set_request_queue (request_queue q ++ [req]) q.

(** The loop of [CheckUniqueRequests], from the least stamp on; a stamp
    without a request makes it dereference [end()]. *)
Fixpoint check_loop (limit : spec_float) (unsent : list (spec_float * Z)) (q : Queues) : outcome Queues :=
  match unsent with
  | [] => Done q
  | (ts, key) :: unsent' =>
      if SFleb limit ts then Done q
      else
        match unique_requests q !! key with
        | None => Crash NoSuchKey
        | Some req =>
            check_loop limit unsent'
              (set_request_queue (request_queue q ++ [req])
                (set_tables unsent' (unique_timestamp_map q) (delete key (unique_requests q)) q))
        end
  end.

Definition CheckUniqueRequests (ts : spec_float) (q : Queues) : outcome (bool * Queues) :=
  match check_loop (dbl_sub ts kUniqueReqMinInterval) (unsent_timestamps q) q with
  | Crash f => Crash f
  | Done q' => Done (negb (bool_decide (length (request_queue q') = 0%nat)), q')
  end.

Definition ResendBackupRequests (q : Queues) : Queues :=
  set_backup_queue [] (set_request_queue (backup_queue q ++ request_queue q) q).

(** ** The loop *)

(** Where [RequestLoop] is: in [wait_for], behind it, in the inner loop with
    the mutex, or sending without it. *)
Inductive loop_pc := InWait | Awake | Draining | Sending (req : Request).

Record Sender := { sd_queues : Queues; sd_pc : loop_pc; sd_sent : list Request }.

Inductive sender_action :=
| Put (req : Request)                                   (* any thread: PushRequest *)
| Check_ (can_send : bool) (ts : spec_float) (timeout : bool)  (* the predicate of wait_for *)
| ClosePing                                             (* no ping for 8 seconds *)
| StartDrain
| Pop (ts : spec_float)
| SendDone
| EndDrain
| Resend                                                (* OnFail, OnClose *)
| Message.                                              (* OnMessage *)

Definition has_lock (pc : loop_pc) : bool :=
  match pc with Awake | Draining => true | InWait | Sending _ => false end.

(** The timestamp remembered when a unique request is sent: [ts] is a [long]. *)
Definition sent_stamp (key : Z) (now : spec_float) : spec_float :=
  let ts := float_to_long now in
  dbl_of_Z
    (if key =? kFetchKey then
       float_to_long (dbl_sub (dbl_of_Z ts) (dbl_sub kUniqueReqMinInterval kFetchMinInterval))
     else ts).

(** Taking a request from the queue to send it. *)
Definition take_request (now : spec_float) (req : Request) (rest : list Request) (q : Queues) : Queues :=
  set_request_queue rest
    (if is_unique req then
       set_tables (unsent_timestamps q) (<[rq_key req := sent_stamp (rq_key req) now]> (unique_timestamp_map q))
         (unique_requests q) q
     else if force_pop req then
       set_tables (unsent_timestamps q) (delete (rq_key req) (unique_timestamp_map q)) (unique_requests q) q
     else q).

(** One step; [None] when it cannot be taken.  [SendDone] is the push to the backup
    queue together with taking the lock again; a message of the server in between
    would find the same backup queue. *)
Definition sender_step (s : Sender) (a : sender_action) : option (outcome Sender) :=
  let q := sd_queues s in
  let to pc q := Some (Done {| sd_queues := q; sd_pc := pc; sd_sent := sd_sent s |}) in
  match a, sd_pc s with
  | Put req, pc => if has_lock pc then None else to pc (PushRequest req q)
  | Check_ can_send ts timeout, InWait =>
      if can_send then
        match CheckUniqueRequests ts q with
        | Crash f => Some (Crash f)
        | Done (ready, q) => to (if ready || timeout then Awake else InWait) q
        end
      else to (if timeout then Awake else InWait) q
  | ClosePing, Awake => to InWait q
  | StartDrain, Awake => to Draining q
  | Pop ts, Draining =>
      match request_queue q with
      | [] => None
      | req :: rest => to (Sending req) (take_request ts req rest q)
      end
  | SendDone, Sending req =>
      Some (Done {| sd_queues := set_backup_queue (backup_queue q ++ [req]) q; sd_pc := Draining;
                    sd_sent := sd_sent s ++ [req] |})
  | EndDrain, Draining => match request_queue q with [] => to InWait q | _ => None end
  | Resend, pc => if has_lock pc then None else to pc (ResendBackupRequests q)
  | Message, pc => to pc (set_backup_queue [] q)
  | _, _ => None
  end.

Definition start_sender : Sender := {| sd_queues := empty_Queues; sd_pc := InWait; sd_sent := [] |}.

Fixpoint sender_run (s : Sender) (l : list sender_action) : option (outcome Sender) :=
  match l with
  | [] => Some (Done s)
  | a :: l' =>
      match sender_step s a with
      | Some (Done s') => sender_run s' l'
      | r => r
      end
  end.
