(* ===== verification/QueueSpec.v ===== *)
(** * What the queue of outgoing requests guarantees

    The tables of src/server_io.cpp implement a mailbox: at most one waiting
    request per key, and an outbox.  This holds as long as no request is sent
    while a newer one of its key waits; the code does not ensure that, and the
    end of the file shows what happens otherwise. *)

From S2P Require Import Prelude Text CNum Data ServerQueue.
From Stdlib Require Import SpecFloat.

(** ** The mailbox *)

Module Mailbox.

Record mailbox := { waiting : gmap Z Request; outbox : list Request }.

Definition put (req : Request) (m : mailbox) : mailbox :=
  if is_unique req then
    {| waiting := <[rq_key req := match waiting m !! rq_key req with
                                   | Some old => merge_request req old
                                   | None => req
                                   end]> (waiting m);
       outbox := outbox m |}
  else if force_pop req then
    {| waiting := delete (rq_key req) (waiting m); outbox := outbox m ++ [req] |}
  else if is_subscribe req then {| waiting := waiting m; outbox := req :: outbox m |}
  else {| waiting := waiting m; outbox := outbox m ++ [req] |}.

(** A waiting request moves to the outbox. *)
Inductive release : mailbox -> mailbox -> Prop :=
| release_one m k req : waiting m !! k = Some req ->
    release m {| waiting := delete k (waiting m); outbox := outbox m ++ [req] |}.

(** [sent] is the request handed to the connection, [old] the ones sent
    before that are queued again. *)
Inductive step : mailbox -> sender_action -> mailbox -> Prop :=
| step_put m req : step m (Put req) (put req m)
| step_check m b ts t m' : rtc release m m' -> step m (Check_ b ts t) m'
| step_pop m ts req rest : outbox m = req :: rest ->
    step m (Pop ts) {| waiting := waiting m; outbox := rest |}
| step_resend m old : step m Resend {| waiting := waiting m; outbox := old ++ outbox m |}
| step_idle m a : a ∈ [ClosePing; StartDrain; SendDone; EndDrain; Message] -> step m a m.
End Mailbox.

Definition mail (q : Queues) : Mailbox.mailbox :=
  {| Mailbox.waiting := unique_requests q; Mailbox.outbox := request_queue q |}.

(** ** Stamps *)

Lemma SFltb_irrefl x : SFltb x x = false.
Proof.
  unfold SFltb, SFcompare. destruct x as [s|s| |s m e]; try done; destruct s; try done;
    by rewrite Z.compare_refl, Pos.compare_refl.
Qed.

Lemma same_stamp_refl e : same_stamp e e = true.
Proof. unfold same_stamp, stamp_lt. by rewrite SFltb_irrefl, Z.ltb_irrefl. Qed.

Lemma stamps_same_key a b : stamp_lt a b = false -> stamp_lt b a = false -> a.2 = b.2.
Proof.
  unfold stamp_lt. intros [H1 H2]%orb_false_iff [H3 H4]%orb_false_iff.
  rewrite H1, H3 in *. cbn [negb andb] in *. apply Z.ltb_ge in H2, H4. lia.
Qed.

Lemma same_stamp_key a b : same_stamp a b = true -> a.2 = b.2.
Proof.
  unfold same_stamp. rewrite andb_true_iff, !negb_true_iff. intros [? ?]. by apply stamps_same_key.
Qed.

Lemma stamp_insert_perm e l : e.2 ∉ l.*2 -> stamp_insert e l ≡ₚ e :: l.
Proof.
  induction l as [|x l IH]; intros Hn; [done|]. cbn [stamp_insert].
  rewrite fmap_cons, not_elem_of_cons in Hn. destruct Hn as [Hne Hn].
  destruct (stamp_lt e x) eqn:E1; [done|]. destruct (stamp_lt x e) eqn:E2.
  - rewrite IH by done. apply perm_swap.
  - exfalso. apply Hne. by apply stamps_same_key.
Qed.

Lemma filter_iff_in {A} (P Q : A -> Prop) `{!forall x, Decision (P x), !forall x, Decision (Q x)} (l : list A) :
  (forall x, x ∈ l -> P x <-> Q x) -> filter P l = filter Q l.
Proof.
  induction l as [|x l IH]; intros E; [done|]. rewrite !filter_cons.
  rewrite IH by (intros y Hy; apply E; by right).
  destruct (decide (P x)) as [Hp|Hp], (decide (Q x)) as [Hq|Hq]; try done;
    exfalso; [apply Hq, (E x); [by left|done]|apply Hp, (E x); [by left|done]].
Qed.

Lemma key_inj (l : list (spec_float * Z)) a b : NoDup l.*2 -> a ∈ l -> b ∈ l -> a.2 = b.2 -> a = b.
Proof.
  intros Hnd [i Ha]%list_elem_of_lookup [j Hb]%list_elem_of_lookup E.
  assert (i = j) as ->; [|congruence].
  eapply (NoDup_lookup _ i j a.2 Hnd); rewrite list_lookup_fmap; [by rewrite Ha|by rewrite Hb, E].
Qed.

Lemma stamp_erase_key ts k l : NoDup l.*2 -> (k ∈ l.*2 -> (ts, k) ∈ l) ->
  stamp_erase (ts, k) l = filter (fun x => x.2 <> k) l.
Proof.
  intros Hnd Hin. unfold stamp_erase. apply filter_iff_in. intros x Hx. split.
  - intros Hs <-. assert (x.2 ∈ l.*2) as Hk by (by apply list_elem_of_fmap_2).
    rewrite <- (key_inj l (ts, x.2) x Hnd (Hin Hk) Hx eq_refl), same_stamp_refl in Hs. done.
  - intros Hne. destruct (same_stamp (ts, k) x) eqn:E; [|done]. apply same_stamp_key in E. by destruct Hne.
Qed.

(** ** The invariant *)

Record consistent (q : Queues) : Prop := {
  cs_nodup : NoDup (unsent_timestamps q).*2;
  cs_keys : forall k, k ∈ (unsent_timestamps q).*2 <-> is_Some (unique_requests q !! k);
  cs_stamp : forall k, is_Some (unique_requests q !! k) ->
    exists ts, unique_timestamp_map q !! k = Some ts /\ (ts, k) ∈ unsent_timestamps q;
  cs_key : forall k req, unique_requests q !! k = Some req -> rq_key req = k;
}.

Lemma empty_consistent : consistent empty_Queues.
Proof.
  split; simpl; [constructor| | |].
  - intros k. split; [by intros ?%elem_of_nil|]. rewrite lookup_empty. by intros [? ?].
  - intros k. rewrite lookup_empty. by intros [? ?].
  - intros k req. by rewrite lookup_empty.
Qed.

Lemma unsent_insert_consistent ts key req m q : consistent q -> unique_requests q !! key = None -> rq_key req = key ->
  m !! key = Some ts -> (forall k, k <> key -> m !! k = unique_timestamp_map q !! k) ->
  consistent (set_tables (stamp_insert (ts, key) (unsent_timestamps q)) m
                (<[key := req]> (unique_requests q)) q).
Proof.
  intros [H1 H2 H3 H4] Hr Hkey Hm Hmo.
  assert (Hk : key ∉ (unsent_timestamps q).*2) by (rewrite H2, Hr; by intros [? ?]).
  pose proof (stamp_insert_perm (ts, key) (unsent_timestamps q) Hk) as Hp.
  split; cbn [set_tables unsent_timestamps unique_timestamp_map unique_requests].
  - rewrite Hp, fmap_cons. by constructor.
  - intros k. rewrite Hp, fmap_cons, elem_of_cons, H2, lookup_insert_is_Some. simpl.
    destruct (decide (key = k)); naive_solver.
  - intros k Hs. destruct (decide (k = key)) as [->|Hne].
    + exists ts. split; [done|]. rewrite Hp. by left.
    + rewrite lookup_insert_ne in Hs by done. destruct (H3 k Hs) as (t & Ht & Hin).
      exists t. split; [by rewrite Hmo|]. rewrite Hp. by right.
  - intros k r. rewrite lookup_insert_Some. intros [[<- <-]|[_ Hl]]; [done|by apply H4].
Qed.

Lemma merge_request_key req old : rq_key (merge_request req old) = rq_key req.
Proof. unfold merge_request. by destruct (json_find _ _). Qed.

Lemma PushRequest_consistent req q : consistent q -> consistent (PushRequest req q).
Proof.
  intros Hc. unfold PushRequest. destruct (is_unique req).
  - destruct (unique_requests q !! rq_key req) as [old|] eqn:Er.
    + destruct Hc as [H1 H2 H3 H4]. split; cbn [set_tables unsent_timestamps unique_timestamp_map unique_requests].
      * done.
      * intros k. rewrite H2, lookup_insert_is_Some. split; [|naive_solver].
        intros Hs. destruct (decide (rq_key req = k)); naive_solver.
      * intros k Hs. apply H3. apply lookup_insert_is_Some in Hs as [<-|[_ Hs]]; [by eexists|done].
      * intros k r. rewrite lookup_insert_Some. intros [[<- <-]|[_ Hl]]; [apply merge_request_key|by apply H4].
    + destruct (unique_timestamp_map q !! rq_key req) as [ts|] eqn:Et.
      * by apply unsent_insert_consistent.
      * apply unsent_insert_consistent; [done|done|done|apply lookup_insert_eq|].
        intros k Hk. by rewrite lookup_insert_ne.
  - destruct (force_pop req); [|by destruct (is_subscribe req), Hc; split].
    destruct (unique_timestamp_map q !! rq_key req) as [ts|] eqn:Et; [|by destruct Hc; split].
    destruct Hc as [H1 H2 H3 H4].
    assert (Hin : rq_key req ∈ (unsent_timestamps q).*2 -> (ts, rq_key req) ∈ unsent_timestamps q).
    { intros Hk%H2. destruct (H3 _ Hk) as (t & Ht & Hi). congruence. }
    split; cbn [set_request_queue set_tables unsent_timestamps unique_timestamp_map unique_requests];
      rewrite ?(stamp_erase_key _ _ _ H1 Hin).
    + clear -H1. induction (unsent_timestamps q) as [|x l IH]; [done|]. rewrite filter_cons.
      rewrite fmap_cons in H1. apply NoDup_cons in H1 as [Hx H1]. destruct (decide (x.2 <> rq_key req)); [|by apply IH].
      rewrite fmap_cons. constructor; [|by apply IH]. intros Hin. apply Hx.
      apply list_elem_of_fmap in Hin as (y & E & Hy). rewrite E. apply list_elem_of_filter in Hy as [_ Hy].
      by apply list_elem_of_fmap_2.
    + intros k. rewrite lookup_delete_is_Some, <- H2, !list_elem_of_fmap. split.
      * intros (x & -> & [Hne Hx]%list_elem_of_filter). split; [done|]. by exists x.
      * intros [Hne (x & -> & Hx)]. exists x. split; [done|]. by apply list_elem_of_filter.
    + intros k [Hne Hs]%lookup_delete_is_Some. destruct (H3 k Hs) as (t & Ht & Hi). exists t.
      split; [done|]. by apply list_elem_of_filter.
    + intros k r [_ Hl]%lookup_delete_Some. by apply H4.
Qed.

Lemma set_request_queue_consistent l q : consistent q -> consistent (set_request_queue l q).
Proof. by intros [? ? ? ?]. Qed.

Lemma set_backup_queue_consistent l q : consistent q -> consistent (set_backup_queue l q).
Proof. by intros [? ? ? ?]. Qed.

(** The first stamp goes, with its request. *)
Lemma unsent_tail_consistent ts key unsent' l q : consistent q ->
  unsent_timestamps q = (ts, key) :: unsent' ->
  consistent (set_request_queue l
    (set_tables unsent' (unique_timestamp_map q) (delete key (unique_requests q)) q)).
Proof.
  intros [H1 H2 H3 H4] E. rewrite E in *. rewrite fmap_cons in H1. apply NoDup_cons in H1 as [Hk H1].
  split; cbn [set_request_queue set_tables unsent_timestamps unique_timestamp_map unique_requests].
  - done.
  - intros k. rewrite lookup_delete_is_Some, <- H2, fmap_cons, elem_of_cons. simpl in *. naive_solver.
  - intros k [Hne Hs]%lookup_delete_is_Some. destruct (H3 k Hs) as (t & Ht & Hi). exists t.
    split; [done|]. apply elem_of_cons in Hi as [[= -> ->]|Hi]; [done|exact Hi].
  - intros k r [_ Hl]%lookup_delete_Some. by apply H4.
Qed.

Lemma check_loop_releases limit unsent q : consistent q -> unsent_timestamps q = unsent ->
  exists q', check_loop limit unsent q = Done q' /\ consistent q' /\
    rtc Mailbox.release (mail q) (mail q') /\ backup_queue q' = backup_queue q.
Proof.
  revert q. induction unsent as [|[ts key] unsent IH]; intros q Hc E; cbn [check_loop].
  { exists q. by split_and!. }
  destruct (SFleb limit ts); [exists q; by split_and!|].
  assert (is_Some (unique_requests q !! key)) as [req Hreq] by (apply (cs_keys q Hc); rewrite E; by left).
  rewrite Hreq. pose proof (unsent_tail_consistent ts key unsent (request_queue q ++ [req]) q Hc E) as Hc1.
  destruct (IH _ Hc1 eq_refl) as (q' & Hq' & Hc' & Hr & Hb). exists q'. split_and!; try done.
  eapply rtc_l; [|exact Hr]. by apply (Mailbox.release_one (mail q) key req).
Qed.

Lemma CheckUniqueRequests_releases ts q : consistent q ->
  exists ready q', CheckUniqueRequests ts q = Done (ready, q') /\ consistent q' /\
    rtc Mailbox.release (mail q) (mail q') /\ (ready = true <-> request_queue q' <> []).
Proof.
  intros Hc. destruct (check_loop_releases (dbl_sub ts kUniqueReqMinInterval) _ q Hc eq_refl)
    as (q' & Hq & Hc' & Hr & _).
  unfold CheckUniqueRequests. rewrite Hq. eexists _, _. split_and!; [done..|].
  rewrite negb_true_iff, bool_decide_eq_false. by destruct (request_queue q').
Qed.

(** ** Timely runs

    Nothing that concerns a key is sent while a newer request of it waits. *)

Definition timely (s : Sender) (a : sender_action) : Prop :=
  match a with
  | Pop _ => forall req rest, request_queue (sd_queues s) = req :: rest ->
      is_unique req || force_pop req = true -> unique_requests (sd_queues s) !! rq_key req = None
  | _ => True
  end.

Inductive timely_reachable : Sender -> Prop :=
| timely_start : timely_reachable start_sender
| timely_step s a s' : timely_reachable s -> timely s a -> sender_step s a = Some (Done s') ->
    timely_reachable s'.

Lemma take_request_consistent now req rest q : consistent q ->
  (is_unique req || force_pop req = true -> unique_requests q !! rq_key req = None) ->
  consistent (take_request now req rest q).
Proof.
  intros [H1 H2 H3 H4] Hn. apply set_request_queue_consistent.
  destruct (is_unique req); [|destruct (force_pop req); [|done]];
    specialize (Hn eq_refl); split; cbn [set_tables unsent_timestamps unique_timestamp_map unique_requests];
    try done; try exact H4; intros k Hs; destruct (H3 k Hs) as (t & Ht & Hi); exists t; split; try done.
  - rewrite lookup_insert_ne; [done|]. intros <-. destruct Hs. congruence.
  - rewrite lookup_delete_ne; [done|]. intros <-. destruct Hs. congruence.
Qed.

(** Each step of a timely run has a result, which is a step of the mailbox. *)
Lemma sender_step_refines s a o : consistent (sd_queues s) -> timely s a -> sender_step s a = Some o ->
  exists s', o = Done s' /\ consistent (sd_queues s') /\
    Mailbox.step (mail (sd_queues s)) a (mail (sd_queues s')).
Proof.
  intros Hc Ht. destruct s as [q pc sent]. unfold sender_step. cbn [sd_queues sd_pc sd_sent] in *.
  assert (Hidle : forall pc', a ∈ [ClosePing; StartDrain; SendDone; EndDrain; Message] ->
    Some (Done {| sd_queues := q; sd_pc := pc'; sd_sent := sent |}) = Some o ->
    exists s', o = Done s' /\ consistent (sd_queues s') /\ Mailbox.step (mail q) a (mail (sd_queues s'))).
  { intros pc' Ha [= <-]. eexists. split_and!; [done..|]. by apply Mailbox.step_idle. }
  destruct a as [req|can_send ts timeout| | |ts| | | |].
  - destruct (has_lock pc); [done|]. intros [= <-]. eexists. split_and!; [done|by apply PushRequest_consistent|].
    cbn [sd_queues].
    assert (E : mail (PushRequest req q) = Mailbox.put req (mail q)); [|rewrite E; constructor].
    unfold PushRequest, Mailbox.put, mail. cbn [Mailbox.waiting Mailbox.outbox].
    destruct (is_unique req).
    + destruct (unique_requests q !! rq_key req); [done|]. by destruct (unique_timestamp_map q !! rq_key req).
    + destruct (force_pop req); [|by destruct (is_subscribe req)].
      destruct (unique_timestamp_map q !! rq_key req) eqn:Et; [done|].
      cbn [set_request_queue unique_requests request_queue]. f_equal. symmetry. apply delete_id.
      apply eq_None_not_Some. intros Hs. destruct (cs_stamp q Hc _ Hs) as (? & ? & _). congruence.
  - destruct pc; try done. destruct can_send.
    + destruct (CheckUniqueRequests_releases ts q Hc) as (ready & q' & -> & Hc' & Hr & _).
      intros [= <-]. eexists. split_and!; [done|done|]. by constructor.
    + intros [= <-]. eexists. split_and!; [done|done|]. by constructor.
  - destruct pc; try done. apply Hidle. set_solver.
  - destruct pc; try done. apply Hidle. set_solver.
  - destruct pc; try done. destruct (request_queue q) as [|req rest] eqn:E; [done|]. intros [= <-].
    eexists. split_and!; [done|apply take_request_consistent; [done|exact (Ht req rest E)]|].
    assert (Em : mail (take_request ts req rest q) = {| Mailbox.waiting := unique_requests q; Mailbox.outbox := rest |}).
    { unfold take_request, mail. by destruct (is_unique req), (force_pop req). }
    cbn [sd_queues]. rewrite Em. by apply (Mailbox.step_pop (mail q) ts req rest).
  - destruct pc; try done. intros [= <-]. eexists. split_and!; [done|by apply set_backup_queue_consistent|].
    apply Mailbox.step_idle. set_solver.
  - destruct pc; try done. destruct (request_queue q); [|done]. apply Hidle. set_solver.
  - destruct (has_lock pc); [done|]. intros [= <-]. eexists. split_and!; [done| |].
    + by apply set_backup_queue_consistent, set_request_queue_consistent.
    + apply (Mailbox.step_resend (mail q)).
  - intros [= <-]. eexists. split_and!; [done|by apply set_backup_queue_consistent|]. apply Mailbox.step_idle. set_solver.
Qed.

Lemma timely_consistent s : timely_reachable s -> consistent (sd_queues s).
Proof.
  induction 1 as [|s a s' _ IH Ht Hs]; [apply empty_consistent|].
  destruct (sender_step_refines s a _ IH Ht Hs) as (s1 & [= <-] & Hc & _). exact Hc.
Qed.

(** C19: in a run that is timely, the queue refines the mailbox: no step
    fails (in particular every stamp has its request), and each is a step of
    the specification, in which a request is waiting exactly once per key,
    replaced with its results merged, dropped when the final message of its
    key is queued, and otherwise moves to the outbox, which is sent in order. *)
Theorem queue_refines s a o : timely_reachable s -> timely s a -> sender_step s a = Some o ->
  exists s', o = Done s' /\ Mailbox.step (mail (sd_queues s)) a (mail (sd_queues s')) /\
    timely_reachable s' /\
    (forall k, k ∈ (unsent_timestamps (sd_queues s')).*2 <-> is_Some (unique_requests (sd_queues s') !! k)).
Proof.
  intros Hr Ht Hs. destruct (sender_step_refines s a o (timely_consistent s Hr) Ht Hs) as (s' & -> & Hc & Hm).
  exists s'. split_and!; [done|done|by eapply timely_step|apply (cs_keys _ Hc)].
Qed.

(** ** The results of a submission are merged *)

Definition results_request (key : Z) (results : list json) : Request := {|
  is_subscribe := false; is_unique := true; force_pop := false; rq_key := key; rq_action := "td_result";
  rq_body := JObj [("submission_id", JInt key); ("results", JArr results)] |}.

Lemma put_results key l m :
  Mailbox.waiting (Mailbox.put (results_request key l) m) !! key =
  Some (results_request key (l ++ match Mailbox.waiting m !! key with
                                  | Some old => body_results (rq_body old)
                                  | None => []
                                  end)).
Proof.
  unfold Mailbox.put. cbn [is_unique results_request rq_key Mailbox.waiting]. rewrite lookup_insert_eq. f_equal.
  destruct (Mailbox.waiting m !! key) as [old|]; [reflexivity|by rewrite app_nil_r].
Qed.

(** ** The final message of a submission *)

Definition result_of (k : Z) (r : Request) : Prop := is_unique r = true /\ rq_key r = k.

(** No result of [k] is waiting, and none is queued behind [f]. *)
Definition settled (k : Z) (f : Request) (m : Mailbox.mailbox) : Prop :=
  Mailbox.waiting m !! k = None /\
  exists pre post, Mailbox.outbox m = pre ++ post /\ (pre = [] \/ exists pre', pre = pre' ++ [f]) /\
    (forall r, r ∈ post -> ~ result_of k r).

(** What comes between: no new result of [k], and no reconnection. *)
Definition unrelated (k : Z) (a : sender_action) : Prop :=
  match a with Put req => ~ result_of k req | Resend => False | _ => True end.

Inductive timely_run (k : Z) : Sender -> Sender -> Prop :=
| run_refl s : timely_run k s s
| run_step s a s' s'' : timely s a -> unrelated k a -> sender_step s a = Some (Done s') ->
    timely_run k s' s'' -> timely_run k s s''.

Definition keyed (m : Mailbox.mailbox) : Prop := forall k r, Mailbox.waiting m !! k = Some r -> rq_key r = k.

Lemma settled_append k f w o r : settled k f {| Mailbox.waiting := w; Mailbox.outbox := o |} ->
  ~ result_of k r -> forall w', w' !! k = None ->
  settled k f {| Mailbox.waiting := w'; Mailbox.outbox := o ++ [r] |}.
Proof.
  intros (_ & pre & post & E & Hpre & Hpost) Hr w' Hw. cbn [Mailbox.outbox] in E. split; [done|].
  exists pre, (post ++ [r]). cbn [Mailbox.outbox]. rewrite E, <- app_assoc. split_and!; [done..|].
  intros r2 [Hin|Hin%list_elem_of_singleton]%elem_of_app; [by apply Hpost|by subst].
Qed.

Lemma settled_put k f req m : settled k f m -> ~ result_of k req -> settled k f (Mailbox.put req m).
Proof.
  destruct m as [w o]. intros Hs Hr. pose proof Hs as (Hw & pre & post & E & Hpre & Hpost).
  cbn [Mailbox.waiting Mailbox.outbox] in *. unfold Mailbox.put. cbn [Mailbox.waiting Mailbox.outbox].
  destruct (is_unique req) eqn:Eu.
  - split; cbn [Mailbox.waiting Mailbox.outbox].
    + rewrite lookup_insert_ne; [done|]. intros Ek. by apply Hr.
    + by exists pre, post.
  - destruct (force_pop req).
    + eapply settled_append; [done|done|]. apply lookup_delete_None. by right.
    + destruct (is_subscribe req); [|by eapply settled_append].
      split; [done|]. cbn [Mailbox.outbox]. rewrite E. destruct Hpre as [->|[pre' ->]].
      * exists [], (req :: post). split_and!; [done|by left|].
        intros r' [->|Hin]%elem_of_cons; [done|by apply Hpost].
      * exists (req :: pre' ++ [f]), post. split_and!; [done|by right; exists (req :: pre')|done].
Qed.

Lemma settled_release k f m m' : Mailbox.release m m' -> settled k f m -> keyed m ->
  settled k f m' /\ keyed m'.
Proof.
  intros [[w o] k' req Hreq] Hs Hk. cbn [Mailbox.waiting Mailbox.outbox] in *. pose proof Hs as (Hw & _).
  cbn [Mailbox.waiting] in Hw. split.
  - eapply settled_append; [done| |by apply lookup_delete_None; right].
    intros [_ Ek]. rewrite (Hk k' req Hreq) in Ek. congruence.
  - intros k2 r2. cbn [Mailbox.waiting]. intros [_ Hl]%lookup_delete_Some. by apply Hk.
Qed.

Lemma settled_releases k f m m' : rtc Mailbox.release m m' -> settled k f m -> keyed m -> settled k f m'.
Proof.
  induction 1 as [|m m1 m2 Hr _ IH]; intros Hs Hk; [done|].
  destruct (settled_release k f m m1 Hr Hs Hk). by apply IH.
Qed.

Lemma settled_step k f m a m' : Mailbox.step m a m' -> unrelated k a -> settled k f m -> keyed m ->
  settled k f m'.
Proof.
  intros Hstep Hu Hs Hk. destruct Hstep as [m req|m b ts t m' Hr|m ts req rest E|m old|m a Ha].
  - by apply settled_put.
  - by eapply settled_releases.
  - destruct Hs as (Hw & pre & post & Eo & Hpre & Hpost). rewrite E in Eo. split; [done|].
    cbn [Mailbox.outbox]. destruct Hpre as [->|[[|r pre'] ->]].
    + exists [], rest. split_and!; [done|by left|]. intros r Hin. apply Hpost. simpl in Eo. rewrite <- Eo. by right.
    + injection Eo as -> ->. exists [], post. split_and!; [done|by left|done].
    + injection Eo as -> ->. exists (pre' ++ [f]), post. split_and!; [by rewrite <- app_assoc|by right; exists pre'|done].
  - done.
  - done.
Qed.

(** C37: a final message is the last word on its submission, in runs that are [timely]
    (nothing that concerns a submission is taken from the queue for sending while a
    newer result of it waits) and until a new result of it is reported or the backup
    queue is queued again after a lost connection: from the moment the message is
    queued no result of the submission waits, and none is in the queue except in
    front of that message.  Nothing in the code makes its runs timely, and without
    it a result can follow the final message ([queue_races]). *)
Theorem final_result_last k f s s1 s2 :
  timely_reachable s -> is_unique f = false -> force_pop f = true -> rq_key f = k ->
  sender_step s (Put f) = Some (Done s1) -> timely_run k s1 s2 ->
  unique_requests (sd_queues s2) !! k = None /\
  exists pre post, request_queue (sd_queues s2) = pre ++ post /\
    (pre = [] \/ exists pre', pre = pre' ++ [f]) /\ (forall r, r ∈ post -> ~ result_of k r).
Proof.
  intros Hr Hu Hf Hk Hput Hrun. change (settled k f (mail (sd_queues s2))).
  destruct (sender_step_refines s (Put f) _ (timely_consistent s Hr) I Hput) as (s1' & [= <-] & Hc & Hm).
  assert (Hs : settled k f (mail (sd_queues s1))).
  { inversion Hm as [m req E1 E2 E3| | | |m a Ha E1 E2 E3]; [|set_solver].
    unfold Mailbox.put. rewrite Hu, Hf, Hk. split; cbn [Mailbox.waiting Mailbox.outbox].
    - by apply lookup_delete_eq.
    - exists (request_queue (sd_queues s) ++ [f]), []. split_and!; [by rewrite app_nil_r| |].
      + right. by eexists.
      + by intros r ?%elem_of_nil. }
  clear Hput Hm Hr s. induction Hrun as [|s a s' s'' Ht Hrel Hstep _ IH]; [done|].
  destruct (sender_step_refines s a _ Hc Ht Hstep) as (s1 & [= <-] & Hc' & Hm).
  apply IH; [done|]. eapply settled_step; [exact Hm|done|done|]. intros k' r. apply (cs_key _ Hc).
Qed.

(** ** What may go wrong *)

Definition status_request (key : Z) : Request := {|
  is_subscribe := false; is_unique := false; force_pop := true; rq_key := key;
  rq_action := "submission_result"; rq_body := JObj [("submission_id", JInt key)] |}.

(** 100.9 and 100.95 seconds. *)
Definition time_a : spec_float := dbl_div (dbl_of_Z 1009) (dbl_of_Z 10).
Definition time_b : spec_float := dbl_div (dbl_of_Z 10095) (dbl_of_Z 100).

(** A result is queued while the one before is in the queue behind a status
    message being sent; then the final message comes. *)
Definition overlapping_run : list sender_action :=
  [Put (results_request 7 []); Put (status_request 8); Check_ true time_a false; StartDrain;
   Pop time_a; Put (results_request 7 []); SendDone; Pop time_a; SendDone; EndDrain;
   Put (status_request 7); Check_ true time_b false].

(** The first result of a submission is queued while the message of its start
    is in the queue behind another one; the final message does not find it. *)
Definition late_result_run : list sender_action :=
  [Put (status_request 8); Put (status_request 7); Check_ true time_a false; StartDrain;
   Pop time_a; Put (results_request 7 []); SendDone; Pop time_a; SendDone; EndDrain;
   Put (status_request 7); Check_ true time_b false; StartDrain; Pop time_b; SendDone; Pop time_b; SendDone].

(** Two results of a submission, 0.05 seconds apart. *)
Definition fast_run : list sender_action :=
  [Put (results_request 7 []); Check_ true time_a false; StartDrain; Pop time_a; SendDone; EndDrain;
   Put (results_request 7 []); Check_ true time_b false; StartDrain; Pop time_b; SendDone].

Definition sent_actions (l : list sender_action) : list (string * Z) :=
  match sender_run start_sender l with
  | Some (Done s) => map (fun r => (rq_action r, rq_key r)) (sd_sent s)
  | _ => []
  end.

(** Without that discipline, which nothing in the code enforces, the
    queue misbehaves: a result queued while the previous one of its submission
    is about to be sent leaves a stamp without a request, and
    [CheckUniqueRequests] dereferences [end()]; a result queued before the
    first status message has been sent survives the final message and is sent
    after it; and since the time of sending is truncated to seconds, two
    requests of a key can be sent 0.05 seconds apart. *)
Theorem queue_races :
  sender_run start_sender overlapping_run = Some (Crash NoSuchKey) /\
  sent_actions late_result_run =
    [("submission_result", 8); ("submission_result", 7); ("submission_result", 7); ("td_result", 7)] /\
  sent_actions fast_run = [("td_result", 7); ("td_result", 7)].
Proof. split_and!; vm_compute; reflexivity. Qed.

(** ** Witnesses *)

Definition timelyb (s : Sender) (a : sender_action) : bool :=
  match a, request_queue (sd_queues s) with
  | Pop _, req :: _ =>
      negb (is_unique req || force_pop req) ||
      bool_decide (unique_requests (sd_queues s) !! rq_key req = None)
  | _, _ => true
  end.

Lemma timelyb_ok s a : timelyb s a = true -> timely s a.
Proof.
  unfold timelyb, timely. destruct a; try done. intros Hb req rest E Hk. rewrite E, Hk in Hb.
  by apply bool_decide_eq_true in Hb.
Qed.

Fixpoint timely_after (s : Sender) (l : list sender_action) : option Sender :=
  match l with
  | [] => Some s
  | a :: l' =>
      if timelyb s a then
        match sender_step s a with Some (Done s') => timely_after s' l' | _ => None end
      else None
  end.

Lemma timely_after_reachable s l s' : timely_reachable s -> timely_after s l = Some s' -> timely_reachable s'.
Proof.
  revert s. induction l as [|a l IH]; intros s Hr E; simpl in E; [by injection E as <-|].
  destruct (timelyb s a) eqn:Et; [|done]. destruct (sender_step s a) as [[s1|]|] eqn:Es; try done.
  eapply IH; [|exact E]. eapply timely_step; [done|by apply timelyb_ok|done].
Qed.

(** Two results of submission 7 are merged; then comes its final message. *)
Definition two_results : list sender_action :=
  [Put (results_request 7 [JInt 1]); Put (results_request 7 [JInt 2])].
Definition final_sent : list sender_action :=
  [Check_ true time_a false; StartDrain; Pop time_a; SendDone; EndDrain].

Definition or_start (o : option Sender) : Sender := default start_sender o.
Definition after_results : Sender := or_start (timely_after start_sender two_results).
Definition after_final : Sender := or_start (timely_after after_results [Put (status_request 7)]).

Lemma after_results_reachable : timely_reachable after_results.
Proof. apply (timely_after_reachable start_sender two_results); [constructor|vm_compute; reflexivity]. Qed.

Lemma queue_refines_witness : exists s',
  sender_step after_results (Put (results_request 7 [JInt 3])) = Some (Done s') /\
  Mailbox.step (mail (sd_queues after_results)) (Put (results_request 7 [JInt 3])) (mail (sd_queues s')) /\
  (rq_body <$> unique_requests (sd_queues s') !! 7) =
    Some (JObj [("submission_id", JInt 7); ("results", JArr [JInt 3; JInt 2; JInt 1])]).
Proof.
  destruct (sender_step after_results (Put (results_request 7 [JInt 3]))) as [o|] eqn:E;
    [|vm_compute in E; discriminate].
  destruct (queue_refines after_results (Put (results_request 7 [JInt 3])) o after_results_reachable I E)
    as (s' & -> & Hm & _).
  exists s'. split; [reflexivity|]. split; [exact Hm|]. vm_compute in E. injection E as <-. vm_compute. reflexivity.
Defined.

Lemma final_result_last_witness : exists s2,
  sd_sent s2 = [status_request 7] /\ unique_requests (sd_queues s2) !! 7 = None.
Proof.
  destruct (timely_after after_final final_sent) as [s2|] eqn:E; [|vm_compute in E; discriminate].
  exists s2. split; [vm_compute in E; injection E as <-; vm_compute; reflexivity|].
  apply (final_result_last 7 (status_request 7) after_results after_final s2);
    [apply after_results_reachable|reflexivity|reflexivity|reflexivity|vm_compute; reflexivity|].
  assert (Hrun : forall l s s', Forall (unrelated 7) l -> timely_after s l = Some s' -> timely_run 7 s s').
  { induction l as [|a l IH]; intros s s' Hu Hl; simpl in Hl; [injection Hl as <-; constructor|].
    apply Forall_cons in Hu as [Hu1 Hu2]. destruct (timelyb s a) eqn:Et; [|discriminate].
    destruct (sender_step s a) as [[s1|]|] eqn:Es; try discriminate.
    eapply run_step; [apply timelyb_ok; exact Et|exact Hu1|exact Es|apply IH; assumption]. }
  apply (Hrun final_sent); [repeat constructor|exact E].
Defined.
