(* ===== verification/Base64.v ===== *)
(** * Base64

    [Base64CharToValue] and [OutputBase64] of src/server_io.cpp, which decode
    the source code of a submission, against an encoder written from
    RFC 4648. *)

From S2P Require Import Prelude Text.

(** ** The decoder *)

Definition code (c : ascii) : Z := Z.of_nat (nat_of_ascii c).
Definition uchar (z : Z) : ascii := ascii_of_nat (Z.to_nat (Z.land z 255)).

Definition Base64CharToValue (c : ascii) : Z :=
  let chr := code c in
  if (65 <=? chr) && (chr <=? 90) then chr - 65
  else if (97 <=? chr) && (chr <=? 122) then chr - 97 + (90 - 65) + 1
  else if (48 <=? chr) && (chr <=? 57) then chr - 48 + (90 - 65) + (122 - 97) + 2
  else if (chr =? 43) || (chr =? 45) then 62
  else if (chr =? 47) || (chr =? 95) then 63
  else 0.

(** The three bytes of a group of four values. *)
Definition first_byte (v0 v1 : Z) : ascii := uchar (Z.lor (Z.shiftl v0 2) (Z.shiftr (Z.land v1 48) 4)).
Definition second_byte (v1 v2 : Z) : ascii :=
  uchar (Z.lor (Z.shiftl (Z.land v1 15) 4) (Z.shiftr (Z.land v2 60) 2)).
Definition third_byte (v2 v3 : Z) : ascii := uchar (Z.lor (Z.shiftl (Z.land v2 3) 6) v3).

Definition is_padding (c : ascii) : bool := bool_decide (c = "="%char).

(** The group behind the loop: four characters at most. *)
Definition last_group (s : string) : string :=
  match s with
  | String a (String b r) =>
      if is_padding b then ""
      else
        let v0 := Base64CharToValue a in
        let v1 := Base64CharToValue b in
        String (first_byte v0 v1)
          (match r with
           | String c r =>
               if is_padding c then ""
               else
                 let v2 := Base64CharToValue c in
                 String (second_byte v1 v2)
                   (match r with
                    | String d _ =>
                        if is_padding d then "" else String (third_byte v2 (Base64CharToValue d)) ""
                    | EmptyString => ""
                    end)
           | EmptyString => ""
           end)
  | _ => ""
  end.

Fixpoint OutputBase64 (str : string) : string :=
  match str with
  | String a (String b (String c (String d (String _ _ as rest)))) =>
      let v0 := Base64CharToValue a in
      let v1 := Base64CharToValue b in
      let v2 := Base64CharToValue c in
      let v3 := Base64CharToValue d in
      String (first_byte v0 v1) (String (second_byte v1 v2) (String (third_byte v2 v3) (OutputBase64 rest)))
  | _ => last_group str
  end.

(** ** The encoder *)

Definition alphabet (url : bool) : string :=
  "ABCDEFGHIJKLMNOPQRSTUVWXYZabcdefghijklmnopqrstuvwxyz0123456789" +:+ (if url then "-_" else "+/").

Definition encode_value (url : bool) (v : Z) : ascii :=
  default "A"%char (String.get (Z.to_nat v) (alphabet url)).

Section Encode.
Context (url padded : bool).
Abbreviation chr := (encode_value url).

Definition pad (n : nat) : string := if padded then string_repeat n "=" else "".

Fixpoint encode (s : string) : string :=
  match s with
  | EmptyString => ""
  | String a EmptyString =>
      String (chr (code a / 4)) (String (chr (code a mod 4 * 16)) (pad 2))
  | String a (String b EmptyString) =>
      String (chr (code a / 4)) (String (chr (code a mod 4 * 16 + code b / 16))
        (String (chr (code b mod 16 * 4)) (pad 1)))
  | String a (String b (String c s')) =>
      String (chr (code a / 4)) (String (chr (code a mod 4 * 16 + code b / 16))
        (String (chr (code b mod 16 * 4 + code c / 64)) (String (chr (code c mod 64)) (encode s'))))
  end.
End Encode.

(** ** Decoding undoes encoding *)

Definition range (n : nat) : list Z := map Z.of_nat (seq 0 n).

Lemma in_range n z : 0 <= z < Z.of_nat n -> In z (range n).
Proof. intros Hz. apply in_map_iff. exists (Z.to_nat z). rewrite in_seq. split; lia. Qed.

Lemma code_range c : 0 <= code c < 256.
Proof. unfold code. pose proof (nat_ascii_bounded c). lia. Qed.

Lemma code_uchar c : ascii_of_nat (Z.to_nat (code c)) = c.
Proof. unfold code. by rewrite Nat2Z.id, ascii_nat_embedding. Qed.

Lemma value_encode url v : 0 <= v < 64 ->
  Base64CharToValue (encode_value url v) = v /\ is_padding (encode_value url v) = false.
Proof.
  intros Hv.
  assert (H : forallb (fun v => (Base64CharToValue (encode_value url v) =? v) &&
    negb (is_padding (encode_value url v))) (range 64) = true) by (destruct url; vm_compute; reflexivity).
  rewrite forallb_forall in H. specialize (H v (in_range 64 v Hv)).
  apply andb_true_iff in H as [?%Z.eqb_eq ?%negb_true_iff]. done.
Qed.

(** Each byte depends on eight bits of one byte and the four of a neighbour:
    all of them are tried. *)
Definition byte_table (f : Z -> Z -> ascii) (n : nat) : bool :=
  forallb (fun x => forallb (fun y => bool_decide (f x y = ascii_of_nat (Z.to_nat x))) (range n)) (range 256).

Lemma byte_table_ok f n x y : byte_table f n = true -> 0 <= x < 256 -> 0 <= y < Z.of_nat n ->
  f x y = ascii_of_nat (Z.to_nat x).
Proof.
  unfold byte_table. rewrite forallb_forall. intros H Hx Hy.
  specialize (H x (in_range 256 x Hx)). rewrite forallb_forall in H.
  specialize (H y (in_range n y Hy)). by apply bool_decide_eq_true in H.
Qed.

Lemma first_byte_ok a hi : 0 <= hi < 16 -> first_byte (code a / 4) (code a mod 4 * 16 + hi) = a.
Proof.
  intros Hh. rewrite <- (code_uchar a) at 3.
  apply (byte_table_ok (fun x y => first_byte (x / 4) (x mod 4 * 16 + y)) 16); [vm_compute; reflexivity|apply code_range|exact Hh].
Qed.

Lemma second_byte_ok b hi lo : 0 <= hi < 4 -> 0 <= lo < 4 ->
  second_byte (hi * 16 + code b / 16) (code b mod 16 * 4 + lo) = b.
Proof.
  intros Hh Hl. rewrite <- (code_uchar b) at 3.
  replace (hi * 16 + code b / 16) with ((hi * 4 + lo) / 4 * 16 + code b / 16)
    by (rewrite Z.div_add_l, (Z.div_small lo) by lia; lia).
  replace (code b mod 16 * 4 + lo) with (code b mod 16 * 4 + (hi * 4 + lo) mod 4)
    by (rewrite (Z.add_comm (hi * 4)), Z.mod_add, (Z.mod_small lo) by lia; lia).
  apply (byte_table_ok (fun x y => second_byte (y / 4 * 16 + x / 16) (x mod 16 * 4 + y mod 4)) 16);
    [vm_compute; reflexivity|apply code_range|lia].
Qed.

Lemma third_byte_ok c hi : 0 <= hi < 16 -> third_byte (hi * 4 + code c / 64) (code c mod 64) = c.
Proof.
  intros Hh. rewrite <- (code_uchar c) at 3.
  apply (byte_table_ok (fun x y => third_byte (y * 4 + x / 64) (x mod 64)) 16); [vm_compute; reflexivity|apply code_range|exact Hh].
Qed.

(** The bits of a byte that go into each value. *)
Lemma code_bits c : 0 <= code c / 4 < 64 /\ 0 <= code c mod 4 < 4 /\ 0 <= code c / 16 < 16 /\
  0 <= code c mod 16 < 16 /\ 0 <= code c / 64 < 4 /\ 0 <= code c mod 64 < 64.
Proof.
  pose proof (code_range c) as Hc.
  pose proof (Z.mod_pos_bound (code c) 4). pose proof (Z.mod_pos_bound (code c) 16).
  pose proof (Z.mod_pos_bound (code c) 64).
  repeat split; try lia; try (apply Z.div_pos; lia); apply Z.div_lt_upper_bound; lia.
Qed.

Lemma last_group_pad url padded s : (String.length s <= 2)%nat ->
  last_group (encode url padded s) = s.
Proof.
  intros Hl. destruct s as [|a [|b [|c s]]]; [done| | |simpl in Hl; lia]; cbn [encode last_group];
    pose proof (code_bits a) as (A1 & A2 & _).
  - destruct (value_encode url (code a / 4) A1) as [E1 _].
    destruct (value_encode url (code a mod 4 * 16)) as [E2 P2]; [lia|]. rewrite P2, E1, E2.
    replace (code a mod 4 * 16) with (code a mod 4 * 16 + 0) by lia.
    rewrite first_byte_ok by lia. by destruct padded.
  - pose proof (code_bits b) as (_ & _ & B1 & B2 & _).
    destruct (value_encode url (code a / 4) A1) as [E1 _].
    destruct (value_encode url (code a mod 4 * 16 + code b / 16)) as [E2 P2]; [lia|].
    destruct (value_encode url (code b mod 16 * 4)) as [E3 P3]; [lia|].
    rewrite P2, E1, E2, P3, E3, first_byte_ok by lia.
    replace (code b mod 16 * 4) with (code b mod 16 * 4 + 0) by lia.
    rewrite second_byte_ok by lia. by destruct padded.
Qed.

Lemma OutputBase64_group a b c d e rest :
  OutputBase64 (String a (String b (String c (String d (String e rest))))) =
  String (first_byte (Base64CharToValue a) (Base64CharToValue b))
    (String (second_byte (Base64CharToValue b) (Base64CharToValue c))
      (String (third_byte (Base64CharToValue c) (Base64CharToValue d)) (OutputBase64 (String e rest)))).
Proof. reflexivity. Qed.

(** C38: [OutputBase64] decodes what any encoder of RFC 4648 produces, with the
    standard or the URL-safe alphabet, padded or not. *)
Theorem OutputBase64_encode url padded s : OutputBase64 (encode url padded s) = s.
Proof.
  assert (Hn : forall n s, (String.length s <= n)%nat -> OutputBase64 (encode url padded s) = s); [|by eapply Hn].
  clear s. induction n as [|n IH]; intros s Hl; [by destruct s; [|simpl in Hl; lia]|].
  destruct s as [|a [|b [|c s]]]; [done| | |].
  - transitivity (last_group (encode url padded (String a "")));
      [by destruct padded|apply last_group_pad; simpl; lia].
  - transitivity (last_group (encode url padded (String a (String b ""))));
      [by destruct padded|apply last_group_pad; simpl; lia].
  - cbn [encode]. pose proof (code_bits a) as (A1 & A2 & _). pose proof (code_bits b) as (_ & _ & B1 & B2 & _).
    pose proof (code_bits c) as (_ & _ & _ & _ & C1 & C2).
    destruct (value_encode url (code a / 4) A1) as [E1 _].
    destruct (value_encode url (code a mod 4 * 16 + code b / 16)) as [E2 P2]; [lia|].
    destruct (value_encode url (code b mod 16 * 4 + code c / 64)) as [E3 P3]; [lia|].
    destruct (value_encode url (code c mod 64) C2) as [E4 P4].
    assert (Eb : second_byte (code a mod 4 * 16 + code b / 16) (code b mod 16 * 4 + code c / 64) = b)
      by (apply second_byte_ok; lia).
    destruct (encode url padded s) as [|d r] eqn:Es.
    + cbn [OutputBase64 last_group]. rewrite P2, E1, E2, P3, E3, P4, E4, first_byte_ok, Eb, third_byte_ok by lia.
      destruct s as [|x [|y [|z s]]]; simpl in Es; done.
    + rewrite OutputBase64_group, E1, E2, E3, E4, first_byte_ok, Eb, third_byte_ok by lia.
      rewrite <- Es, IH by (simpl in Hl; lia). done.
Qed.
