(* ===== verification/Cpuset.v ===== *)
(** * CPU lists

    src/cpuset.cpp: [CpusetParse], which reads the [pinned_cpus] setting.  A
    pointer into the text is the text behind it, NULL is [None]; a [cpu_set_t]
    is the set of its members (below 1024). *)

From S2P Require Import Prelude Text Stream.

(** ** Tokens and numbers *)

(** The text behind the first [sep]. *)
Fixpoint after_char (sep : ascii) (s : string) : option string :=
  match s with
  | EmptyString => None
  | String c s' => if bool_decide (c = sep) then Some s' else after_char sep s'
  end.

Definition nexttoken (q : option string) (sep : ascii) : option string := q ≫= after_char sep.

(** The number, as an [unsigned int], and [end]; [None] when an error is
    returned. *)
Definition nextnumber (str : option string) : option (Z * string) :=
  match str with
  | Some (String c _ as s) =>
      if is_digit c then
        let '(ds, r) := span is_digit s in
        let v := digits_value 0 ds in
        if 2 ^ 64 <=? v then None else Some (to_uint v, r)
      else None
  | _ => None
  end.

(** [c1 != NULL && (c2 == NULL || c1 < c2)]. *)
Definition comes_before (c1 c2 : option string) : bool :=
  match c1, c2 with
  | None, _ => false
  | Some _, None => true
  | Some s1, Some s2 => (String.length s2 <? String.length s1)%nat
  end.

(** ** The parser *)

Definition CPU_SETSIZE : Z := 1024.
Definition CPU_SET (i : Z) (set : gset Z) : gset Z := if i <? CPU_SETSIZE then {[i]} ∪ set else set.

(** The inner loop; [None] when it has not ended. *)
Fixpoint set_range (fuel : nat) (a b s ncpu : Z) (set : gset Z) : option (gset Z) :=
  match fuel with
  | O => None
  | S fuel' =>
      if (a <=? b) && (a <? ncpu) then set_range fuel' (to_uint (a + s)) b s ncpu (CPU_SET a set)
      else Some set
  end.

(** The numbers of one element: begin, end, stride, and where it stops. *)
Definition parse_element (p : string) : option (Z * Z * Z * string) :=
  '(a, end_) ← nextnumber (Some p);
  let c1 := nexttoken (Some end_) "-" in
  let c2 := nexttoken (Some end_) "," in
  if comes_before c1 c2 then
    '(b, end_) ← nextnumber c1;
    let c1 := if bool_decide (end_ = "") then None else nexttoken (Some end_) ":" in
    if comes_before c1 c2 then
      '(s, end_) ← nextnumber c1;
      if s =? 0 then None else Some (a, b, s, end_)
    else Some (a, b, 1, end_)
  else Some (a, a, 1, end_).

Fixpoint parse_list (fuel : nat) (q : option string) (end_ : string) (ncpu : Z) (set : gset Z)
    : option (gset Z) :=
  match fuel with
  | O => None
  | S fuel' =>
      match q with
      | None => if bool_decide (end_ = "") then Some set else None
      | Some p =>
          '(a, b, s, end_) ← parse_element p;
          if negb (a <=? b) then None
          else
            set ← set_range (S (Z.to_nat ncpu)) a b s ncpu set;
            parse_list fuel' (nexttoken q ",") end_ ncpu set
      end
  end.

(** [None]: the text is rejected. *)
Definition CpusetParse (str : string) (ncpu : Z) : option (gset Z) :=
  if bool_decide (str = "all") then
    Some (list_to_set (filter (fun i => i < CPU_SETSIZE) (map Z.of_nat (seq 0 (Z.to_nat ncpu)))))
  else if bool_decide (str = "none") then Some ∅
  else parse_list (S (S (String.length str))) (Some str) "" ncpu ∅.

(** ** The inner loop ends *)

(** A stride that wraps around goes down instead of up. *)
Lemma set_range_ends a b s ncpu set : 0 <= a < 2 ^ 32 -> 0 <= b < 2 ^ 32 -> 0 < s < 2 ^ 32 -> 0 <= ncpu <= 2 ^ 31 ->
  is_Some (set_range (S (Z.to_nat ncpu)) a b s ncpu set).
Proof.
  intros Ha Hb Hs Hn.
  assert (Hup : forall n a set, s <= 2 ^ 32 - ncpu -> 0 <= a < 2 ^ 32 -> ncpu - a < Z.of_nat n ->
    (0 < n)%nat -> is_Some (set_range n a b s ncpu set)).
  { clear a set Ha. induction n as [|n IH]; intros a set Hle Ha Hlt Hpos; [lia|]. cbn [set_range].
    destruct (Z.leb_spec a b), (Z.ltb_spec a ncpu); cbn [andb]; try by eexists.
    unfold wrap_unsigned. rewrite Z.mod_small by lia. apply IH; lia. }
  assert (Hdown : forall n a set, 2 ^ 32 - ncpu < s -> 0 <= a < 2 ^ 32 -> (a < ncpu -> a + 1 < Z.of_nat n) ->
    (0 < n)%nat -> is_Some (set_range n a b s ncpu set)).
  { clear a set Ha Hup. induction n as [|n IH]; intros a set Hle Ha Hlt Hpos; [lia|]. cbn [set_range].
    destruct (Z.leb_spec a b), (Z.ltb_spec a ncpu); cbn [andb]; try by eexists.
    specialize (Hlt ltac:(lia)). unfold wrap_unsigned.
    destruct (Z.lt_ge_cases (a + s) (2 ^ 32)) as [Hw|Hw].
    - rewrite Z.mod_small by lia. apply IH; lia.
    - replace ((a + s) mod 2 ^ 32) with (a + s - 2 ^ 32); [apply IH; lia|].
      rewrite <- (Z.mod_small (a + s - 2 ^ 32) (2 ^ 32)) by lia.
      replace (a + s - 2 ^ 32) with (a + s + (-1) * 2 ^ 32) by lia. by rewrite Z.mod_add. }
  destruct (Z.le_gt_cases s (2 ^ 32 - ncpu)) as [Hle|Hgt].
  - destruct (Z.le_gt_cases ncpu a); [|apply Hup; lia]. cbn [set_range].
    rewrite (proj2 (Z.ltb_ge a ncpu)) by done. rewrite andb_false_r. by eexists.
  - destruct (Z.le_gt_cases ncpu a) as [Hge|Hl].
    + cbn [set_range]. rewrite (proj2 (Z.ltb_ge a ncpu)) by done. rewrite andb_false_r. by eexists.
    + destruct (decide (a + 1 < ncpu + 1)) as [Hx|]; [|lia]. apply Hdown; lia.
Qed.

(** ** Lists written canonically *)

Inductive element := One (a : Z) | Range (a b : Z) | Stride (a b s : Z).

Definition bounds (e : element) : Z * Z * Z :=
  match e with One a => (a, a, 1) | Range a b => (a, b, 1) | Stride a b s => (a, b, s) end.

Definition print_element (e : element) : string :=
  match e with
  | One a => to_string a
  | Range a b => to_string a +:+ "-" +:+ to_string b
  | Stride a b s => to_string a +:+ "-" +:+ to_string b +:+ ":" +:+ to_string s
  end.

Fixpoint print_list (e : element) (l : list element) : string :=
  match l with
  | [] => print_element e
  | e' :: l' => print_element e +:+ "," +:+ print_list e' l'
  end.

(** The stride does not wrap around. *)
Definition element_ok (e : element) : Prop :=
  let '(a, b, s) := bounds e in 0 <= a <= b /\ 0 < s /\ b + s < 2 ^ 32.

Definition selected (e : element) (ncpu i : Z) : Prop :=
  let '(a, b, s) := bounds e in a <= i <= b /\ (i - a) mod s = 0 /\ i < ncpu /\ i < CPU_SETSIZE.

(** [u] ends where a list element may. *)
Definition at_stop (u : string) : Prop := u = "" \/ exists v, u = String "," v.

Lemma nextnumber_print a u : 0 <= a < 2 ^ 32 -> (match u with String c _ => is_digit c = false | _ => True end) ->
  nextnumber (Some (to_string a +:+ u)) = Some (a, u).
Proof.
  intros Ha Hu. pose proof (to_string_digits a ltac:(lia)) as Hd.
  pose proof (to_string_nonempty a) as Hne. pose proof (to_string_value a ltac:(lia)) as Hv.
  assert (Hs : span is_digit (to_string a +:+ u) = (to_string a, u)).
  { clear Hne Hv. induction (to_string a) as [|c s IH].
    - rewrite string_app_nil_l. destruct u as [|c u]; [done|]. simpl. by rewrite Hu.
    - simpl in Hd. apply andb_true_iff in Hd as [Hc Hd]. rewrite string_app_cons. simpl. by rewrite Hc, IH. }
  unfold nextnumber. destruct (to_string a +:+ u) as [|c r] eqn:E.
  - apply (f_equal String.length) in E. rewrite string_length_app in E.
    destruct (to_string a); [done|simpl in E; lia].
  - assert (Hc : is_digit c = true).
    { destruct (to_string a) as [|d s]; [done|]. rewrite string_app_cons in E. injection E as <- _.
      simpl in Hd. by apply andb_true_iff in Hd as [? _]. }
    rewrite Hc, Hs, Hv. rewrite (proj2 (Z.leb_gt _ _)) by lia.
    unfold wrap_unsigned. by rewrite Z.mod_small by lia.
Qed.

Lemma after_char_digits sep s u : string_forall is_digit s = true -> is_digit sep = false ->
  after_char sep (s +:+ u) = after_char sep u.
Proof.
  intros Hs Hsep. induction s as [|c s IH]; [done|]. simpl in Hs. apply andb_true_iff in Hs as [Hc Hs].
  rewrite string_app_cons. cbn [after_char]. rewrite bool_decide_false by congruence. by apply IH.
Qed.

Lemma after_char_length sep s r : after_char sep s = Some r -> (String.length r < String.length s)%nat.
Proof.
  induction s as [|c s IH]; [done|]. simpl. case_bool_decide; [intros [= <-]; lia|]. intros E%IH. lia.
Qed.

Lemma not_before_stop sep u : sep <> ","%char -> at_stop u ->
  comes_before (after_char sep u) (after_char "," u) = false.
Proof.
  intros Hsep [->|[v ->]]; [done|]. cbn [after_char].
  rewrite (bool_decide_false (_ = sep)) by congruence. rewrite (bool_decide_true (_ = _)) by done.
  unfold comes_before. destruct (after_char sep v) as [r|] eqn:E; [|done].
  apply after_char_length in E. by apply Nat.ltb_ge, Nat.lt_le_incl.
Qed.

Lemma stop_not_digit u : at_stop u -> match u with String c _ => is_digit c = false | _ => True end.
Proof. by intros [->|[v ->]]. Qed.

Lemma after_char_head sep s : after_char sep (String sep s) = Some s.
Proof. simpl. by rewrite bool_decide_true. Qed.

Lemma after_char_tail sep c s : c <> sep -> after_char sep (String c s) = after_char sep s.
Proof. intros Hne. simpl. by rewrite bool_decide_false. Qed.

Lemma string_of_char c s u : String c s +:+ u = String c (s +:+ u).
Proof. done. Qed.

(** Behind "-": the number [x], then [w]; the next comma, if any, is in [w]. *)
Lemma before_number x w c : 0 <= x ->
  (match after_char "," w with Some v => (String.length v < String.length w)%nat | None => True end) ->
  c <> ","%char -> comes_before (Some (to_string x +:+ w)) (after_char "," (String c (to_string x +:+ w))) = true.
Proof.
  intros Hx Hw Hc. rewrite after_char_tail by done.
  rewrite after_char_digits by (done || by apply to_string_digits).
  unfold comes_before. destruct (after_char "," w); [|done].
  apply Nat.ltb_lt. rewrite string_length_app. lia.
Qed.

Lemma comma_shrinks w :
  match after_char "," w with Some v => (String.length v < String.length w)%nat | None => True end.
Proof. destruct (after_char "," w) eqn:E; [|done]. by apply after_char_length in E. Qed.

Lemma parse_element_print e u : element_ok e -> at_stop u ->
  parse_element (print_element e +:+ u) = Some (bounds e, u).
Proof.
  intros Hok Hu. pose proof (stop_not_digit u Hu) as Hd. unfold parse_element, nexttoken.
  unfold element_ok in Hok. destruct e as [a|a b|a b s]; cbn [bounds print_element] in *;
    destruct Hok as (Hab & Hs & Hw); rewrite ?string_app_assoc, ?string_of_char, ?string_app_nil_l;
    rewrite nextnumber_print by (done || lia); cbn [mbind option_bind].
  - by rewrite not_before_stop.
  - rewrite after_char_head, before_number by (done || lia || apply comma_shrinks).
    rewrite nextnumber_print by (done || lia). cbn [mbind option_bind].
    rewrite after_char_tail, after_char_digits by (done || by apply to_string_digits; lia).
    destruct (decide (u = "")) as [->|Hne]; [by rewrite bool_decide_true|].
    rewrite bool_decide_false by done. by rewrite not_before_stop.
  - rewrite after_char_head, before_number by (done || lia || apply comma_shrinks).
    rewrite nextnumber_print by (done || lia). cbn [mbind option_bind].
    rewrite after_char_head, bool_decide_false by done.
    rewrite after_char_tail, after_char_digits by (done || by apply to_string_digits; lia).
    rewrite before_number by (done || lia || apply comma_shrinks).
    rewrite nextnumber_print by (done || lia). cbn [mbind option_bind].
    by rewrite (proj2 (Z.eqb_neq s 0)) by lia.
Qed.

Lemma print_element_comma e u : element_ok e -> after_char "," (print_element e +:+ u) = after_char "," u.
Proof.
  unfold element_ok. intros Hok.
  assert (Hdig : forall x w, 0 <= x -> after_char "," (to_string x +:+ w) = after_char "," w)
    by (intros x w Hx; apply after_char_digits; [by apply to_string_digits|done]).
  destruct e as [a|a b|a b s]; cbn [bounds print_element] in *; destruct Hok as (Hab & Hs & Hw);
    rewrite ?string_app_assoc, ?string_of_char, ?string_app_nil_l;
    repeat ((rewrite Hdig by lia) || (rewrite after_char_tail by done)); done.
Qed.

(** The numbers [a], [a + s], ... up to [b] that are below [ncpu]. *)
Lemma set_range_spec fuel a b s ncpu set set' : 0 <= a -> 0 < s -> b + s < 2 ^ 32 -> a < 2 ^ 32 ->
  set_range fuel a b s ncpu set = Some set' ->
  forall i, i ∈ set' <-> i ∈ set \/ (a <= i <= b /\ (i - a) mod s = 0 /\ i < ncpu /\ i < CPU_SETSIZE).
Proof.
  revert a set. induction fuel as [|fuel IH]; intros a set Ha Hs Hw Ha2; [done|]. cbn [set_range].
  destruct (Z.leb_spec a b) as [Hab|Hab], (Z.ltb_spec a ncpu) as [Hn|Hn]; cbn [andb];
    try (intros [= <-] i; split; [by left|intros [?|?]; [done|lia]]).
  unfold wrap_unsigned. rewrite Z.mod_small by lia. intros E i. rewrite (IH (a + s) _ ltac:(lia) Hs Hw ltac:(lia) E i).
  assert (Hin : i ∈ CPU_SET a set <-> i ∈ set \/ (i = a /\ i < CPU_SETSIZE)).
  { unfold CPU_SET. destruct (Z.ltb_spec a CPU_SETSIZE).
    - rewrite elem_of_union, elem_of_singleton. split; [intros [->|?]; [by right|by left]|].
      intros [?|[-> _]]; [by right|by left].
    - split; [by left|]. intros [?|?]; [done|lia]. }
  rewrite Hin. assert (Hm : (i - (a + s)) mod s = (i - a) mod s).
  { replace (i - (a + s)) with (i - a + (-1) * s) by lia. rewrite Z.mod_add; [done|lia]. }
  rewrite Hm. destruct (decide (i = a)) as [->|Hne].
  - rewrite Z.sub_diag, Z.mod_0_l by lia. split; [|intros [?|?]; tauto]. intros [[?|?]|?]; [by left|right|right]; lia.
  - split; [intros [[?|?]|?]; [by left|lia|right; lia]|].
    intros [?|(H1 & H2 & H3 & H4)]; [by left; left|]. right. split_and!; try done; [|lia].
    destruct (Z.lt_ge_cases (i - a) s); [|lia]. rewrite Z.mod_small in H2 by lia. lia.
Qed.

Lemma print_list_length e l : (length l <= String.length (print_list e l))%nat.
Proof.
  revert e. induction l as [|e' l IH]; intros e; [simpl; lia|]. cbn [print_list length].
  rewrite !string_length_app. specialize (IH e'). simpl. lia.
Qed.

Lemma print_list_first e l : exists u, print_list e l = print_element e +:+ u /\ at_stop u /\
  after_char "," u = match l with [] => None | e' :: l' => Some (print_list e' l') end.
Proof.
  destruct l as [|e' l]; simpl.
  - exists "". rewrite string_app_nil_r. split_and!; [done|by left|done].
  - exists ("," +:+ print_list e' l). split_and!; [done|right; by eexists|done].
Qed.

Lemma parse_list_print fuel e l end_ ncpu set : Forall element_ok (e :: l) -> 0 <= ncpu <= 2 ^ 31 ->
  (length l + 1 < fuel)%nat ->
  exists set', parse_list fuel (Some (print_list e l)) end_ ncpu set = Some set' /\
    forall i, i ∈ set' <-> i ∈ set \/ Exists (fun e => selected e ncpu i) (e :: l).
Proof.
  revert e l end_ set. induction fuel as [|fuel IH]; intros e l end_ set Hok Hn Hf; [lia|].
  apply Forall_cons in Hok as [He Hl]. destruct (print_list_first e l) as (u & E & Hu & Hc).
  cbn [parse_list]. unfold nexttoken. cbn [mbind option_bind]. rewrite E, print_element_comma, Hc by done.
  rewrite parse_element_print by done. cbn [mbind option_bind].
  pose proof He as Hb. unfold element_ok in Hb. unfold selected in *.
  destruct (bounds e) as [[a b] s] eqn:Eb. destruct Hb as (Hab & Hs & Hw).
  rewrite (proj2 (Z.leb_le a b)) by lia. cbn [negb].
  destruct (set_range_ends a b s ncpu set) as [set1 E1]; [lia..|].
  rewrite E1. cbn [mbind option_bind]. pose proof (set_range_spec _ a b s ncpu set set1 ltac:(lia) Hs Hw ltac:(lia) E1) as Hset.
  destruct l as [|e' l].
  - assert (u = "") as -> by (destruct Hu as [|[v ->]]; [done|by rewrite after_char_head in Hc]).
    destruct fuel; [simpl in Hf; lia|]. exists set1. split; [done|]. intros i. rewrite Hset, Exists_cons, Exists_nil. cbv beta. rewrite Eb. tauto.
  - destruct (IH e' l u set1 Hl Hn ltac:(simpl in *; lia)) as (set' & E' & Hset').
    exists set'. split; [done|]. intros i. rewrite Hset', Hset, (Exists_cons _ e). cbv beta. rewrite Eb. tauto.
Qed.

(** A list written as numbers, ranges and ranges with a stride is read as
    exactly the CPUs it names, as far as the machine has them. *)
Theorem CpusetParse_print e l ncpu : Forall element_ok (e :: l) -> 0 <= ncpu <= 2 ^ 31 ->
  exists set, CpusetParse (print_list e l) ncpu = Some set /\
    forall i, i ∈ set <-> Exists (fun e => selected e ncpu i) (e :: l).
Proof.
  intros Hok Hn. unfold CpusetParse.
  assert (Hd : forall w, (match w with String c _ => is_digit c = false | _ => True end) -> print_list e l <> w).
  { intros w Hw Ew. destruct (print_list_first e l) as (u & E & _). rewrite Ew in E.
    apply Forall_cons in Hok as [He _]. unfold element_ok in He.
    assert (Ha : exists a v, w = to_string a +:+ v /\ 0 <= a).
    { destruct e as [a|a b|a b s]; cbn [print_element bounds] in *; destruct He as (? & _); rewrite ?string_app_assoc in E;
        eexists a, _; (split; [exact E|lia]). }
    destruct Ha as (a & v & -> & Ha). pose proof (to_string_digits a Ha) as Hdig.
    pose proof (to_string_nonempty a). destruct (to_string a) as [|c t]; [done|].
    rewrite string_app_cons in Hw. simpl in Hdig. apply andb_true_iff in Hdig as [Hdig _]. congruence. }
  rewrite !bool_decide_false by (by apply Hd).
  destruct (parse_list_print (S (S (String.length (print_list e l)))) e l "" ncpu ∅ Hok Hn) as (set & E & Hset).
  { pose proof (print_list_length e l). lia. }
  exists set. split; [exact E|]. intros i. rewrite Hset. set_solver.
Qed.

(** What else it takes: text behind a number, numbers beyond 2^32, and strides
    that wrap around. *)
Example CpusetParse_lenient :
  CpusetParse "1x,2" 4 = Some {[1; 2]} /\
  CpusetParse "4294967297" 4 = Some {[1]} /\
  CpusetParse "2-3:4294967295" 4 = Some {[0; 1; 2]}.
Proof. vm_compute. done. Qed.

Lemma CpusetParse_print_witness : exists set, CpusetParse "0-6:2,7" 8 = Some set /\ 6 ∈ set /\ 7 ∈ set /\ 5 ∉ set.
Proof.
  destruct (CpusetParse_print (Stride 0 6 2) [One 7] 8) as (set & E & Hset).
  - repeat constructor; unfold element_ok; simpl; lia.
  - lia.
  - exists set. change (print_list (Stride 0 6 2) [One 7]) with "0-6:2,7" in E. split; [exact E|].
    rewrite !Hset, !Exists_cons, !Exists_nil. unfold selected, CPU_SETSIZE. simpl.
    repeat split; [left|right; left|]; try (vm_compute; repeat split; congruence).
    intros [(_ & Hm & _)|[(Hr & _)|[]]]; [discriminate Hm|lia].
Defined.
