(* ===== verification/ServerMessages.v ===== *)
(** * Messages to the web server

    The requests of src/server_io.cpp: [TryFetchSubmission], [SendResult],
    [SendFinalResult], [SendStatus], [SendQueuedSubmissions], the reporter that
    the judge calls back, the requests of [ServerWorkLoop], and
    [TIOJClient::OnMessage] with its reading of the server's version. *)

From S2P Require Import Prelude Enums Text CNum Stream Data State WorkLoop ServerQueue.
From Stdlib Require Import SpecFloat.

(** The globals [jce_to_er] and [waiting_to_queued]. *)
Record Compat := { jce_to_er : bool; waiting_to_queued : bool }.
Definition initial_compat : Compat := {| jce_to_er := true; waiting_to_queued := true |}.

Definition VerdictToAbrCompat (c : Compat) (verdict : Verdict) : string :=
  if jce_to_er c && bool_decide (verdict = JCE) then "ER" else VerdictToAbr verdict.

Definition WaitingVerdict (c : Compat) : string := if waiting_to_queued c then "queued" else "waiting".

(** ** Requests *)

Definition TryFetchSubmission : Request := {|
  is_subscribe := false; is_unique := true; force_pop := false; rq_key := kFetchKey;
  rq_action := "fetch_submission"; rq_body := JNull |}.

Definition OneTdJSON (c : Compat) (nowtd : TestdataResult) (position : Z) : json :=
  JObj ([("position", JInt position);
         ("verdict", JStr (VerdictToAbrCompat c (td_verdict nowtd)));
         ("time", JInt (td_time nowtd));
         ("rss", JInt (td_rss nowtd));
         ("score", JInt (td_score nowtd));
         ("vss", if td_vss nowtd =? 0 then JNull else JInt (td_vss nowtd))] ++
        if bool_decide (message nowtd = "") then []
        else [("message_type", JStr (message_type nowtd)); ("message", JStr (message nowtd))]).

(** The loop over all results, from index [i] on; those without a verdict are
    left out. *)
Fixpoint all_results (c : Compat) (i : Z) (tds : list TestdataResult) : list json :=
  match tds with
  | [] => []
  | nowtd :: tds' =>
      (if bool_decide (td_verdict nowtd = NUL) then [] else [OneTdJSON c nowtd i]) ++ all_results c (i + 1) tds'
  end.

Definition TdResultsJSON (c : Compat) (res : SubmissionResult) (subtask : Z) : outcome json :=
  if subtask =? -1 then Done (JArr (all_results c 0 (td_results res)))
  else
    match (if 0 <=? subtask then td_results res !! Z.to_nat subtask else None) with
    | None => Crash OutOfBounds
    | Some nowtd => Done (JArr [OneTdJSON c nowtd subtask])
    end.

Definition SendResult (c : Compat) (sub : Submission) (res : SubmissionResult) (subtask : Z) : outcome Request :=
  match TdResultsJSON c res subtask with
  | Crash f => Crash f
  | Done results =>
      Done {| is_subscribe := false; is_unique := true; force_pop := false; rq_key := submission_id sub;
              rq_action := "td_result";
              rq_body := JObj [("submission_id", JInt (submission_id sub)); ("results", results)] |}
  end.

Definition SendFinalResult (c : Compat) (sub : Submission) (res : SubmissionResult) : Request :=
  let data := JObj [
    ("submission_id", JInt (submission_id sub));
    ("verdict", JStr (VerdictToAbrCompat c (verdict res)));
    ("score", JInt (total_score res));
    ("total_time", JInt (total_time res));
    ("total_memory", JInt (total_memory res))] in
  let data := if bool_decide (ce_message res = "") then data
              else json_set data "message" (JStr (ce_message res)) in
  let data :=
    if bool_decide (verdict res = CE) || bool_decide (verdict res = CLE) then data
    else if bool_decide (verdict res = JCE) then json_set data "message" (JStr (jce_message res))
    else json_set data "td_results" (JArr (all_results c 0 (td_results res))) in
  {| is_subscribe := false; is_unique := false; force_pop := true; rq_key := submission_id sub;
     rq_action := "submission_result"; rq_body := data |}.

Definition SendStatus (id : Z) (status : string) : Request := {|
  is_subscribe := false; is_unique := false; force_pop := true; rq_key := id;
  rq_action := "submission_result";
  rq_body := JObj [("submission_id", JInt id); ("verdict", JStr status)] |}.

(** [receiving] is [receiving_submission_id]. *)
Definition GetReceivedSubmissionID (receiving : Z) (s : Judge) : list Z :=
  GetQueuedSubmissionID s ++ (if receiving =? -1 then [] else [receiving]).

Definition SendQueuedSubmissions (receiving : Z) (s : Judge) (send_if_empty : bool) : list Request :=
  let ids := GetReceivedSubmissionID receiving s in
  if bool_decide (ids = []) && negb send_if_empty then []
  else [{| is_subscribe := false; is_unique := true; force_pop := false; rq_key := kReportQueuedKey;
           rq_action := "report_queued"; rq_body := JObj [("submission_ids", JArr (JInt <$> ids))] |}].

(** ** The reporter *)

(** What [server_reporter] sends for a callback of the judge. *)
Definition server_reporter (c : Compat) (kMaxQueue : Z) (e : Event) : outcome (list Request) :=
  match e with
  | EvStartCompiling sub => Done [SendStatus (submission_id sub) "Validating"]
  | EvOverallResult sub res => Done [SendFinalResult c sub res]
  | EvScoringResult sub res subtask _ =>
      match SendResult c sub res subtask with Done r => Done [r] | Crash f => Crash f end
  | EvFinalized _ queue_size_before_pop =>
      Done (if queue_size_before_pop =? kMaxQueue then [TryFetchSubmission] else [])
  | _ => Done []
  end.

(** ** The main thread of the server side

    One round of [ServerWorkLoop], every ten seconds: the requests pushed and
    the new [empty_cnt]. *)
Definition server_round (kMaxQueue receiving : Z) (s : Judge) (empty_cnt : Z) : list Request * Z :=
  let queue_size := CurrentSubmissionQueueSize s in
  (SendQueuedSubmissions receiving s (empty_cnt =? 2) ++
   (if queue_size <? kMaxQueue then [TryFetchSubmission] else []),
   if queue_size =? 0 then (if empty_cnt + 1 =? 3 then 0 else empty_cnt + 1) else 0).

(** ** Versions *)

(** [std::stoi]; [None] is an exception. *)
Definition stoi (s : string) : option Z :=
  let '(neg, r) := take_sign (snd (span is_space s)) in
  let ds := fst (span is_digit r) in
  let v := if neg then - digits_value 0 ds else digits_value 0 ds in
  if at_end ds then None
  else if (- 2 ^ 31 <=? v) && (v <? 2 ^ 31) then Some v else None.

(** [s.find('.', from)], as what precedes the point and what is behind it. *)
Definition split_dot (s : string) : option (string * string) :=
  let '(a, r) := span (fun c => negb (is_char "."%char c)) s in
  match r with String _ b => Some (a, b) | EmptyString => None end.

(** The three [stoi] calls: the version numbers set when the last of them
    that succeeds has returned, and whether one threw.  Without a first point,
    [first_dot + 1] is 0, and without a second one the third number is read from
    the whole text. *)
Definition read_version (server_version : string) : (Z * Z * Z) * bool :=
  let '(major_text, rest) :=
    match split_dot server_version with Some p => p | None => (server_version, server_version) end in
  let '(minor_text, patch_text) :=
    match split_dot rest with Some p => p | None => (rest, server_version) end in
  match stoi major_text with
  | None => ((3, 4, 0), true)
  | Some major =>
      match stoi minor_text with
      | None => ((major, 4, 0), true)
      | Some minor =>
          match stoi patch_text with
          | None => ((major, minor, 0), true)
          | Some patch => ((major, minor, patch), false)
          end
      end
  end.

Definition lt2 (a b c d : Z) : bool := (a <? c) || ((a =? c) && (b <? d)).

Definition compat_of (v : Z * Z * Z) : Compat :=
  let '(major, minor, patch) := v in
  {| jce_to_er := lt2 major minor 3 5;
     waiting_to_queued := lt2 major minor 3 5 || ((major =? 3) && (minor =? 5) && (patch <? 3)) |}.

(** ** Incoming messages *)

(** What [OnMessage] does besides clearing the backup queue. *)
Inductive client_effect :=
| Fetch                          (* TryFetchSubmission *)
| Welcome (version : string) (c : Compat) (close : bool)
| StartSubmission (data : json)  (* a thread for OneSubmissionThread *)
| Ignore.

(** [data["message"]["type"]] and the like: [operator[]] on a non-const
    value. *)
Definition json_index (j : json) (key : string) : option json :=
  match j with
  | JObj fields => Some (default JNull (assoc_find key fields))
  | JNull => Some JNull
  | _ => None
  end.

Section Incoming.
Context `{JsonText}.

Definition OnMessage (msg : string) : client_effect :=
  match json_parse msg with
  | None => Ignore
  | Some data =>
      match json_find data "type" with
      | Some (JStr ty) =>
          if bool_decide (ty = "welcome") then
            match json_find data "version" with
            | None => Welcome "3.4.0" (compat_of (3, 4, 0)) false
            | Some (JStr version) =>
                let '(v, failed) := read_version version in Welcome version (compat_of v) failed
            | Some _ => Ignore
            end
          else Ignore
      | Some _ => Ignore
      | None =>
          match json_index data "message" with
          | None => Ignore
          | Some m =>
              match json_index m "type" with
              | Some (JStr ty) =>
                  if bool_decide (ty = "notify") then Fetch
                  else if bool_decide (ty = "submission") then
                    StartSubmission (default JNull (json_index m "data"))
                  else Ignore
              | _ => Ignore
              end
          end
      end
  end.
End Incoming.

Lemma stoi_to_string z : 0 <= z < 2 ^ 31 -> stoi (to_string z) = Some z.
Proof.
  intros Hz. unfold stoi. pose proof (to_string_digits z ltac:(lia)) as Hd.
  pose proof (to_string_nonempty z) as Hn. pose proof (to_string_value z ltac:(lia)) as Hv.
  destruct (to_string z) as [|c s]; [done|].
  assert (Hc : is_digit c = true) by (simpl in Hd; by apply andb_true_iff in Hd as [? _]).
  assert (Hsp : snd (span is_space (String c s)) = String c s).
  { simpl. replace (is_space c) with false; [done|]. symmetry. unfold is_space, is_digit in *.
    apply bool_decide_eq_false. rewrite !elem_of_cons, elem_of_nil.
    apply andb_true_iff in Hc as [?%Z.leb_le ?%Z.leb_le]. lia. }
  rewrite Hsp. unfold take_sign.
  rewrite !bool_decide_false by (intros ->; done).
  assert (Hs : span is_digit (String c s) = (String c s, "")).
  { clear -Hd. induction (String c s) as [|d t IH]; [done|]. simpl in *.
    apply andb_true_iff in Hd as [-> Hd]. by rewrite IH. }
  rewrite Hs. cbn [fst]. rewrite Hv. unfold at_end. rewrite bool_decide_false by done.
  rewrite (proj2 (Z.leb_le _ _)), (proj2 (Z.ltb_lt _ _)) by lia. done.
Qed.
