(* ===== verification/Reporting.v ===== *)
(** * What the server is told

    The callbacks of the judge (src/tioj/submission.cpp) composed with
    [server_reporter] (src/server_io.cpp): every callback the judge makes can
    be turned into requests, and each submission gets one final result. *)

From S2P Require Import Prelude Enums Text Paths CNum Scores Data TaskGraph State Specjudge Push Handlers HandlerFacts Logs WorkLoop LoopInv LoopSafe Scenario LoopSpec ScoringSpec ServerQueue ServerMessages.
From Stdlib Require Import SpecFloat.

(** ** The requests for a sequence of callbacks *)

Fixpoint told (c : Compat) (kMaxQueue : Z) (es : list Event) : outcome (list Request) :=
  match es with
  | [] => Done []
  | e :: es' =>
      match server_reporter c kMaxQueue e, told c kMaxQueue es' with
      | Done r, Done rs => Done (r ++ rs)
      | Crash f, _ | _, Crash f => Crash f
      end
  end.

(** The reporter can only be wrong about a test data that has no result. *)
Definition event_ok (e : Event) : Prop :=
  match e with
  | EvScoringResult _ res subtask _ => 0 <= subtask < Z.of_nat (length (td_results res))
  | _ => True
  end.

(** A final result, as opposed to a status: it has totals. *)
Definition is_final (r : Request) : Prop := json_find (rq_body r) "total_time" <> None.
#[local] Instance is_final_dec r : Decision (is_final r).
Proof. unfold is_final. destruct (json_find (rq_body r) "total_time"); [left|right]; naive_solver. Defined.

Lemma SendFinalResult_final c sub res : is_final (SendFinalResult c sub res).
Proof.
  unfold is_final, SendFinalResult. simpl.
  destruct (bool_decide (ce_message res = "")), (bool_decide (verdict res = CE) || bool_decide (verdict res = CLE)),
    (bool_decide (verdict res = JCE)); simpl; done.
Qed.

Lemma SendResult_ok c sub res i : 0 <= i < Z.of_nat (length (td_results res)) ->
  exists r, SendResult c sub res i = Done r /\ ~ is_final r /\ rq_key r = submission_id sub.
Proof.
  intros Hi. unfold SendResult, TdResultsJSON. rewrite (proj2 (Z.eqb_neq i (-1))) by lia.
  rewrite (proj2 (Z.leb_le 0 i)) by lia.
  destruct (lookup_lt_is_Some_2 (td_results res) (Z.to_nat i)) as [td ->]; [lia|].
  eexists. split; [reflexivity|]. split; [|done]. unfold is_final. simpl. auto.
Qed.

(** The requests for callbacks that are all right: the final results among them are
    those of the overall results reported, in order. *)
Lemma told_ok c kMaxQueue es : Forall event_ok es -> exists rs, told c kMaxQueue es = Done rs /\
  filter is_final rs = (fun '(sub, res) => SendFinalResult c sub res) <$> overall_of es.
Proof.
  induction 1 as [|e es He _ (rs & E & IH)]; [by exists []|]. simpl. rewrite E.
  assert (Hone : exists r, server_reporter c kMaxQueue e = Done r /\
    filter is_final r = (fun '(sub, res) => SendFinalResult c sub res) <$> overall_of [e]).
  { destruct e; simpl; try (by exists []).
    - eexists. split; [reflexivity|]. rewrite filter_cons_False; [done|]. unfold is_final. simpl. auto.
    - eexists. split; [reflexivity|]. by rewrite filter_cons_True by apply SendFinalResult_final.
    - destruct (SendResult_ok c sub res subtask He) as (r & -> & Hr & _). eexists. split; [reflexivity|].
      by rewrite filter_cons_False.
    - eexists. split; [reflexivity|]. destruct (_ =? _); [|done].
      rewrite filter_cons_False; [done|]. unfold is_final. simpl. auto. }
  destruct Hone as (r & -> & Hr). eexists. split; [reflexivity|].
  rewrite filter_app, IH, Hr, <- fmap_app. f_equal. symmetry. apply (overall_of_app [e] es).
Qed.

(** ** The handlers *)

Section Handlers.
Context `{PathRoots} `{Config} `{JsonText} (env : Env).

Lemma copy_headers_ok box l : Forall event_ok (concat (map (copy_header box) l)).
Proof. induction l as [|[parent name] l IH]; [done|]. simpl. by repeat constructor. Qed.

Lemma SetupCompile_logs key task : logs event_ok (SetupCompile env key task).
Proof. unfold SetupCompile. step_logs; apply logs_emit, copy_headers_ok. Qed.

Lemma FinalizeCompile_logs key task res : logs event_ok (FinalizeCompile env key task res).
Proof. unfold FinalizeCompile. cbv zeta. step_logs. Qed.

Lemma SetupExecute_logs key task : logs event_ok (SetupExecute env key task).
Proof. unfold SetupExecute, deref. cbv zeta. step_logs. Qed.

Lemma FinalizeExecute_logs key task res : logs event_ok (FinalizeExecute env key task res).
Proof. unfold FinalizeExecute. cbv zeta. step_logs. Qed.

Lemma SetupSummary_logs key task : logs event_ok (SetupSummary env key task).
Proof. unfold SetupSummary. cbv zeta. step_logs. Qed.

Lemma FinalizeSummary_logs key task res skipped : logs event_ok (FinalizeSummary env key task res skipped).
Proof. unfold FinalizeSummary. cbv zeta. step_logs. Qed.

Definition crashes {A} (m : M A) : Prop := forall s, exists f, m s = Crash f.

Lemma crashes_bind {A B} (m : M A) (k : A -> M B) : (forall a, crashes (k a)) -> crashes (m ≫= k).
Proof.
  intros Hk s. unfold mbind, M_bind. destruct (m s) as [[a s1]|f]; [apply Hk|by exists f].
Qed.

Lemma crashes_bind_l {A B} (m : M A) (k : A -> M B) : crashes m -> crashes (m ≫= k).
Proof. intros Hm s. destruct (Hm s) as [f E]. exists f. unfold mbind, M_bind. by rewrite E. Qed.

Lemma crashes_vec_at {A} (l : list A) i : ~ 0 <= i < Z.of_nat (length l) -> crashes (vec_at l i).
Proof.
  intros Hi s. exists OutOfBounds. unfold vec_at. destruct (Z.leb_spec 0 i); [|done].
  rewrite lookup_ge_None_2 by lia. done.
Qed.

(** The scoring handler reports a test data that it has just read. *)
Lemma FinalizeScoring_logs key task res skipped : logs event_ok (FinalizeScoring env key task res skipped).
Proof.
  intros s. destruct (submission_list s !! key) as [sr|] eqn:Hsr.
  2: { unfold FinalizeScoring, get_sub, mbind, M_bind, get. rewrite Hsr. done. }
  destruct (decide (0 <= tk_subtask task < Z.of_nat (length (td_results (sr_result sr))))) as [Htd|Htd].
  2: { unfold FinalizeScoring. unfold mbind at 1, M_bind at 1. rewrite (get_sub_run key s sr Hsr). cbv zeta.
       unfold mbind at 1, M_bind at 1. unfold get_td, get_res, mbind at 1, M_bind at 1.
       unfold mbind at 1, M_bind at 1. rewrite (get_sub_run key s sr Hsr). unfold mret, M_ret.
       by destruct (crashes_vec_at _ _ Htd s) as [f ->]. }
  destruct (decide (0 <= tk_subtask task < Z.of_nat (length (testdata (sr_sub sr))))) as [Hit|Hit].
  2: { unfold FinalizeScoring. unfold mbind at 1, M_bind at 1. rewrite (get_sub_run key s sr Hsr). cbv zeta.
       match goal with |- match ?m s with _ => _ end => assert (Hm : crashes m) end.
       { apply crashes_bind. intros td. destruct (if skipped then _ else _) as [td1 evs].
         do 2 (apply crashes_bind; intros ?). by apply crashes_bind_l, crashes_vec_at. }
       by destruct (Hm s) as [f ->]. }
  destruct (lookup_lt_is_Some_2 (td_results (sr_result sr)) (Z.to_nat (tk_subtask task))) as [td Etd]; [lia|].
  destruct (lookup_lt_is_Some_2 (testdata (sr_sub sr)) (Z.to_nat (tk_subtask task))) as [item Eit]; [lia|].
  rewrite (FinalizeScoring_run env s key sr task res skipped td item Hsr (proj1 Htd) Etd Eit).
  eexists. split; [simpl; by case_match|].
  apply Forall_app. split.
  - unfold scored_td. destruct skipped; [done|]. unfold ReadSpecjudgeResult, ReadKattisSpecjudgeResult.
    repeat case_match; simplify_eq; by repeat constructor.
  - unfold scoring_events. rewrite !Forall_app. split_and!; repeat case_match; repeat constructor; simpl;
      rewrite ?length_insert; lia.
Qed.

Lemma SetupScoring_logs key task : logs event_ok (SetupScoring env key task).
Proof. unfold SetupScoring. cbv zeta. pose proof FinalizeScoring_logs. step_logs. Qed.

Lemma FinalizeTask_logs tid res skipped : logs event_ok (FinalizeTask env tid res skipped).
Proof.
  unfold FinalizeTask. cbv zeta. pose proof FinalizeScoring_logs. pose proof FinalizeCompile_logs.
  pose proof FinalizeExecute_logs. pose proof FinalizeSummary_logs. step_logs.
Qed.

Lemma DispatchTask_logs handle tid : logs event_ok (DispatchTask env handle tid).
Proof.
  unfold DispatchTask, SetupTask. cbv zeta. pose proof FinalizeTask_logs. pose proof SetupCompile_logs.
  pose proof SetupExecute_logs. pose proof SetupScoring_logs. pose proof SetupSummary_logs. step_logs.
Qed.

Lemma WaitTask_logs handle : logs event_ok (WaitTask handle).
Proof. unfold WaitTask. step_logs. Qed.
End Handlers.

(** ** Runs of the loop *)

Section Loop.
Context `{PathRoots} `{Config} `{JsonText} (kMaxParallel : Z) (Hpar : 0 < kMaxParallel).

(** What one step, and a run, of the loop's own thread adds to the trace. *)
Definition adds (l l' : Loop) : Prop :=
  exists es, trace (lp_judge l') = trace (lp_judge l) ++ es /\ Forall event_ok es.

Lemma run_adds {A} (m : M A) l f p l' : logs event_ok m -> WorkLoop.run m l f p = Done l' -> adds l l'.
Proof.
  intros Hm. unfold WorkLoop.run. specialize (Hm (lp_judge l)). destruct (m (lp_judge l)) as [[a s]|]; [|done].
  intros [= <-]. exact Hm.
Qed.

Lemma own_step_adds l a l' : is_push a = false -> perform l a = Done l' -> adds l l'.
Proof.
  destruct a; try done; intros _; simpl.
  1-3: intros [= <-]; exists []; by rewrite app_nil_r.
  - apply run_adds. pose proof DispatchTask_logs. unfold pop_task. step_logs.
  - apply run_adds. pose proof FinalizeTask_logs. pose proof WaitTask_logs. step_logs.
Qed.

Lemma own_steps_adds n l l' : own_steps kMaxParallel n l l' -> adds l l'.
Proof.
  induction 1 as [l|n l a l' l'' Ha _ Hp _ IH]; [exists []; by rewrite app_nil_r|].
  destruct (own_step_adds l a l' Ha Hp) as (es & E & He), IH as (es' & E' & He'). exists (es ++ es').
  rewrite E', E, (assoc_L (++)). split; [done|]. by apply Forall_app.
Qed.

(** C5: The judge and the reporter together. From a reachable state, let the loop's
    thread run until no task is left, with whatever the sandbox and the file
    system answer. Then every callback can be turned into requests (no test data
    without a result is reported), and the final results among the requests are
    one for each submission that was pending, was not cancelled and asks for
    it, addressed to its submission id, with the verdict and totals the judge
    reported. *)
Theorem server_told n l l' c kMaxQueue :
  reachable kMaxParallel l -> own_steps kMaxParallel n l l' -> task_list (graph (lp_judge l')) = ∅ ->
  exists es requests,
    trace (lp_judge l') = trace (lp_judge l) ++ es /\
    told c kMaxQueue es = Done requests /\
    filter is_final requests = (fun '(sub, res) => SendFinalResult c sub res) <$> overall_of es /\
    rq_key <$> filter is_final requests ≡ₚ submission_id <$> pending_reports (lp_judge l).
Proof using Hpar.
  intros Hr Hs Ht. pose proof (reachable_inv kMaxParallel Hpar l Hr) as Hl.
  destruct (own_steps_adds n l l' Hs) as (es & E & Hes).
  destruct (told_ok c kMaxQueue es Hes) as (rs & Ers & Hf). exists es, rs. split_and!; [done..|].
  destruct (own_steps_reports kMaxParallel Hpar n l l' Hl Hs) as (os & Ho & Hp).
  rewrite E, overall_of_app in Ho. apply app_inv_head in Ho. subst os.
  pose proof (own_steps_inv kMaxParallel Hpar n l l' Hl Hs) as Hl'.
  destruct (no_tasks_rest kMaxParallel l' Hl' Ht) as [He _].
  assert (Hnone : pending_reports (lp_judge l') = []).
  { unfold pending_reports. by rewrite He, fmap_empty, map_to_list_empty. }
  rewrite Hnone, app_nil_r in Hp. rewrite Hp, Hf, <- !list_fmap_compose. apply Permutation_refl'.
  apply list_fmap_ext. by intros ? [sub res] _.
Qed.
End Loop.

(** The single submission of [whole_run]. *)
#[local] Existing Instance sample_roots.
#[local] Existing Instance sample_config.
#[local] Existing Instance sample_json.

Lemma server_told_witness : exists es requests,
  trace (lp_judge (after 4 whole_run)) = trace (lp_judge (after 4 start_actions)) ++ es /\
  told initial_compat 20 es = Done requests /\ rq_key <$> filter is_final requests ≡ₚ [100].
Proof.
  destruct (server_told 4 ltac:(lia) (length (drop 2 whole_run)) (after 4 start_actions) (after 4 whole_run) initial_compat 20)
    as (es & requests & E1 & E2 & _ & E4).
  - apply after_reachable.
  - apply run_actions_own_steps; vm_compute; reflexivity.
  - vm_compute. reflexivity.
  - exists es, requests. split_and!; [exact E1|exact E2|]. exact E4.
Defined.
