(* ===== verification/Effects.v ===== *)
(** * The judge on a disk

    The handlers of src/tioj/submission.cpp log the file operations they make
    ([Data.Event]) and read the file system through [Data.Env].  Here both are
    interpreted on a disk of [FileOps]: [apply_events] performs the operations,
    [env_of] answers the questions, and [machine_step] is the work loop together
    with the disk, the sandboxed programs and everything else that writes to it.

    A handler asks about a path before it changes it, so that one answer per handler is
    enough.  The exception is [SJ_SKIP]: [SetupScoring] has moved the output when
    [FinalizeScoring] asks for it, but there the all-zero [cjail_result] decides
    already, whatever the answer. *)

From S2P Require Import Prelude Enums Text Paths CNum Scores Data FileOps TaskGraph State Handlers WorkLoop.

(** ** Operations *)

(** [box / ""] ends in a slash and names the same directory. *)
Fixpoint trim_slash (p : string) : string :=
  match p with
  | EmptyString => ""
  | String c p' => if bool_decide (p' = "") && bool_decide (c = "/"%char) then "" else String c (trim_slash p')
  end.

(** The results of the operations are not looked at, but [fs::permissions]
    throws. *)
Definition event_effect (f : Faults) (e : Event) (d : Disk) : outcome Disk :=
  match e with
  | EvCreateDirs p perms => Done (CreateDirs f (trim_slash p) perms d).2
  | EvCopy from to perms => Done (Copy f from to perms d).2
  | EvMove from to perms => Done (Move f from to perms d).2
  | EvRemoveAll p => Done (RemoveAll f p d).2
  | EvMountTmpfs p size => Done (MountTmpfs f p size d).2
  | EvUmount p => Done (Umount f p d).2
  | EvPermissions p perms =>
      match fs_permissions f p perms d with
      | (None, d') => Done d'
      | (Some _, _) => Crash FilesystemError
      end
  | EvChownRoot p => Done (sys_chown f p d).2
  | EvWrite p contents => Done (WriteFile f p contents d)
  | _ => Done d
  end.

(** [f i] is what fails in the [i]-th of the operations. *)
Fixpoint apply_events (f : nat -> Faults) (es : list Event) (d : Disk) : outcome Disk :=
  match es with
  | [] => Done d
  | e :: es' =>
      match event_effect (f O) e d with
      | Done d' => apply_events (fun i => f (S i)) es' d'
      | Crash x => Crash x
      end
  end.

(** ** Questions *)

(** [IsRegularFileNoFollow]. *)
Definition IsRegularFileNoFollow (d : Disk) (p : string) : bool :=
  match files d !! p with Some {| nd_kind := Regular _ |} => true | _ => false end.

Definition exists_on (d : Disk) (p : string) : bool :=
  match node_at d p with Some _ => true | None => false end.

Definition file_size_on (d : Disk) (p : string) : option Z :=
  match node_at d p with
  | Some {| nd_kind := Regular c |} => Some (Z.of_nat (String.length c))
  | _ => None
  end.

(** A directory can be opened, too, but nothing can be read. *)
Definition read_on (d : Disk) (p : string) : option string :=
  match node_at d p with
  | Some {| nd_kind := Regular c |} => Some c
  | Some _ => Some ""
  | None => None
  end.

(** [headers] are the files the iteration over judge-headers finds. *)
Definition env_of (headers : list (string * string)) (d : Disk) : Env := {|
  env_is_regular := IsRegularFileNoFollow d;
  env_exists := exists_on d;
  env_file_size := file_size_on d;
  env_read := read_on d;
  env_header_files := headers;
|}.

(** An operation of the judge on a disk. *)
Definition on_disk {A} (m : Env -> M A) (headers : list (string * string)) (f : nat -> Faults)
    (s : Judge) (d : Disk) : outcome (A * Judge * Disk) :=
  match m (env_of headers d) s with
  | Crash x => Crash x
  | Done (a, s') =>
      match apply_events f (drop (length (trace s)) (trace s')) d with
      | Crash x => Crash x
      | Done d' => Done (a, s', d')
      end
  end.

(** ** The whole machine *)

Record Machine := { mc_loop : Loop; mc_disk : Disk }.

(** The sandbox of a task. *)
Definition task_box (id : Z) (task : Task) : Box :=
  match tk_type task with
  | COMPILE =>
      BoxCompile id (match CompileSubtask_of_Z (tk_subtask task) with Some c => c | None => USERPROG end)
  | EXECUTE => BoxExecute id (tk_subtask task) (tk_stage task)
  | SCORING => BoxScoring id (tk_subtask task) (tk_stage task)
  | SUMMARY => BoxSummary id
  end.

(** The task of an entry, with the internal id of its submission. *)
Definition entry_task (s : Judge) (tid : Z) : option (Z * Task) :=
  e ← task_list (graph s) !! tid; Some (te_submission_internal_id e, te_task e).

Definition running_task (s : Judge) (handle : Z) : option (Z * Task) :=
  handle_map s !! handle ≫= entry_task s.

Section Programs.
Context `{PathRoots}.

(** Where the program of a box can write: inside its working directory, and a
    special judge in its directory for temporary files, too. The box itself, and with
    it the names of these directories, belongs to root. *)
Definition work_area (b : Box) (q : string) : bool :=
  strictly_below (Workdir (box_path b)) q ||
  match b with
  | BoxScoring id td stage => strictly_below (ScoringBoxTempdir id td stage false) q
  | _ => false
  end.

(** In the strict sandbox, the file the process of [SpliceProcess] copies the
    output to. *)
Definition spliced_output (b : Box) (q : string) : bool :=
  match b with
  | BoxExecute id td stage => bool_decide (q = ExecuteBoxOutput id td stage true false)
  | _ => false
  end.

Definition is_regular (d : Disk) (q : string) : Prop := exists n c, files d !! q = Some n /\ nd_kind n = Regular c.

(** What a sandboxed program, and the processes that serve it, can do to the
    disk. *)
Record program_effect (b : Box) (d d' : Disk) : Prop := {
  pe_files : forall q, work_area b q = false -> spliced_output b q = false -> files d' !! q = files d !! q;
  pe_output : forall q, spliced_output b q = true -> files d' !! q = files d !! q \/ is_regular d' q;
  pe_mounts : mounts d' = mounts d;
}.
End Programs.

(** What the judge does, the headers it finds and what fails in its file
    operations; a sandboxed program; everything else. *)
Inductive mlabel :=
| LJudge (a : action) (headers : list (string * string)) (f : nat -> Faults)
| LProgram (handle : Z)      (* the sandboxed program of a running task *)
| LOther.                    (* other threads and programs *)

Definition action_env (a : action) : option Env :=
  match a with Dispatch env _ _ | Finish env _ _ => Some env | _ => None end.

Section Machine.
Context `{PathRoots} `{Config} `{JsonText} (kMaxParallel : Z).

(** Everything else changes only what is outside the directory of boxes. *)
Inductive machine_step (m : Machine) : mlabel -> Machine -> Prop :=
| judge_step a headers f l' d' :
    enabled kMaxParallel (mc_loop m) a ->
    (forall env, action_env a = Some env -> env = env_of headers (mc_disk m)) ->
    perform (mc_loop m) a = Done l' ->
    apply_events f (drop (length (trace (lp_judge (mc_loop m)))) (trace (lp_judge l'))) (mc_disk m) = Done d' ->
    machine_step m (LJudge a headers f) {| mc_loop := l'; mc_disk := d' |}
| program_step handle id task d' :
    running_task (lp_judge (mc_loop m)) handle = Some (id, task) ->
    program_effect (task_box id task) (mc_disk m) d' ->
    machine_step m (LProgram handle) {| mc_loop := mc_loop m; mc_disk := d' |}
| other_step d' :
    (forall q, below kBoxRoot q = true -> files d' !! q = files (mc_disk m) !! q) ->
    mounts d' = mounts (mc_disk m) ->
    machine_step m LOther {| mc_loop := mc_loop m; mc_disk := d' |}.
End Machine.
