(* ===== verification/EffectsSpec.v ===== *)
(** * Every operation of the judge stays in the directories of its task

    Which directories a task's operations change, and that nothing else changes
    as long as they follow no link; what that means for runs of the machine. *)

From S2P Require Import Prelude Enums Text Paths CNum Scores Data FileOps FilesSpec TaskGraph State Logs Specjudge Handlers HandlerFacts ScoringSpec WorkLoop Effects.

(** ** The directories of a task *)

Section Regions.
Context `{PathRoots}.

(** The trees a task's operations may change: its own box; those of an execution
    or a scoring also the box of the stage before; a scoring the output of
    its execution; the summary everything of the submission. *)
Definition task_dirs (id : Z) (task : Task) : list string :=
  let td := tk_subtask task in
  let stage := tk_stage task in
  match tk_type task with
  | COMPILE => match CompileSubtask_of_Z td with Some c => [CompileBoxPath id c] | None => [] end
  | EXECUTE => ExecuteBoxPath id td stage :: (if 0 <? stage then [ExecuteBoxPath id td (stage - 1)] else [])
  | SCORING =>
      ScoringBoxPath id td stage :: ExecuteBoxPath id td stage ::
      (if 0 <? stage then [ScoringBoxPath id td (stage - 1)] else [])
  | SUMMARY => [SubmissionRunPath id; SubmissionCodePath id]
  end.

Definition region (ps : list string) (q : string) : bool := existsb (fun p => below p q) ps.

Lemma region_closed ps : closed (region ps).
Proof.
  intros p q. unfold region. rewrite !existsb_exists. intros (r & Hr & Hp) Hq. exists r. split; [done|].
  by eapply below_trans.
Qed.

Lemma region_in ps p q : p ∈ ps -> below p q = true -> region ps q = true.
Proof. intros Hp Hq. unfold region. apply existsb_exists. exists p. by rewrite <- list_elem_of_In. Qed.

(** ** What an operation changes *)

Definition targets (e : Event) : list string :=
  match e with
  | EvCreateDirs p _ => [trim_slash p]
  | EvCopy _ to _ => [to]
  | EvMove from to _ => [from; to]
  | EvRemoveAll p | EvMountTmpfs p _ | EvUmount p | EvPermissions p _ | EvChownRoot p | EvWrite p _ => [p]
  | _ => []
  end.

Definition within (R : string -> bool) (e : Event) : Prop := Forall (fun p => R p = true) (targets e).

Lemma within_mono R R' e : (forall q, R q = true -> R' q = true) -> within R e -> within R' e.
Proof. unfold within. rewrite !Forall_forall. auto. Qed.

(** What the operation changes it does not change through a link: the paths it writes
    to, makes a directory at, mounts at or gives permissions or an owner are no
    links.  The sources of copies may be. *)
Definition event_safe (d : Disk) (e : Event) : Prop :=
  match e with
  | EvCreateDirs p _ => plain d (trim_slash p)
  | EvCopy _ to _ => plain d to
  | EvMove from to perms => plain d to /\ (perms <> None -> plain d from)
  | EvMountTmpfs p _ | EvUmount p | EvPermissions p _ | EvChownRoot p | EvWrite p _ => plain d p
  | _ => True
  end.

Fixpoint events_safe (f : nat -> Faults) (es : list Event) (d : Disk) : Prop :=
  match es with
  | [] => True
  | e :: es' =>
      event_safe d e /\ forall d', event_effect (f O) e d = Done d' -> events_safe (fun i => f (S i)) es' d'
  end.

Lemma event_local R f e d d' : closed R -> within R e -> event_safe d e -> event_effect f e d = Done d' ->
  same_outside R d d'.
Proof.
  intros Hc Hw Hs. unfold within in Hw. destruct e; simpl in *; repeat (apply Forall_cons in Hw as [? Hw]);
    try (intros [= <-]; reflexivity); try (intros [= <-]).
  - by apply CreateDirs_local.
  - by apply Copy_local.
  - destruct Hs. by apply Move_local.
  - by apply RemoveAll_local.
  - by apply MountTmpfs_local.
  - by apply Umount_local.
  - intros E. match goal with Hp : R ?p = true |- _ => pose proof (fs_permissions_local f R Hc p perms d Hp Hs) as Hl end.
    destruct (fs_permissions f path perms d) as [[e|] d1]; [done|]. by injection E as <-.
  - by apply sys_chown_local.
  - by apply WriteFile_local.
Qed.

Lemma events_local R f es d d' : closed R -> Forall (within R) es -> events_safe f es d ->
  apply_events f es d = Done d' -> same_outside R d d'.
Proof.
  intros Hc. revert f d. induction es as [|e es IH]; intros f d Hw Hs; [by intros [= <-]|].
  apply Forall_cons in Hw as [Hw Hws]. destruct Hs as [Hs Hss]. cbn [apply_events].
  destruct (event_effect (f O) e d) as [d1|x] eqn:E; [|done]. intros E'. etrans.
  - by eapply (event_local R).
  - by eapply (IH (fun i => f (S i)) d1); [|apply Hss|].
Qed.

(** Operations in a region without links follow none. *)
Lemma event_no_links R f e d d' : closed R -> within R e -> no_links R d -> event_effect f e d = Done d' ->
  no_links R d'.
Proof.
  intros Hc Hw Hn. unfold within in Hw. destruct e; simpl in *; repeat (apply Forall_cons in Hw as [? Hw]);
    try (intros [= <-]; done).
  - intros [= <-]. unfold CreateDirs. pose proof (fs_create_directories_no_links f R (trim_slash path) d Hn) as Hd.
    destruct (fs_create_directories f (trim_slash path) d) as [[e|] d1]; [done|]. by apply finish_permissions_no_links.
  - intros [= <-]. unfold Copy. pose proof (fs_copy_file_no_links f R from to d ltac:(done) Hn) as Hd.
    destruct (fs_copy_file f from to d) as [[e|] d1]; [done|]. by apply finish_permissions_no_links.
  - intros [= <-]. unfold Move. pose proof (fs_rename_no_links f R Hc from to d ltac:(done) ltac:(done) Hn) as Hd.
    destruct (fs_rename f from to d) as [[e|] d1]; [|by apply finish_permissions_no_links].
    destruct (negb (e =? EXDEV)); [done|]. simpl in Hd.
    pose proof (fs_copy_file_no_links f R from to d1 ltac:(done) Hd) as Hd2.
    destruct (fs_copy_file f from to d1) as [[e2|] d2]; [done|].
    pose proof (fs_remove_no_links f R from d2 Hd2) as Hd3. destruct (fs_remove f from d2) as [x d3].
    by apply finish_permissions_no_links.
  - intros [= <-]. unfold RemoveAll. pose proof (fs_remove_all_no_links f R path d Hn) as Hd.
    by destruct (fs_remove_all f path d) as [[]].
  - intros [= <-]. unfold MountTmpfs.
    pose proof (fun o => sys_mount_no_links f R path o d ltac:(done) Hn) as Hd.
    match goal with |- context [sys_mount f path ?o d] => specialize (Hd o); by destruct (sys_mount f path o d) as [[]] end.
  - intros [= <-]. unfold Umount. pose proof (sys_umount_no_links f R path d ltac:(done) Hn) as Hd.
    by destruct (sys_umount f path d) as [[]].
  - pose proof (fs_permissions_no_links f R path perms d ltac:(done) Hn) as Hd.
    destruct (fs_permissions f path perms d) as [[] d1]; [done|]. by intros [= <-].
  - intros [= <-]. by apply sys_chown_no_links.
  - intros [= <-]. unfold WriteFile. destruct (write_error f); [done|]. by apply put_contents_no_links.
Qed.

Lemma no_links_safe R e d : within R e -> no_links R d -> event_safe d e.
Proof.
  unfold within. intros Hw Hn. destruct e; simpl in *; repeat (apply Forall_cons in Hw as [? Hw]);
    try done; try (by apply Hn). split; [by apply Hn|intros _; by apply Hn].
Qed.

Lemma no_links_events R f es d : closed R -> Forall (within R) es -> no_links R d -> events_safe f es d.
Proof.
  intros Hc Hw. revert f d. induction Hw as [|e es He _ IH]; intros f d Hn; [done|].
  split; [by eapply no_links_safe|]. intros d' E. apply IH. by eapply event_no_links.
Qed.

(** ** Paths below a directory *)

Lemma below_append p q : is_absolute q = false -> has_filename p = true -> below p (p // q) = true.
Proof.
  intros Hq Hp. rewrite path_append_rel by done. apply below_spec. exists ("/" +:+ q). split; [done|].
  right. by exists q.
Qed.

Lemma below_component p s : component s -> has_filename p = true -> below p (p // s) = true.
Proof. intros [_ Hs]. apply below_append. by apply is_absolute_no_slash. Qed.

Lemma workdir_has_filename p : has_filename (Workdir p) = true.
Proof.
  unfold Workdir. destruct (component_append p kWorkdirRelative) as (p' & -> & _); [done|].
  by apply component_has_filename.
Qed.

Lemma below_workdir p : has_filename p = true -> below p (Workdir p) = true.
Proof. by apply below_component. Qed.

Lemma below_in_workdir p s : component s -> has_filename p = true -> below p (Workdir p // s) = true.
Proof.
  intros Hs Hp. apply (below_trans _ (Workdir p)); [by apply below_workdir|].
  apply below_component; [done|]. apply workdir_has_filename.
Qed.

Lemma trim_slash_filename p : has_filename p = true -> trim_slash p = p.
Proof.
  induction p as [|c p IH]; [done|]. simpl. destruct p as [|c' p].
  - intros Hc. apply negb_true_iff in Hc. by rewrite Hc.
  - intros Hp. rewrite (bool_decide_false (String c' p = "")) by done. simpl andb. by rewrite IH.
Qed.

Lemma trim_slash_app p c q : trim_slash (p +:+ String c q) = p +:+ trim_slash (String c q).
Proof.
  induction p as [|x p IH]; [done|]. rewrite !string_app_cons. cbn [trim_slash].
  rewrite (bool_decide_false (p +:+ String c q = "")) by (by destruct p). simpl andb. by rewrite IH.
Qed.

Lemma below_trim p q : has_filename p = true -> below p q = true -> below p (trim_slash q) = true.
Proof.
  intros Hp Hq. apply below_spec in Hq as (t & -> & [->|[r ->]]).
  - rewrite string_app_nil_r, trim_slash_filename by done. apply below_refl.
  - change ("/" +:+ r) with (String "/" r). rewrite trim_slash_app. apply below_spec. eexists. split; [done|].
    cbn [trim_slash]. destruct (bool_decide (r = "")); [by left|]. simpl. right. by exists (trim_slash r).
Qed.

Lemma box_below_run b : box_valid b -> below (SubmissionRunPath (box_id b)) (box_path b) = true.
Proof.
  intros Hb. rewrite box_path_name. apply below_component; [by apply box_name_component|].
  unfold SubmissionRunPath. destruct (component_append kBoxRoot (PadInt (box_id b) 6)) as (p' & -> & _).
  - apply component_PadInt. by apply box_valid_id.
  - apply component_has_filename, component_PadInt. by apply box_valid_id.
Qed.
End Regions.

(** ** The handlers *)

Definition logs_at {A} (P : Event -> Prop) (s : Judge) (m : M A) : Prop :=
  match m s with
  | Done (_, s') => exists es, trace s' = trace s ++ es /\ Forall P es
  | Crash _ => True
  end.

Lemma logs_logs_at {A} P s (m : M A) : logs P m -> logs_at P s m.
Proof. intros Hm. apply Hm. Qed.

Lemma logs_at_mono {A} (P Q : Event -> Prop) s (m : M A) : (forall e, P e -> Q e) -> logs_at P s m -> logs_at Q s m.
Proof.
  intros Hpq. unfold logs_at. destruct (m s) as [[a s']|]; [|done]. intros (es & E & He). exists es.
  split; [done|]. by eapply Forall_impl.
Qed.

Lemma logs_at_get_sub {B} P s key sr (k : SubmissionAndResult -> M B) : submission_list s !! key = Some sr ->
  logs_at P s (k sr) -> logs_at P s (get_sub key ≫= k).
Proof. intros Hsr. unfold logs_at, mbind, M_bind. by rewrite (get_sub_run key s sr Hsr). Qed.

Lemma logs_at_pure {A B} P s (m : M A) (k : A -> M B) : (forall a s', m s = Done (a, s') -> s' = s) ->
  (forall a, logs_at P s (k a)) -> logs_at P s (m ≫= k).
Proof.
  intros Hm Hk. unfold logs_at, mbind, M_bind. destruct (m s) as [[a s']|] eqn:E; [|done].
  rewrite (Hm a s' eq_refl). apply Hk.
Qed.

Lemma logs_at_emit {B} P s es (k : unit -> M B) : Forall P es -> logs_at P (add_events es s) (k tt) ->
  logs_at P s (emit es ≫= k).
Proof.
  unfold logs_at, mbind, M_bind, emit, modify. intros He. destruct (k tt (add_events es s)) as [[b s']|]; [|done].
  intros (es' & E & Hf). exists (es ++ es'). rewrite E, (assoc_L (++)). split; [done|]. by apply Forall_app.
Qed.

Lemma vec_at_pure {A} (l : list A) i s a s' : vec_at l i s = Done (a, s') -> s' = s.
Proof. unfold vec_at. destruct (0 <=? i); [|done]. destruct (l !! _); [|done]. by intros [= _ <-]. Qed.

Section Within.
Context `{PathRoots} `{Config} `{JsonText} (env : Env).

(** What the iteration over the headers yields are relative paths. *)
Definition headers_ok (l : list (string * string)) : Prop :=
  Forall (fun h => is_absolute h.1 = false /\ component h.2) l.

Definition task_ok (id : Z) (task : Task) : Prop := 0 <= id /\ 0 <= tk_subtask task /\ 0 <= tk_stage task.

Definition own (id : Z) (task : Task) : Event -> Prop := within (region (task_dirs id task)).

Lemma own_path id task b q : b ∈ task_dirs id task -> below b q = true -> region (task_dirs id task) q = true.
Proof. apply region_in. Qed.

Lemma box_filename b : box_valid b -> has_filename (box_path b) = true.
Proof. apply box_path_has_filename. Qed.

Lemma run_filename id : 0 <= id -> has_filename (SubmissionRunPath id) = true.
Proof.
  intros Hid. unfold SubmissionRunPath. destruct (component_append kBoxRoot (PadInt id 6)) as (p' & -> & _);
    auto with paths.
Qed.

(** The forms the targets have: the box, a name in it, a name in a directory of it. *)
Definition box_form (b : Box) (q : string) : Prop :=
  q = box_path b \/ (exists d, component d /\ q = box_path b // d) \/
  (exists d s, component d /\ component s /\ q = (box_path b // d) // s).

Lemma box_form_below b q : box_valid b -> box_form b q -> below (box_path b) q = true.
Proof.
  intros Hv Hq. pose proof (box_filename b Hv) as Hf. destruct Hq as [->|[(d & Hd & ->)|(d & s & Hd & Hs & ->)]].
  - apply below_refl.
  - by apply below_component.
  - apply (below_trans _ (box_path b // d)); [by apply below_component|]. apply below_component; [done|].
    destruct (component_append (box_path b) d) as (p' & -> & _); [done|]. by apply component_has_filename.
Qed.

Lemma in_box ps b q : box_path b ∈ ps -> box_valid b -> box_form b q -> region ps q = true.
Proof. intros Hb Hv Hq. apply (region_in ps (box_path b)); [done|by apply box_form_below]. Qed.

Lemma in_box_trim ps b q : box_path b ∈ ps -> box_valid b -> box_form b q -> region ps (trim_slash q) = true.
Proof.
  intros Hb Hv Hq. apply (region_in ps (box_path b)); [done|]. apply below_trim; [by apply box_filename|by apply box_form_below].
Qed.
End Within.

#[export] Hint Resolve component_code_name component_result_name component_extension component_prog_extension : paths.

Ltac comp := solve [done | auto with paths | by apply component_extension | by apply component_prog_extension].

(** A path of the box [b]. *)
Ltac in_box_of b :=
  first [apply (in_box_trim _ b) | apply (in_box _ b)];
  [ | | first [ left; reflexivity
              | right; left; eexists; split; [|reflexivity]; comp
              | right; right; eexists _, _; split_and!; [| |reflexivity]; comp ] ].

Ltac own_events := repeat first [apply Forall_cons_2 | apply Forall_nil_2]; unfold within; cbn [targets];
  repeat first [apply Forall_cons_2 | apply Forall_nil_2].

(** Membership, validity and the remaining events of a handler. *)
Ltac own_dirs := unfold own, task_dirs; match goal with Ht : tk_type _ = _ |- _ => rewrite Ht end.
Ltac own_side := first [ by repeat first [left | right] | simpl; lia ].
Ltac own_box b := own_events; in_box_of b; own_side.
Ltac own_boxes b b' := own_events; first [in_box_of b; own_side | in_box_of b'; own_side].

Section Handlers.
Context `{PathRoots} `{Config} `{JsonText} (env : Env).

Lemma interlib_component problem : 0 <= problem -> component (InterlibName problem).
Proof.
  intros Hp. unfold InterlibName. apply (component_app "lib"); [done|]. split.
  - destruct (component_PadInt problem 4 Hp) as [Hn _]. by destruct (PadInt problem 4).
  - rewrite string_forall_app. destruct (component_PadInt problem 4 Hp) as [_ ->]. done.
Qed.

Lemma copy_headers_within ps b l : box_path b ∈ ps -> box_valid b -> headers_ok l ->
  Forall (within (region ps)) (concat (map (copy_header (Workdir (box_path b))) l)).
Proof.
  intros Hb Hv. assert (Hw : below (box_path b) (Workdir (box_path b)) = true) by (apply below_workdir, box_filename, Hv).
  assert (Hf := workdir_has_filename (box_path b)).
  induction 1 as [|[parent name] l [Hp Hn] _ IH]; [done|]. simpl in *.
  assert (Hpar : below (box_path b) (Workdir (box_path b) // parent) = true)
    by (eapply below_trans; [exact Hw|by apply below_append]).
  assert (Hlast : below (box_path b) ((Workdir (box_path b) // parent) // name) = true).
  { destruct (has_filename (Workdir (box_path b) // parent)) eqn:E.
    - eapply below_trans; [exact Hpar|]. by apply below_component.
    - unfold path_append at 1. rewrite is_absolute_no_slash by apply Hn. rewrite E.
      apply below_spec in Hpar as (t & Et & Ht). rewrite Et. apply below_spec. exists (t +:+ name).
      rewrite string_app_assoc. split; [done|]. destruct Ht as [->|[r ->]].
      + rewrite string_app_nil_r in Et. rewrite Et, box_filename in E by done. done.
      + right. exists (r +:+ name). by rewrite string_app_assoc. }
  constructor; [|constructor; [|done]]; constructor; [|done| |done].
  - apply (region_in ps (box_path b)); [done|]. apply below_trim; [by apply box_filename|done].
  - by apply (region_in ps (box_path b)).
Qed.

Lemma logs_or_crash_bind {A B} P (a : A) f (k : A -> M B) : logs P (k a) -> logs P (or_crash (Some a) f ≫= k).
Proof. done. Qed.

Lemma SetupCompile_within s key sr task c : submission_list s !! key = Some sr ->
  tk_type task = COMPILE -> CompileSubtask_of_Z (tk_subtask task) = Some c ->
  let id := submission_internal_id (sr_sub sr) in
  0 <= id -> 0 <= problem_id (sr_sub sr) -> headers_ok (env_header_files env) ->
  logs_at (own id task) s (SetupCompile env key task).
Proof.
  intros Hsr Ht Ec id Hid Hp Hh. unfold SetupCompile. apply (logs_at_get_sub _ s key sr); [done|]. cbv zeta. fold id.
  own_dirs. rewrite Ec. apply logs_logs_at. pose proof (interlib_component _ Hp).
  apply (logs_or_crash_bind _ c).
  destruct c; step_logs; apply logs_emit.
  1,2: own_box (BoxCompile id USERPROG).
  2,4,6: apply (copy_headers_within _ (BoxCompile id _)); [by left|done|done].
  - own_box (BoxCompile id SPECJUDGE).
  - own_box (BoxCompile id CS_SUMMARY).
  - own_box (BoxCompile id PROBPROG).
Qed.

Lemma FinalizeCompile_within s key task res P : (forall sub r, P (EvCEMessage sub r)) -> (forall sub r, P (EvJCEMessage sub r)) ->
  logs_at P s (FinalizeCompile env key task res).
Proof.
  intros H1' H2'. apply logs_logs_at. unfold FinalizeCompile. cbv zeta. step_logs; apply logs_emit; by constructor.
Qed.

(** The setup of an execution changes two directories of its box and takes the output of
    the stage before; it mounts at the working directory. *)
Definition setup_execute_dirs (id td stage : Z) : list string :=
  Workdir (ExecuteBoxPath id td stage) :: ExecuteBoxTdStrictPath id td stage false ::
  (if 0 <? stage then [ExecuteBoxFinalOutput id td (stage - 1)] else []).

Definition setup_execute_event (id td stage : Z) (e : Event) : Prop :=
  within (region (setup_execute_dirs id td stage)) e /\
  forall p size, e = EvMountTmpfs p size -> p = Workdir (ExecuteBoxPath id td stage).

Lemma in_dir ps p s : p ∈ ps -> component s -> has_filename p = true -> region ps (p // s) = true.
Proof. intros Hp Hs Hf. apply (region_in ps p); [done|by apply below_component]. Qed.

Lemma SetupExecute_dirs s key sr task : submission_list s !! key = Some sr ->
  let id := submission_internal_id (sr_sub sr) in
  task_ok id task ->
  logs_at (setup_execute_event id (tk_subtask task) (tk_stage task)) s (SetupExecute env key task).
Proof.
  intros Hsr id (Hid & Htd & Hst). unfold SetupExecute, deref. apply (logs_at_get_sub _ s key sr); [done|]. cbv zeta. fold id.
  apply logs_logs_at. set (td := tk_subtask task) in *. set (stage := tk_stage task) in *.
  set (W := Workdir (ExecuteBoxPath id td stage)). set (T := ExecuteBoxTdStrictPath id td stage false).
  assert (HW : has_filename W = true) by apply workdir_has_filename.
  assert (HT : has_filename T = true).
  { unfold T, ExecuteBoxTdStrictPath, BoxRoot. destruct (component_append (ExecuteBoxPath id td stage) "td") as (p & -> & _); [done|].
    by apply component_has_filename. }
  assert (E0 : (0 <? stage) = negb (stage =? 0)) by lia. unfold setup_execute_event, setup_execute_dirs. fold W T. rewrite E0.
  destruct (sandbox_strict (sr_sub sr)), (stage =? 0) eqn:Es; simpl negb; cbv iota; step_logs; apply logs_emit.
  all: repeat first [apply Forall_cons_2 | apply Forall_nil_2]; (split; [|by intros p size [= <- _]]); own_events.
  all: rewrite ?trim_slash_filename by done.
  all: first [ eapply region_in; [|apply below_refl]; own_side
             | apply (in_dir _ W); [own_side|comp|exact HW]
             | apply (in_dir _ T); [own_side|comp|exact HT] ].
Qed.

Lemma SetupExecute_within s key sr task : submission_list s !! key = Some sr -> tk_type task = EXECUTE ->
  let id := submission_internal_id (sr_sub sr) in
  task_ok id task -> logs_at (own id task) s (SetupExecute env key task).
Proof.
  intros Hsr Ht id Hok. eapply logs_at_mono; [|by apply (SetupExecute_dirs s key sr)]. intros e [He _]. revert He. apply within_mono.
  intros q. own_dirs. destruct Hok as (Hid & Htd & Hst). set (td := tk_subtask task) in *. set (stage := tk_stage task) in *.
  unfold setup_execute_dirs, region. cbn [existsb]. rewrite !orb_true_iff. intros [Hq|[Hq|Hq]].
  - left. eapply below_trans; [|exact Hq]. apply (box_form_below (BoxExecute id td stage)); [done|]. right; left. by exists "workdir".
  - left. eapply below_trans; [|exact Hq]. apply (box_form_below (BoxExecute id td stage)); [done|]. right; left. by exists "td".
  - right. destruct (0 <? stage) eqn:E; [|done]. cbn [existsb] in *. rewrite orb_false_r in *.
    eapply below_trans; [|exact Hq]. apply (box_form_below (BoxExecute id td (stage - 1))); [simpl; lia|]. right; left. by exists "output".
Qed.

Lemma FinalizeExecute_within s key sr task res : submission_list s !! key = Some sr -> tk_type task = EXECUTE ->
  let id := submission_internal_id (sr_sub sr) in
  task_ok id task -> logs_at (own id task) s (FinalizeExecute env key task res).
Proof.
  intros Hsr Ht id (Hid & Htd & Hst). unfold FinalizeExecute. apply (logs_at_get_sub _ s key sr); [done|]. cbv zeta. fold id.
  own_dirs. apply logs_logs_at. set (td := tk_subtask task) in *. set (stage := tk_stage task) in *.
  destruct (sandbox_strict (sr_sub sr)), (0 <? stage) eqn:Es; unfold when; cbv iota; step_logs; apply logs_emit.
  all: own_boxes (BoxExecute id td stage) (BoxExecute id td (stage - 1)).
Qed.

Lemma ReadSpecjudgeResult_within ps id td stage sub res last out x :
  ScoringBoxPath id td stage ∈ ps -> 0 <= id -> 0 <= td -> 0 <= stage ->
  Forall (within (region ps)) (ReadSpecjudgeResult env sub res last out (ScoringBoxUserOutput id td stage false)
    (ScoringBoxTempdir id td stage false) x).2.
Proof.
  intros Hp Hid Htd Hst. assert (Hb : Forall (within (region ps))
    [EvMove (ScoringBoxTempdir id td stage false // "nextpass.in") (ScoringBoxUserOutput id td stage false) None]).
  { own_events; in_box_of (BoxScoring id td stage); first [done | simpl; lia]. }
  unfold ReadSpecjudgeResult, ReadKattisSpecjudgeResult. repeat case_match; simplify_eq/=; done.
Qed.

Lemma FinalizeScoring_within s key sr task res skipped : submission_list s !! key = Some sr -> tk_type task = SCORING ->
  let id := submission_internal_id (sr_sub sr) in
  task_ok id task -> logs_at (own id task) s (FinalizeScoring env key task res skipped).
Proof.
  intros Hsr Ht id (Hid & Htd & Hst). unfold FinalizeScoring. apply (logs_at_get_sub _ s key sr); [done|]. cbv zeta. fold id.
  own_dirs. apply logs_logs_at. set (td := tk_subtask task) in *. set (stage := tk_stage task) in *.
  apply logs_bind; [auto with logs|]. intros x.
  match goal with |- context [if skipped then ?a else ?b] => set (r := if skipped then a else b) end.
  set (ps := ScoringBoxPath id td stage :: _).
  assert (Hr : Forall (within (region ps)) r.2).
  { unfold r. destruct skipped; [done|]. apply ReadSpecjudgeResult_within; [by left|done..]. }
  clearbody r. destruct r as [x' evs]. simpl in Hr. apply logs_bind; [by apply logs_emit|]. intros _.
  destruct (stage =? stages (sr_sub sr) - 1) eqn:El.
  all: try (replace (stages (sr_sub sr) - 1) with stage by lia).
  all: unfold ps; unfold when; destruct (0 <? stage) eqn:Es; cbn [negb andb]; rewrite ?andb_false_r; cbv iota; step_logs; apply logs_emit.
  all: own_events; first [ in_box_of (BoxScoring id td stage); own_side | in_box_of (BoxExecute id td stage); own_side
                         | in_box_of (BoxScoring id td (stage - 1)); own_side ].
Qed.

Lemma logs_at_bind {A B} P s (m : M A) (k : A -> M B) : logs_at P s m -> (forall a, logs P (k a)) -> logs_at P s (m ≫= k).
Proof.
  unfold logs_at, mbind, M_bind. intros Hm Hk. destruct (m s) as [[a s1]|]; [|done].
  specialize (Hk a s1). destruct (k a s1) as [[b s2]|]; [|done].
  destruct Hm as (es & E & H1'), Hk as (es' & E' & H2'). exists (es ++ es').
  rewrite E', E, (assoc_L (++)). split; [done|]. by apply Forall_app.
Qed.

Lemma SetupScoring_within s key sr task : submission_list s !! key = Some sr -> tk_type task = SCORING ->
  let id := submission_internal_id (sr_sub sr) in
  task_ok id task -> logs_at (own id task) s (SetupScoring env key task).
Proof.
  intros Hsr Ht id (Hid & Htd & Hst). unfold SetupScoring. apply (logs_at_get_sub _ s key sr); [done|]. cbv zeta. fold id.
  assert (Hfin : forall es res skipped, logs_at (own id task) (add_events es s) (FinalizeScoring env key task res skipped))
    by (intros; by apply (FinalizeScoring_within _ key sr)).
  assert (Hfin0 : forall res skipped, logs_at (own id task) s (FinalizeScoring env key task res skipped))
    by (intros; by apply (FinalizeScoring_within _ key sr)).
  revert Hfin Hfin0. own_dirs. set (td := tk_subtask task) in *. set (stage := tk_stage task) in *.
  set (ps := ScoringBoxPath id td stage :: _). intros Hfin Hfin0.
  assert (Hret : forall A (a : A) s, logs_at (within (region ps)) s (mret a)) by (intros; apply logs_logs_at, logs_ret).
  assert (Hps : ps = ScoringBoxPath id td stage :: ExecuteBoxPath id td stage ::
    (if 0 <? stage then [ScoringBoxPath id td (stage - 1)] else [])) by done. clearbody ps.
  destruct (negb _); [apply Hret|]. apply logs_at_pure; [intros ? ?; apply vec_at_pure|]. intros item.
  apply logs_at_pure; [by intros a s' [= _ <-]|]. intros s1. destruct (IsCancelled _ _ _); [apply Hret|].
  apply logs_at_pure; [intros ? ?; apply vec_at_pure|]. intros x. destruct (skip_stage x); [apply Hret|].
  destruct (_ && _); [apply logs_at_bind; [apply Hfin0|intros; apply logs_ret]|].
  apply logs_at_emit.
  { rewrite Hps. own_box (BoxScoring id td stage). }
  destruct (bool_decide (specjudge_type (sr_sub sr) = SJ_SKIP)).
  { apply logs_at_emit; [|rewrite add_events_app; apply logs_at_bind; [apply Hfin|intros; apply logs_ret]].
    rewrite Hps. own_boxes (BoxScoring id td stage) (BoxExecute id td stage). }
  apply logs_logs_at. rewrite Hps.
  assert (E0 : (0 <? stage) = negb (stage =? 0)) by lia. rewrite E0.
  destruct (judge_between_stages (sr_sub sr)), (stage =? 0) eqn:Es; cbn [negb orb]; cbv iota; step_logs; apply logs_emit.
  all: own_events; first [ in_box_of (BoxScoring id td stage); own_side | in_box_of (BoxExecute id td stage); own_side
                         | in_box_of (BoxScoring id td (stage - 1)); own_side ].
Qed.

(** The summary: everything of the submission. *)
Lemma run_region id b q : box_id b = id -> box_valid b -> below (box_path b) q = true ->
  region [SubmissionRunPath id; SubmissionCodePath id] q = true.
Proof.
  intros <- Hv Hq. apply (region_in _ (SubmissionRunPath (box_id b))); [by left|].
  eapply below_trans; [by apply box_below_run|done].
Qed.

Lemma run_box id b q : box_id b = id -> box_valid b -> box_form b q ->
  region [SubmissionRunPath id; SubmissionCodePath id] q = true /\
  region [SubmissionRunPath id; SubmissionCodePath id] (trim_slash q) = true.
Proof.
  intros Hid Hv Hq. pose proof (box_form_below b q Hv Hq). split; apply (run_region id b); try done.
  apply below_trim; [by apply box_filename|done].
Qed.

Ltac run_box_of id b :=
  first [ eapply (fun a1 a2 a3 => proj2 (run_box id b _ a1 a2 a3)) | eapply (fun a1 a2 a3 => proj1 (run_box id b _ a1 a2 a3)) ];
  [ done | simpl; lia | first [ left; reflexivity
              | right; left; eexists; split; [|reflexivity]; comp
              | right; right; eexists _, _; split_and!; [| |reflexivity]; comp ] ].

Lemma SetupSummary_within s key sr task : submission_list s !! key = Some sr -> tk_type task = SUMMARY ->
  let id := submission_internal_id (sr_sub sr) in
  0 <= id -> logs_at (own id task) s (SetupSummary env key task).
Proof.
  intros Hsr Ht id Hid. unfold SetupSummary. apply (logs_at_get_sub _ s key sr); [done|]. cbv zeta. fold id.
  own_dirs. apply logs_logs_at. step_logs; apply logs_emit.
  all: own_events; first [ run_box_of id (BoxSummary id) | run_box_of id (BoxCompile id CS_SUMMARY) | run_box_of id (BoxCompile id USERPROG) ].
Qed.

Lemma FinalizeSummary_within s key sr task res skipped : submission_list s !! key = Some sr -> tk_type task = SUMMARY ->
  let id := submission_internal_id (sr_sub sr) in
  logs_at (own id task) s (FinalizeSummary env key task res skipped).
Proof.
  intros Hsr Ht id. unfold FinalizeSummary. apply (logs_at_get_sub _ s key sr); [done|]. cbv zeta. fold id.
  own_dirs. apply logs_logs_at. step_logs; apply logs_emit.
  all: own_events; apply existsb_exists; eexists; (split; [|apply below_refl]); simpl; auto.
Qed.
End Handlers.
