(* ===== verification/Isolation.v ===== *)
(** * The steps of the machine stay in the boxes of their task

    From [EffectsSpec] to steps of [Effects.machine_step]: a step of the judge that
    follows no link changes nothing outside the directories of its task, so that no
    step touches the boxes of another task or another submission. *)

From S2P Require Import Prelude Enums Text Paths CNum Scores Data FileOps FilesSpec TaskGraph State Logs Push PushBuild PushRows PushGraph Handlers HandlerFacts WorkLoop LoopInv LoopSafe Scenario Effects EffectsSpec.

Section Steps.
Context `{PathRoots} `{Config} `{JsonText} (env : Env).

Lemma logs_at_seq {A B} P s (m : M A) (k : A -> M B) : logs_at P s m ->
  (forall a s', m s = Done (a, s') -> logs_at P s' (k a)) -> logs_at P s (m ≫= k).
Proof.
  unfold logs_at, mbind, M_bind. intros Hm Hk. destruct (m s) as [[a s1]|]; [|done].
  specialize (Hk a s1 eq_refl). destruct (k a s1) as [[b s2]|]; [|done].
  destruct Hm as (es & E & Hes), Hk as (es' & E' & Hes'). exists (es ++ es').
  rewrite E', E, (assoc_L (++)). split; [done|]. by apply Forall_app.
Qed.

(** What is known of a task and its submission when an operation starts. *)
Record task_known (s : Judge) (t : Z) (e : TaskEntry) (sr : SubmissionAndResult) : Prop := {
  tn_entry : task_list (graph s) !! t = Some e;
  tn_sub : submission_list s !! te_submission_internal_id e = Some sr;
  tn_id : submission_internal_id (sr_sub sr) = te_submission_internal_id e;
  tn_expected : expected (sr_sub sr) (te_task e);
  tn_ok : sub_ok (sr_sub sr);
  tn_key : 0 <= te_submission_internal_id e;
  tn_problem : 0 <= problem_id (sr_sub sr);
}.

Lemma task_known_evolves s s' t e sr : task_known s t e sr -> evolves (te_submission_internal_id e) s s' ->
  exists r, task_known s' t e (with_result sr r).
Proof.
  intros [] Hev. destruct (ev_sub _ _ _ Hev _ tn_sub0) as (r & Hr & _). exists r.
  split; try done. by rewrite (ev_graph _ _ _ Hev).
Qed.

Lemma expected_ok s t e sr : task_known s t e sr -> judging (te_task e) -> task_ok (submission_internal_id (sr_sub sr)) (te_task e).
Proof.
  intros [] Hj. unfold expected in tn_expected0. unfold task_ok. pose proof (first_scoring_bounds _ tn_ok0).
  destruct Hj as [E|E]; rewrite E in tn_expected0; lia.
Qed.

Lemma SetupTask_within s t e sr : task_known s t e sr -> headers_ok (env_header_files env) ->
  logs_at (own (te_submission_internal_id e) (te_task e)) s (SetupTask env (te_submission_internal_id e) (te_task e)).
Proof.
  intros Hk Hh. pose proof (expected_ok s t e sr Hk) as Hok. destruct Hk. rewrite <- tn_id0 at 1.
  unfold SetupTask. destruct (tk_type (te_task e)) eqn:Et.
  - destruct (CompileSubtask_of_Z (tk_subtask (te_task e))) as [c|] eqn:Ec; [|by eapply expected_subtask in Ec].
    apply (SetupCompile_within env _ _ sr _ c); try done. lia.
  - apply (SetupExecute_within env _ _ sr); try done. apply Hok. by left.
  - apply (SetupScoring_within env _ _ sr); try done. apply Hok. by right.
  - apply (SetupSummary_within env _ _ sr); try done. lia.
Qed.

Lemma logs_at_when P s b m : logs_at P s m -> logs_at P s (when b m).
Proof. destruct b; [done|]. intros _. apply logs_logs_at, logs_ret. Qed.

Lemma FinalizeTask_within s t e sr res skipped : task_known s t e sr ->
  logs_at (own (te_submission_internal_id e) (te_task e)) s (FinalizeTask env t res skipped).
Proof.
  intros Hk. pose proof (expected_ok s t e sr Hk) as Hok. destruct Hk. rewrite <- tn_id0 at 1.
  unfold FinalizeTask. apply (logs_at_seq _ _ get).
  { apply logs_logs_at. auto with logs. }
  intros a s' [= <- <-]. rewrite tn_entry0. apply (logs_at_seq _ _ (or_crash _ _)).
  { apply logs_logs_at. auto with logs. }
  intros a s' [= <- <-]. cbv zeta. apply logs_at_bind; [|intros []; step_logs].
  apply logs_at_when. destruct (tk_type (te_task e)) eqn:Et.
  - apply FinalizeCompile_within; intros; constructor.
  - apply (FinalizeExecute_within env _ _ sr); try done. apply Hok. by left.
  - apply (FinalizeScoring_within env _ _ sr); try done. apply Hok. by right.
  - by apply (FinalizeSummary_within env _ _ sr).
Qed.

Lemma DispatchTask_within s t e sr running handle : task_known s t e sr -> judge_inv s (t :: running) ->
  headers_ok (env_header_files env) ->
  logs_at (own (te_submission_internal_id e) (te_task e)) s (DispatchTask env handle t).
Proof.
  intros Hk Hj Hh. unfold DispatchTask. apply (logs_at_seq _ _ get).
  { apply logs_logs_at. auto with logs. }
  intros a s' [= <- <-]. rewrite (tn_entry _ _ _ _ Hk). apply (logs_at_seq _ _ (or_crash _ _)).
  { apply logs_logs_at. auto with logs. }
  intros a s' [= <- <-]. cbv zeta. apply logs_at_seq; [by eapply SetupTask_within|]. intros res s' E.
  destruct res; [apply logs_logs_at; simpl; step_logs|].
  destruct (setup_spec env s running t e sr Hj (tn_entry _ _ _ _ Hk) (tn_sub _ _ _ _ Hk)) as (Hks & _).
  specialize (Hks s (reflexivity s)). rewrite E in Hks.
  destruct (task_known_evolves _ _ _ _ _ Hk Hks) as [r Hk']. cbn [negb].
  apply logs_at_bind; [by eapply FinalizeTask_within|]. intros. apply logs_ret.
Qed.
End Steps.

(** ** Boxes are apart from what other tasks own *)

Section Boxes.
Context `{PathRoots}.

Lemma below_under p q : below p q = true <-> under p q.
Proof.
  rewrite below_spec. unfold under, tail_ok. split.
  - intros (t & -> & [->|[r ->]]); [left; by rewrite string_app_nil_r|right; by exists r].
  - intros [->|[r ->]]; [exists ""; rewrite string_app_nil_r; auto|exists ("/" +:+ r); eauto].
Qed.

(** What is asked of the configured directories. *)
Record roots_ok : Prop := {
  rk_box : has_filename kBoxRoot = true;
  rk_submission : has_filename kSubmissionRoot = true;
  rk_apart : apart kBoxRoot kSubmissionRoot;
}.

Lemma run_below_root id : 0 <= id -> roots_ok -> below kBoxRoot (SubmissionRunPath id) = true.
Proof. intros Hid [Hb _ _]. apply below_component; auto with paths. Qed.

Lemma code_below_root id : 0 <= id -> is_int id -> roots_ok -> below kSubmissionRoot (SubmissionCodePath id) = true.
Proof.
  intros Hid Hi [_ Hb _]. unfold SubmissionCodePath. rewrite wrap_signed_id by done. apply below_component; auto with paths.
Qed.

Lemma run_path_shape : exists root, forall id, 0 <= id -> SubmissionRunPath id = root +:+ PadInt id 6.
Proof.
  exists (if has_filename kBoxRoot then kBoxRoot +:+ "/" else kBoxRoot). intros id Hid. unfold SubmissionRunPath, path_append.
  pose proof (component_PadInt id 6 Hid) as Hc. rewrite is_absolute_no_slash by apply Hc.
  destruct (has_filename kBoxRoot); by rewrite ?string_app_assoc.
Qed.

Lemma box_path_below_ne b b' q : box_valid b -> box_valid b' -> b <> b' ->
  below (box_path b) q = true -> below (box_path b') q = true -> False.
Proof. intros Hv Hv' Hne Hq Hq'. apply Hne. eapply (boxes_disjoint b b' q); try done; by apply below_under. Qed.

Lemma run_paths_disjoint b id q : box_valid b -> 0 <= id -> below (box_path b) q = true ->
  below (SubmissionRunPath id) q = true -> box_id b = id.
Proof.
  intros Hv Hid Hq Hr. assert (Hb : below (SubmissionRunPath (box_id b)) q = true)
    by (eapply below_trans; [by apply box_below_run|done]).
  destruct run_path_shape as [root Hs]. pose proof (box_valid_id b Hv) as Hbid. rewrite Hs in Hr, Hb by done.
  apply below_spec in Hr as (t & -> & Ht), Hb as (u & E & Hu). rewrite !string_app_assoc in E.
  apply string_app_inj_length in E as [_ E]; [|done]. symmetry in E.
  assert (Hd : forall i, 0 <= i -> PadInt i 6 <> "" ) by (intros i Hi; by apply component_PadInt).
  assert (Hx : forall x y t u, string_forall is_digit x = true -> string_forall is_digit y = true -> tail_ok t -> tail_ok u ->
    x +:+ t = y +:+ u -> x = y).
  { clear. intros x. induction x as [|c x IH]; intros [|c' y] t u Hx Hy Ht Hu E; try done.
    - destruct Ht as [->|[r ->]]; [done|]. injection E as <- _. by simpl in Hy.
    - destruct Hu as [->|[r ->]]; [done|]. injection E as -> _. by simpl in Hx.
    - injection E as -> E. simpl in Hx, Hy. apply andb_true_iff in Hx as [_ Hx], Hy as [_ Hy].
      f_equal. by eapply (IH y t u). }
  eapply Hx in E; try done; try by apply PadInt_digits. by eapply PadInt_inj.
Qed.

Lemma box_root b q : roots_ok -> box_valid b -> below (box_path b) q = true -> below kBoxRoot q = true.
Proof.
  intros Hr Hv Hq. eapply below_trans; [|exact Hq]. eapply below_trans; [|by apply box_below_run].
  apply run_below_root; [by apply box_valid_id|done].
Qed.

(** A task that has nothing to do with the box [b]. *)
Definition spares (b : Box) (id : Z) (task : Task) : Prop :=
  id <> box_id b \/ (tk_type task <> SUMMARY /\ box_path b ∉ task_dirs id task).

Lemma box_dirs id task p : task_ok id task -> tk_type task <> SUMMARY -> p ∈ task_dirs id task ->
  exists b, box_valid b /\ box_id b = id /\ p = box_path b.
Proof.
  intros (Hid & Htd & Hst) Hs. unfold task_dirs. destruct (tk_type task); [| | |done].
  - destruct (CompileSubtask_of_Z _); [|by intros ?%elem_of_nil]. intros ->%list_elem_of_singleton.
    by exists (BoxCompile id c).
  - destruct (0 <? tk_stage task) eqn:E; rewrite ?elem_of_cons.
    + intros [->|[->|?%elem_of_nil]]; [by exists (BoxExecute id (tk_subtask task) (tk_stage task))| |done].
      exists (BoxExecute id (tk_subtask task) (tk_stage task - 1)). simpl. split_and!; try done; lia.
    + intros [->|?%elem_of_nil]; [by exists (BoxExecute id (tk_subtask task) (tk_stage task))|done].
  - destruct (0 <? tk_stage task) eqn:E; rewrite ?elem_of_cons.
    + intros [->|[->|[->|?%elem_of_nil]]]; [by exists (BoxScoring id (tk_subtask task) (tk_stage task))
        |by exists (BoxExecute id (tk_subtask task) (tk_stage task))| |done].
      exists (BoxScoring id (tk_subtask task) (tk_stage task - 1)). simpl. split_and!; try done; lia.
    + intros [->|[->|?%elem_of_nil]]; [by exists (BoxScoring id (tk_subtask task) (tk_stage task))
        |by exists (BoxExecute id (tk_subtask task) (tk_stage task))|done].
Qed.

Lemma spares_region b id task q : roots_ok -> box_valid b -> task_ok id task -> is_int id -> spares b id task ->
  below (box_path b) q = true -> region (task_dirs id task) q = false.
Proof.
  intros Hr Hv Hok Hi Hs Hq. apply not_true_is_false. unfold region. rewrite existsb_exists.
  intros (p & Hp%list_elem_of_In & Hpq). destruct (decide (tk_type task = SUMMARY)) as [E|E].
  - destruct Hs as [Hs|[Hs _]]; [|done]. unfold task_dirs in Hp. rewrite E in Hp.
    apply elem_of_cons in Hp as [->|Hp%list_elem_of_singleton].
    + apply Hs. symmetry. eapply run_paths_disjoint; [done|apply Hok|done..].
    + subst p. assert (H1 : below kBoxRoot q = true).
      { by eapply box_root. }
      assert (H2 : below kSubmissionRoot q = true).
      { eapply below_trans; [|exact Hpq]. apply code_below_root; [apply Hok|done|done]. }
      destruct (rk_apart Hr) as [A1 A2]. destruct (below_nested _ _ _ H1 H2); congruence.
  - destruct (box_dirs id task p Hok E Hp) as (b' & Hv' & Hid & ->).
    assert (b = b') as -> by (eapply (boxes_disjoint b b' q); try done; by apply below_under).
    destruct Hs as [Hs|[_ Hs]]; [by apply Hs|done].
Qed.
End Boxes.

(** ** Steps of the machine *)

Section Machine.
Context `{PathRoots} `{Config} `{JsonText} (kMaxParallel : Z).

(** The task a step is about, with the internal id of its submission. *)
Definition label_task (l : Loop) (lab : mlabel) : option (Z * Task) :=
  match lab with
  | LJudge (Dispatch _ t _) _ _ => entry_task (lp_judge l) t
  | LJudge (Finish _ h _) _ _ | LProgram h => running_task (lp_judge l) h
  | _ => None
  end.

(** The step of the judge changes nothing through a link. *)
Definition follows_no_link (m : Machine) (lab : mlabel) : Prop :=
  match lab with
  | LJudge a headers f =>
      headers_ok headers /\
      forall l', perform (mc_loop m) a = Done l' ->
        events_safe f (drop (length (trace (lp_judge (mc_loop m)))) (trace (lp_judge l'))) (mc_disk m)
  | _ => True
  end.

(** The numbers the clients give are not negative. *)
Definition ids_ok (s : Judge) : Prop := forall key sr, submission_list s !! key = Some sr ->
  0 <= key /\ is_int key /\ 0 <= problem_id (sr_sub sr).

Lemma inv_known s running t e : judge_inv s running -> ids_ok s -> task_list (graph s) !! t = Some e ->
  exists sr, task_known s t e sr.
Proof.
  intros Hj Hi Ht. destruct (entry_facts s _ t e Hj Ht) as (sr & Hsr & Hss & Hx). exists sr.
  destruct (Hi _ _ Hsr) as (? & ? & ?). split; try done; apply Hss.
Qed.

Lemma task_known_ok s t e sr : task_known s t e sr -> 0 <= te_submission_internal_id e /\ task_ok (te_submission_internal_id e) (te_task e).
Proof.
  intros Hk. pose proof (expected_ok s t e sr Hk) as Hok. destruct Hk. rewrite tn_id0 in Hok. split; [done|].
  destruct (tk_type (te_task e)) eqn:E; try (apply Hok; red; auto; fail); unfold expected in tn_expected0; rewrite E in tn_expected0.
  - destruct tn_expected0 as (c & -> & _). unfold task_ok. simpl. by destruct c.
  - rewrite tn_expected0. done.
Qed.

(** The box a running program is confined to is its task's. *)
Lemma task_box_owned s t e sr : task_known s t e sr ->
  let id := te_submission_internal_id e in
  let b := task_box id (te_task e) in
  box_valid b /\ ~ spares b id (te_task e).
Proof.
  intros Hk. destruct (task_known_ok _ _ _ _ Hk) as [Hid (_ & Htd & Hst)]. destruct Hk. unfold expected in tn_expected0.
  cbv zeta. unfold spares, task_dirs, task_box. destruct (tk_type (te_task e)) eqn:E.
  - destruct tn_expected0 as (c & -> & _). simpl. rewrite CompileSubtask_of_to_Z. simpl.
    split; [done|]. intros [?|[_ Hn]]; [done|]. apply Hn. by left.
  - simpl. split; [done|]. intros [?|[_ Hn]]; [done|]. apply Hn. by left.
  - simpl. split; [done|]. intros [?|[_ Hn]]; [done|]. apply Hn. by left.
  - simpl. split; [done|]. by intros [?|[? _]].
Qed.

(** A program stays in its box. *)
Lemma strictly_below_below p q : strictly_below p q = true -> below p q = true.
Proof. unfold strictly_below. by intros [? _]%andb_true_iff. Qed.

Lemma work_area_below b q : box_valid b -> work_area b q = true -> below (box_path b) q = true.
Proof.
  intros Hv. pose proof (box_path_has_filename b Hv) as Hf. unfold work_area. intros [Hq|Hq]%orb_true_iff.
  - eapply below_trans; [|by apply strictly_below_below]. by apply below_workdir.
  - destruct b; try done. eapply below_trans; [|by apply strictly_below_below]. by apply below_component.
Qed.

Lemma spliced_below b q : box_valid b -> spliced_output b q = true -> below (box_path b) q = true.
Proof.
  intros Hv. destruct b; try done. intros ->%bool_decide_eq_true. apply box_form_below; [done|]. right; right.
  exists "td", "output". done.
Qed.

Lemma program_confined b d d' : box_valid b -> program_effect b d d' ->
  forall q, below (box_path b) q = false -> files d' !! q = files d !! q.
Proof.
  intros Hv Hp q Hq. apply (pe_files _ _ _ Hp); apply not_true_is_false; intros Hx.
  - by rewrite (work_area_below b q Hv Hx) in Hq.
  - by rewrite (spliced_below b q Hv Hx) in Hq.
Qed.

Lemma logged_nil s s' es (P : Event -> Prop) : trace s' = trace s ++ es -> Forall P es -> Forall P (drop (length (trace s)) (trace s')).
Proof. intros -> Hes. by rewrite drop_app_length. Qed.

(** What a step of the judge logs. *)
Lemma judge_step_own l a headers f l' : loop_inv kMaxParallel l -> ids_ok (lp_judge l) -> enabled kMaxParallel l a ->
  headers_ok headers -> (forall env, action_env a = Some env -> env_header_files env = headers) -> perform l a = Done l' ->
  let es := drop (length (trace (lp_judge l))) (trace (lp_judge l')) in
  match label_task l (LJudge a headers f) with
  | Some (id, task) => 0 <= id /\ is_int id /\ task_ok id task /\ Forall (own id task) es
  | None => es = []
  end.
Proof.
  intros Hl Hi He Hh Henv Hp. cbv zeta.
  assert (Hho : forall env, action_env a = Some env -> headers_ok (env_header_files env))
    by (intros env E; by rewrite (Henv env E)).
  destruct a as [sub mq| | | |env t h|env h res].
  - simpl. simpl in Hp. unfold run in Hp. destruct He as [_ Hok].
    destruct (PushSubmission_spec _ _ sub mq (li_judge _ _ Hl) Hok) as [[E _]|(_ & s' & E & Ha)]; rewrite E in Hp;
      injection Hp as <-; simpl; [|rewrite (ac_trace _ _ _ _ Ha)]; apply drop_all.
  - injection Hp as <-. apply drop_all.
  - injection Hp as <-. apply drop_all.
  - injection Hp as <-. apply drop_all.
  - simpl in Hp. unfold run in Hp. destruct He as (_ & _ & (Htop & _) & _).
    pose proof (li_judge _ _ Hl) as Hj. destruct (running_entry _ _ t Hj) as (e & Ht & _); [set_solver|].
    pose proof (pop_inv _ _ t Hj Htop) as Hj1. set (s1 := pop_task t (lp_judge l)) in *.
    destruct (inv_known s1 _ t e Hj1 Hi Ht) as [sr Hk].
    pose proof (DispatchTask_within env s1 t e sr _ h Hk Hj1 (Hho env eq_refl)) as Hw.
    destruct (task_known_ok _ _ _ _ Hk) as [Hid Hok]. destruct (Hi _ _ (tn_sub _ _ _ _ Hk)) as (_ & Hint & _).
    simpl. unfold entry_task. rewrite Ht. simpl. split_and!; [done..|].
    unfold mbind at 1, M_bind at 1, modify in Hp. fold s1 in Hp. unfold logs_at in Hw.
    destruct (DispatchTask env h t s1) as [[b s']|]; [|done]. injection Hp as <-. destruct Hw as (es & E & Hes).
    by apply (logged_nil s1 s' es).
  - simpl in Hp. unfold run in Hp. destruct He as (_ & t & Ht). pose proof (li_judge _ _ Hl) as Hj.
    destruct (running_entry _ _ t Hj) as (e & He & _).
    { apply elem_of_app. right. unfold handle_tasks. apply list_elem_of_fmap. exists (h, t). split; [done|].
      by apply elem_of_map_to_list. }
    destruct (inv_known _ _ t e Hj Hi He) as [sr Hk].
    destruct (task_known_ok _ _ _ _ Hk) as [Hid Hok]. destruct (Hi _ _ (tn_sub _ _ _ _ Hk)) as (_ & Hint & _).
    simpl. unfold running_task. rewrite Ht. simpl. unfold entry_task. rewrite He. simpl. split_and!; [done..|].
    unfold mbind, M_bind, WaitTask in Hp. unfold mbind, M_bind, get, modify in Hp. rewrite Ht in Hp. simpl in Hp.
    set (s1 := set_handle_map _ _) in Hp. assert (Hk1 : task_known s1 t e sr) by (by destruct Hk).
    pose proof (FinalizeTask_within env s1 t e sr res false Hk1) as Hw. unfold logs_at in Hw.
    destruct (FinalizeTask env t res false s1) as [[b s']|]; [|done]. injection Hp as <-. destruct Hw as (es & E & Hes).
    by apply (logged_nil s1 s' es).
Qed.

Lemma step_isolated m lab m' b :
  roots_ok -> reachable kMaxParallel (mc_loop m) -> 0 < kMaxParallel -> ids_ok (lp_judge (mc_loop m)) ->
  machine_step kMaxParallel m lab m' -> follows_no_link m lab -> box_valid b ->
  (forall id task, label_task (mc_loop m) lab = Some (id, task) -> spares b id task) ->
  forall q, below (box_path b) q = true ->
    files (mc_disk m') !! q = files (mc_disk m) !! q /\
    (forall mt, mt_path mt = q -> (mt ∈ mounts (mc_disk m') <-> mt ∈ mounts (mc_disk m))).
Proof.
  intros Hr Hreach Hpar Hi Hstep Hsafe Hv Hs q Hq. pose proof (reachable_inv kMaxParallel Hpar _ Hreach) as Hl.
  destruct Hstep as [a headers f l' d' He Henv Hp Ha|h id task d' Ht Hd|d' Hd Hm]; simpl.
  - destruct Hsafe as [Hh Hsafe]. specialize (Hsafe l' Hp).
    assert (Heh : forall env, action_env a = Some env -> env_header_files env = headers)
      by (intros env E; by rewrite (Henv env E)).
    pose proof (judge_step_own _ a headers f l' Hl Hi He Hh Heh Hp) as Ho. cbv zeta in Ho.
    destruct (label_task (mc_loop m) (LJudge a headers f)) as [[id task]|] eqn:El.
    + destruct Ho as (Hid & Hint & Hok & Ho). pose proof (region_closed (task_dirs id task)) as Hc.
      pose proof (events_local _ _ _ _ _ Hc Ho Hsafe Ha) as [Hf Hm].
      pose proof (spares_region b id task q Hr Hv Hok Hint (Hs id task eq_refl) Hq) as Hn.
      split; [by apply Hf|]. intros mt <-.
      assert (Hx : forall l, mt ∈ l <-> mt ∈ filter (fun m => region (task_dirs id task) (mt_path m) = false) l)
        by (intros l; rewrite list_elem_of_filter; naive_solver).
      by rewrite (Hx (mounts d')), (Hx (mounts (mc_disk m))), Hm.
    + rewrite Ho in Ha. by injection Ha as <-.
  - pose proof (li_judge _ _ Hl) as Hj. unfold running_task in Ht.
    destruct (handle_map (lp_judge (mc_loop m)) !! h) as [t|] eqn:Eh; [|done]. simpl in Ht. unfold entry_task in Ht.
    destruct (task_list (graph (lp_judge (mc_loop m))) !! t) as [e|] eqn:Ee; [|done]. injection Ht as <- <-.
    destruct (inv_known _ _ t e Hj Hi Ee) as [sr Hk]. destruct (task_known_ok _ _ _ _ Hk) as [Hid Hok].
    destruct (Hi _ _ (tn_sub _ _ _ _ Hk)) as (_ & Hint & _).
    destruct (task_box_owned _ _ _ _ Hk) as [Hv' Hns].
    rewrite (pe_mounts _ _ _ Hd). split; [|done]. apply (program_confined _ _ _ Hv' Hd). apply not_true_is_false. intros Hb. apply Hns.
    assert (Eb : b = task_box (te_submission_internal_id e) (te_task e))
      by (apply (boxes_disjoint _ _ q); [done|done|by apply below_under|by apply below_under]).
    rewrite <- Eb. apply Hs. simpl. unfold running_task. rewrite Eh. simpl. unfold entry_task. by rewrite Ee.
  - rewrite Hm. split; [|done]. apply Hd. by eapply box_root.
Qed.
End Machine.

(** Nodes for the examples. *)
Definition file (c : string) : Node := {| nd_kind := Regular c; nd_perms := 420; nd_owner := 0 |}.
Definition dir : Node := {| nd_kind := Directory; nd_perms := 493; nd_owner := 0 |}.
