(* ===== verification/OutputSpec.v ===== *)
(** * Taking the output of a program out of its box

    The paths of a box, and what [FinalizeExecute] of src/tioj/submission.cpp does on
    a disk on which the program may have left anything. *)

From S2P Require Import Prelude Enums Text Paths CNum Scores Data FileOps FilesSpec TaskGraph State Logs Specjudge Push PushGraph Handlers HandlerFacts WorkLoop LoopInv LoopSafe Scenario ScoringSpec Effects EffectsSpec Isolation.

(** ** Names in a box *)

Lemma strip_app p q r : strip (p +:+ q) (p +:+ r) = strip q r.
Proof. induction p as [|c p IH]; [done|]. rewrite !string_app_cons. simpl. by rewrite bool_decide_true. Qed.

Lemma below_app p q r : below (p +:+ q) (p +:+ r) = below q r.
Proof. unfold below, suffix_below. by rewrite strip_app. Qed.

Lemma apart_app p q r : apart q r -> apart (p +:+ q) (p +:+ r).
Proof. unfold apart. by rewrite !below_app. Qed.

Lemma components_apart p s s' : component s -> component s' -> s <> s' -> has_filename p = true -> apart (p // s) (p // s').
Proof.
  intros Hs Hs' Hne Hp. rewrite !component_rel by done. rewrite <- !string_app_assoc. apply apart_app.
  assert (Hx : forall s s', component s -> component s' -> s <> s' -> below s s' = false).
  { clear. intros s s' _ [_ Hs'] Hne. apply not_true_is_false. intros (t & -> & Ht)%below_spec.
    destruct Ht as [->|[r ->]]; [by rewrite string_app_nil_r in Hne|].
    rewrite !string_forall_app in Hs'. simpl in Hs'. by rewrite andb_false_r in Hs'. }
  split; by apply Hx.
Qed.

Lemma apart_extend p q x : apart p q -> below p x = true -> apart x q.
Proof.
  intros [A1 A2] Hx. split; apply not_true_is_false; intros Hq.
  - by rewrite (below_trans p x q) in A1.
  - destruct (below_nested _ _ _ Hx Hq); congruence.
Qed.

Lemma below_component_false p s : component s -> has_filename p = true -> below (p // s) p = false.
Proof.
  intros Hs Hp. rewrite component_rel by done. apply not_true_is_false. intros (t & E & _)%below_spec.
  assert (El : String.length p = String.length ((p +:+ "/" +:+ s) +:+ t)) by (by rewrite <- E).
  rewrite !string_length_app in El. simpl in El. lia.
Qed.

(** The paths [FinalizeExecute] works with. *)
Lemma execute_paths `{PathRoots} id td stage strict : 0 <= id -> 0 <= td -> 0 <= stage ->
  let P := ExecuteBoxOutput id td stage strict false in
  let F := ExecuteBoxFinalOutput id td stage in
  let W := Workdir (ExecuteBoxPath id td stage) in
  apart P F /\ below P W = false /\ apart F W.
Proof.
  intros Hid Htd Hst P F W. set (b := BoxExecute id td stage). assert (Hf : has_filename (box_path b) = true)
    by (apply box_path_has_filename; done).
  assert (HFW : apart F W) by (apply (components_apart (box_path b)); done).
  assert (HWn := workdir_has_filename (box_path b)).
  unfold P, ExecuteBoxOutput. destruct strict.
  - set (T := ExecuteBoxTdStrictPath id td stage false). assert (HT : below T (T // "output") = true).
    { apply below_component; [done|]. unfold T, ExecuteBoxTdStrictPath. simpl.
      destruct (component_append (ExecuteBoxPath id td stage) "td") as (p' & -> & _); [done|]. by apply component_has_filename. }
    assert (H1 : apart T F) by (apply (components_apart (box_path b)); done).
    assert (H2 : apart T W) by (apply (components_apart (box_path b)); done).
    split_and!; [by apply (apart_extend T)| |done]. by apply (apart_extend T W _ H2).
  - assert (HP : below W (W // "output") = true) by (by apply below_component).
    split_and!; [by apply (apart_extend W); [apply apart_sym|]| |done]. by apply below_component_false.
Qed.

(** ** Plain paths *)

Lemma finish_permissions_plain f p perms d q : plain d q -> plain (finish_permissions f p perms d).2 q.
Proof.
  intros Hq. unfold finish_permissions. destruct perms as [m|]; [|done].
  assert (Hp : plain (fs_permissions f p m d).2 q).
  { unfold fs_permissions. destruct (permissions_error f); [done|by apply change_node_plain]. }
  by destruct (fs_permissions f p m d) as [[]].
Qed.

Lemma fs_remove_plain f p d q : plain d q -> plain (fs_remove f p d).2 q.
Proof.
  intros Hq. unfold fs_remove. destruct (remove_error f); [done|]. intros t. simpl.
  destruct (decide (q = p)) as [->|Hne]; [by rewrite lookup_delete_eq|]. rewrite lookup_delete_ne by done. apply Hq.
Qed.

Lemma Move_plain f from to perms d : plain d from -> plain d to -> plain (Move f from to perms d).2 to.
Proof.
  intros Hf Ht. unfold Move. destruct (fs_rename f from to d) as [[e|] d1] eqn:E.
  - assert (d1 = d) as -> by (revert E; unfold fs_rename; repeat case_match; congruence).
    destruct (negb _); [done|]. pose proof (fs_copy_file_plain f from to d Ht) as H2.
    destruct (fs_copy_file f from to d) as [[e2|] d2]; [done|].
    pose proof (fs_remove_plain f from d2 to H2) as H3. destruct (fs_remove f from d2) as [x d3].
    by apply finish_permissions_plain.
  - apply finish_permissions_plain. intros t. rewrite (fs_rename_target f from to d d1 E). apply Hf.
Qed.

Lemma WriteFile_plain f p c d : plain d p -> plain (WriteFile f p c d) p.
Proof. intros Hp. unfold WriteFile. destruct (write_error f); [done|by apply put_contents_plain]. Qed.

Lemma events_safe_app f es es' d : events_safe f es d ->
  (forall d', apply_events f es d = Done d' -> events_safe (fun i => f (length es + i)%nat) es' d') ->
  events_safe f (es ++ es') d.
Proof.
  revert f d. induction es as [|e es IH]; intros f d Hs Hk; [by apply Hk|]. destruct Hs as [He Hs]. split; [done|].
  intros d1 E1. apply IH; [by apply Hs|]. intros d' Ed. apply Hk. simpl. by rewrite E1.
Qed.

Lemma apply_events_app f es es' d : apply_events f (es ++ es') d =
  match apply_events f es d with
  | Done d' => apply_events (fun i => f (length es + i)%nat) es' d'
  | Crash x => Crash x
  end.
Proof.
  revert f d. induction es as [|e es IH]; intros f d; [done|]. simpl. destruct (event_effect (f O) e d); [|done]. apply IH.
Qed.

(** ** Taking the output out of the box *)

Section Output.
Context `{PathRoots}.

(** What a program has left as its output: a link or a directory is no output. *)
Definition left_output (d : Disk) (p : string) : string :=
  match files d !! p with Some {| nd_kind := Regular c |} => c | _ => "" end.

Context (P F W : string) (PF : apart P F) (PW : below P W = false) (FW : apart F W).

Definition take_events (d : Disk) : list Event :=
  (if IsRegularFileNoFollow d P then [EvMove P F (Some kPerm666)] else [EvWrite F ""; EvPermissions F kPerm666]) ++
  [EvChownRoot F].

Lemma regular_plain d p : IsRegularFileNoFollow d p = true -> plain d p.
Proof. unfold IsRegularFileNoFollow. intros E t. by destruct (files d !! p) as [[[] ? ?]|]. Qed.

Lemma take_plain f d d' : plain d F -> events_safe f (take_events d) d /\
  (apply_events f (take_events d) d = Done d' -> plain d' F).
Proof using Type.
  intros HF. unfold take_events. destruct (IsRegularFileNoFollow d P) eqn:E; simpl.
  - pose proof (regular_plain d P E) as HP. pose proof (Move_plain (f O) P F (Some kPerm666) d HP HF) as H1.
    split; [split; [done|]; intros d1 [= <-]; by split|]. intros [= <-]. unfold sys_chown.
    destruct (chown_error _); [done|by apply change_node_plain].
  - pose proof (WriteFile_plain (f O) F "" d HF) as H1.
    assert (H2 : plain (fs_permissions (f 1%nat) F kPerm666 (WriteFile (f O) F "" d)).2 F).
    { unfold fs_permissions. destruct (permissions_error _); [done|by apply change_node_plain]. }
    split.
    + split; [done|]. intros d1 [= <-]. split; [done|]. intros d2. simpl.
      destruct (fs_permissions (f 1%nat) F kPerm666 (WriteFile (f O) F "" d)) as [[] d3]; [done|]. intros [= <-]. by split.
    + destruct (fs_permissions (f 1%nat) F kPerm666 (WriteFile (f O) F "" d)) as [[] d3]; [done|]. intros [= <-].
      unfold sys_chown. destruct (chown_error _); [done|by apply change_node_plain].
Qed.

Lemma take_local f d d' : plain d F -> apply_events f (take_events d) d = Done d' -> same_outside (region [P; F]) d d'.
Proof using Type.
  intros HF E. eapply events_local; [apply region_closed| |by apply (take_plain f d d')|done].
  assert (HP : region [P; F] P = true) by (apply (region_in _ P); [by left|apply below_refl]).
  assert (HF' : region [P; F] F = true) by (apply (region_in _ F); [by right; left|apply below_refl]).
  unfold take_events, within. destruct (IsRegularFileNoFollow d P); repeat constructor; done.
Qed.
(** Without failures the output is there in the end, readable and owned by root. *)
Lemma take_contents d : free d F -> no_mount d P -> no_mount d F -> exists d',
  apply_events (fun _ => no_faults) (take_events d) d = Done d' /\
  files d' !! F = Some {| nd_kind := Regular (left_output d P); nd_perms := kPerm666; nd_owner := 0 |} /\
  mounts d' = mounts d.
Proof using PF.
  intros HF HP HFm. assert (Hown : forall d1 c o, files d1 !! F = Some {| nd_kind := Regular c; nd_perms := kPerm666; nd_owner := o |} ->
    mounts d1 = mounts d -> exists d', Done (sys_chown no_faults F d1).2 = Done d' /\
    files d' !! F = Some {| nd_kind := Regular c; nd_perms := kPerm666; nd_owner := 0 |} /\ mounts d' = mounts d).
  { intros d1 c o E Hm. eexists. split; [done|]. unfold sys_chown, change_node. simpl.
    rewrite resolve_plain by (by eapply plain_regular). rewrite E. simpl. by rewrite lookup_insert_eq. }
  unfold take_events, left_output, IsRegularFileNoFollow. destruct (files d !! P) as [[[c| |t] m o]|] eqn:E; cbn [app apply_events event_effect].
  1: { pose proof (Move_spec no_faults P F (Some kPerm666) d _ c E eq_refl HF PF HP HFm) as Hs.
       destruct (Move no_faults P F (Some kPerm666) d) as [ok d1]. destruct Hs as (Hs & _ & _ & Hok & _ & Hm).
       destruct (Hs (Hok eq_refl eq_refl eq_refl)) as ([k p o'] & E1 & Ek & Ep). simpl in Ek, Ep. subst.
       by apply (Hown d1 c o'). }
  all: unfold WriteFile; cbn [write_error no_faults]; unfold put_contents at 1; rewrite (resolve_plain d F) by (by apply free_plain).
  all: assert (Hw : exists o p, (match files d !! F with
      | Some {| nd_kind := Directory |} => (Some EISDIR, d)
      | Some n => (None, with_files (<[F:={| nd_kind := Regular ""; nd_perms := nd_perms n; nd_owner := nd_owner n |}]> (files d)) d)
      | None => (None, with_files (<[F:={| nd_kind := Regular ""; nd_perms := 420; nd_owner := 0 |}]> (files d)) d) end).2
      = with_files (<[F := {| nd_kind := Regular ""; nd_perms := p; nd_owner := o |}]> (files d)) d)
    by (destruct (files d !! F) as [[k p o']|] eqn:EF;
        [destruct (HF _ EF) as [c' Ec]; simpl in Ec; subst k; simpl; by eexists _, _|by eexists _, _]).
  all: destruct Hw as (o1 & p1 & ->).
  all: unfold fs_permissions; cbn [permissions_error no_faults]; unfold change_node at 1;
    rewrite (resolve_plain _ F) by (intros t'; simpl; by rewrite lookup_insert_eq); simpl; rewrite lookup_insert_eq; simpl.
  all: eapply (Hown _ "" o1); [simpl; by rewrite lookup_insert_eq|done].
Qed.
End Output.

(** ** FinalizeExecute *)

Section Finalize.
Context `{PathRoots} `{Config}.

(** The events that follow the output. *)
Definition cleanup_events (strict : bool) (id td stage : Z) : list Event :=
  let W := Workdir (ExecuteBoxPath id td stage) in
  (if negb strict then [EvUmount W] else []) ++ [EvRemoveAll W] ++
  (if 0 <? stage then [EvRemoveAll (ExecuteBoxPath id td (stage - 1))] else []).

Lemma execute_events_split headers d sub task :
  let id := submission_internal_id sub in
  execute_events (env_of headers d) sub task =
  take_events (ExecuteBoxOutput id (tk_subtask task) (tk_stage task) (sandbox_strict sub) false)
    (ExecuteBoxFinalOutput id (tk_subtask task) (tk_stage task)) d ++
  cleanup_events (sandbox_strict sub) id (tk_subtask task) (tk_stage task).
Proof. unfold execute_events, take_events, cleanup_events. by rewrite <- (assoc_L (++)). Qed.

Lemma cleanup_done f strict id td stage d : plain d (Workdir (ExecuteBoxPath id td stage)) ->
  events_safe f (cleanup_events strict id td stage) d /\
  exists d', apply_events f (cleanup_events strict id td stage) d = Done d'.
Proof.
  intros Hp. unfold cleanup_events. destruct strict, (0 <? stage); cbn [negb app events_safe apply_events event_effect event_safe];
    split; try (by eexists); repeat split; done.
Qed.

Lemma cleanup_within strict id td stage : Forall (within (region (Workdir (ExecuteBoxPath id td stage) ::
  (if 0 <? stage then [ExecuteBoxPath id td (stage - 1)] else [])))) (cleanup_events strict id td stage).
Proof.
  set (ps := _ :: _). assert (Hi : forall p, p ∈ ps -> region ps p = true) by (intros p Hp; eapply region_in, below_refl; done).
  unfold cleanup_events. apply Forall_app. split; [|apply Forall_app; split].
  - destruct (negb strict); [|done]. constructor; [|done]. constructor; [|done]. apply Hi. by left.
  - constructor; [|done]. constructor; [|done]. apply Hi. by left.
  - unfold ps. destruct (0 <? stage); [|done]. constructor; [|done]. constructor; [|done]. apply Hi. by right; left.
Qed.
Lemma remove_all_spec g p d1 : remove_error g = None -> (forall m, m ∈ mounts d1 -> below p (mt_path m) = false) ->
  RemoveAll g p d1 = (true, with_files (outside p (files d1)) d1).
Proof.
  intros Hg Hm. unfold RemoveAll, fs_remove_all. rewrite Hg.
  assert (Hno : forall P : Mount -> bool, (forall m, below p (mt_path m) = false -> P m = false) -> existsb P (mounts d1) = false).
  { intros P HP. apply not_true_is_false. intros (m & Hin%list_elem_of_In & Hx)%existsb_exists. by rewrite HP in Hx by auto. }
  rewrite Hno by auto. f_equal. f_equal. unfold outside. apply map_eq. intros q. rewrite !keep_paths_lookup.
  rewrite Hno by (intros m ->; done). by rewrite orb_false_r.
Qed.

Lemma umount_spec g p d1 m l : mount_error g = None -> plain d1 p -> mounts d1 = m :: l -> mt_path m = p ->
  (forall m, m ∈ l -> below p (mt_path m) = false) ->
  Umount g p d1 = (true, {| files := subtree p (mt_hidden m) ∪ outside p (files d1); mounts := l |}).
Proof.
  intros Hg Hp Em Hm Hl. unfold Umount, sys_umount. rewrite Hg, resolve_plain, Em by done. cbn [existsb].
  unfold strictly_below at 1. rewrite Hm, bool_decide_true, andb_false_r by done. cbn [orb].
  replace (existsb _ l) with false.
  - simpl. by rewrite bool_decide_true.
  - symmetry. apply not_true_is_false. intros (m' & Hin%list_elem_of_In & Hx)%existsb_exists.
    unfold strictly_below in Hx. by rewrite Hl in Hx.
Qed.

(** The mounts while a program runs: its own, when it is not in the strict sandbox,
    and the others [l]. *)
Definition mounted (strict : bool) (W : string) (d : Disk) (l : list Mount) : Prop :=
  if strict then mounts d = l else exists m, mounts d = m :: l /\ mt_path m = W.

(** What the cleaning leaves: nothing of the program's directory, and not its
    mount. *)
Lemma cleanup_cleans strict i t j d1 d2 l :
  let W := Workdir (ExecuteBoxPath i t j) in
  plain d1 W -> mounted strict W d1 l -> (forall m, m ∈ l -> below W (mt_path m) = false) ->
  (0 < j -> forall m, m ∈ l -> below (ExecuteBoxPath i t (j - 1)) (mt_path m) = false) ->
  apply_events (fun _ => no_faults) (cleanup_events strict i t j) d1 = Done d2 ->
  mounts d2 = l /\ (forall q, below W q = true -> files d2 !! q = None) /\
  (0 < j -> forall q, below (ExecuteBoxPath i t (j - 1)) q = true -> files d2 !! q = None).
Proof.
  intros W Hp Hm Hl Hprev. unfold cleanup_events. fold W.
  set (du := if strict then d1 else (Umount no_faults W d1).2).
  assert (Hdu : mounts du = l).
  { unfold du. destruct strict; [done|]. destruct Hm as (m & Em & Ep). by rewrite (umount_spec no_faults W d1 m l). }
  intros E. assert (Er : (if 0 <? j then Done (RemoveAll no_faults (ExecuteBoxPath i t (j - 1)) (RemoveAll no_faults W du).2).2
    else Done (RemoveAll no_faults W du).2) = Done d2).
  { rewrite <- E. unfold du. by destruct strict, (0 <? j). }
  clear E. rewrite (remove_all_spec no_faults W du) in Er by (try done; by rewrite Hdu). simpl in Er.
  assert (Hout : forall p q (fs : file_map), below p q = true -> outside p fs !! q = None)
    by (intros p q fs Hb; by rewrite outside_lookup, Hb).
  destruct (0 <? j) eqn:Ej.
  - apply Z.ltb_lt in Ej. specialize (Hprev Ej).
    rewrite (remove_all_spec no_faults (ExecuteBoxPath i t (j - 1))) in Er by (try done; simpl; by rewrite Hdu).
    injection Er as <-. simpl. split; [done|]. split; [|intros _ q Hq; by apply Hout].
    intros q Hq. rewrite outside_lookup. case_match; [done|]. by apply Hout.
  - injection Er as <-. simpl. split; [done|]. split; [intros q Hq; by apply Hout|lia].
Qed.

Section Task.
Context (headers : list (string * string)) (s : Judge) (d : Disk) (key : Z) (sr : SubmissionAndResult) (task : Task) (res : cjail_result).
Context (Hsr : submission_list s !! key = Some sr) (Ht : tk_type task = EXECUTE).
Abbreviation sub := (sr_sub sr).
Abbreviation id := (submission_internal_id sub).
Context (Hid : 0 <= id) (Hst : 0 <= tk_stage task) (Htd : 0 <= tk_subtask task < Z.of_nat (length (testdata sub))).

Abbreviation P := (ExecuteBoxOutput id (tk_subtask task) (tk_stage task) (sandbox_strict sub) false).
Abbreviation F := (ExecuteBoxFinalOutput id (tk_subtask task) (tk_stage task)).
Abbreviation W := (Workdir (ExecuteBoxPath id (tk_subtask task) (tk_stage task))).

Definition finalize : Env -> M unit := fun env => FinalizeExecute env key task res.

Lemma finalize_events : exists s',
  finalize (env_of headers d) s = Done (tt, s') /\
  drop (length (trace s)) (trace s') = take_events P F d ++ cleanup_events (sandbox_strict sub) id (tk_subtask task) (tk_stage task).
Proof using Hsr Htd.
  unfold finalize. destruct (FinalizeExecute_run (env_of headers d) key s sr task res Hsr Htd) as (lim & _ & ->).
  eexists. split; [done|]. simpl. rewrite drop_app_length. apply execute_events_split.
Qed.

(** What the output is called is not touched by the cleaning. *)
Lemma cleanup_keeps f d1 d2 : plain d1 W -> apply_events f (cleanup_events (sandbox_strict sub) id (tk_subtask task) (tk_stage task)) d1 = Done d2 ->
  files d2 !! F = files d1 !! F /\
  same_outside (region (task_dirs id task)) d1 d2.
Proof using Hid Hst Htd Ht.
  intros Hp E. destruct (execute_paths id (tk_subtask task) (tk_stage task) (sandbox_strict sub)) as (_ & _ & HFW); try lia.
  pose proof (cleanup_done f (sandbox_strict sub) id (tk_subtask task) (tk_stage task) d1 Hp) as [Hs _].
  pose proof (cleanup_within (sandbox_strict sub) id (tk_subtask task) (tk_stage task)) as Hw.
  assert (Hb : box_valid (BoxExecute id (tk_subtask task) (tk_stage task))) by (simpl; lia).
  split.
  - refine (so_files _ _ _ (events_local _ _ _ _ _ (region_closed _) Hw Hs E) _ _).
    unfold region. cbn [existsb]. destruct HFW as [_ ->]. simpl. destruct (0 <? tk_stage task) eqn:E0; [|done].
    simpl. rewrite orb_false_r. apply not_true_is_false. intros Hbad.
    assert (Eb : BoxExecute id (tk_subtask task) (tk_stage task - 1) = BoxExecute id (tk_subtask task) (tk_stage task)).
    { apply (boxes_disjoint _ _ F); [simpl; lia|done|by apply below_under|].
      apply below_under, (box_form_below (BoxExecute id (tk_subtask task) (tk_stage task))); [done|].
      right; left. by exists "output". }
    injection Eb. lia.
  - refine (events_local _ _ _ _ _ (region_closed _) _ Hs E). eapply Forall_impl; [exact Hw|].
    intros e. apply within_mono. intros q. unfold task_dirs. rewrite Ht. unfold region. cbn [existsb].
    intros Hq. apply orb_true_iff in Hq as [Hq|Hq].
    + apply orb_true_iff. left. eapply below_trans; [|exact Hq].
      apply (box_form_below (BoxExecute id (tk_subtask task) (tk_stage task))); [done|]. right; left. by exists kWorkdirRelative.
    + by rewrite Hq, orb_true_r.
Qed.

Lemma take_keeps f d1 : plain d F -> plain d W -> apply_events f (take_events P F d) d = Done d1 ->
  plain d1 W /\ same_outside (region (task_dirs id task)) d d1.
Proof using Hid Hst Htd Ht.
  intros HF HW E. destruct (execute_paths id (tk_subtask task) (tk_stage task) (sandbox_strict sub)) as (_ & HPW & HFW & _); try lia.
  pose proof (take_local P F f d d1 HF E) as Hl. split.
  - intros t. rewrite (so_files _ _ _ Hl); [apply HW|]. unfold region. simpl. by rewrite HPW, HFW.
  - assert (Hb : box_valid (BoxExecute id (tk_subtask task) (tk_stage task))) by (simpl; lia).
    assert (Hin : forall q, region [P; F] q = true -> region (task_dirs id task) q = true).
    { intros q Hq. unfold task_dirs. rewrite Ht. unfold region in *. simpl in *. rewrite orb_false_r in Hq.
      apply orb_true_iff. left. apply orb_true_iff in Hq as [Hq|Hq]; (eapply below_trans; [|exact Hq]);
        apply (box_form_below (BoxExecute id (tk_subtask task) (tk_stage task))); try done.
      - unfold ExecuteBoxOutput. destruct (sandbox_strict sub); right; right; eexists _, _; (split_and!; [| |reflexivity]); done.
      - right; left. by exists "output". }
    by eapply same_outside_mono.
Qed.
(** The operations of FinalizeExecute: they follow no link. *)
Lemma finalize_confined f s' d' : plain d F -> plain d W -> on_disk finalize headers f s d = Done (tt, s', d') ->
  same_outside (region (task_dirs id task)) d d' /\ plain d' F.
Proof using Hid Hst Htd Ht Hsr.
  intros HF HW. unfold on_disk. destruct finalize_events as (s1 & -> & ->). rewrite apply_events_app.
  destruct (apply_events f (take_events P F d) d) as [d1|x] eqn:E1; [|done].
  destruct (apply_events _ (cleanup_events _ _ _ _) d1) as [d2|x] eqn:E2; [|done]. intros [= <- <-].
  destruct (take_keeps f d1 HF HW E1) as [HW1 Hs1]. destruct (cleanup_keeps _ d1 d2 HW1 E2) as [HF2 Hs2]. split.
  - by etrans.
  - intros t. rewrite HF2. by apply (take_plain P F f d d1).
Qed.

Lemma finalize_output : free d F -> plain d W -> no_mount d P -> no_mount d F -> exists s' d',
  on_disk finalize headers (fun _ => no_faults) s d = Done (tt, s', d') /\
  files d' !! F = Some {| nd_kind := Regular (left_output d P); nd_perms := kPerm666; nd_owner := 0 |} /\
  (forall m, m ∈ mounts d' -> m ∈ mounts d).
Proof using Hid Hst Htd Ht Hsr.
  intros HF HW HPm HFm. unfold on_disk. destruct finalize_events as (s1 & -> & ->). rewrite apply_events_app.
  destruct (execute_paths id (tk_subtask task) (tk_stage task) (sandbox_strict sub)) as (HPF & _); try lia.
  destruct (take_contents P F HPF d HF HPm HFm) as (d1 & E1 & Ef & Em). rewrite E1.
  destruct (take_keeps _ d1 (free_plain _ _ HF) HW E1) as [HW1 _].
  destruct (cleanup_done (fun _ => no_faults) (sandbox_strict sub) id (tk_subtask task) (tk_stage task) d1 HW1) as [_ [d2 E2]].
  rewrite E2. exists s1, d2. split; [done|]. split; [by rewrite (proj1 (cleanup_keeps _ d1 d2 HW1 E2))|].
  rewrite <- Em. clear -E2. revert E2. unfold cleanup_events.
  destruct (sandbox_strict sub), (0 <? tk_stage task); cbn [negb app apply_events event_effect]; intros [= <-] m;
    rewrite ?RemoveAll_mounts; eauto using Umount_mounts.
Qed.
End Task.

(** C11: the output of a program is taken out of its box without following
    anything the program has left there: whatever it planted in its directory
    (links, directories, special files), and whatever of the file operations fails,
    [FinalizeExecute] changes nothing outside the boxes of this stage and the one
    before, and the file the judge will read is no link. *)
Theorem output_confined key sr task res headers f s d s' d' :
  let sub := sr_sub sr in
  let id := submission_internal_id sub in
  submission_list s !! key = Some sr -> tk_type task = EXECUTE -> 0 <= id -> 0 <= tk_stage task ->
  0 <= tk_subtask task < Z.of_nat (length (testdata sub)) ->
  plain d (ExecuteBoxFinalOutput id (tk_subtask task) (tk_stage task)) ->
  plain d (Workdir (ExecuteBoxPath id (tk_subtask task) (tk_stage task))) ->
  on_disk (fun env => FinalizeExecute env key task res) headers f s d = Done (tt, s', d') ->
  same_outside (region (task_dirs id task)) d d' /\
  plain d' (ExecuteBoxFinalOutput id (tk_subtask task) (tk_stage task)).
Proof. intros sub id. intros. by eapply (finalize_confined headers s d key sr task res). Qed.
(** C12: after an execution nothing of the program's directory is left.  When no
    file operation fails, [FinalizeExecute] unmounts the program's tmpfs, and only
    it, removes its working directory and the box of the stage before, and leaves
    the output, readable and owned by root, with the contents the program gave it. *)
Theorem execution_cleaned key sr task res headers s d l :
  let sub := sr_sub sr in
  let id := submission_internal_id sub in
  let i := tk_subtask task in
  let j := tk_stage task in
  let F := ExecuteBoxFinalOutput id i j in
  let W := Workdir (ExecuteBoxPath id i j) in
  submission_list s !! key = Some sr -> tk_type task = EXECUTE -> 0 <= id -> 0 <= j ->
  0 <= i < Z.of_nat (length (testdata sub)) -> free d F -> plain d W -> mounted (sandbox_strict sub) W d l ->
  (forall m, m ∈ l -> below (ExecuteBoxPath id i j) (mt_path m) = false /\
     (0 < j -> below (ExecuteBoxPath id i (j - 1)) (mt_path m) = false)) ->
  exists s' d', on_disk (fun env => FinalizeExecute env key task res) headers (fun _ => no_faults) s d = Done (tt, s', d') /\
    mounts d' = l /\ (forall q, below W q = true -> files d' !! q = None) /\
    (0 < j -> forall q, below (ExecuteBoxPath id i (j - 1)) q = true -> files d' !! q = None) /\
    files d' !! F = Some {| nd_kind := Regular (left_output d (ExecuteBoxOutput id i j (sandbox_strict sub) false));
                            nd_perms := kPerm666; nd_owner := 0 |}.
Proof.
  intros sub id i j F W Hsr Ht Hid Hj Hi HF HW Hm Hl. set (P := ExecuteBoxOutput id i j (sandbox_strict sub) false).
  destruct (execute_paths id i j (sandbox_strict sub) Hid ltac:(lia) Hj) as (HPF & HPW & HFW).
  set (b := BoxExecute id i j). assert (Hb : has_filename (box_path b) = true) by (apply box_path_has_filename; simpl; lia).
  assert (HbP : below (box_path b) P = true).
  { apply (box_form_below b); [simpl; lia|]. unfold P, ExecuteBoxOutput.
    destruct (sandbox_strict sub); right; right; eexists _, _; (split_and!; [| |reflexivity]); done. }
  assert (HbF : below (box_path b) F = true) by (by apply below_component).
  assert (Hno : forall p, below (box_path b) p = true -> below p W = false -> no_mount d p).
  { intros p Hp Hpw m Hin. assert (Hx : mt_path m = W \/ m ∈ l).
    { unfold mounted in Hm. destruct (sandbox_strict sub); [right; by rewrite <- Hm|].
      destruct Hm as (m0 & Em & Ep). rewrite Em in Hin. apply elem_of_cons in Hin as [->|Hin]; auto. }
    destruct Hx as [->|Hin']; [done|]. apply not_true_is_false. intros Hx.
    destruct (Hl m Hin') as [Hy _]. change (ExecuteBoxPath id i j) with (box_path b) in Hy.
    by rewrite (below_trans (box_path b) p (mt_path m) Hp Hx) in Hy. }
  destruct (take_contents P F HPF d HF (Hno P HbP HPW) (Hno F HbF ltac:(apply HFW))) as (d1 & E1 & EF & EM).
  destruct (take_keeps d sr task Ht Hid Hj Hi (fun _ => no_faults) d1 (free_plain _ _ HF) HW E1) as [HW1 _].
  destruct (cleanup_done (fun _ => no_faults) (sandbox_strict sub) id i j d1 HW1) as [_ [d2 E2]].
  assert (Hm1 : mounted (sandbox_strict sub) W d1 l) by (unfold mounted in *; by rewrite EM).
  destruct (cleanup_cleans _ id i j d1 d2 l HW1 Hm1) as (M2 & C1 & C2); [| |exact E2|].
  { intros m Hin. apply not_true_is_false. intros Hx. destruct (Hl m Hin) as [Hy _].
    rewrite (below_trans (ExecuteBoxPath id i j) W (mt_path m)) in Hy; [done|by apply below_workdir|done]. }
  { intros Hj' m Hin. by apply Hl. }
  destruct (finalize_events headers s d key sr task res Hsr Hi) as (s1 & Ef & Et).
  exists s1, d2. split; [|split; [exact M2|split; [exact C1|split; [exact C2|]]]].
  - unfold on_disk. unfold finalize in Ef. rewrite Ef, Et, apply_events_app.
    change (apply_events _ (take_events _ _ d) d) with (apply_events (fun _ => no_faults) (take_events P F d) d). rewrite E1.
    change (apply_events _ (cleanup_events _ _ _ _) d1) with (apply_events (fun _ => no_faults) (cleanup_events (sandbox_strict sub) id i j) d1).
    by rewrite E2.
  - exact (eq_trans (proj1 (cleanup_keeps sr task Ht Hid Hj Hi _ d1 d2 HW1 E2)) EF).
Qed.
End Finalize.

(** ** A planted link *)

#[local] Existing Instance sample_roots.
#[local] Existing Instance sample_config.

(** The program has left a link to the answer as its output. *)
Definition planted_disk : Disk := {|
  files := {[ "/td/ans" := {| nd_kind := Regular "42"; nd_perms := 384; nd_owner := 0 |};
              "/tmp/tioj_box/000007/execute000_00/workdir" := {| nd_kind := Directory; nd_perms := 511; nd_owner := 0 |};
              "/tmp/tioj_box/000007/execute000_00/workdir/output" :=
                {| nd_kind := Symlink "/td/ans"; nd_perms := 511; nd_owner := 1000 |} ]};
  mounts := [] |}.

Definition finalize_planted : outcome (unit * Judge * Disk) :=
  on_disk (fun env => FinalizeExecute env 7 (exec_task 0 0) exited_ok) [] (fun _ => no_faults)
    (sample_state SJ_NORMAL false both_executed) planted_disk.

Definition after_planted : Judge * Disk :=
  match finalize_planted with Done (_, s, d) => (s, d) | Crash _ => (empty_Judge, planted_disk) end.

Lemma finalize_planted_done : finalize_planted = Done (tt, after_planted.1, after_planted.2).
Proof. unfold after_planted. destruct finalize_planted as [[[[] s] d]|] eqn:E; [done|]. vm_compute in E. discriminate. Qed.

Lemma output_confined_witness :
  files after_planted.2 !! "/td/ans" = Some {| nd_kind := Regular "42"; nd_perms := 384; nd_owner := 0 |} /\
  files after_planted.2 !! "/tmp/tioj_box/000007/execute000_00/output" =
    Some {| nd_kind := Regular ""; nd_perms := kPerm666; nd_owner := 0 |}.
Proof.
  destruct (output_confined 7 (sample_record SJ_NORMAL false both_executed) (exec_task 0 0) exited_ok [] (fun _ => no_faults)
    (sample_state SJ_NORMAL false both_executed) planted_disk after_planted.1 after_planted.2
    ltac:(reflexivity) ltac:(reflexivity) ltac:(simpl; lia) ltac:(simpl; lia) ltac:(simpl; lia)
    ltac:(intros t E; vm_compute in E; discriminate) ltac:(intros t E; vm_compute in E; discriminate) finalize_planted_done)
    as [Hs _].
  split; [|vm_compute; reflexivity]. rewrite (so_files _ _ _ Hs) by (vm_compute; reflexivity). vm_compute. reflexivity.
Defined.

(** ** A followed link

    With [judge_between_stages] the special judge's [user_output] becomes the input of
    the next stage.  [FinalizeScoring] moves it without looking at it, and
    [SetupExecute] moves it into a freshly mounted directory, that is, copies it:
    a link the judge's program left in its place is followed, and the
    program of the next stage reads the file it leads to. *)

Definition followed_disk : Disk := {|
  files := {[ "/etc/shadow" := {| nd_kind := Regular "root"; nd_perms := 384; nd_owner := 0 |};
              "/td/in" := {| nd_kind := Regular "6 7"; nd_perms := 420; nd_owner := 0 |};
              "/tmp/tioj_box/000007/compile0/workdir/prog" := {| nd_kind := Regular "ELF"; nd_perms := 511; nd_owner := 0 |};
              "/tmp/tioj_box/000007/execute000_00/output" :=
                {| nd_kind := Symlink "/etc/shadow"; nd_perms := 511; nd_owner := 1000 |} ]};
  mounts := [] |}.

Example planted_link_followed :
  match on_disk (fun env => SetupExecute env 7 (exec_task 0 1)) [] (fun _ => no_faults)
      (sample_state SJ_NORMAL false both_executed) followed_disk with
  | Done (started, _, d) => started = true /\
      files d !! "/tmp/tioj_box/000007/execute000_01/workdir/input" =
        Some {| nd_kind := Regular "root"; nd_perms := kPerm666; nd_owner := 0 |}
  | Crash _ => False
  end.
Proof. vm_compute. split; reflexivity. Qed.

(** A program that ran in its tmpfs, over an older file. *)
Definition ran_disk : Disk := {|
  files := {[ "/tmp/tioj_box/000007/execute000_00/workdir" := {| nd_kind := Directory; nd_perms := 511; nd_owner := 0 |};
              "/tmp/tioj_box/000007/execute000_00/workdir/output" := {| nd_kind := Regular "42"; nd_perms := 420; nd_owner := 1000 |};
              "/tmp/tioj_box/000007/execute000_00/workdir/core" := {| nd_kind := Regular "x"; nd_perms := 384; nd_owner := 1000 |} ]};
  mounts := [{| mt_path := "/tmp/tioj_box/000007/execute000_00/workdir"; mt_options := "size=132k";
                mt_hidden := {[ "/tmp/tioj_box/000007/execute000_00/workdir" := {| nd_kind := Directory; nd_perms := 493; nd_owner := 0 |} ]} |}] |}.

Lemma execution_cleaned_witness : exists s' d',
  on_disk (fun env => FinalizeExecute env 7 (exec_task 0 0) exited_ok) [] (fun _ => no_faults)
    (sample_state SJ_NORMAL false both_executed) ran_disk = Done (tt, s', d') /\ mounts d' = [] /\
  files d' !! "/tmp/tioj_box/000007/execute000_00/workdir/core" = None.
Proof.
  destruct (execution_cleaned 7 (sample_record SJ_NORMAL false both_executed) (exec_task 0 0) exited_ok []
    (sample_state SJ_NORMAL false both_executed) ran_disk []
    ltac:(reflexivity) ltac:(reflexivity) ltac:(simpl; lia) ltac:(simpl; lia) ltac:(simpl; lia)
    ltac:(intros n E; vm_compute in E; discriminate) ltac:(intros t E; vm_compute in E; discriminate)
    ltac:(simpl; eexists; split; reflexivity) ltac:(intros m Hm; by apply elem_of_nil in Hm))
    as (s' & d' & E & M & C & _).
  exists s', d'. split; [exact E|]. split; [exact M|]. apply C. vm_compute. reflexivity.
Defined.
