(* ===== verification/Links.v ===== *)
(** * Operations that make no links

    A path is a link when its node is one, or when it will be once a mount is
    removed.  An operation of the judge turns no path into a link, except that it may
    move one; [calm] is the condition, on the paths that are known to be no links, under
    which an operation neither follows nor moves one. *)

From S2P Require Import Prelude Text Data FileOps FilesSpec State Logs Effects EffectsSpec.

Definition is_link (o : option Node) : Prop := exists t, nd_kind <$> o = Some (Symlink t).

Definition link (d : Disk) (q : string) : Prop :=
  is_link (files d !! q) \/ exists m, m ∈ mounts d /\ is_link (mt_hidden m !! q).

(** No new links. *)
Definition shrinks (d d' : Disk) : Prop := forall q, link d' q -> link d q.

#[export] Instance shrinks_preorder : PreOrder shrinks.
Proof. split; [by intros d q|]. intros d1 d2 d3 H1 H2 q Hq. by apply H1, H2. Qed.

Lemma is_link_none : ~ is_link None.
Proof. by intros [t ?]. Qed.

Lemma is_link_some n : is_link (Some n) <-> exists t, nd_kind n = Symlink t.
Proof. split; intros [t E]; exists t; [by injection E|by simpl; rewrite E]. Qed.

Lemma not_link_plain d q : ~ link d q -> plain d q.
Proof. intros Hn t E. apply Hn. left. by exists t. Qed.

(** The nodes of the new disk come from the old one or are no links. *)
Lemma shrinks_files d fs :
  (forall q n, fs !! q = Some n -> (exists t, nd_kind n = Symlink t) -> link d q) -> shrinks d (with_files fs d).
Proof.
  intros Hfs q [Hq|Hm]; [|by right]. simpl in Hq. destruct (fs !! q) as [n|] eqn:E; [|by destruct (is_link_none Hq)].
  by eapply Hfs, is_link_some.
Qed.

Lemma file_link d q n : files d !! q = Some n -> (exists t, nd_kind n = Symlink t) -> link d q.
Proof. intros E Hk. left. rewrite E. by apply is_link_some. Qed.

Lemma insert_shrinks d p n : (forall t, nd_kind n = Symlink t -> link d p) -> shrinks d (with_files (<[p := n]> (files d)) d).
Proof.
  intros Hn. apply shrinks_files. intros q n' [[<- <-]|[_ E]]%lookup_insert_Some [t Ht]; [by eapply Hn|].
  by eapply file_link; [|exists t].
Qed.

Section Calls.
Context (f : Faults).

Lemma put_contents_shrinks p c perms d : shrinks d (put_contents p c perms d).2.
Proof.
  unfold put_contents. destruct (resolve d p) as [q|]; [|reflexivity].
  destruct (files d !! q) as [[[]]|]; simpl; try reflexivity; by apply insert_shrinks.
Qed.

Lemma change_node_shrinks g p d : (forall n, nd_kind (g n) = nd_kind n) -> shrinks d (change_node g p d).2.
Proof.
  intros Hg. unfold change_node. destruct (resolve d p) as [q|]; [|reflexivity].
  destruct (files d !! q) as [n|] eqn:E; [|reflexivity]. apply insert_shrinks. intros t Ht.
  eapply file_link; [exact E|]. exists t. by rewrite <- Hg.
Qed.

Lemma fs_permissions_shrinks p m d : shrinks d (fs_permissions f p m d).2.
Proof. unfold fs_permissions. destruct (permissions_error f); [reflexivity|by apply change_node_shrinks]. Qed.

Lemma sys_chown_shrinks p d : shrinks d (sys_chown f p d).2.
Proof. unfold sys_chown. destruct (chown_error f); [reflexivity|by apply change_node_shrinks]. Qed.

Lemma finish_permissions_shrinks p perms d : shrinks d (finish_permissions f p perms d).2.
Proof.
  unfold finish_permissions. destruct perms as [m|]; [|reflexivity].
  pose proof (fs_permissions_shrinks p m d). by destruct (fs_permissions f p m d) as [[]].
Qed.

Lemma fs_copy_file_shrinks from to d : shrinks d (fs_copy_file f from to d).2.
Proof.
  unfold fs_copy_file. destruct (node_at d from) as [[[c| |t] m o]|]; simpl; try reflexivity.
  pose proof (fun c => put_contents_shrinks to c m d) as Hput.
  destruct (copy_error f); simpl; [by destruct (copied_before f); simpl|].
  specialize (Hput c). destruct (put_contents to c m d) as [[e|] d1]; simpl in *; [done|].
  etrans; [exact Hput|by apply change_node_shrinks].
Qed.

Lemma fs_remove_shrinks p d : shrinks d (fs_remove f p d).2.
Proof.
  unfold fs_remove. destruct (remove_error f); [reflexivity|]. apply shrinks_files.
  intros q n [_ E]%lookup_delete_Some. by apply file_link.
Qed.

Lemma fs_create_directories_shrinks p d : shrinks d (fs_create_directories f p d).2.
Proof.
  unfold fs_create_directories. repeat case_match; simpl; try reflexivity; by apply insert_shrinks.
Qed.

Lemma keep_paths_shrinks P d : shrinks d (with_files (keep_paths P (files d)) d).
Proof.
  apply shrinks_files. intros q n. rewrite keep_paths_lookup. destruct (P q); [|done]. by apply file_link.
Qed.

Lemma fs_remove_all_shrinks p d : shrinks d (fs_remove_all f p d).2.
Proof. unfold fs_remove_all. destruct (remove_error f); apply keep_paths_shrinks. Qed.

Lemma sys_mount_shrinks p options d : shrinks d (sys_mount f p options d).2.
Proof.
  unfold sys_mount. destruct (mount_error f); [reflexivity|]. destruct (resolve d p) as [r|]; [|reflexivity].
  destruct (files d !! r) as [[[] m o]|]; simpl; try reflexivity. intros q [Hq|(mt & Hm & Hq)]; simpl in *.
  - left. destruct (decide (q = r)) as [->|Hne]; [rewrite lookup_insert_eq in Hq; by destruct Hq|].
    rewrite lookup_insert_ne, outside_lookup in Hq by done. destruct (below r q); [by destruct (is_link_none Hq)|done].
  - apply elem_of_cons in Hm as [->|Hm]; [|right; by exists mt]. left. simpl in Hq. rewrite subtree_lookup in Hq.
    destruct (below r q); [done|by destruct (is_link_none Hq)].
Qed.

Lemma sys_umount_shrinks p d : shrinks d (sys_umount f p d).2.
Proof.
  unfold sys_umount. destruct (mount_error f); [reflexivity|]. destruct (resolve d p) as [r|]; [|reflexivity].
  destruct (existsb _ _); [reflexivity|]. destruct (pop_mount r (mounts d)) as [[m l]|] eqn:E; [|reflexivity].
  apply pop_mount_spec in E as (_ & l1 & l2 & El & ->). intros q [Hq|(mt & Hm & Hq)]; simpl in *.
  - destruct ((subtree r (mt_hidden m) ∪ outside r (files d)) !! q) as [n|] eqn:Eq; [|by destruct (is_link_none Hq)].
    apply lookup_union_Some_raw in Eq as [Eq|[_ Eq]].
    + right. exists m. rewrite El. split; [set_solver|]. rewrite subtree_lookup in Eq.
      destruct (below r q); [by rewrite Eq|done].
    + left. rewrite outside_lookup in Eq. destruct (below r q); [done|by rewrite Eq].
  - right. exists mt. split; [|done]. rewrite El. set_solver.
Qed.
End Calls.

(** ** Moving *)

(** No link moves with it. *)
Definition movable (d : Disk) (p : string) : Prop := is_regular d p \/ forall q, below p q = true -> ~ link d q.

Lemma movable_plain d p : movable d p -> plain d p.
Proof.
  intros [(n & c & E & K)|Hn]; [by eapply plain_regular|]. apply not_link_plain, Hn, below_refl.
Qed.

Lemma fs_rename_shrinks f from to d : movable d from -> shrinks d (fs_rename f from to d).2.
Proof.
  intros Hm. unfold fs_rename. destruct (rename_error f); [reflexivity|].
  destruct (files d !! from) as [n|] eqn:E; [|reflexivity].
  assert (Hd : shrinks d (with_files (match nd_kind n with
      | Directory => transplant from to (files d) ∪ outside from (outside to (files d))
      | _ => <[to := n]> (delete from (files d)) end) d)).
  { apply shrinks_files. intros q n' E' Hk. destruct (nd_kind n) eqn:En.
    1,3: apply lookup_insert_Some in E' as [[_ <-]|[_ [_ E']%lookup_delete_Some]]; [|by eapply file_link].
    - destruct Hk as [t Ht]. congruence.
    - exfalso. apply (movable_plain d from Hm target). rewrite E. simpl. by rewrite En.
    - apply lookup_union_Some_raw in E' as [E'|[_ E']].
      + rewrite transplant_lookup in E'. destruct (suffix_below to q) as [t|] eqn:Et; [|done].
        apply suffix_below_spec in Et as [_ Ht]. exfalso. destruct Hm as [(n2 & c & E2 & K2)|Hn]; [congruence|].
        apply (Hn (from +:+ t)); [apply below_spec; by exists t|]. by eapply file_link.
      + rewrite !outside_lookup in E'. destruct (below from q), (below to q); try done. by eapply file_link. }
  revert Hd. repeat case_match; simpl; intros Hd; first [reflexivity | exact Hd].
Qed.

Lemma Move_shrinks f from to perms d : movable d from -> shrinks d (Move f from to perms d).2.
Proof.
  intros Hm. unfold Move. pose proof (fs_rename_shrinks f from to d Hm) as Hs.
  destruct (fs_rename f from to d) as [[e|] d1]; simpl in Hs.
  - destruct (negb (e =? EXDEV)); [done|]. pose proof (fs_copy_file_shrinks f from to d1) as Hs1.
    destruct (fs_copy_file f from to d1) as [[e1|] d2]; simpl in *; [by etrans|].
    pose proof (fs_remove_shrinks f from d2) as Hs2. destruct (fs_remove f from d2) as [e2 d3]. simpl in Hs2.
    etrans; [exact Hs|]. etrans; [exact Hs1|]. etrans; [exact Hs2|]. apply finish_permissions_shrinks.
  - etrans; [exact Hs|]. apply finish_permissions_shrinks.
Qed.

(** ** Events *)

(** Nothing is moved but what is no link. *)
Definition moves_no_link (d : Disk) (e : Event) : Prop :=
  match e with EvMove from _ _ => movable d from | _ => True end.

Lemma event_shrinks f e d d' : moves_no_link d e -> event_effect f e d = Done d' -> shrinks d d'.
Proof.
  intros Hm. destruct e; cbn [event_effect]; try (by intros [= <-]); try (intros [= <-]).
  - unfold CreateDirs. pose proof (fs_create_directories_shrinks f (trim_slash path) d) as Hs.
    destruct (fs_create_directories f (trim_slash path) d) as [[e|] d1]; [done|].
    etrans; [exact Hs|apply finish_permissions_shrinks].
  - unfold Copy. pose proof (fs_copy_file_shrinks f from to d) as Hs.
    destruct (fs_copy_file f from to d) as [[e|] d1]; [done|]. etrans; [exact Hs|apply finish_permissions_shrinks].
  - by apply Move_shrinks.
  - unfold RemoveAll. pose proof (fs_remove_all_shrinks f path d). by destruct (fs_remove_all f path d) as [[]].
  - unfold MountTmpfs. pose proof (sys_mount_shrinks f path ("size=" +:+ to_string size_kib +:+ "k") d).
    by destruct (sys_mount f path _ d) as [[]].
  - unfold Umount. pose proof (sys_umount_shrinks f path d). by destruct (sys_umount f path d) as [[]].
  - pose proof (fs_permissions_shrinks f path perms d) as Hs. destruct (fs_permissions f path perms d) as [[e|] d1]; [done|].
    by intros [= <-].
  - apply sys_chown_shrinks.
  - unfold WriteFile. destruct (write_error f); [reflexivity|apply put_contents_shrinks].
Qed.

(** [G] holds of paths that are no links; then the operation follows none and
    moves none. *)
Definition calm (G : string -> Prop) (e : Event) : Prop :=
  match e with
  | EvCreateDirs p _ => G (trim_slash p)
  | EvCopy _ to _ => G to
  | EvMove from to _ => G to /\ forall q, below from q = true -> G q
  | EvMountTmpfs p _ | EvUmount p | EvPermissions p _ | EvChownRoot p | EvWrite p _ => G p
  | _ => True
  end.

Definition link_free (G : string -> Prop) (d : Disk) : Prop := forall q, G q -> ~ link d q.

Lemma link_free_shrinks G d d' : link_free G d -> shrinks d d' -> link_free G d'.
Proof. intros Hg Hs q Hq Hl. by apply (Hg q Hq), Hs. Qed.

Lemma calm_safe G e d : link_free G d -> calm G e -> event_safe d e /\ moves_no_link d e.
Proof.
  intros Hg Hc. assert (Hp : forall q, G q -> plain d q) by (intros q Hq; by apply not_link_plain, Hg).
  destruct e; simpl in *; auto. destruct Hc as [Hto Hfrom]. split; [|right; intros q Hq; by apply Hg, Hfrom].
  split; [by apply Hp|]. intros _. apply Hp, Hfrom, below_refl.
Qed.

Lemma calm_events G f es d : Forall (calm G) es -> link_free G d ->
  events_safe f es d /\ forall d', apply_events f es d = Done d' -> shrinks d d'.
Proof.
  intros He. revert f d. induction He as [|e es He _ IH]; intros f d Hg; [split; [done|by intros d' [= <-]]|].
  destruct (calm_safe G e d Hg He) as [Hs Hm].
  assert (Hd : forall d1, event_effect (f O) e d = Done d1 -> shrinks d d1) by (intros d1; by apply event_shrinks).
  split.
  - split; [done|]. intros d1 E. apply (IH (fun i => f (S i)) d1). eapply link_free_shrinks; [exact Hg|by apply Hd].
  - intros d' E. cbn [apply_events] in E. destruct (event_effect (f O) e d) as [d1|] eqn:E1; [|done].
    etrans; [by apply Hd|]. apply (IH (fun i => f (S i)) d1); [|done]. eapply link_free_shrinks; [exact Hg|by apply Hd].
Qed.

Lemma calm_mono (G G' : string -> Prop) e : (forall q, G q -> G' q) -> calm G e -> calm G' e.
Proof. intros Hi. destruct e; simpl; auto. intros [Hto Hfrom]. split; auto. Qed.

(** An operation that stays in a region without links is calm. *)
Lemma within_calm R (G : string -> Prop) e : closed R -> (forall q, R q = true -> G q) -> within R e -> calm G e.
Proof.
  intros Hc Hg. unfold within. rewrite Forall_forall. intros Hw.
  destruct e; simpl in *; auto using list_elem_of_here.
  all: try (apply Hg, Hw; by left).
  split; [apply Hg, Hw; by right; left|]. intros q Hq. apply Hg. eapply Hc; [|exact Hq]. apply Hw. by left.
Qed.

(** ** Mounts *)

Lemma event_mounts f e d d' m : event_safe d e -> event_effect f e d = Done d' -> m ∈ mounts d' ->
  m ∈ mounts d \/ exists size, e = EvMountTmpfs (mt_path m) size.
Proof.
  intros Hs. destruct e; cbn [event_effect]; try (intros [= <-]; by left); try (intros [= <-]).
  - rewrite CreateDirs_mounts. by left.
  - rewrite Copy_mounts. by left.
  - rewrite Move_mounts. by left.
  - rewrite RemoveAll_mounts. by left.
  - intros [Hm|<-]%MountTmpfs_mounts; [by left|right; by eexists|done].
  - intros Hm%Umount_mounts. by left.
  - pose proof (fs_permissions_mounts f path perms d) as E. destruct (fs_permissions f path perms d) as [[e|] d1]; [done|].
    intros [= <-]. simpl in E. rewrite E. by left.
  - unfold sys_chown. destruct (chown_error f); [by left|]. rewrite change_node_mounts. by left.
  - unfold WriteFile. destruct (write_error f); [by left|]. rewrite put_contents_mounts. by left.
Qed.

(** The mounts after operations that mount only at [p]. *)
Lemma events_mounts p f es d d' m : events_safe f es d -> Forall (fun e => forall q size, e = EvMountTmpfs q size -> q = p) es ->
  apply_events f es d = Done d' -> m ∈ mounts d' -> m ∈ mounts d \/ mt_path m = p.
Proof.
  revert f d. induction es as [|e es IH]; intros f d Hs He E Hm; [left; by injection E as <-|].
  apply Forall_cons in He as [He Hes]. destruct Hs as [Hs Hss]. simpl in E.
  destruct (event_effect (f O) e d) as [d1|] eqn:E1; [|done].
  destruct (IH (fun i => f (S i)) d1 (Hss d1 eq_refl) Hes E Hm) as [Hm1|?]; [|by right].
  destruct (event_mounts _ e d d1 m Hs E1 Hm1) as [?|[size Hx]]; [by left|right]. by eapply He.
Qed.

(** ** Unused directories *)

(** An empty box: nothing there, and nothing hidden there by a mount. *)
Record fresh_box (p : string) (d : Disk) : Prop := {
  fb_files : forall q, below p q = true -> files d !! q = None;
  fb_mounts : forall m, m ∈ mounts d -> below p (mt_path m) = false;
}.

(** An empty box that no mount hides a link in. *)
Definition unused (p : string) (d : Disk) : Prop := fresh_box p d /\ forall q, below p q = true -> ~ link d q.

Lemma unused_below p p' d : below p p' = true -> unused p d -> unused p' d.
Proof.
  intros Hp [[Hf Hm] Hl]. assert (Ht : forall q, below p' q = true -> below p q = true) by (intros q; by apply below_trans).
  split; [split|]; [auto| |auto]. intros m Hin. apply not_true_is_false. intros Hx%Ht. by rewrite (Hm m Hin) in Hx.
Qed.

(** What leaves the files and the mounts of the directory, and makes no link there,
    leaves it unused. *)
Lemma unused_kept p d d' : unused p d ->
  (forall q, below p q = true -> files d' !! q = files d !! q /\
     (forall mt, mt_path mt = q -> (mt ∈ mounts d' <-> mt ∈ mounts d))) ->
  (forall q, below p q = true -> link d' q -> link d q) -> unused p d'.
Proof.
  intros [[Hf Hm] Hl] Hk Hs. split; [split|].
  - intros q Hq. rewrite (proj1 (Hk q Hq)). by apply Hf.
  - intros m Hin. apply not_true_is_false. intros Hx. apply (proj2 (Hk _ Hx) m eq_refl) in Hin. by rewrite (Hm m Hin) in Hx.
  - intros q Hq Hx. by apply (Hl q Hq), Hs.
Qed.

(** Where nodes and mounts are the same, so are the links. *)
Lemma link_same d d' q : files d' !! q = files d !! q -> mounts d' = mounts d -> link d' q -> link d q.
Proof. intros E M. unfold link. by rewrite E, M. Qed.
