(* ===== verification/Lifecycle.v ===== *)
(** * The life of a task and its box

    A task waits in the graph, runs, and is removed.  Steps of the work loop only move
    tasks along this way, and the task a step is about owns no box of another task
    that is still in the graph. *)

From S2P Require Import Prelude Enums Text Paths CNum Scores Data FileOps FilesSpec TaskGraph State Push PushBuild PushRows PushGraph Handlers HandlerFacts WorkLoop LoopInv LoopSafe Effects EffectsSpec Isolation.

Section Boxes.
Context `{PathRoots}.

Lemma box_path_inj b b' : box_valid b -> box_valid b' -> box_path b = box_path b' -> b = b'.
Proof.
  intros Hv Hv' E. apply (boxes_disjoint b b' (box_path b)); try done; [by left|]. rewrite E. by left.
Qed.

Definition entry_box (e : TaskEntry) : Box := task_box (te_submission_internal_id e) (te_task e).

Lemma entry_box_id e : box_id (entry_box e) = te_submission_internal_id e.
Proof. unfold entry_box, task_box. by destruct (tk_type (te_task e)). Qed.

(** The other boxes an execution or a scoring may change. *)
Definition earlier_boxes (id : Z) (task : Task) : list Box :=
  let td := tk_subtask task in
  let stage := tk_stage task in
  match tk_type task with
  | EXECUTE => if 0 <? stage then [BoxExecute id td (stage - 1)] else []
  | SCORING => BoxExecute id td stage :: (if 0 <? stage then [BoxScoring id td (stage - 1)] else [])
  | _ => []
  end.

Lemma task_dirs_boxes sub id task : expected sub task -> tk_type task <> SUMMARY ->
  task_dirs id task = map box_path (task_box id task :: earlier_boxes id task).
Proof.
  intros Hx Hn. unfold task_dirs, task_box, earlier_boxes. destruct (tk_type task) eqn:E; try done.
  - pose proof (expected_subtask sub task Hx E). by destruct (CompileSubtask_of_Z (tk_subtask task)).
  - simpl. by destruct (0 <? tk_stage task).
  - simpl. by destruct (0 <? tk_stage task).
Qed.

Lemma task_box_inj sub id x y : expected sub x -> expected sub y -> task_box id x = task_box id y -> x = y.
Proof.
  unfold expected, task_box. destruct x as [[] i j], y as [[] i' j']; simpl; try done.
  - intros (s & [= -> ->] & _) (s' & [= -> ->] & _). rewrite !CompileSubtask_of_to_Z. by intros [= ->].
  - by intros _ _ [= -> ->].
  - by intros _ _ [= -> ->].
  - by intros -> ->.
Qed.

(** What owns an earlier box has to be finished first. *)
Lemma earlier_depends sub id x y : expected sub x -> expected sub y -> task_box id y ∈ earlier_boxes id x ->
  depends_on sub x y.
Proof.
  unfold expected, task_box, earlier_boxes, depends_on, judging, rank.
  destruct x as [[] i j], y as [[] i' j']; simpl; intros Hx Hy Hin; do 4 right.
  all: try (by apply elem_of_nil in Hin).
  all: destruct (0 <? j) eqn:Ej; rewrite ?elem_of_cons, ?elem_of_nil in Hin.
  all: repeat destruct Hin as [Hin|Hin]; try done; injection Hin as -> ->.
  all: split_and!; try (by left); try (by right); lia.
Qed.

Lemma earlier_valid id task b : task_ok id task -> b ∈ earlier_boxes id task -> box_valid b.
Proof.
  intros (Hid & Htd & Hst). unfold earlier_boxes. destruct (tk_type task), (0 <? tk_stage task) eqn:E;
    rewrite ?elem_of_cons, ?elem_of_nil; intros Hb; repeat destruct Hb as [->|Hb]; try done; simpl; lia.
Qed.

(** A task that can run owns no box of another one. *)
Lemma others_spared s running t e t' e' : judge_inv s running -> ids_ok s ->
  task_list (graph s) !! t = Some e -> te_indeg e = 0 -> task_list (graph s) !! t' = Some e' -> t' <> t ->
  spares (entry_box e') (te_submission_internal_id e) (te_task e).
Proof.
  intros Hj Hi Ht Hz Ht' Hne. destruct (decide (te_submission_internal_id e = te_submission_internal_id e')) as [Eid|];
    [|left; by rewrite entry_box_id].
  destruct (inv_known s running t e Hj Hi Ht) as [sr Hk], (inv_known s running t' e' Hj Hi Ht') as [sr' Hk'].
  assert (sr' = sr) as -> by (pose proof (tn_sub _ _ _ _ Hk) as E; rewrite Eid, (tn_sub _ _ _ _ Hk') in E; by injection E).
  assert (Hx := tn_expected _ _ _ _ Hk). assert (Hx' := tn_expected _ _ _ _ Hk'). assert (Hsr := tn_sub _ _ _ _ Hk).
  destruct (task_known_ok _ _ _ _ Hk) as [_ Hok]. destruct (task_box_owned _ _ _ _ Hk) as [Hv _], (task_box_owned _ _ _ _ Hk') as [Hv' _].
  assert (Hn : tk_type (te_task e) <> SUMMARY).
  { intros E. apply Hne. apply (summary_last s running t e t' e'); try done. unfold expected in Hx. by rewrite E in Hx. }
  right. split; [done|]. rewrite (task_dirs_boxes (sr_sub sr)) by done. unfold entry_box. rewrite <- Eid in *.
  intros (b & E & [->|Hin]%list_elem_of_In%elem_of_cons)%list_elem_of_In%in_map_iff.
  - apply box_path_inj in E; [|done|done]. apply Hne.
    eapply (sg_uniq _ _ _ (ss_graph _ _ _ (ji_sub _ _ Hj _ _ Hsr)) t' e' t e); try done. by eapply task_box_inj.
  - apply box_path_inj in E; [|by eapply earlier_valid|done]. subst b.
    eapply (depends_gone s running t e t' e' sr); try done. by eapply earlier_depends.
Qed.
End Boxes.

(** ** Steps of the work loop *)

(** The tasks and submissions of the second state are those of the first. *)
Record same_work (s s' : Judge) : Prop := {
  sw_entries : forall u e', task_list (graph s') !! u = Some e' -> exists e, task_list (graph s) !! u = Some e /\
    te_task e' = te_task e /\ te_submission_internal_id e' = te_submission_internal_id e;
  sw_subs : forall k sr', submission_list s' !! k = Some sr' -> exists sr, submission_list s !! k = Some sr /\
    sr_sub sr' = sr_sub sr;
}.

#[export] Instance same_work_refl : Reflexive same_work.
Proof. split; eauto. Qed.

Lemma reported_subs s s' : quiet s s' \/ finished s s' -> forall k sr', submission_list s' !! k = Some sr' ->
  exists sr, submission_list s !! k = Some sr /\ sr_sub sr' = sr_sub sr.
Proof.
  intros Hq k sr' Hk. destruct Hq as [[Hl _ _]|(key & _ & _ & _ & Hl & _)]; specialize (Hl k); rewrite Hk in Hl.
  2: destruct (decide (k = key)); [done|].
  all: destruct (submission_list s !! k) as [sr|]; [|done]; injection Hl as Hl; by exists sr.
Qed.

Lemma removed_work s s' running t : removed s s' running t -> same_work s s'.
Proof. intros Hr. split; [apply Hr|by apply reported_subs, Hr]. Qed.

(** The task a step is about. *)
Definition action_task (s : Judge) (a : action) : option Z :=
  match a with
  | Dispatch _ t _ => Some t
  | Finish _ h _ => handle_map s !! h
  | _ => None
  end.

Section Steps.
Context `{PathRoots} `{Config} `{JsonText} (kMaxParallel : Z) (Hpar : 0 < kMaxParallel).

(** Running tasks are those that were running and the one dispatched; the task of
    the step has started or is gone. *)
Record advanced (s s' : Judge) (a : action) : Prop := {
  ad_work : same_work s s';
  ad_running : forall u, u ∈ handle_tasks s' -> u ∈ handle_tasks s \/ exists env h, a = Dispatch env u h;
  ad_waiting : forall u, u ∈ handle_tasks s -> u ∈ handle_tasks s' \/ action_task s a = Some u;
  ad_task : forall t, action_task s a = Some t ->
    (t ∈ handle_tasks s' /\ exists env h, a = Dispatch env t h) \/ task_list (graph s') !! t = None;
}.

Lemma dispatch_advanced l env t h l' : loop_inv kMaxParallel l -> enabled kMaxParallel l (Dispatch env t h) ->
  perform l (Dispatch env t h) = Done l' -> advanced (lp_judge l) (lp_judge l') (Dispatch env t h).
Proof using Hpar.
  intros [Hj _ _ _ _] (_ & _ & (Htop & _) & Hh) Hp. destruct (running_entry _ _ t Hj) as (e & He & _); [set_solver|].
  set (s := lp_judge l) in *. pose proof (pop_inv s _ t Hj Htop) as Hj1.
  pose proof (DispatchTask_inv env (pop_task t s) (handle_tasks s) t e h Hj1 He) as Hd.
  simpl in Hp. unfold run in Hp. fold s in Hp. unfold mbind, M_bind, modify in Hp.
  destruct (DispatchTask env h t (pop_task t s)) as [[[] s1]|]; [| |done]; injection Hp as <-; cbn [lp_judge].
  - destruct Hd as (_ & Em & Eg & _ & _ & Hq).
    assert (Hperm : handle_tasks s1 ≡ₚ t :: handle_tasks s) by (unfold handle_tasks; rewrite Em; by apply (handle_tasks_insert s)).
    split.
    + split; [rewrite Eg; eauto|]. exact (reported_subs (pop_task t s) s1 (or_introl Hq)).
    + intros u. rewrite Hperm. intros [->|Hu]%elem_of_cons; [right; by exists env, h|by left].
    + intros u Hu. left. rewrite Hperm. by right.
    + intros u [= ->]. left. split; [rewrite Hperm; by left|by exists env, h].
  - assert (Eh : handle_tasks s1 = handle_tasks s) by (unfold handle_tasks; by rewrite (rm_handle _ _ _ _ Hd)).
    split; rewrite ?Eh; auto.
    + destruct (removed_work _ _ _ _ Hd) as [A B]. by split.
    + intros u [= <-]. right. by apply Hd.
Qed.

Lemma finish_advanced l env h res l' : loop_inv kMaxParallel l -> enabled kMaxParallel l (Finish env h res) ->
  perform l (Finish env h res) = Done l' -> advanced (lp_judge l) (lp_judge l') (Finish env h res).
Proof using Hpar.
  intros [Hj _ _ Hsc _] (_ & t & Ht) Hp. set (s := lp_judge l) in *.
  pose proof (handle_tasks_delete s h t Ht) as Hperm. set (s1 := set_handle_map (delete h (handle_map s)) s) in *.
  assert (Hj1 : judge_inv s1 (t :: handle_tasks s1)).
  { apply (judge_inv_perm s1 (handle_tasks s)); [exact Hperm|].
    destruct Hj as [A1 A2 A3 A4 A5]. split; try done. intros key x Hx. destruct (A5 key x Hx). by split. }
  destruct (running_entry s1 _ t Hj1) as (e & He & _); [set_solver|].
  assert (Hst : scoring_ok s1 t) by (apply (Hsc t); unfold handle_tasks; rewrite Hperm; by left).
  simpl in Hp. unfold run in Hp. fold s in Hp. unfold mbind, M_bind, WaitTask in Hp. unfold mbind, M_bind, get, modify in Hp.
  rewrite Ht in Hp. simpl in Hp. fold s1 in Hp.
  pose proof (FinalizeTask_inv env s1 (handle_tasks s1) t e res false Hj1 He ltac:(discriminate) (fun _ => Hst)) as Hf.
  destruct (FinalizeTask env t res false s1) as [[[] s2]|]; [|done]. injection Hp as <-. cbn [lp_judge].
  assert (Eh : handle_tasks s2 = handle_tasks s1) by (unfold handle_tasks; by rewrite (rm_handle _ _ _ _ Hf)).
  assert (Hs : handle_tasks s ≡ₚ t :: handle_tasks s2) by (rewrite Eh; exact Hperm).
  split.
  - destruct (removed_work _ _ _ _ Hf) as [A B]. by split.
  - intros u Hu. left. rewrite Hs. by right.
  - intros u. rewrite Hs. intros [->|Hu]%elem_of_cons; [by right|by left].
  - simpl. intros u Hu. right. assert (u = t) as -> by congruence. by apply Hf.
Qed.

Lemma step_advanced l a l' : loop_inv kMaxParallel l -> enabled kMaxParallel l a -> perform l a = Done l' ->
  is_push a = false -> advanced (lp_judge l) (lp_judge l') a.
Proof using Hpar.
  intros Hl He Hp Hn. destruct a; try done; try (injection Hp as <-; split; [reflexivity|auto..|done]).
  - by eapply dispatch_advanced.
  - by eapply finish_advanced.
Qed.
End Steps.

(** ** Steps of the machine *)

Section Machine.
Context `{PathRoots} `{Config} `{JsonText} (kMaxParallel : Z).

(** The task a step of the judge is about, and that it can run. *)
Lemma step_task l a t : loop_inv kMaxParallel l -> ids_ok (lp_judge l) -> enabled kMaxParallel l a ->
  action_task (lp_judge l) a = Some t -> exists e sr, task_known (lp_judge l) t e sr /\ te_indeg e = 0.
Proof.
  intros Hl Hi He Ha. pose proof (li_judge _ _ Hl) as Hj.
  assert (Hin : t ∈ task_queue (graph (lp_judge l)) ++ handle_tasks (lp_judge l)).
  { destruct a; try done; simpl in Ha.
    - destruct He as (_ & _ & (Htop & _) & _). injection Ha as <-. set_solver.
    - apply elem_of_app. right. unfold handle_tasks. apply list_elem_of_fmap. exists (handle, t). split; [done|].
      by apply elem_of_map_to_list. }
  destruct (running_entry _ _ t Hj Hin) as (e & Ht & Hz). destruct (inv_known _ _ t e Hj Hi Ht) as [sr Hk]. by exists e, sr.
Qed.

Lemma queue_waits l t : loop_inv kMaxParallel l -> t ∈ task_queue (graph (lp_judge l)) -> t ∉ handle_tasks (lp_judge l).
Proof.
  intros Hl Ht Hh. pose proof (ro_nodup _ _ (ji_ready _ _ (li_judge _ _ Hl))) as Hnd.
  apply NoDup_app in Hnd as (_ & Hd & _). by eapply Hd.
Qed.

(** The disk of a step. *)
Lemma step_disk m a headers f m' : machine_step kMaxParallel m (LJudge a headers f) m' ->
  enabled kMaxParallel (mc_loop m) a /\ (forall env, action_env a = Some env -> env = env_of headers (mc_disk m)) /\
  perform (mc_loop m) a = Done (mc_loop m') /\
  apply_events f (drop (length (trace (lp_judge (mc_loop m)))) (trace (lp_judge (mc_loop m')))) (mc_disk m) = Done (mc_disk m').
Proof. intros Hs. inversion Hs; subst. simpl. by split_and!. Qed.

(** A dispatched task that is still there has been set up. *)
Lemma dispatch_run l env t h l' e : loop_inv kMaxParallel l -> enabled kMaxParallel l (Dispatch env t h) ->
  task_list (graph (lp_judge l)) !! t = Some e -> perform l (Dispatch env t h) = Done l' ->
  task_list (graph (lp_judge l')) !! t <> None ->
  exists s1, SetupTask env (te_submission_internal_id e) (te_task e) (pop_task t (lp_judge l)) = Done (true, s1) /\
    trace (lp_judge l') = trace s1 ++ [EvRunTask (te_submission_internal_id e) (te_task e) h].
Proof.
  intros Hl He Ht Hp Hh. destruct He as (_ & _ & (Htop & _) & Hnone). pose proof (pop_inv _ _ t (li_judge _ _ Hl) Htop) as Hj.
  set (s0 := pop_task t (lp_judge l)) in *. assert (Ht0 : task_list (graph s0) !! t = Some e) by done.
  pose proof (DispatchTask_inv env s0 _ t e h Hj Ht0) as Hd.
  simpl in Hp. unfold run in Hp. unfold mbind at 1, M_bind at 1, modify in Hp. fold s0 in Hp.
  destruct (DispatchTask env h t s0) as [[b s2]|] eqn:Ed; [|done]. injection Hp as <-. simpl in Hh.
  destruct b; [|by rewrite (rm_gone _ _ _ _ Hd) in Hh].
  unfold DispatchTask in Ed. unfold mbind at 1, M_bind at 1, get at 1 in Ed. rewrite Ht0 in Ed.
  unfold mbind at 1, M_bind at 1 in Ed. simpl or_crash in Ed. unfold mret at 1, M_ret at 1 in Ed.
  unfold mbind at 1, M_bind at 1 in Ed.
  destruct (SetupTask env _ _ s0) as [[[] s1]|] eqn:E; [| |done].
  - exists s1. split; [done|]. unfold mbind, M_bind, emit, modify, mret, M_ret in Ed. simpl in Ed. by injection Ed as <-.
  - unfold mbind, M_bind in Ed. simpl in Ed. by destruct (FinalizeTask env t zero_cjail_result true s1) as [[]|].
Qed.

Lemma running_known l h id task : loop_inv kMaxParallel l -> ids_ok (lp_judge l) ->
  running_task (lp_judge l) h = Some (id, task) -> exists t e sr,
    handle_map (lp_judge l) !! h = Some t /\ task_known (lp_judge l) t e sr /\
    te_submission_internal_id e = id /\ te_task e = task /\ is_int id.
Proof.
  intros Hl Hi. unfold running_task, entry_task. destruct (handle_map (lp_judge l) !! h) as [t|] eqn:Eh; [|done]. simpl.
  destruct (task_list (graph (lp_judge l)) !! t) as [e|] eqn:Ee; [|done]. intros [= <- <-].
  destruct (inv_known _ _ t e (li_judge _ _ Hl) Hi Ee) as [sr Hk]. exists t, e, sr.
  destruct (Hi _ _ (tn_sub _ _ _ _ Hk)) as (_ & ? & _). by split_and!.
Qed.

Lemma in_handle_tasks s h t : handle_map s !! h = Some t -> t ∈ handle_tasks s.
Proof. intros Ht. apply list_elem_of_fmap. exists (h, t). split; [done|]. by apply elem_of_map_to_list. Qed.

(** A task that runs depends on nothing any more. *)
Lemma running_indeg l t e : loop_inv kMaxParallel l -> t ∈ handle_tasks (lp_judge l) ->
  task_list (graph (lp_judge l)) !! t = Some e -> te_indeg e = 0.
Proof.
  intros Hl Ht He. destruct (running_entry _ _ t (li_judge _ _ Hl)) as (e' & He' & Hz); [set_solver|]. congruence.
Qed.

(** What a step can have to do with a task [t] that is there before and after it:
    it is about another task that runs, or none; it is one of [t]'s program; or it
    starts [t]. *)
Definition about_other (m : Machine) (lab : mlabel) (t : Z) : Prop :=
  forall id task, label_task (mc_loop m) lab = Some (id, task) -> exists t0 e0, t0 <> t /\
    task_list (graph (lp_judge (mc_loop m))) !! t0 = Some e0 /\ te_indeg e0 = 0 /\
    te_submission_internal_id e0 = id /\ te_task e0 = task.

Lemma step_kinds m lab m' t : 0 < kMaxParallel -> loop_inv kMaxParallel (mc_loop m) -> ids_ok (lp_judge (mc_loop m)) ->
  machine_step kMaxParallel m lab m' -> task_list (graph (lp_judge (mc_loop m'))) !! t <> None ->
  about_other m lab t \/ (exists h, lab = LProgram h /\ handle_map (lp_judge (mc_loop m)) !! h = Some t) \/
  (exists env h headers f, lab = LJudge (Dispatch env t h) headers f /\ t ∈ handle_tasks (lp_judge (mc_loop m'))).
Proof.
  intros Hpar Hl Hi Hs Ht. destruct lab as [a headers f|h|]; [| |by left].
  - apply step_disk in Hs as (He & _ & Hp & _). destruct (is_push a) eqn:Ea; [left; by destruct a|].
    pose proof (step_advanced kMaxParallel Hpar (mc_loop m) a (mc_loop m') Hl He Hp Ea) as Hadv.
    destruct (decide (action_task (lp_judge (mc_loop m)) a = Some t)) as [E|Hne].
    + destruct (ad_task _ _ _ Hadv t E) as [[Hin (env & h & ->)]|Hx]; [right; right; by exists env, h, headers, f|done].
    + left. intros id task Hlab. assert (Hx : exists t0 e0, action_task (lp_judge (mc_loop m)) a = Some t0 /\
        task_list (graph (lp_judge (mc_loop m))) !! t0 = Some e0 /\ te_submission_internal_id e0 = id /\ te_task e0 = task).
      { destruct a; try done; simpl in Hlab; unfold running_task, entry_task in Hlab; simpl.
        - destruct (task_list _ !! t0) as [e0|] eqn:E0; [|done]. injection Hlab as <- <-. by exists t0, e0.
        - destruct (handle_map _ !! handle) as [t0|]; [|done]. simpl in Hlab.
          destruct (task_list _ !! t0) as [e0|] eqn:E0; [|done]. injection Hlab as <- <-. by exists t0, e0. }
      destruct Hx as (t0 & e0 & Hat & He0 & Eid & Et). exists t0, e0.
      destruct (step_task _ a t0 Hl Hi He Hat) as (e1 & sr & Hk & Hz).
      pose proof (tn_entry _ _ _ _ Hk) as E1. rewrite He0 in E1. injection E1 as <-. split_and!; try done. congruence.
  - destruct (decide (handle_map (lp_judge (mc_loop m)) !! h = Some t)) as [E|Hne]; [right; left; by exists h|left].
    intros id task Hlab. simpl in Hlab. unfold running_task, entry_task in Hlab.
    destruct (handle_map _ !! h) as [t0|] eqn:Eh; [|done]. simpl in Hlab.
    destruct (task_list _ !! t0) as [e0|] eqn:E0; [|done]. injection Hlab as <- <-. exists t0, e0.
    split_and!; try done; [congruence|]. eapply running_indeg; [done| |done]. by eapply in_handle_tasks.
Qed.

(** The entries after a step. *)
Lemma step_entry m lab m' t e' : 0 < kMaxParallel -> loop_inv kMaxParallel (mc_loop m) -> machine_step kMaxParallel m lab m' ->
  task_list (graph (lp_judge (mc_loop m'))) !! t = Some e' ->
  (exists e, task_list (graph (lp_judge (mc_loop m))) !! t = Some e /\ te_task e' = te_task e /\
     te_submission_internal_id e' = te_submission_internal_id e) \/
  (t ∉ handle_tasks (lp_judge (mc_loop m')) /\ submission_list (lp_judge (mc_loop m)) !! te_submission_internal_id e' = None /\
     task_list (graph (lp_judge (mc_loop m))) !! t = None).
Proof.
  intros Hpar Hl Hs Ht. destruct lab as [a headers f|h|].
  - apply step_disk in Hs as (He & _ & Hp & _). destruct (is_push a) eqn:Ea.
    + destruct a as [sub mq| | | | |]; try done. simpl in Hp. unfold run in Hp. destruct He as [_ Hok].
      destruct (PushSubmission_spec _ _ sub mq (li_judge _ _ Hl) Hok) as [[E _]|(_ & s' & E & Hacc)]; rewrite E in Hp;
        injection Hp as E'; rewrite <- E' in *; cbn [lp_judge] in *; [left; by exists e'|].
      destruct (ac_pushed _ _ _ _ Hacc) as (st & Eg & Hpu). rewrite Eg in Ht.
      destruct (pu_new _ _ _ _ _ Hpu t e' Ht) as [Hold|[Eid _]]; [left; by exists e'|].
      destruct (task_list (graph (lp_judge (mc_loop m))) !! t) as [e0|] eqn:E0.
      { left. exists e0. pose proof (pu_old _ _ _ _ _ Hpu t e0 E0). split; [done|]. by simplify_eq. }
      right. rewrite Eid. split_and!; [|apply Hok|done]. unfold handle_tasks. rewrite (ac_handle _ _ _ _ Hacc). intros Hin.
      destruct (running_entry _ _ t (li_judge _ _ Hl)) as (e0 & Hx & _); [apply elem_of_app; by right|congruence].
    + left. apply (sw_entries _ _ (ad_work _ _ _ (step_advanced kMaxParallel Hpar _ a _ Hl He Hp Ea))). done.
  - left. exists e'. inversion Hs; subst. by split.
  - left. exists e'. inversion Hs; subst. by split.
Qed.

(** A step about another task spares the box of [t]. *)
Lemma spared_by_others m lab t e : loop_inv kMaxParallel (mc_loop m) -> ids_ok (lp_judge (mc_loop m)) -> about_other m lab t ->
  task_list (graph (lp_judge (mc_loop m))) !! t = Some e ->
  forall id task, label_task (mc_loop m) lab = Some (id, task) -> spares (entry_box e) id task.
Proof.
  intros Hl Hi Ho Ht id task Hlab. destruct (Ho id task Hlab) as (t0 & e0 & Hne & He0 & Hz & <- & <-).
  eapply others_spared; [apply Hl|done|exact He0|done|exact Ht|done].
Qed.
End Machine.
