(* ===== verification/LinkSafe.v ===== *)
(** * The judge follows no link

    Every handler's operations follow no link and move none, when the task's own box
    has no link (a setup) or only links where its program can write (the end of a
    task). *)

From S2P Require Import Prelude Enums Text Paths CNum Scores Data FileOps FilesSpec TaskGraph State Logs Specjudge Push PushBuild PushRows PushGraph Handlers HandlerFacts ScoringSpec WorkLoop LoopInv LoopSafe Effects EffectsSpec Isolation OutputSpec Links.

(** The links of the disk, for the judge: [G] holds where there is none. *)
Section Handlers.
Context `{PathRoots} `{Config} `{JsonText} (env : Env) (G : string -> Prop).

Lemma calm_remove_all p : calm G (EvRemoveAll p).
Proof. done. Qed.

(** An event in a region without links, or one that follows none anyway. *)
Ltac calm_in R Hr := apply (within_calm R); [apply region_closed|exact Hr|]; unfold within; cbn [targets];
  repeat first [apply Forall_cons_2 | apply Forall_nil_2].

Lemma setup_execute_calm s key sr task : submission_list s !! key = Some sr ->
  let id := submission_internal_id (sr_sub sr) in
  task_ok id task ->
  (forall q, region (setup_execute_dirs id (tk_subtask task) (tk_stage task)) q = true -> G q) ->
  logs_at (calm G) s (SetupExecute env key task).
Proof.
  intros Hsr id Hok Hg. eapply logs_at_mono; [|by apply (SetupExecute_dirs env s key sr)].
  intros e [He _]. revert He. by apply within_calm; [apply region_closed|].
Qed.

Lemma setup_compile_calm s key sr task c : submission_list s !! key = Some sr ->
  tk_type task = COMPILE -> CompileSubtask_of_Z (tk_subtask task) = Some c ->
  let id := submission_internal_id (sr_sub sr) in
  0 <= id -> 0 <= problem_id (sr_sub sr) -> headers_ok (env_header_files env) ->
  (forall q, region (task_dirs id task) q = true -> G q) ->
  logs_at (calm G) s (SetupCompile env key task).
Proof.
  intros Hsr Ht Ec id Hid Hp Hh Hg. eapply logs_at_mono; [|by apply (SetupCompile_within env s key sr task c)].
  intros e. by apply within_calm; [apply region_closed|].
Qed.

(** A special judge's output is moved only between stages. *)
Lemma ReadSpecjudgeResult_calm sub res last out user temp x :
  (last = false -> specjudge_type sub <> SJ_SKIP -> G user /\ forall q, below (temp // "nextpass.in") q = true -> G q) ->
  Forall (calm G) (ReadSpecjudgeResult env sub res last out user temp x).2.
Proof.
  intros Hg. unfold ReadSpecjudgeResult. destruct (specjudge_failed _ _ _ _); [done|].
  destruct (specjudge_type sub) eqn:Et; try done.
  unfold ReadKattisSpecjudgeResult. destruct last; [|specialize (Hg eq_refl ltac:(done))];
    repeat case_match; simplify_eq/=; first [done | by constructor].
Qed.

Definition scoring_dirs (id td stage : Z) : list string := [ScoringBoxPath id td stage; ExecuteBoxFinalOutput id td stage].

Lemma finalize_scoring_calm s key sr task res skipped : submission_list s !! key = Some sr ->
  let id := submission_internal_id (sr_sub sr) in
  task_ok id task ->
  (is_last_stage (sr_sub sr) task = false -> skipped = false -> specjudge_type (sr_sub sr) <> SJ_SKIP ->
   forall q, region (scoring_dirs id (tk_subtask task) (tk_stage task)) q = true -> G q) ->
  logs_at (calm G) s (FinalizeScoring env key task res skipped).
Proof.
  intros Hsr id (Hid & Htd & Hst) Hg. unfold FinalizeScoring. apply (logs_at_get_sub _ s key sr); [done|]. cbv zeta. fold id.
  apply logs_logs_at. set (td := tk_subtask task) in *. set (stage := tk_stage task) in *.
  change (stage =? stages (sr_sub sr) - 1) with (is_last_stage (sr_sub sr) task).
  set (last := is_last_stage (sr_sub sr) task) in *.
  apply logs_bind; [auto with logs|]. intros x.
  match goal with |- context [if skipped then ?a else ?b] => set (r := if skipped then a else b) end.
  assert (Hv : box_valid (BoxScoring id td stage)) by (simpl; lia).
  assert (Hr : Forall (calm G) r.2).
  { unfold r. destruct skipped; [done|]. apply ReadSpecjudgeResult_calm. intros El Es. split.
    - apply (Hg El eq_refl Es), (in_box _ (BoxScoring id td stage)); [by left|done|]. right; right. by exists "workdir", "user_output".
    - intros q Hq. apply (Hg El eq_refl Es). eapply region_closed; [|exact Hq].
      apply (in_box _ (BoxScoring id td stage)); [by left|done|]. right; right. by exists "tmp", "nextpass.in". }
  clearbody r. destruct r as [x' evs]. simpl in Hr. apply logs_bind; [by apply logs_emit|]. intros _.
  destruct last eqn:El; cbn [negb andb]; unfold when; cbv iota.
  - step_logs; apply logs_emit; by repeat constructor.
  - destruct skipped; cbn [negb andb].
    { step_logs; apply logs_emit; by repeat constructor. }
    destruct (bool_decide (specjudge_type (sr_sub sr) = SJ_SKIP)) eqn:Es; cbn [negb andb]; rewrite ?andb_false_r.
    { step_logs; apply logs_emit; by repeat constructor. }
    apply bool_decide_eq_false in Es. specialize (Hg eq_refl eq_refl Es).
    step_logs; apply logs_emit; constructor; try done. split.
    + apply Hg. eapply region_in; [|apply below_refl]. by right; left.
    + intros q Hq. apply Hg. eapply region_closed; [|exact Hq].
      apply (in_box _ (BoxScoring id td stage)); [by left|done|]. right; right. by exists "workdir", "user_output".
Qed.

(** The setup of a scoring, which may end it. *)
Definition setup_scoring_dirs (sub : Submission) (id td stage : Z) : list string :=
  scoring_dirs id td stage ++ (if judge_between_stages sub && negb (stage =? 0) then [ScoringBoxTempdir id td (stage - 1) false] else []).

Lemma setup_scoring_calm s key sr task : submission_list s !! key = Some sr ->
  let id := submission_internal_id (sr_sub sr) in
  task_ok id task ->
  (forall q, region (setup_scoring_dirs (sr_sub sr) id (tk_subtask task) (tk_stage task)) q = true -> G q) ->
  logs_at (calm G) s (SetupScoring env key task).
Proof.
  intros Hsr id Hok Hg. pose proof Hok as (Hid & Htd & Hst). unfold SetupScoring. apply (logs_at_get_sub _ s key sr); [done|]. cbv zeta. fold id.
  assert (Hfin : forall es res skipped, (skipped = true \/ specjudge_type (sr_sub sr) = SJ_SKIP) ->
    logs_at (calm G) (add_events es s) (FinalizeScoring env key task res skipped)).
  { intros es res skipped Hs. apply (finalize_scoring_calm _ key sr); [done|done|]. intros _ ? ?. destruct Hs; congruence. }
  assert (Hfin0 : forall res, logs_at (calm G) s (FinalizeScoring env key task res true))
    by (intros; by apply (finalize_scoring_calm _ key sr)).
  set (td := tk_subtask task) in *. set (stage := tk_stage task) in *. unfold setup_scoring_dirs, scoring_dirs in Hg.
  set (ps := _ ++ _) in Hg.
  assert (Hps : ps = [ScoringBoxPath id td stage; ExecuteBoxFinalOutput id td stage] ++
    (if judge_between_stages (sr_sub sr) && negb (stage =? 0) then [ScoringBoxTempdir id td (stage - 1) false] else [])) by done.
  clearbody ps.
  assert (Hret : forall A (a : A) s, logs_at (calm G) s (mret a)) by (intros; apply logs_logs_at, logs_ret).
  destruct (negb (bool_decide _)); [apply Hret|]. apply logs_at_pure; [intros ? ?; apply vec_at_pure|]. intros item.
  apply logs_at_pure; [by intros a s' [= _ <-]|]. intros s1. destruct (IsCancelled _ _ _); [apply Hret|].
  apply logs_at_pure; [intros ? ?; apply vec_at_pure|]. intros x. destruct (skip_stage x); [apply Hret|].
  destruct (negb _ && negb (judge_abnormally_terminated _)); [apply logs_at_bind; [apply Hfin0|intros; apply logs_ret]|].
  assert (Hcalm : forall es, Forall (within (region ps)) es -> Forall (calm G) es).
  { intros es He. eapply Forall_impl; [exact He|]. intros e. by apply within_calm; [apply region_closed|]. }
  apply logs_at_emit.
  { apply Hcalm. rewrite Hps. own_box (BoxScoring id td stage). }
  destruct (bool_decide (specjudge_type (sr_sub sr) = SJ_SKIP)) eqn:Es.
  { apply bool_decide_eq_true in Es.
    apply logs_at_emit; [|rewrite add_events_app; apply logs_at_bind; [apply Hfin; by right|intros; apply logs_ret]].
    apply Hcalm. rewrite Hps. own_events; first [in_box_of (BoxScoring id td stage); own_side | eapply region_in; [|apply below_refl]; own_side]. }
  apply logs_logs_at.
  destruct (judge_between_stages (sr_sub sr)), (stage =? 0) eqn:E0; cbn [negb orb andb] in *; cbv iota; step_logs; apply logs_emit.
  all: apply Hcalm; rewrite Hps.
  all: own_events; first [ in_box_of (BoxScoring id td stage); own_side
                         | eapply region_in; [|apply below_refl]; own_side ].
Qed.

Lemma finalize_summary_calm s key task res skipped : logs_at (calm G) s (FinalizeSummary env key task res skipped).
Proof.
  unfold FinalizeSummary. apply logs_logs_at. step_logs; apply logs_emit; by repeat constructor.
Qed.

Lemma finalize_task_calm s t e sr res skipped : task_known s t e sr ->
  (tk_type (te_task e) = EXECUTE -> skipped = true) ->
  (tk_type (te_task e) = SCORING -> is_last_stage (sr_sub sr) (te_task e) = false -> skipped = false ->
   forall q, region (scoring_dirs (te_submission_internal_id e) (tk_subtask (te_task e)) (tk_stage (te_task e))) q = true -> G q) ->
  logs_at (calm G) s (FinalizeTask env t res skipped).
Proof.
  intros Hk Hx Hs. pose proof (expected_ok s t e sr Hk) as Hok. destruct Hk.
  unfold FinalizeTask. apply (logs_at_seq _ _ get).
  { apply logs_logs_at. auto with logs. }
  intros a s' [= <- <-]. rewrite tn_entry. apply (logs_at_seq _ _ (or_crash _ _)).
  { apply logs_logs_at. auto with logs. }
  intros a s' [= <- <-]. cbv zeta. apply logs_at_bind; [|intros []; step_logs].
  destruct (tk_type (te_task e)) eqn:Et.
  - apply logs_at_when. apply FinalizeCompile_within; done.
  - rewrite (Hx eq_refl). cbn [negb orb]. rewrite bool_decide_false by done. apply logs_logs_at, logs_ret.
  - rewrite bool_decide_false, orb_false_r by done. destruct skipped; [apply logs_logs_at, logs_ret|].
    simpl. apply (finalize_scoring_calm _ _ sr); [done|apply Hok; by right|].
    intros El _ _ q Hq. apply (Hs eq_refl El eq_refl). by rewrite <- tn_id.
  - apply logs_at_when, finalize_summary_calm.
Qed.

(** ** The setup of a task *)

(** Where no link may be. *)
Definition setup_region (sub : Submission) (id : Z) (task : Task) : string -> bool :=
  match tk_type task with
  | COMPILE => region (task_dirs id task)
  | EXECUTE => region (setup_execute_dirs id (tk_subtask task) (tk_stage task))
  | SCORING => region (setup_scoring_dirs sub id (tk_subtask task) (tk_stage task))
  | SUMMARY => region [SummaryBoxPath id; CompileBoxOutput id CS_SUMMARY (summary_lang sub) false]
  end.

Lemma setup_task_calm s t e sr : task_known s t e sr -> headers_ok (env_header_files env) ->
  tk_type (te_task e) <> SUMMARY ->
  (forall q, setup_region (sr_sub sr) (te_submission_internal_id e) (te_task e) q = true -> G q) ->
  logs_at (calm G) s (SetupTask env (te_submission_internal_id e) (te_task e)).
Proof.
  intros Hk Hh Hn. pose proof (expected_ok s t e sr Hk) as Hok. destruct Hk. unfold setup_region, SetupTask.
  destruct (tk_type (te_task e)) eqn:Et; [| | |done]; intros Hg; rewrite <- tn_id in Hg.
  - destruct (CompileSubtask_of_Z (tk_subtask (te_task e))) as [c|] eqn:Ec; [|by eapply expected_subtask in Ec].
    apply (setup_compile_calm _ _ sr _ c); try done. lia.
  - apply (setup_execute_calm _ _ sr); try done. apply Hok. by left.
  - apply (setup_scoring_calm _ _ sr); try done. apply Hok. by right.
Qed.

Lemma dispatch_task_calm s t e sr running handle : task_known s t e sr -> judge_inv s (t :: running) ->
  headers_ok (env_header_files env) -> tk_type (te_task e) <> SUMMARY ->
  (forall q, setup_region (sr_sub sr) (te_submission_internal_id e) (te_task e) q = true -> G q) ->
  logs_at (calm G) s (DispatchTask env handle t).
Proof.
  intros Hk Hj Hh Hn Hg. unfold DispatchTask. apply (logs_at_seq _ _ get).
  { apply logs_logs_at. auto with logs. }
  intros a s' [= <- <-]. rewrite (tn_entry _ _ _ _ Hk). apply (logs_at_seq _ _ (or_crash _ _)).
  { apply logs_logs_at. auto with logs. }
  intros a s' [= <- <-]. cbv zeta. apply logs_at_seq; [by eapply setup_task_calm|]. intros res s' E.
  destruct res; [apply logs_logs_at; simpl; step_logs|].
  destruct (setup_spec env s running t e sr Hj (tn_entry _ _ _ _ Hk) (tn_sub _ _ _ _ Hk)) as (Hks & _).
  specialize (Hks s (reflexivity s)). rewrite E in Hks.
  destruct (task_known_evolves _ _ _ _ _ Hk Hks) as [r Hk']. cbn [negb].
  apply logs_at_bind; [|intros; apply logs_ret]. by eapply finalize_task_calm.
Qed.
End Handlers.

(** ** Operations on a disk *)

(** They follow no link and make none. *)
Definition quiet_events (f : nat -> Faults) (es : list Event) (d : Disk) : Prop :=
  events_safe f es d /\ forall d', apply_events f es d = Done d' -> shrinks d d'.

Lemma quiet_calm G f es d : Forall (calm G) es -> link_free G d -> quiet_events f es d.
Proof. apply calm_events. Qed.

Lemma quiet_removals f es d : Forall (calm (fun _ => False)) es -> quiet_events f es d.
Proof. intros He. eapply quiet_calm; [exact He|]. by intros q []. Qed.

Lemma quiet_app f es es' d : quiet_events f es d ->
  (forall d', apply_events f es d = Done d' -> quiet_events (fun i => f (length es + i)%nat) es' d') ->
  quiet_events f (es ++ es') d.
Proof.
  intros [Hs Hd] Hk. split.
  - apply events_safe_app; [done|]. intros d' E. by apply Hk.
  - intros d' E. rewrite apply_events_app in E. destruct (apply_events f es d) as [d1|] eqn:E1; [|done].
    etrans; [by apply Hd|]. by apply (Hk d1).
Qed.

(** Moving a file away. *)
Lemma quiet_move f from to perms d : is_regular d from -> ~ link d to -> quiet_events f [EvMove from to perms] d.
Proof.
  intros Hr Ht. split.
  - split; [|done]. split; [by apply not_link_plain|]. intros _. by apply movable_plain; left.
  - intros d' [= <-]. apply Move_shrinks. by left.
Qed.

Lemma regular_on d p : IsRegularFileNoFollow d p = true -> is_regular d p.
Proof.
  unfold IsRegularFileNoFollow, is_regular. destruct (files d !! p) as [[[c| |t] m o]|]; try done.
  intros _. by eexists _, c.
Qed.

(** ** The setup of a summary *)

Section Summary.
Context `{PathRoots} `{Config} `{JsonText}.

Definition summary_program_events (sub : Submission) : list Event :=
  let id := submission_internal_id sub in
  [EvCreateDirs (Workdir (SummaryBoxPath id)) (Some perms_all);
   EvMove (CompileBoxOutput id CS_SUMMARY (summary_lang sub) false) (SummaryBoxProgram id (summary_lang sub) false) (Some perms_all);
   EvCopy (SubmissionUserCode id) (SummaryBoxUserCode id (lang sub) false) (Some kPerm666)].

Definition summary_message_events (env : Env) (sub : Submission) : list Event :=
  let id := submission_internal_id sub in
  let src := CompileBoxMessage id USERPROG false in
  if env_is_regular env src then [EvMove src (SummaryBoxCEMessage id false) (Some kPerm666)]
  else [EvWrite (SummaryBoxCEMessage id false) ""; EvPermissions (SummaryBoxCEMessage id false) kPerm666].

Lemma SetupSummary_logged env s key sr task : submission_list s !! key = Some sr ->
  match SetupSummary env key task s with
  | Done (b, s') => exists es, trace s' = trace s ++ es /\
      ((b = false /\ es = []) \/ exists meta, es = summary_program_events (sr_sub sr) ++
         summary_message_events env (sr_sub sr) ++ [EvWrite (SummaryBoxMetaFile (submission_internal_id (sr_sub sr)) false) meta])
  | Crash _ => True
  end.
Proof.
  intros Hsr. unfold SetupSummary. unfold mbind at 1, M_bind at 1. rewrite (get_sub_run key s sr Hsr).
  unfold mbind at 1, M_bind at 1, lift_outcome at 1. destruct (if bool_decide _ then _ else _) as [v|]; [|done].
  unfold mbind at 1, M_bind at 1. rewrite (modify_res_run key s sr Hsr). set (r := set_verdict v (sr_result sr)).
  set (s1 := set_submission_list _ s).
  destruct (_ || _); [exists []; rewrite app_nil_r; auto|].
  unfold mbind at 1, M_bind at 1, emit at 1, modify at 1. set (s2 := add_events _ s1).
  assert (Hif : (if env_is_regular env (CompileBoxMessage (submission_internal_id (sr_sub sr)) USERPROG false)
    then emit [EvMove (CompileBoxMessage (submission_internal_id (sr_sub sr)) USERPROG false)
      (SummaryBoxCEMessage (submission_internal_id (sr_sub sr)) false) (Some kPerm666)]
    else emit [EvWrite (SummaryBoxCEMessage (submission_internal_id (sr_sub sr)) false) "";
      EvPermissions (SummaryBoxCEMessage (submission_internal_id (sr_sub sr)) false) kPerm666]) s2
    = Done (tt, add_events (summary_message_events env (sr_sub sr)) s2))
    by (unfold summary_message_events; by destruct (env_is_regular _ _)).
  unfold mbind at 1, M_bind at 1. rewrite Hif. set (s3 := add_events _ s2).
  assert (Hsr3 : submission_list s3 !! key = Some (with_result sr r)) by apply lookup_insert_eq.
  unfold mbind at 1, M_bind at 1, get_res at 1. unfold mbind at 1, M_bind at 1. rewrite (get_sub_run key s3 _ Hsr3).
  unfold mret at 1, M_ret at 1. unfold mbind at 1, M_bind at 1, lift_outcome at 1.
  destruct (SummaryMeta (sr_sub sr) (sr_result (with_result sr r))) as [meta|f]; [|done].
  unfold mbind, M_bind, emit, modify, mret, M_ret. eexists. split; [|right; by eexists]. simpl. by rewrite <- !(assoc_L (++)).
Qed.

(** Its operations, when the program's output and the box hold no link. *)
Lemma setup_summary_quiet headers d f sub meta : let id := submission_internal_id sub in
  0 <= id -> link_free (fun q => region [SummaryBoxPath id; CompileBoxOutput id CS_SUMMARY (summary_lang sub) false] q = true) d ->
  quiet_events f (summary_program_events sub ++ summary_message_events (env_of headers d) sub ++
    [EvWrite (SummaryBoxMetaFile id false) meta]) d.
Proof.
  intros id Hid. set (R := region _). set (G := fun q => R q = true). intros Hg.
  assert (Hv : box_valid (BoxSummary id)) by done.
  assert (Hc : forall es, Forall (within R) es -> Forall (calm G) es).
  { intros es He. eapply Forall_impl; [exact He|]. intros e. by apply within_calm; [apply region_closed|]. }
  assert (Hw : Forall (within R) (summary_program_events sub)).
  { unfold R, summary_program_events. fold id.
    own_events; first [in_box_of (BoxSummary id); own_side | eapply region_in; [|apply below_refl]; own_side]. }
  assert (Hmeta : Forall (calm G) [EvWrite (SummaryBoxMetaFile id false) meta]) by (apply Hc; unfold R; own_box (BoxSummary id)).
  assert (Hdst : G (SummaryBoxCEMessage id false)) by (unfold G, R; in_box_of (BoxSummary id); own_side).
  apply quiet_app; [apply (quiet_calm G); [by apply Hc|done]|]. intros d1 E1.
  destruct (calm_events G f _ d (Hc _ Hw) Hg) as [Hs Hd]. specialize (Hd d1 E1).
  assert (Hg1 : link_free G d1) by (by eapply link_free_shrinks).
  assert (Hq : quiet_events (fun i => f (length (summary_program_events sub) + i)%nat) (summary_message_events (env_of headers d) sub) d1).
  { unfold summary_message_events. fold id. destruct (env_is_regular _ _) eqn:Er.
    - apply quiet_move; [|by apply Hg1]. destruct (regular_on _ _ Er) as (n & c & En & Ek). exists n, c. split; [|done].
      rewrite (so_files _ _ _ (events_local R f _ d d1 (region_closed _) Hw Hs E1)); [done|]. apply not_true_is_false.
      unfold R, region. cbn [existsb]. rewrite orb_false_r. intros [Hx|Hx]%orb_true_iff.
      + apply (box_path_below_ne (BoxSummary id) (BoxCompile id USERPROG) _ Hv Hid ltac:(done) Hx).
        apply box_form_below; [done|]. right; right. by exists "workdir", "message".
      + apply (box_path_below_ne (BoxCompile id CS_SUMMARY) (BoxCompile id USERPROG) (CompileBoxMessage id USERPROG false) Hid Hid ltac:(done)).
        * eapply below_trans; [|exact Hx]. apply box_form_below; [done|]. right; right. eexists "workdir", _.
          split_and!; [done| |reflexivity]. apply component_result_name.
        * apply box_form_below; [done|]. right; right. by exists "workdir", "message".
    - apply (quiet_calm G); [|done]. by repeat constructor. }
  apply quiet_app; [exact Hq|]. intros d2 E2. apply (quiet_calm G); [done|].
  eapply link_free_shrinks; [exact Hg1|by apply Hq].
Qed.
End Summary.

(** ** The steps of the judge *)

Section Steps.
Context `{PathRoots} `{Config} `{JsonText} (kMaxParallel : Z) (Hpar : 0 < kMaxParallel).

Lemma finish_run l env h res l' t e : handle_map (lp_judge l) !! h = Some t ->
  task_list (graph (lp_judge l)) !! t = Some e -> tk_type (te_task e) = EXECUTE -> perform l (Finish env h res) = Done l' ->
  exists s1, FinalizeExecute env (te_submission_internal_id e) (te_task e) res
      (set_handle_map (delete h (handle_map (lp_judge l))) (lp_judge l)) = Done (tt, s1) /\
    trace (lp_judge l') = trace s1.
Proof using Type.
  intros Ht He Hty Hp. simpl in Hp. unfold run, mbind, M_bind, WaitTask in Hp. unfold mbind, M_bind, get, modify in Hp.
  rewrite Ht in Hp. simpl in Hp. set (s0 := set_handle_map _ _) in *.
  unfold FinalizeTask in Hp. unfold mbind at 1, M_bind at 1, get at 1 in Hp. change (graph s0) with (graph (lp_judge l)) in Hp.
  rewrite He in Hp. unfold mbind at 1, M_bind at 1 in Hp. simpl or_crash in Hp. unfold mret at 1, M_ret at 1 in Hp.
  rewrite Hty in Hp. cbn [negb orb when] in Hp. unfold mbind at 1, M_bind at 1 in Hp.
  destruct (FinalizeExecute env _ _ res s0) as [[[] s1]|] eqn:E; [|done]. exists s1. split; [done|].
  unfold mbind, M_bind, get, lift_outcome, modify in Hp. destruct (Remove e (graph s1)); [|done]. by injection Hp as <-.
Qed.

(** What a finished task's operations need. *)
Definition finish_region (sub : Submission) (id : Z) (task : Task) (q : string) : bool :=
  match tk_type task with
  | EXECUTE => bool_decide (q = ExecuteBoxFinalOutput id (tk_subtask task) (tk_stage task)) ||
               bool_decide (q = Workdir (ExecuteBoxPath id (tk_subtask task) (tk_stage task)))
  | SCORING => negb (is_last_stage sub task) && region (scoring_dirs id (tk_subtask task) (tk_stage task)) q
  | _ => false
  end.

Lemma dispatch_quiet l env t h l' e sr headers f d : loop_inv kMaxParallel l -> enabled kMaxParallel l (Dispatch env t h) ->
  env = env_of headers d -> headers_ok headers -> perform l (Dispatch env t h) = Done l' -> task_known (lp_judge l) t e sr ->
  (forall q, setup_region (sr_sub sr) (te_submission_internal_id e) (te_task e) q = true -> ~ link d q) ->
  quiet_events f (drop (length (trace (lp_judge l))) (trace (lp_judge l'))) d.
Proof using Type.
  intros Hl (_ & _ & (Htop & _) & _) Henv Hh Hp Hk Hg. pose proof (pop_inv _ _ t (li_judge _ _ Hl) Htop) as Hj.
  set (s0 := pop_task t (lp_judge l)) in *. assert (Hk0 : task_known s0 t e sr) by (by destruct Hk).
  simpl in Hp. unfold run in Hp. unfold mbind at 1, M_bind at 1, modify in Hp. fold s0 in Hp.
  change (trace (lp_judge l)) with (trace s0).
  assert (Hlog : forall A (m : M A) a s1, logs_at (calm (fun q => ~ link d q)) s0 m -> m s0 = Done (a, s1) ->
    quiet_events f (drop (length (trace s0)) (trace s1)) d).
  { intros A m a s1 Hm E. unfold logs_at in Hm. rewrite E in Hm. destruct Hm as (es & -> & He). rewrite drop_app_length.
    eapply quiet_calm; [exact He|]. by intros q. }
  destruct (DispatchTask env h t s0) as [[b s2]|] eqn:Ed; [|done]. injection Hp as <-. cbn [lp_judge].
  destruct (decide (tk_type (te_task e) = SUMMARY)) as [Et|Et].
  2: { eapply Hlog; [|exact Ed]. eapply dispatch_task_calm; try done. by subst env. }
  revert Ed. unfold DispatchTask. unfold mbind at 1, M_bind at 1, get at 1. rewrite (tn_entry _ _ _ _ Hk0).
  unfold mbind at 1, M_bind at 1. simpl or_crash. unfold mret at 1, M_ret at 1.
  unfold SetupTask. rewrite Et. unfold mbind at 1, M_bind at 1.
  pose proof (SetupSummary_logged env s0 _ sr (te_task e) (tn_sub _ _ _ _ Hk0)) as Hs.
  destruct (SetupSummary env _ (te_task e) s0) as [[b1 s1]|] eqn:E1; [|done]. destruct Hs as (es & Etr & Hes). intros Ed.
  assert (Hq : quiet_events f es d).
  { destruct Hes as [[_ ->]|[meta ->]]; [by apply quiet_removals|]. rewrite Henv.
    apply setup_summary_quiet; [rewrite (tn_id _ _ _ _ Hk); apply (tn_key _ _ _ _ Hk)|]. intros q Hq. apply Hg.
    unfold setup_region. by rewrite Et, <- (tn_id _ _ _ _ Hk). }
  assert (Hx : exists es', trace s2 = trace s1 ++ es' /\ Forall (calm (fun _ => False)) es').
  { destruct b1.
    - unfold mbind, M_bind, emit, modify, mret, M_ret in Ed. simpl in Ed. injection Ed as _ <-. eexists. split; [done|by repeat constructor].
    - destruct (setup_spec env s0 _ t e sr Hj (tn_entry _ _ _ _ Hk0) (tn_sub _ _ _ _ Hk0)) as (Hks & _).
      specialize (Hks s0 (reflexivity s0)). unfold SetupTask in Hks. rewrite Et, E1 in Hks.
      destruct (task_known_evolves _ _ _ _ _ Hk0 Hks) as [r Hk'].
      pose proof (finalize_task_calm env (fun _ => False) s1 t e _ zero_cjail_result true Hk') as Hf.
      unfold logs_at in Hf. unfold mbind, M_bind in Ed. simpl in Ed.
      destruct (FinalizeTask env t zero_cjail_result true s1) as [[u s3]|]; [|done]. injection Ed as _ <-.
      apply Hf; congruence. }
  destruct Hx as (es' & -> & He'). rewrite Etr, <- (assoc_L (++)), drop_app_length.
  apply quiet_app; [exact Hq|]. intros d1 _. by apply quiet_removals.
Qed.

Lemma take_events_quiet f P F d : ~ link d F -> quiet_events f (take_events P F d) d.
Proof.
  intros HF. unfold take_events. destruct (IsRegularFileNoFollow d P) eqn:E.
  - apply quiet_app; [apply quiet_move; [by apply regular_on|done]|]. intros d1 E1.
    apply (quiet_calm (fun q => q = F)); [by repeat constructor|]. intros q -> Hl. apply HF.
    by apply (proj2 (quiet_move f P F (Some kPerm666) d (regular_on _ _ E) HF) d1 E1).
  - apply (quiet_calm (fun q => q = F)); [by repeat constructor|]. by intros q ->.
Qed.

Lemma finish_quiet l env h res l' t e sr headers f d : loop_inv kMaxParallel l -> handle_map (lp_judge l) !! h = Some t ->
  env = env_of headers d -> perform l (Finish env h res) = Done l' -> task_known (lp_judge l) t e sr ->
  (forall q, finish_region (sr_sub sr) (te_submission_internal_id e) (te_task e) q = true -> ~ link d q) ->
  quiet_events f (drop (length (trace (lp_judge l))) (trace (lp_judge l'))) d.
Proof using Type.
  intros Hl Ht Henv Hp Hk Hg. set (s := lp_judge l) in *. set (s0 := set_handle_map (delete h (handle_map s)) s).
  assert (Hk0 : task_known s0 t e sr) by (by destruct Hk).
  destruct (decide (tk_type (te_task e) = EXECUTE)) as [Et|Et].
  - destruct (finish_run l env h res l' t e Ht (tn_entry _ _ _ _ Hk) Et Hp) as (s1 & Ef & ->). fold s s0 in Ef.
    assert (Hx := tn_expected _ _ _ _ Hk). unfold expected in Hx. rewrite Et in Hx. destruct Hx as [Hx _].
    destruct (finalize_events headers s0 d _ sr (te_task e) res (tn_sub _ _ _ _ Hk0) Hx) as (s1' & Er & Etr).
    unfold finalize in Er. rewrite Henv, Er in Ef. injection Ef as <-. change (trace s) with (trace s0). rewrite Etr, (tn_id _ _ _ _ Hk). unfold finish_region in Hg. rewrite Et in Hg.
    set (F := ExecuteBoxFinalOutput _ _ _) in *. set (W := Workdir (ExecuteBoxPath _ _ _)) in *.
    assert (HF : ~ link d F) by (apply Hg; by rewrite bool_decide_true).
    assert (HW : ~ link d W) by (apply Hg; by rewrite (bool_decide_true (W = W)), orb_true_r).
    apply quiet_app; [by apply take_events_quiet|]. intros d1 E1.
    apply (quiet_calm (fun q => q = W)).
    { unfold cleanup_events. fold W. destruct (sandbox_strict _), (0 <? _); by repeat constructor. }
    intros q -> Hx'. apply HW. by apply (proj2 (take_events_quiet f _ F d HF) d1 E1).
  - simpl in Hp. unfold run in Hp. fold s in Hp. unfold mbind, M_bind, WaitTask in Hp. unfold mbind, M_bind, get, modify in Hp.
    rewrite Ht in Hp. simpl in Hp. fold s0 in Hp.
    pose proof (finalize_task_calm env (fun q => ~ link d q) s0 t e sr res false Hk0) as Hf. unfold logs_at in Hf.
    destruct (FinalizeTask env t res false s0) as [[u s2]|]; [|done]. injection Hp as <-. cbn [lp_judge].
    destruct Hf as (es & -> & He); [congruence| |].
    + intros Es El _ q Hq. apply Hg. unfold finish_region. by rewrite Es, El.
    + change (trace s) with (trace s0). rewrite drop_app_length. eapply quiet_calm; [exact He|]. by intros q.
Qed.
End Steps.
