(* ===== verification/DiskInv.v ===== *)
(** * What is on the disk while the judge runs

    The invariant of the machine: in the boxes of the submissions there are links only
    where a program can write, and the boxes of tasks that have not started are
    empty.  From it: the judge never follows a link, and no step touches a box of
    another task. *)

From S2P Require Import Prelude Enums Text Paths CNum Scores Data FileOps FilesSpec TaskGraph State Logs Specjudge Push PushBuild PushRows PushGraph Handlers HandlerFacts ScoringSpec WorkLoop LoopInv LoopSafe Scenario Effects EffectsSpec Isolation OutputSpec Links Lifecycle LinkSafe.

Section DiskInv.
Context `{PathRoots} `{Config} `{JsonText} (kMaxParallel : Z).

(** The programs whose files the judge takes over without looking at them, so that it
    would follow a link they leave: a special judge that judges between stages, whose
    output goes back to the submission's program, and the compiler of the
    summary program.  In the runs of this file they leave none; [RunSpec] has the
    theorems for runs without such programs, in which nothing is assumed. *)
Definition trusted (sub : Submission) (b : Box) : bool :=
  match b with
  | BoxScoring _ _ _ => judge_between_stages sub
  | BoxCompile _ CS_SUMMARY => true
  | _ => false
  end.

(** What is assumed of the environment in a step: the directory of a new submission
    does not exist yet; the programs above leave no links. *)
Definition env_ok (m : Machine) (lab : mlabel) (m' : Machine) : Prop :=
  match lab with
  | LJudge a headers _ => headers_ok headers /\
      match a with
      | Push_ sub _ => 0 <= submission_internal_id sub /\ 0 <= problem_id sub /\
          unused (SubmissionRunPath (submission_internal_id sub)) (mc_disk m)
      | _ => True
      end
  | LProgram h => forall id task sr, running_task (lp_judge (mc_loop m)) h = Some (id, task) ->
      submission_list (lp_judge (mc_loop m)) !! id = Some sr -> trusted (sr_sub sr) (task_box id task) = true ->
      shrinks (mc_disk m) (mc_disk m')
  | LOther => True
  end.

(** The runs of the judge, from its start on any disk. *)
Inductive machine_run : Machine -> Prop :=
| run_start d : machine_run {| mc_loop := initial; mc_disk := d |}
| run_step m lab m' : machine_run m -> machine_step kMaxParallel m lab m' -> env_ok m lab m' -> machine_run m'.

Record disk_inv (m : Machine) : Prop := {
  dk_ids : ids_ok (lp_judge (mc_loop m));
  dk_links : forall b sr q, box_valid b -> submission_list (lp_judge (mc_loop m)) !! box_id b = Some sr ->
    below (box_path b) q = true -> link (mc_disk m) q -> work_area b q = true /\ trusted (sr_sub sr) b = false;
  dk_unused : forall t e, task_list (graph (lp_judge (mc_loop m))) !! t = Some e ->
    t ∉ handle_tasks (lp_judge (mc_loop m)) -> unused (box_path (entry_box e)) (mc_disk m);
}.

Lemma step_reachable m lab m' : reachable kMaxParallel (mc_loop m) -> machine_step kMaxParallel m lab m' ->
  reachable kMaxParallel (mc_loop m').
Proof. intros Hr Hs. destruct Hs; simpl; [|done|done]. by eapply reach_step. Qed.

Lemma run_reachable m : machine_run m -> reachable kMaxParallel (mc_loop m).
Proof. induction 1; [apply reach_initial|by eapply step_reachable]. Qed.

(** ** Paths that are outside of the work areas *)

Lemma work_area_compile id c q : work_area (BoxCompile id c) q = strictly_below (Workdir (CompileBoxPath id c)) q.
Proof. unfold work_area. apply orb_false_r. Qed.

Lemma strictly_below_self p : strictly_below p p = false.
Proof. unfold strictly_below. by rewrite bool_decide_true, andb_false_r. Qed.

Lemma final_output_free id td stage q : 0 <= id -> 0 <= td -> 0 <= stage ->
  below (ExecuteBoxFinalOutput id td stage) q = true -> work_area (BoxExecute id td stage) q = false.
Proof.
  intros Hid Htd Hst Hq. unfold work_area. rewrite orb_false_r. apply not_true_is_false. intros Hx%strictly_below_below.
  destruct (execute_paths id td stage false Hid Htd Hst) as (_ & _ & [H1' H2']).
  destruct (below_nested _ _ _ Hq Hx) as [Hy|Hy]; simpl in Hy; congruence.
Qed.

Section Inv.
Context (m : Machine) (Hinv : disk_inv m) (Hl : loop_inv kMaxParallel (mc_loop m)).
Context (t : Z) (e : TaskEntry) (sr : SubmissionAndResult) (Hk : task_known (lp_judge (mc_loop m)) t e sr).

Abbreviation s := (lp_judge (mc_loop m)).
Abbreviation d := (mc_disk m).
Abbreviation id := (te_submission_internal_id e).
Abbreviation td := (tk_subtask (te_task e)).
Abbreviation stage := (tk_stage (te_task e)).

Lemma no_link b q : box_valid b -> box_id b = id -> below (box_path b) q = true ->
  work_area b q = false \/ trusted (sr_sub sr) b = true -> ~ link d q.
Proof using Hinv Hk.
  intros Hv Hb Hq Hc Hx. destruct (dk_links _ Hinv b sr q Hv) as [Hw Ht]; [|done|done|].
  - rewrite Hb. apply (tn_sub _ _ _ _ Hk).
  - destruct Hc; congruence.
Qed.

Lemma final_no_link j q : 0 <= td -> 0 <= j -> below (ExecuteBoxFinalOutput id td j) q = true -> ~ link d q.
Proof using Hinv Hk.
  intros Htd Hj Hq. assert (Hv : box_valid (BoxExecute id td j)) by (pose proof (tn_key _ _ _ _ Hk); simpl; lia).
  apply (no_link (BoxExecute id td j)); [done|done| |left; by apply final_output_free; [apply (tn_key _ _ _ _ Hk)|done..]].
  eapply below_trans; [|exact Hq]. apply box_form_below; [done|]. right; left. by exists "output".
Qed.

Lemma own_no_link q : t ∉ handle_tasks s -> below (box_path (entry_box e)) q = true -> ~ link d q.
Proof using Hinv Hk. intros Ht Hq. by apply (dk_unused _ Hinv t e (tn_entry _ _ _ _ Hk) Ht). Qed.

Lemma setup_no_link q : t ∉ handle_tasks s -> setup_region (sr_sub sr) id (te_task e) q = true -> ~ link d q.
Proof using Hinv Hk.
  intros Ht. pose proof (own_no_link q Ht) as Hown. destruct (task_known_ok _ _ _ _ Hk) as [Hid (_ & Htd & Hst)].
  unfold setup_region, entry_box, task_box, task_dirs, setup_execute_dirs, setup_scoring_dirs, scoring_dirs, region in *.
  destruct (tk_type (te_task e)) eqn:Et; cbn [existsb app].
  - destruct (CompileSubtask_of_Z td); cbn [existsb]; rewrite ?orb_false_r; [done|done].
  - intros [Hq|[Hq|Hq]%orb_true_iff]%orb_true_iff.
    + apply Hown. eapply below_trans; [|exact Hq]. apply (box_form_below (BoxExecute id td stage)); [done|]. right; left. by exists "workdir".
    + apply Hown. eapply below_trans; [|exact Hq]. apply (box_form_below (BoxExecute id td stage)); [done|]. right; left. by exists "td".
    + destruct (0 <? stage) eqn:E0; [|done]. cbn [existsb] in Hq.
      rewrite orb_false_r in Hq. apply (final_no_link (stage - 1)); [done|lia|done].
  - intros [Hq|[Hq|Hq]%orb_true_iff]%orb_true_iff; [by apply Hown|by apply (final_no_link stage)|].
    destruct (judge_between_stages (sr_sub sr)) eqn:Eb, (stage =? 0) eqn:E0; try done. cbn [negb andb existsb] in Hq.
    rewrite orb_false_r in Hq. assert (Hv : box_valid (BoxScoring id td (stage - 1))) by (simpl; lia).
    apply (no_link (BoxScoring id td (stage - 1))); [done|done| |by right].
    eapply below_trans; [|exact Hq]. apply box_form_below; [done|]. right; left. by exists "tmp".
  - intros [Hq|Hq]%orb_true_iff; [by apply Hown|]. rewrite orb_false_r in Hq.
    apply (no_link (BoxCompile id CS_SUMMARY)); [done|done| |by right].
    eapply below_trans; [|exact Hq]. apply box_form_below; [done|]. right; right. eexists "workdir", _.
    split_and!; [done| |reflexivity]. apply component_result_name.
Qed.

Lemma finish_no_link q : finish_region (sr_sub sr) id (te_task e) q = true -> ~ link d q.
Proof using Hinv Hk.
  destruct (task_known_ok _ _ _ _ Hk) as [Hid (_ & Htd & Hst)]. unfold finish_region.
  assert (Hx := tn_expected _ _ _ _ Hk). unfold expected in Hx.
  destruct (tk_type (te_task e)) eqn:Et; try done.
  - intros [->%bool_decide_eq_true| ->%bool_decide_eq_true]%orb_true_iff; [apply (final_no_link stage); [done..|apply below_refl]|].
    apply (no_link (BoxExecute id td stage)); [done|done|by apply below_workdir, (box_path_has_filename (BoxExecute id td stage))|left].
    unfold work_area. by rewrite strictly_below_self.
  - intros [Hn%negb_true_iff [Hq|[Hq|Hq]%orb_true_iff]%orb_true_iff]%andb_true_iff; [|by apply (final_no_link stage)|done].
    apply (no_link (BoxScoring id td stage)); [done|done|done|right]. simpl. unfold first_scoring in Hx.
    destruct (judge_between_stages (sr_sub sr)); [done|]. unfold is_last_stage in Hn. lia.
Qed.
End Inv.


(** The operations of a step of the judge follow no link and make none. *)
Lemma step_quiet m a headers f l' : disk_inv m -> loop_inv kMaxParallel (mc_loop m) -> enabled kMaxParallel (mc_loop m) a ->
  headers_ok headers -> (forall env, action_env a = Some env -> env = env_of headers (mc_disk m)) ->
  perform (mc_loop m) a = Done l' ->
  quiet_events f (drop (length (trace (lp_judge (mc_loop m)))) (trace (lp_judge l'))) (mc_disk m).
Proof.
  intros Hd Hl He Hh Henv Hp. pose proof (dk_ids _ Hd) as Hi.
  assert (Hnil : trace (lp_judge l') = trace (lp_judge (mc_loop m)) ->
    quiet_events f (drop (length (trace (lp_judge (mc_loop m)))) (trace (lp_judge l'))) (mc_disk m)).
  { intros ->. rewrite drop_all. by apply quiet_removals. }
  destruct a as [sub mq| | | |env t h|env h res]; try (injection Hp as <-; by apply Hnil).
  - apply Hnil. simpl in Hp. unfold run in Hp. destruct He as [_ Hok].
    destruct (PushSubmission_spec _ _ sub mq (li_judge _ _ Hl) Hok) as [[E _]|(_ & s' & E & Ha)]; rewrite E in Hp;
      injection Hp as <-; [done|]. by rewrite <- (ac_trace _ _ _ _ Ha).
  - destruct (step_task kMaxParallel (mc_loop m) (Dispatch env t h) t Hl Hi He eq_refl) as (e & sr & Hk & _).
    apply (dispatch_quiet kMaxParallel (mc_loop m) env t h l' e sr headers); try done; [by apply Henv|]. intros q. apply (setup_no_link m Hd t e sr Hk).
    apply (queue_waits kMaxParallel _ _ Hl). apply He.
  - assert (Hx := He). destruct Hx as (_ & t & Ht). destruct (step_task kMaxParallel (mc_loop m) (Finish env h res) t Hl Hi He Ht) as (e & sr & Hk & _).
    apply (finish_quiet kMaxParallel (mc_loop m) env h res l' t e sr headers); try done; [by apply Henv|]. intros q. by apply (finish_no_link m Hd t e sr Hk).
Qed.

Lemma step_follows m lab m' : disk_inv m -> loop_inv kMaxParallel (mc_loop m) -> machine_step kMaxParallel m lab m' ->
  env_ok m lab m' -> follows_no_link m lab.
Proof.
  intros Hd Hl Hs He. destruct Hs as [a headers f l' d' En Henv Hp Ha| |]; [|done..]. destruct He as [Hh _]. split; [done|].
  intros l1 Hp1. by apply (step_quiet m a headers f l1).
Qed.

(** ** The invariant is kept *)

Lemma start_inv d : disk_inv {| mc_loop := initial; mc_disk := d |}.
Proof.
  split.
  - intros key sr Hk. simpl in Hk. by rewrite lookup_empty in Hk.
  - intros b sr q _ Hk. simpl in Hk. by rewrite lookup_empty in Hk.
  - intros t e Ht. simpl in Ht. by rewrite lookup_empty in Ht.
Qed.

Lemma entry_valid s running t e : judge_inv s running -> ids_ok s -> task_list (graph s) !! t = Some e -> box_valid (entry_box e).
Proof.
  intros Hj Hi Ht. destruct (inv_known _ _ t e Hj Hi Ht) as [sr Hk]. by destruct (task_box_owned _ _ _ _ Hk).
Qed.

(** An unused directory of a task the step is not about stays unused. *)
Lemma unused_step m lab m' t e : disk_inv m -> loop_inv kMaxParallel (mc_loop m) -> reachable kMaxParallel (mc_loop m) ->
  0 < kMaxParallel -> roots_ok -> machine_step kMaxParallel m lab m' -> env_ok m lab m' ->
  task_list (graph (lp_judge (mc_loop m))) !! t = Some e -> unused (box_path (entry_box e)) (mc_disk m) ->
  (forall id task, label_task (mc_loop m) lab = Some (id, task) -> spares (entry_box e) id task) ->
  (forall q, below (box_path (entry_box e)) q = true -> link (mc_disk m') q -> link (mc_disk m) q) ->
  unused (box_path (entry_box e)) (mc_disk m').
Proof.
  intros Hd Hl Hr Hpar Hroots Hs He Ht Hu Hsp Hx.
  apply (unused_kept _ (mc_disk m)); [done| |done].
  apply (step_isolated kMaxParallel m lab m'); try done; [apply Hd|by eapply step_follows|].
  eapply entry_valid; [apply Hl|apply Hd|done].
Qed.

(** The step of the judge that is no push. *)
Lemma judge_inv_step m a headers f l' d' : disk_inv m -> loop_inv kMaxParallel (mc_loop m) -> reachable kMaxParallel (mc_loop m) ->
  0 < kMaxParallel -> roots_ok -> is_push a = false ->
  machine_step kMaxParallel m (LJudge a headers f) {| mc_loop := l'; mc_disk := d' |} ->
  env_ok m (LJudge a headers f) {| mc_loop := l'; mc_disk := d' |} -> disk_inv {| mc_loop := l'; mc_disk := d' |}.
Proof.
  intros Hd Hl Hr Hpar Hroots Hn Hs Hok. assert (Hs0 := Hs). inversion Hs0 as [a0 h0 f0 l0 d0 En Henv Hp Ha| |]; subst a0 h0 f0 l0 d0.
  pose proof (proj2 (step_quiet m a headers f l' Hd Hl En (proj1 Hok) Henv Hp) d' Ha) as Hsh.
  destruct (step_advanced kMaxParallel Hpar (mc_loop m) a l' Hl En Hp Hn) as [[We Ws] _ Hw Hg].
  split; cbn [mc_loop mc_disk].
  - intros key sr' Hk. destruct (Ws key sr' Hk) as (sr & Hsr & ->). by apply (dk_ids _ Hd key sr).
  - intros b sr' q Hv Hk Hq Hx. destruct (Ws _ sr' Hk) as (sr & Hsr & ->). apply (dk_links _ Hd b sr q); auto.
  - intros u e' Hu Hrun. destruct (We u e' Hu) as (e & He & Et & Eid).
    assert (Eb : entry_box e' = entry_box e) by (unfold entry_box; by rewrite Et, Eid). rewrite Eb.
    assert (Hne : forall t, action_task (lp_judge (mc_loop m)) a = Some t -> u <> t).
    { intros t Hat ->. destruct (Hg t Hat) as [[? _]|?]; [done|congruence]. }
    assert (Hu0 : u ∉ handle_tasks (lp_judge (mc_loop m))).
    { intros Hin. destruct (Hw u Hin) as [?|Hx]; [done|]. by apply (Hne u Hx). }
    apply (unused_step m (LJudge a headers f) {| mc_loop := l'; mc_disk := d' |} u e); try done.
    + by apply (dk_unused _ Hd u e).
    + apply (spared_by_others kMaxParallel m _ u e Hl (dk_ids _ Hd)); [|done].
      destruct (step_kinds kMaxParallel m _ _ u Hpar Hl (dk_ids _ Hd) Hs) as [?|[(h & [=] & _)|(env & h & hs & f' & _ & Hin)]];
        [simpl; by rewrite Hu|done|done].
    + intros q _. apply Hsh.
Qed.

Lemma box_in_run id b q : box_valid b -> box_id b = id -> below (box_path b) q = true -> below (SubmissionRunPath id) q = true.
Proof. intros Hv <- Hq. eapply below_trans; [by apply box_below_run|done]. Qed.

(** A push. *)
Lemma push_inv_step m sub mq headers f l' d' : disk_inv m -> loop_inv kMaxParallel (mc_loop m) ->
  machine_step kMaxParallel m (LJudge (Push_ sub mq) headers f) {| mc_loop := l'; mc_disk := d' |} ->
  env_ok m (LJudge (Push_ sub mq) headers f) {| mc_loop := l'; mc_disk := d' |} -> disk_inv {| mc_loop := l'; mc_disk := d' |}.
Proof.
  intros Hd Hl Hs (_ & Hid & Hpr & Hun). inversion Hs as [a0 h0 f0 l0 d0 En Henv Hp Ha| |]; subst a0 h0 f0 l0 d0.
  simpl in Hp. unfold run in Hp. destruct En as [_ Hok].
  assert (Hd0 : d' = mc_disk m -> forall s', s' = lp_judge (mc_loop m) -> lp_judge l' = s' -> disk_inv {| mc_loop := l'; mc_disk := d' |}).
  { intros -> s' -> E. destruct Hd as [D1 D2 D3]. split; cbn [mc_loop mc_disk]; by rewrite E. }
  destruct (PushSubmission_spec _ _ sub mq (li_judge _ _ Hl) Hok) as [[E _]|(_ & s' & E & Hacc)]; rewrite E in Hp;
    injection Hp as <-; cbn [lp_judge mc_loop mc_disk] in *.
  { rewrite drop_all in Ha. injection Ha as <-. by eapply Hd0. }
  rewrite (ac_trace _ _ _ _ Hacc), drop_all in Ha. injection Ha as <-. clear Hd0.
  assert (Hh : handle_tasks s' = handle_tasks (lp_judge (mc_loop m))) by (unfold handle_tasks; by rewrite (ac_handle _ _ _ _ Hacc)).
  assert (Hl' : judge_inv s' (handle_tasks (lp_judge (mc_loop m)))) by apply Hacc.
  assert (Hids : ids_ok s').
  { intros key sr Hk. rewrite (ac_list _ _ _ _ Hacc) in Hk. apply lookup_insert_Some in Hk as [[<- <-]|[_ Hk]].
    - split; [done|]. split; [apply Hok|]. by destruct sub.
    - by apply (dk_ids _ Hd). }
  split; cbn [mc_loop mc_disk lp_judge]; [done| |].
  - intros b sr q Hv Hk Hq Hx. rewrite (ac_list _ _ _ _ Hacc) in Hk. apply lookup_insert_Some in Hk as [[Eb <-]|[_ Hk]].
    + exfalso. apply (proj2 Hun q); [|done]. by apply (box_in_run _ b).
    + by apply (dk_links _ Hd b sr q).
  - intros t e Ht. rewrite Hh. intros Hw. destruct (ac_pushed _ _ _ _ Hacc) as (st & Eg & Hpu). rewrite Eg in Ht.
    destruct (pu_new _ _ _ _ _ Hpu t e Ht) as [Hold|[Eid _]]; [by apply (dk_unused _ Hd t e)|].
    apply (unused_below (SubmissionRunPath (submission_internal_id sub))); [|done].
    apply (box_in_run _ (entry_box e)); [|by rewrite entry_box_id|apply below_refl].
    eapply (entry_valid s'); [done|done|]. by rewrite Eg.
Qed.

(** A program's links are in its work area. *)
Lemma program_links b d d' q : program_effect b d d' -> link d' q -> link d q \/ work_area b q = true.
Proof.
  intros [Hf Ho Hm] Hx. destruct (work_area b q) eqn:Ew; [by right|left]. destruct (spliced_output b q) eqn:Eo.
  - destruct (Ho q Eo) as [E|(n & c & E & K)]; [by eapply link_same|]. destruct Hx as [[t Hx]|Hx].
    + rewrite E in Hx. injection Hx as Hx. congruence.
    + right. by rewrite <- Hm.
  - eapply link_same; [by apply Hf|done|done].
Qed.

Lemma program_inv_step m h m' : disk_inv m -> loop_inv kMaxParallel (mc_loop m) -> reachable kMaxParallel (mc_loop m) ->
  0 < kMaxParallel -> roots_ok -> machine_step kMaxParallel m (LProgram h) m' -> env_ok m (LProgram h) m' -> disk_inv m'.
Proof.
  intros Hd Hl Hr Hpar Hroots Hs Hok. assert (Hs0 := Hs). inversion Hs0 as [|h0 id task d' Hrun Hp|]; subst. simpl in Hok.
  assert (Hx := Hrun). unfold running_task, entry_task in Hx. destruct (handle_map _ !! h) as [t|] eqn:Eh; [|done]. simpl in Hx.
  destruct (task_list _ !! t) as [e|] eqn:Ee; [|done]. injection Hx as <- <-.
  destruct (inv_known _ _ t e (li_judge _ _ Hl) (dk_ids _ Hd) Ee) as [sr Hk].
  destruct (task_box_owned _ _ _ _ Hk) as [Hv _]. change (task_box (te_submission_internal_id e) (te_task e)) with (entry_box e) in *.
  assert (Hin : t ∈ handle_tasks (lp_judge (mc_loop m))).
  { unfold handle_tasks. apply list_elem_of_fmap. exists (h, t). split; [done|]. by apply elem_of_map_to_list. }
  destruct (running_entry _ _ t (li_judge _ _ Hl)) as (e1 & E1 & Hz); [set_solver|]. rewrite Ee in E1. injection E1 as <-.
  split; cbn [mc_loop mc_disk].
  - apply Hd.
  - intros b sr' q Hvb Hk' Hq Hx. destruct (program_links _ _ _ q Hp Hx) as [Hx'|Hw]; [by apply (dk_links _ Hd b sr' q)|].
    assert (b = entry_box e) as ->.
    { apply (boxes_disjoint _ _ q); [done..|by apply below_under|by apply below_under, work_area_below]. }
    split; [done|]. rewrite entry_box_id in Hk'. destruct (trusted (sr_sub sr') (entry_box e)) eqn:Et; [|done].
    specialize (Hok _ _ sr' Hrun Hk' Et q Hx). destruct (dk_links _ Hd (entry_box e) sr' q Hv) as [_ Hf]; try done; [|congruence].
    by rewrite entry_box_id.
  - intros u e' Hu Hw. assert (Hne : u <> t) by congruence.
    pose proof (dk_unused _ Hd u e' Hu Hw) as Hun.
    apply (unused_step m (LProgram h) {| mc_loop := mc_loop m; mc_disk := d' |} u e'); try done.
    + apply (spared_by_others kMaxParallel m _ u e' Hl (dk_ids _ Hd)); [|done].
      destruct (step_kinds kMaxParallel m _ _ u Hpar Hl (dk_ids _ Hd) Hs) as [?|[(h' & [= <-] & Eh')|(env & h' & hs & f' & [=] & _)]];
        [simpl; by rewrite Hu|done|congruence].
    + intros q Hq Hx. destruct (program_links _ _ _ q Hp Hx) as [?|Hw']; [done|]. exfalso.
      pose proof (entry_valid _ _ u e' (li_judge _ _ Hl) (dk_ids _ Hd) Hu) as Hv'.
      assert (Eb : entry_box e' = entry_box e)
        by (apply (boxes_disjoint _ _ q); [done..|by apply below_under|by apply below_under, work_area_below]).
      pose proof (others_spared _ _ t e u e' (li_judge _ _ Hl) (dk_ids _ Hd) Ee Hz Hu Hne) as Hsp. rewrite Eb in Hsp.
      by apply (proj2 (task_box_owned _ _ _ _ Hk)).
Qed.

Lemma step_inv m lab m' : disk_inv m -> reachable kMaxParallel (mc_loop m) -> 0 < kMaxParallel -> roots_ok ->
  machine_step kMaxParallel m lab m' -> env_ok m lab m' -> disk_inv m'.
Proof.
  intros Hd Hr Hpar Hroots Hs Hok. pose proof (reachable_inv kMaxParallel Hpar _ Hr) as Hl. destruct lab as [a headers f|h|].
  - assert (Hs0 := Hs). inversion Hs0; subst. destruct (is_push a) eqn:Ea; [|by eapply judge_inv_step].
    destruct a; try done. by eapply push_inv_step.
  - by eapply program_inv_step.
  - inversion Hs as [| |d' Hf Hm]; subst.
    assert (Hx : forall b q, box_valid b -> below (box_path b) q = true -> link d' q -> link (mc_disk m) q).
    { intros b q Hv Hq. apply link_same; [|done]. apply Hf. by eapply box_root. }
    split; cbn [mc_loop mc_disk].
    + apply Hd.
    + intros b sr q Hv Hk Hq Hlk. apply (dk_links _ Hd b sr q); eauto.
    + intros u e Hu Hw. pose proof (entry_valid _ _ u e (li_judge _ _ Hl) (dk_ids _ Hd) Hu) as Hv.
      apply (unused_step m LOther {| mc_loop := mc_loop m; mc_disk := d' |} u e); try done; [by apply (dk_unused _ Hd u e)|].
      intros q. by apply Hx.
Qed.

Lemma run_inv m : 0 < kMaxParallel -> roots_ok -> machine_run m -> disk_inv m.
Proof.
  intros Hpar Hroots Hr. induction Hr as [d|m lab m' Hr IH Hs Hok]; [apply start_inv|].
  eapply step_inv; try done. by apply run_reachable.
Qed.
End DiskInv.
