(* ===== verification/BoxInv.v ===== *)
(** * The box of a running execution

    While a program runs, the place its output will be taken to is free, and the
    only mount in its box is its own: what [FinalizeExecute] relies on. *)

From S2P Require Import Prelude Enums Text Paths CNum Scores Data FileOps FilesSpec TaskGraph State Logs Specjudge Push PushBuild PushRows PushGraph Handlers HandlerFacts ScoringSpec WorkLoop LoopInv LoopSafe Effects EffectsSpec Isolation OutputSpec Links Lifecycle LinkSafe DiskInv.

Section Paths.
Context `{PathRoots}.

Lemma final_in_box id td stage : 0 <= id -> 0 <= td -> 0 <= stage ->
  below (box_path (BoxExecute id td stage)) (ExecuteBoxFinalOutput id td stage) = true.
Proof. intros. apply box_form_below; [done|]. right; left. by exists "output". Qed.

(** The setup of an execution does not touch the place of the output. *)
Lemma final_not_setup id td stage : 0 <= id -> 0 <= td -> 0 <= stage ->
  region (setup_execute_dirs id td stage) (ExecuteBoxFinalOutput id td stage) = false.
Proof.
  intros Hid Htd Hst. set (b := BoxExecute id td stage). assert (Hf : has_filename (box_path b) = true) by (by apply box_path_has_filename).
  unfold setup_execute_dirs, region. cbn [existsb].
  destruct (execute_paths id td stage false Hid Htd Hst) as (_ & _ & [_ ->]). simpl.
  assert (HT : apart (ExecuteBoxTdStrictPath id td stage false) (ExecuteBoxFinalOutput id td stage))
    by (by apply (components_apart (box_path b) "td" "output")).
  rewrite (proj1 HT). simpl. destruct (0 <? stage) eqn:E; [|done]. cbn [existsb]. rewrite orb_false_r.
  apply not_true_is_false. intros Hx. apply (box_path_below_ne (BoxExecute id td (stage - 1)) b (ExecuteBoxFinalOutput id td stage)).
  - simpl. lia.
  - done.
  - intros [=]. lia.
  - eapply below_trans; [|exact Hx]. apply final_in_box; lia.
  - by apply final_in_box.
Qed.
End Paths.

Section Box.
Context `{PathRoots} `{Config} `{JsonText} (kMaxParallel : Z).

(** The box of the execution [(id, td, stage)]. *)
Record output_clear (id td stage : Z) (d : Disk) : Prop := {
  oc_final : files d !! ExecuteBoxFinalOutput id td stage = None;
  oc_mounts : forall mt, mt ∈ mounts d -> below (ExecuteBoxPath id td stage) (mt_path mt) = true ->
    mt_path mt = Workdir (ExecuteBoxPath id td stage);
}.

Lemma output_clear_kept id td stage d d' : 0 <= id -> 0 <= td -> 0 <= stage -> output_clear id td stage d ->
  (forall q, below (ExecuteBoxPath id td stage) q = true -> files d' !! q = files d !! q /\
     (forall mt, mt_path mt = q -> (mt ∈ mounts d' <-> mt ∈ mounts d))) -> output_clear id td stage d'.
Proof.
  intros Hid Htd Hst [Hf Hm] Hk. split.
  - rewrite (proj1 (Hk _ (final_in_box id td stage Hid Htd Hst))). done.
  - intros mt Hin Hb. apply (proj2 (Hk _ Hb) mt eq_refl) in Hin. by apply Hm.
Qed.

(** It is so when the program starts. *)
Lemma started_clear m env t h headers f m' e i j : disk_inv m -> loop_inv kMaxParallel (mc_loop m) ->
  machine_step kMaxParallel m (LJudge (Dispatch env t h) headers f) m' -> headers_ok headers ->
  task_list (graph (lp_judge (mc_loop m))) !! t = Some e -> te_task e = exec_task i j ->
  task_list (graph (lp_judge (mc_loop m'))) !! t <> None ->
  output_clear (te_submission_internal_id e) i j (mc_disk m').
Proof.
  intros Hd Hl Hs Hh Ht Et Hn. apply step_disk in Hs as (He & Henv & Hp & Ha).
  destruct (inv_known _ _ t e (li_judge _ _ Hl) (dk_ids _ Hd) Ht) as [sr Hk].
  destruct (task_known_ok _ _ _ _ Hk) as [Hid (_ & Htd & Hst)]. rewrite Et in Htd, Hst. simpl in Htd, Hst.
  assert (Hw : t ∉ handle_tasks (lp_judge (mc_loop m))) by (apply (queue_waits _ _ _ Hl), He).
  pose proof (dk_unused _ Hd t e Ht Hw) as [[Hf Hm] _]. unfold entry_box, task_box in Hf, Hm. rewrite Et in Hf, Hm. simpl in Hf, Hm.
  destruct (step_quiet kMaxParallel m _ headers f (mc_loop m') Hd Hl He Hh Henv Hp) as [Hsafe _].
  destruct (dispatch_run _ _ env t h (mc_loop m') e Hl He Ht Hp Hn) as (s1 & Es & Etr).
  set (s0 := pop_task t (lp_judge (mc_loop m))) in *.
  assert (Hk0 : task_known s0 t e sr) by (by destruct Hk).
  pose proof (SetupExecute_dirs env s0 _ sr (te_task e) (tn_sub _ _ _ _ Hk0)) as Hlog. rewrite (tn_id _ _ _ _ Hk) in Hlog.
  unfold SetupTask in Es. rewrite Et in Es. rewrite Et in Hlog. specialize (Hlog ltac:(by split_and!)).
  change (SetupExecute env (te_submission_internal_id e) (exec_task i j) s0 = Done (true, s1)) in Es.
  unfold logs_at in Hlog. rewrite Es in Hlog. destruct Hlog as (es & Ees & Hes). simpl in Hes.
  change (trace s0) with (trace (lp_judge (mc_loop m))) in Ees.
  rewrite Etr, Ees, <- (assoc_L (++)), drop_app_length in Ha, Hsafe.
  assert (Hall : Forall (setup_execute_event (te_submission_internal_id e) i j)
      (es ++ [EvRunTask (te_submission_internal_id e) (te_task e) h])).
  { apply Forall_app. split; [done|]. constructor; [|done]. split; [constructor|done]. }
  split.
  - rewrite (so_files _ _ _ (events_local _ _ _ _ _ (region_closed _) (Forall_impl _ _ _ Hall (fun e He => proj1 He)) Hsafe Ha)).
    + by apply Hf, final_in_box.
    + by apply final_not_setup.
  - intros mt Hin Hb. destruct (events_mounts (Workdir (ExecuteBoxPath (te_submission_internal_id e) i j)) _ _ _ _ mt Hsafe
      (Forall_impl _ _ _ Hall (fun e He => proj2 He)) Ha Hin) as [Hx|?]; [|done]. by rewrite (Hm mt Hx) in Hb.
Qed.

Lemma run_clear m : 0 < kMaxParallel -> roots_ok -> machine_run kMaxParallel m -> forall t e i j,
  task_list (graph (lp_judge (mc_loop m))) !! t = Some e -> t ∈ handle_tasks (lp_judge (mc_loop m)) ->
  te_task e = exec_task i j -> output_clear (te_submission_internal_id e) i j (mc_disk m).
Proof.
  intros Hpar Hroots Hr. induction Hr as [d|m lab m' Hr IH Hs Hok]; intros t e i j Ht Hrun Et.
  { simpl in Ht. by rewrite lookup_empty in Ht. }
  pose proof (run_inv kMaxParallel m Hpar Hroots Hr) as Hd. pose proof (run_reachable kMaxParallel m Hr) as Hreach.
  pose proof (reachable_inv kMaxParallel Hpar _ Hreach) as Hl. pose proof (dk_ids _ Hd) as Hi.
  destruct (step_entry kMaxParallel m lab m' t e Hpar Hl Hs Ht) as [(e0 & He0 & E1 & E2)|[Hx _]]; [|done].
  rewrite E2. rewrite E1 in Et. assert (Hn : task_list (graph (lp_judge (mc_loop m'))) !! t <> None) by congruence.
  destruct (inv_known _ _ t e0 (li_judge _ _ Hl) Hi He0) as [sr Hk].
  destruct (task_known_ok _ _ _ _ Hk) as [Hid (_ & Htd & Hst)]. rewrite Et in Htd, Hst. simpl in Htd, Hst.
  assert (Eb : entry_box e0 = BoxExecute (te_submission_internal_id e0) i j) by (unfold entry_box, task_box; by rewrite Et).
  destruct (step_kinds kMaxParallel m lab m' t Hpar Hl Hi Hs Hn) as [Ho|[(h & -> & Eh)|(env & h & headers & f & -> & _)]].
  - assert (Hrun0 : t ∈ handle_tasks (lp_judge (mc_loop m))).
    { destruct lab as [a headers f|h|].
      - apply step_disk in Hs as (He & _ & Hp & _). destruct (is_push a) eqn:Ea.
        + destruct a as [sub mq| | | | |]; try done. simpl in Hp. unfold run in Hp. destruct He as [_ Hpk].
          destruct (PushSubmission_spec _ _ sub mq (li_judge _ _ Hl) Hpk) as [[E _]|(_ & s' & E & Hacc)]; rewrite E in Hp;
            injection Hp as E'; rewrite <- E' in Hrun; [done|]. simpl in Hrun. unfold handle_tasks in *.
          by rewrite (ac_handle _ _ _ _ Hacc) in Hrun.
        + destruct (ad_running _ _ _ (step_advanced kMaxParallel Hpar _ a _ Hl He Hp Ea) t Hrun) as [?|(env & h & ->)]; [done|].
          exfalso. destruct (Ho (te_submission_internal_id e0) (te_task e0)) as (t0 & e1 & Hne & He1 & _ & E3 & E4).
          { simpl. unfold entry_task. by rewrite He0. }
          apply Hne. eapply (sg_uniq _ _ _ (ss_graph _ _ _ (ji_sub _ _ (li_judge _ _ Hl) _ _ (tn_sub _ _ _ _ Hk)))); [exact He1|done|exact He0|done|done].
      - inversion Hs; subst. done.
      - inversion Hs; subst. done. }
    apply (output_clear_kept _ _ _ (mc_disk m)); try done; [by apply (IH t e0)|].
    change (ExecuteBoxPath (te_submission_internal_id e0) i j) with (box_path (BoxExecute (te_submission_internal_id e0) i j)).
    rewrite <- Eb. apply (step_isolated kMaxParallel m lab m'); try done.
    + by eapply step_follows.
    + by rewrite Eb.
    + by eapply spared_by_others.
  - assert (Hc : output_clear (te_submission_internal_id e0) i j (mc_disk m))
      by (apply (IH t e0); [done|by eapply in_handle_tasks|done]).
    inversion Hs as [|h0 id task d' Hrt Hp|]; subst. cbn [mc_disk]. unfold running_task, entry_task in Hrt. rewrite Eh in Hrt. simpl in Hrt.
    rewrite He0 in Hrt. injection Hrt as <- <-. change (task_box (te_submission_internal_id e0) (te_task e0)) with (entry_box e0) in Hp. rewrite Eb in Hp.
    destruct Hc as [Hf Hm]. split.
    + rewrite (pe_files _ _ _ Hp); [done| |].
      * by apply final_output_free, below_refl.
      * simpl. apply bool_decide_eq_false. intros Hx.
        destruct (execute_paths (te_submission_internal_id e0) i j true) as ([Hx' _] & _); [done..|].
        rewrite Hx in Hx'. by rewrite below_refl in Hx'.
    + by rewrite (pe_mounts _ _ _ Hp).
  - rewrite <- E2. rewrite E2. eapply started_clear; try done. apply Hok.
Qed.
End Box.
