(* ===== verification/MachineRun.v ===== *)
(** * Runs of the machine

    A checker for runs of the machine from its start, and one run on which the
    theorems about all runs are instantiated: a submission is compiled, and its
    program writes its output and a link. *)

From S2P Require Import Prelude Enums Text Paths CNum Scores Data FileOps FilesSpec TaskGraph State Logs Push Handlers WorkLoop LoopInv LoopSafe Scenario Effects EffectsSpec Isolation Links Lifecycle LinkSafe DiskInv.

(** ** Executable steps *)

Inductive move :=
| MJudge (a : Env -> action)                 (* a step of the judge; nothing fails *)
| MWrite (handle : Z) (p : string) (n : Node)  (* the program of a task makes a node *)
| MOther (p : string) (n : Node).              (* another program does *)

Section Play.
Context `{PathRoots} `{Config} `{JsonText} (kMaxParallel : Z).

Definition put (p : string) (n : Node) (d : Disk) : Disk := with_files (<[p := n]> (files d)) d.

Definition unusedb (p : string) (d : Disk) : bool :=
  forallb (fun '(q, _) => negb (below p q)) (map_to_list (files d)) && bool_decide (mounts d = []).

Definition pushb (a : action) (d : Disk) : bool :=
  match a with
  | Push_ sub _ => (0 <=? submission_internal_id sub) && (0 <=? problem_id sub) &&
      unusedb (SubmissionRunPath (submission_internal_id sub)) d
  | _ => true
  end.

(** The label of a move, and the machine after it. *)
Definition move_label (m : Machine) (v : move) : mlabel :=
  match v with
  | MJudge a => LJudge (a (env_of [] (mc_disk m))) [] (fun _ => no_faults)
  | MWrite h _ _ => LProgram h
  | MOther _ _ => LOther
  end.

Definition regular_node (n : Node) : bool := match nd_kind n with Regular _ => true | _ => false end.

Definition play1 (m : Machine) (v : move) : option Machine :=
  match v with
  | MJudge a0 =>
      let a := a0 (env_of [] (mc_disk m)) in
      if enabledb kMaxParallel (mc_loop m) a && pushb a (mc_disk m) then
        match perform (mc_loop m) a with
        | Done l' =>
            match apply_events (fun _ => no_faults) (drop (length (trace (lp_judge (mc_loop m)))) (trace (lp_judge l'))) (mc_disk m) with
            | Done d' => Some {| mc_loop := l'; mc_disk := d' |}
            | Crash _ => None
            end
        | Crash _ => None
        end
      else None
  | MWrite h p n =>
      match running_task (lp_judge (mc_loop m)) h with
      | Some (id, task) =>
          let trusted_here := match submission_list (lp_judge (mc_loop m)) !! id with
                              | Some sr => trusted (sr_sub sr) (task_box id task) | None => true end in
          if work_area (task_box id task) p && negb (spliced_output (task_box id task) p) &&
             (negb trusted_here || regular_node n)
          then Some {| mc_loop := mc_loop m; mc_disk := put p n (mc_disk m) |} else None
      | None => None
      end
  | MOther p n => if below kBoxRoot p then None else Some {| mc_loop := mc_loop m; mc_disk := put p n (mc_disk m) |}
  end.

(** The moves that read their own environment. *)
Definition proper (v : move) : Prop :=
  match v with MJudge a => forall env env', action_env (a env) = Some env' -> env' = env | _ => True end.

Lemma unusedb_ok p d : unusedb p d = true -> unused p d.
Proof.
  unfold unusedb. rewrite andb_true_iff, forallb_forall, bool_decide_eq_true. intros [Hf Hm].
  assert (Hn : forall q, below p q = true -> files d !! q = None).
  { intros q Hq. destruct (files d !! q) as [n|] eqn:E; [|done]. apply elem_of_map_to_list, list_elem_of_In, Hf in E.
    by rewrite Hq in E. }
  split; [split|].
  - exact Hn.
  - intros m Hin. rewrite Hm in Hin. by apply elem_of_nil in Hin.
  - intros q Hq [Hx|(m & Hin & _)]; [rewrite (Hn q Hq) in Hx; by apply is_link_none in Hx|].
    rewrite Hm in Hin. by apply elem_of_nil in Hin.
Qed.

Lemma put_effect b p n d : work_area b p = true -> spliced_output b p = false -> program_effect b d (put p n d).
Proof.
  intros Hw Hs. split; [|intros q Hq; left|done]; unfold put; cbn [files with_files].
  - intros q Hq _. apply lookup_insert_ne. intros ->. congruence.
  - apply lookup_insert_ne. intros ->. congruence.
Qed.

Lemma play1_step m v m' : proper v -> play1 m v = Some m' ->
  machine_step kMaxParallel m (move_label m v) m' /\ env_ok m (move_label m v) m'.
Proof.
  intros Hv. destruct v as [a0|h p n|p n]; simpl.
  - destruct (enabledb kMaxParallel _ _) eqn:Ee; [|done]. destruct (pushb _ _) eqn:Eb; [|done]. simpl.
    destruct (perform _ _) as [l'|] eqn:Ep; [|done]. destruct (apply_events _ _ _) as [d'|] eqn:Ea; [|done]. intros [= <-].
    split; [apply judge_step; [by apply enabledb_ok|by apply Hv|done|done]|]. split; [constructor|].
    destruct (a0 _); try done. simpl in Eb. rewrite !andb_true_iff in Eb. destruct Eb as [[? ?] ?%unusedb_ok].
    split_and!; [lia|lia|done].
  - destruct (running_task _ h) as [[id task]|] eqn:Er; [|done].
    destruct (work_area _ p) eqn:Ew; [|done]. destruct (spliced_output _ p) eqn:Es; [done|]. simpl.
    destruct (_ || _) eqn:Et; [|done]. intros [= <-].
    split; [by eapply program_step, put_effect|]. intros id' task' sr [= <- <-] Hsr Htr. rewrite Hsr, Htr in Et.
    apply insert_shrinks. intros t Hk. simpl in Et. unfold regular_node in Et. by rewrite Hk in Et.
  - destruct (below kBoxRoot p) eqn:Ex; [done|]. intros [= <-]. split; [|done]. apply other_step; [|done].
    intros q Hq. unfold put. cbn [files with_files]. apply lookup_insert_ne. intros ->. congruence.
Qed.

Fixpoint play (vs : list move) (m : Machine) : option Machine :=
  match vs with [] => Some m | v :: vs' => m1 ← play1 m v; play vs' m1 end.

Definition played (vs : list move) (d : Disk) : Machine :=
  default {| mc_loop := initial; mc_disk := d |} (play vs {| mc_loop := initial; mc_disk := d |}).

Lemma play_run vs m m' : Forall proper vs -> machine_run kMaxParallel m -> play vs m = Some m' -> machine_run kMaxParallel m'.
Proof.
  intros Hp. revert m. induction Hp as [|v vs Hv _ IH]; intros m Hm; simpl; [by intros [= <-]|].
  destruct (play1 m v) as [m1|] eqn:E; [|done]. simpl. apply IH. destruct (play1_step _ _ _ Hv E). by eapply run_step.
Qed.

Lemma played_run vs d : Forall proper vs -> machine_run kMaxParallel (played vs d).
Proof.
  intros Hp. unfold played. destruct (play vs _) as [m|] eqn:E; simpl; [|apply run_start].
  eapply play_run; [done|apply run_start|done].
Qed.

(** The machine after one more move. *)
Definition next (m : Machine) (v : move) : Machine := default m (play1 m v).
Definition plays (m : Machine) (v : move) : bool := match play1 m v with Some _ => true | None => false end.

Lemma next_step m v : proper v -> plays m v = true ->
  machine_step kMaxParallel m (move_label m v) (next m v) /\ env_ok m (move_label m v) (next m v).
Proof. unfold plays, next. intros Hv. destruct (play1 m v) eqn:E; [|done]. intros _. by apply play1_step. Qed.
End Play.

(** ** A run *)

#[local] Existing Instance sample_roots.
#[local] Existing Instance sample_config.
#[local] Existing Instance sample_json.

Definition other_sub : Submission := sample_sub 9 101 [sample_item [0]] SJ_NORMAL.

(** The code of the two submissions, their test data, and a link in the box of
    another submission. *)
Definition first_disk : Disk := {|
  files := {[ "/tmp/tioj_submissions/000007/prog" := file "int main(){}";
              "/tmp/tioj_submissions/000009/prog" := file "int main(){ }";
              "/td/in" := file "6 7"; "/td/ans" := file "42";
              "/tmp/tioj_box/000008/execute000_00/workdir/link" :=
                {| nd_kind := Symlink "/tmp/tioj_submissions/000007/prog"; nd_perms := 511; nd_owner := 1000 |} ]};
  mounts := [] |}.

(** The first submission is compiled, and its program, which runs, has made a link and
    written its output; the second one is being compiled. *)
Definition executing_moves : list move := [
  MJudge (fun _ => Push_ sample 0); MJudge (fun _ => Push_ other_sub 5); MJudge (fun _ => Wake);
  MJudge (fun env => Dispatch env 3 0); MJudge (fun env => Dispatch env 7 1); MJudge (fun _ => StartWait);
  MWrite 0 "/tmp/tioj_box/000007/compile0/workdir/prog" (file "ELF");
  MJudge (fun env => Finish env 0 exited_ok);
  MJudge (fun env => Dispatch env 1 0); MJudge (fun _ => StartWait);
  MWrite 0 "/tmp/tioj_box/000007/execute000_00/workdir/link"
    {| nd_kind := Symlink "/etc/passwd"; nd_perms := 511; nd_owner := 1000 |};
  MWrite 0 "/tmp/tioj_box/000007/execute000_00/workdir/output" (file "42 ")].

Definition executing_machine : Machine := played 4 executing_moves first_disk.

Lemma executing_proper : Forall proper executing_moves.
Proof.
  unfold executing_moves. repeat (apply Forall_cons_2; [first [exact I | intros env env' E; by inversion E]|]). apply Forall_nil_2.
Qed.

Lemma executing_run : machine_run 4 executing_machine.
Proof. exact (played_run 4 executing_moves first_disk executing_proper). Qed.

Definition finish_move : move := MJudge (fun env => Finish env 0 exited_ok).
Definition finished_machine : Machine := next 4 executing_machine finish_move.

Lemma finish_proper : proper finish_move.
Proof. intros env env' E. by inversion E. Qed.

Lemma finish_plays : plays 4 executing_machine finish_move = true.
Proof. vm_compute. reflexivity. Qed.

Lemma finish_step : machine_step 4 executing_machine (move_label executing_machine finish_move) finished_machine /\
  env_ok executing_machine (move_label executing_machine finish_move) finished_machine.
Proof. exact (next_step 4 executing_machine finish_move finish_proper finish_plays). Qed.

Lemma sample_roots_ok : roots_ok.
Proof. split; [reflexivity|reflexivity|split; reflexivity]. Qed.
