(* ===== verification/RunSpec.v ===== *)
(** * The disk in every run of the judge

    The theorems about whole runs, for submissions whose files the judge looks at before it
    takes them over: the judge changes nothing through a link, the boxes of tasks do
    not touch each other, and a box is empty when its task starts. *)

From S2P Require Import Prelude Enums Text Paths CNum Scores Data FileOps FilesSpec TaskGraph State Logs Push PushBuild PushRows PushGraph Handlers HandlerFacts WorkLoop LoopInv LoopSafe Scenario Effects EffectsSpec Isolation Links Lifecycle LinkSafe DiskInv MachineRun.

Section Runs.
Context `{PathRoots} `{Config} `{JsonText} (kMaxParallel : Z).

(** ** Submissions whose files are looked at

    The judge looks at what a program leaves before it takes it over, with two
    exceptions: what a special judge leaves as the output for the next stage, when the
    submission is judged between its stages, and the compiled summary program. *)
Definition links_checked (sub : Submission) : bool :=
  negb (judge_between_stages sub) && negb (bool_decide (summary_type sub = SUMMARY_CUSTOM)).

(** The environment of a step: headers are named by relative paths; a new submission has
    no unchecked files, its numbers are not negative, and its directory does not
    exist yet.  Nothing is assumed about programs. *)
Definition env_checked (m : Machine) (lab : mlabel) : Prop :=
  match lab with
  | LJudge a headers _ => headers_ok headers /\
      match a with
      | Push_ sub _ => links_checked sub = true /\ 0 <= submission_internal_id sub /\ 0 <= problem_id sub /\
          unused (SubmissionRunPath (submission_internal_id sub)) (mc_disk m)
      | _ => True
      end
  | _ => True
  end.

(** The runs of the judge, from its start on any disk, with such submissions. *)
Inductive checked_run : Machine -> Prop :=
| checked_start d : checked_run {| mc_loop := initial; mc_disk := d |}
| checked_step m lab m' : checked_run m -> machine_step kMaxParallel m lab m' -> env_checked m lab -> checked_run m'.

Definition all_checked (s : Judge) : Prop := forall k sr, submission_list s !! k = Some sr -> links_checked (sr_sub sr) = true.

Lemma clamped_checked sub : links_checked (clamped sub) = links_checked sub.
Proof. by destruct sub. Qed.

Lemma all_checked_step m lab m' : 0 < kMaxParallel -> loop_inv kMaxParallel (mc_loop m) -> all_checked (lp_judge (mc_loop m)) ->
  machine_step kMaxParallel m lab m' -> env_checked m lab -> all_checked (lp_judge (mc_loop m')).
Proof.
  intros Hpar Hl Hc Hs Ho. destruct lab as [a headers f|h|]; [|by inversion Hs; subst..].
  apply step_disk in Hs as (He & _ & Hp & _). destruct (is_push a) eqn:Ea.
  - destruct a as [sub mq| | | | |]; try done. simpl in Hp. unfold run in Hp. destruct He as [_ Hok], Ho as (_ & Hck & _).
    destruct (PushSubmission_spec _ _ sub mq (li_judge _ _ Hl) Hok) as [[E _]|(_ & s' & E & Hacc)]; rewrite E in Hp;
      injection Hp as E'; rewrite <- E'; [done|]. intros k sr Hk. cbn [lp_judge] in Hk.
    rewrite (ac_list _ _ _ _ Hacc) in Hk. apply lookup_insert_Some in Hk as [[_ <-]|[_ Hk]]; [|by eapply Hc].
    cbn [sr_sub]. by rewrite clamped_checked.
  - intros k sr' Hk. destruct (sw_subs _ _ (ad_work _ _ _ (step_advanced kMaxParallel Hpar _ a _ Hl He Hp Ea)) k sr' Hk)
      as (sr & Hsr & ->). by eapply Hc.
Qed.

(** In such runs no running program is one of the two. *)
Lemma env_checked_ok m lab m' : loop_inv kMaxParallel (mc_loop m) -> ids_ok (lp_judge (mc_loop m)) ->
  all_checked (lp_judge (mc_loop m)) -> env_checked m lab -> env_ok m lab m'.
Proof.
  intros Hl Hi Hc Ho. destruct lab as [a headers f|h|]; simpl in *; [|clear Ho|done].
  { destruct Ho as [Hh Ho]. split; [done|]. destruct a; try done. apply Ho. }
  intros id task sr Hrun Hsr Htr. exfalso. pose proof (Hc _ _ Hsr) as Hck. unfold links_checked in Hck.
  apply andb_true_iff in Hck as [Hb Hsum]. apply negb_true_iff in Hb, Hsum. apply bool_decide_eq_false in Hsum.
  destruct (running_known kMaxParallel _ _ _ _ Hl Hi Hrun) as (t & e & sr' & _ & Hk & Eid & Et & _).
  assert (Hx := tn_expected _ _ _ _ Hk). assert (Hs' := tn_sub _ _ _ _ Hk). rewrite Eid in Hs'. rewrite Et in Hx. simplify_eq.
  unfold trusted, task_box, expected in *. destruct (tk_type (te_task e)); try done; [|congruence].
  destruct Hx as (c & E & Hw). rewrite E in Htr. simpl in Htr. rewrite CompileSubtask_of_to_Z in Htr. by destruct c.
Qed.

Record run_facts (m : Machine) : Prop := {
  rf_run : machine_run kMaxParallel m;
  rf_loop : loop_inv kMaxParallel (mc_loop m);
  rf_disk : disk_inv m;
  rf_checked : all_checked (lp_judge (mc_loop m));
}.

Lemma checked_facts m : 0 < kMaxParallel -> roots_ok -> checked_run m -> run_facts m.
Proof.
  intros Hpar Hroots Hr. assert (Hf : machine_run kMaxParallel m /\ all_checked (lp_judge (mc_loop m))).
  { induction Hr as [d|m lab m' _ [IH Hc] Hs Ho].
    - split; [apply run_start|]. intros k sr Hk. simpl in Hk. by rewrite lookup_empty in Hk.
    - pose proof (reachable_inv kMaxParallel Hpar _ (run_reachable _ _ IH)) as Hl.
      split; [|by eapply all_checked_step]. eapply run_step; [done|done|]. eapply env_checked_ok; try done.
      by apply dk_ids, (run_inv kMaxParallel). }
  destruct Hf as [Hm Hc]. split; try done; [by eapply reachable_inv, run_reachable|by apply (run_inv kMaxParallel)].
Qed.

(** Runs of [MachineRun.play] are such runs when what is pushed is checked. *)
Definition checked_move (v : move) : Prop :=
  match v with MJudge a => forall env sub mq, a env = Push_ sub mq -> links_checked sub = true | _ => True end.

Lemma play_checked vs m m' : Forall proper vs -> Forall checked_move vs -> checked_run m ->
  play kMaxParallel vs m = Some m' -> checked_run m'.
Proof.
  intros Hp. revert m. induction Hp as [|v vs Hv _ IH]; intros m Hc Hm; simpl; [by intros [= <-]|].
  apply Forall_cons in Hc as [Hv' Hc]. destruct (play1 kMaxParallel m v) as [m1|] eqn:E; [|done]. simpl. apply IH; [done|].
  destruct (play1_step kMaxParallel _ _ _ Hv E) as [Hs Ho]. eapply checked_step; [done|exact Hs|].
  destruct v as [a| |]; [|done..]. simpl in Ho |- *. destruct Ho as [Hh Ho]. split; [done|].
  destruct (a _) eqn:Ea; try done. split; [by eapply Hv'|done].
Qed.

(** ** The theorems *)

(** C8: the boxes of different tasks do not touch each other.  This holds in every run of
    the judge from its start in which no submission is judged between its stages or
    has a summary program of its own ([links_checked]; otherwise
    [SetupExecute] follows a link that a special judge has left between stages, as
    [OutputSpec.planted_link_followed] shows, and [SetupSummary] moves the compiled
    program unchecked): whatever step the judge, a sandboxed program or another program makes, a file in
    the box [b] keeps its contents, permissions and owner, and no mount appears or
    goes there, unless the step is about a task that owns [b] (the task of that
    box, the next stage, the scoring of an execution, the summary of the
    submission).  Programs may leave any links in their work areas, and the
    operations of the step may fail in any way. *)
Theorem boxes_isolated m lab m' b :
  0 < kMaxParallel -> roots_ok -> checked_run m ->
  machine_step kMaxParallel m lab m' -> env_checked m lab -> box_valid b ->
  (forall id task, label_task (mc_loop m) lab = Some (id, task) -> spares b id task) ->
  forall q, below (box_path b) q = true ->
    files (mc_disk m') !! q = files (mc_disk m) !! q /\
    (forall mt, mt_path mt = q -> (mt ∈ mounts (mc_disk m') <-> mt ∈ mounts (mc_disk m))).
Proof.
  intros Hpar Hroots Hr Hs Ho Hb Hsp. destruct (checked_facts m Hpar Hroots Hr) as [Hm Hl Hd Hc].
  apply (step_isolated kMaxParallel m lab m'); try done; [by eapply run_reachable|apply Hd|].
  eapply step_follows; try done. eapply env_checked_ok; try done. apply Hd.
Qed.

(** C9: the judge, which works as root, changes nothing through a link: in every run of
    the judge from its start in which no submission is judged between its stages or
    has a summary program of its own, no file operation of a step that writes a file,
    makes a directory, changes permissions or the owner, mounts or unmounts is given
    a path that is a symbolic link, whatever links programs have left in their work
    areas and whatever the failures; this holds for each operation on the disk that
    the operations before it have left.  Reading is not covered: a copy resolves
    its source, and the files of a Kattis judge are read through links. *)
Theorem judge_changes_no_link_target m lab m' :
  0 < kMaxParallel -> roots_ok -> checked_run m ->
  machine_step kMaxParallel m lab m' -> env_checked m lab -> follows_no_link m lab.
Proof.
  intros Hpar Hroots Hr Hs Ho. destruct (checked_facts m Hpar Hroots Hr) as [Hm Hl Hd Hc].
  eapply step_follows; try done. eapply env_checked_ok; try done. apply Hd.
Qed.

(** C10: the invariant of the disk in every run of the judge from its start in which no
    submission is judged between its stages or has a summary program of its own: as
    long as a task has not started there is nothing in its box, neither a file nor a
    mount; and in the boxes of the submissions there are links only where the
    program of the box can write, so that the judge has moved none elsewhere. *)
Theorem boxes_clean m : 0 < kMaxParallel -> roots_ok -> checked_run m ->
  (forall t e, task_list (graph (lp_judge (mc_loop m))) !! t = Some e -> t ∉ handle_tasks (lp_judge (mc_loop m)) ->
     forall q, below (box_path (task_box (te_submission_internal_id e) (te_task e))) q = true ->
       files (mc_disk m) !! q = None /\ (forall mt, mt ∈ mounts (mc_disk m) -> mt_path mt <> q)) /\
  (forall b sr q target, box_valid b -> submission_list (lp_judge (mc_loop m)) !! box_id b = Some sr ->
     below (box_path b) q = true -> nd_kind <$> files (mc_disk m) !! q = Some (Symlink target) ->
     work_area b q = true).
Proof.
  intros Hpar Hroots Hr. destruct (checked_facts m Hpar Hroots Hr) as [Hm Hl Hd Hc]. split.
  - intros t e Ht Hw q Hq. change (below (box_path (entry_box e)) q = true) in Hq. destruct (dk_unused _ Hd t e Ht Hw) as [[Hf Hmt] _].
    split; [by apply Hf|]. intros mt Hin <-. rewrite (Hmt mt Hin) in Hq. done.
  - intros b sr q target Hb Hsr Hq Hx. apply (dk_links _ Hd b sr q Hb Hsr Hq). left. by exists target.
Qed.
End Runs.

#[local] Existing Instance sample_roots.
#[local] Existing Instance sample_config.
#[local] Existing Instance sample_json.

Lemma some_pair {A B} (o : option (A * B)) x a b : o = Some x -> o = Some (a, b) -> a = x.1 /\ b = x.2.
Proof. by intros -> [= ->]. Qed.

Lemma executing_checked : checked_run 4 executing_machine.
Proof.
  assert (Hc : Forall checked_move executing_moves).
  { unfold executing_moves. repeat (apply Forall_cons_2;
      [first [exact I | intros env sub mq E; inversion E; vm_compute; reflexivity]|]). apply Forall_nil_2. }
  assert (Hb : match play 4 executing_moves {| mc_loop := initial; mc_disk := first_disk |} with Some _ => true | None => false end = true)
    by (vm_compute; reflexivity).
  unfold executing_machine, played. destruct (play 4 executing_moves _) as [m|] eqn:E; [|discriminate Hb].
  exact (play_checked 4 executing_moves _ m executing_proper Hc (checked_start 4 first_disk) E).
Qed.

Lemma finish_checked : env_checked executing_machine (move_label executing_machine finish_move).
Proof. split; [constructor|exact I]. Qed.

Lemma executing_task : running_task (lp_judge (mc_loop executing_machine)) 0 = Some (7, exec_task 0 0).
Proof. vm_compute. reflexivity. Qed.

Lemma finishing_task id task : label_task (mc_loop executing_machine) (move_label executing_machine finish_move) = Some (id, task) ->
  id = 7 /\ task = exec_task 0 0.
Proof. exact (some_pair _ _ _ _ executing_task). Qed.

(** The output of the first submission is taken while the second one is compiled. *)
Lemma boxes_isolated_witness :
  files (mc_disk finished_machine) !! "/tmp/tioj_box/000007/execute000_00/output" =
    Some {| nd_kind := Regular "42 "; nd_perms := kPerm666; nd_owner := 0 |} /\
  files (mc_disk finished_machine) !! "/tmp/tioj_box/000009/compile0/workdir/prog.cpp" =
  files (mc_disk executing_machine) !! "/tmp/tioj_box/000009/compile0/workdir/prog.cpp".
Proof.
  split; [vm_compute; reflexivity|].
  refine (proj1 (boxes_isolated 4 executing_machine _ finished_machine (BoxCompile 9 USERPROG) ltac:(lia) sample_roots_ok
    executing_checked (proj1 finish_step) finish_checked _ _ _ _)).
  - simpl. lia.
  - intros id task [-> ->]%finishing_task. left. discriminate.
  - reflexivity.
Defined.

(** There is a link of the program in the box the judge works in. *)
Lemma judge_changes_no_link_target_witness :
  follows_no_link executing_machine (move_label executing_machine finish_move) /\
  nd_kind <$> files (mc_disk executing_machine) !! "/tmp/tioj_box/000007/execute000_00/workdir/link" = Some (Symlink "/etc/passwd").
Proof.
  split; [|vm_compute; reflexivity].
  exact (judge_changes_no_link_target 4 executing_machine _ finished_machine ltac:(lia) sample_roots_ok executing_checked
    (proj1 finish_step) finish_checked).
Defined.

(** The scoring has not started. *)
Lemma boxes_clean_witness :
  files (mc_disk executing_machine) !! "/tmp/tioj_box/000007/scoring000_00/workdir" = None /\
  work_area (BoxExecute 7 0 0) "/tmp/tioj_box/000007/execute000_00/workdir/link" = true.
Proof.
  destruct (boxes_clean 4 executing_machine ltac:(lia) sample_roots_ok executing_checked) as [He Hl]. split.
  - assert (Ht : exists e, task_list (graph (lp_judge (mc_loop executing_machine))) !! 2 = Some e /\
      te_submission_internal_id e = 7 /\ te_task e = score_task 0 0) by (eexists; vm_compute; done).
    destruct Ht as (e & Ht & Eid & Et). specialize (He 2 e Ht). rewrite Eid, Et in He. apply He; [|reflexivity].
    apply (bool_decide_eq_false (2 ∈ handle_tasks _)). vm_compute. reflexivity.
  - assert (Hs : exists sr, submission_list (lp_judge (mc_loop executing_machine)) !! 7 = Some sr) by (eexists; vm_compute; done).
    destruct Hs as [sr Hs]. apply (Hl (BoxExecute 7 0 0) sr _ "/etc/passwd"); [simpl; lia|exact Hs|reflexivity|vm_compute; reflexivity].
Defined.
