(* ===== verification/ScoringFiles.v ===== *)
(** * What the special judge is given

    [SetupScoring] of src/tioj/submission.cpp on a disk: the output of the execution, the
    input and the answer of the test data in the box of the special judge. *)

From S2P Require Import Prelude Enums Text Paths CNum Scores Data FileOps FilesSpec TaskGraph State Logs Specjudge Push PushGraph Handlers HandlerFacts WorkLoop LoopInv LoopSafe Scenario ScoringSpec Effects EffectsSpec Isolation OutputSpec Links.

(** ** SetupScoring *)

(** Creating a directory changes one node. *)
Lemma CreateDirs_node f p m d q : plain d p -> q <> p -> files (CreateDirs f p m d).2 !! q = files d !! q.
Proof.
  intros Hp Hq. unfold CreateDirs. assert (H1 : forall d1 x, fs_create_directories f p d = (x, d1) ->
    files d1 !! q = files d !! q /\ plain d1 p).
  { unfold fs_create_directories. intros d1 x. repeat case_match; intros [= <- <-]; try done.
    all: simpl; rewrite lookup_insert_ne by done; split; [done|]; intros t; simpl; by rewrite lookup_insert_eq. }
  destruct (fs_create_directories f p d) as [[e|] d1]; [by eapply H1|]. destruct (H1 d1 None eq_refl) as [E1 Hp1].
  rewrite <- E1. unfold finish_permissions. destruct m as [m|]; [|done]. unfold fs_permissions, change_node.
  rewrite (resolve_plain d1 p) by done. destruct (permissions_error f); [done|].
  destruct (files d1 !! p); simpl; [|done]. by rewrite lookup_insert_ne.
Qed.

Lemma event_keeps f e d d' q : event_safe d e -> event_effect f e d = Done d' -> region (targets e) q = false ->
  files d' !! q = files d !! q.
Proof.
  intros Hs E. apply (so_files _ d d'). eapply (event_local _ f e); try done; [apply region_closed|].
  unfold within. apply Forall_forall. intros p Hp. by eapply region_in, below_refl.
Qed.

Lemma region_false L q : Forall (fun p => apart p q) L -> region L q = false.
Proof.
  intros HL. apply not_true_is_false. unfold region. rewrite existsb_exists. intros (p & Hp%list_elem_of_In & Hb).
  rewrite Forall_forall in HL. destruct (HL p Hp) as [Hx _]. congruence.
Qed.

Lemma boxes_apart `{PathRoots} b b' p q : box_valid b -> box_valid b' -> b <> b' ->
  below (box_path b) p = true -> below (box_path b') q = true -> apart p q.
Proof.
  intros Hv Hv' Hne Hp Hq. split; apply not_true_is_false; intros Hx; apply Hne.
  - apply (boxes_disjoint b b' q); try done; apply below_under; [by eapply below_trans|done].
  - apply (boxes_disjoint b b' p); try done; apply below_under; [done|by eapply below_trans].
Qed.

Section Scoring.
Context `{PathRoots} (id i j : Z) (Hid : 0 <= id) (Hi : 0 <= i) (Hj : 0 <= j).

Abbreviation SB := (ScoringBoxPath id i j).
Abbreviation SW := (Workdir SB).
Abbreviation SF := (ExecuteBoxFinalOutput id i j).

Lemma SB_valid : box_valid (BoxScoring id i j).
Proof. done. Qed.

Lemma SB_filename : has_filename SB = true.
Proof. apply (box_path_has_filename (BoxScoring id i j) SB_valid). Qed.

Lemma SW_filename : has_filename SW = true.
Proof. apply workdir_has_filename. Qed.

Lemma SW_below s : component s -> below SB (SW // s) = true.
Proof using Hid Hi Hj. intros Hs. apply below_in_workdir; [done|apply SB_filename]. Qed.

Lemma SW_ne s : component s -> SW // s <> SW.
Proof. intros Hs E. pose proof (below_component_false SW s Hs SW_filename) as Hb. by rewrite E, below_refl in Hb. Qed.

Lemma SW_apart s s' : component s -> component s' -> s <> s' -> apart (SW // s) (SW // s').
Proof. intros. apply components_apart; try done. apply SW_filename. Qed.

Lemma tmp_apart s : component s -> apart (SB // "tmp") (SW // s).
Proof using Hid Hi Hj.
  intros Hs. apply apart_sym. apply (apart_extend SW); [|by apply below_component; [|apply SW_filename]].
  apply components_apart; try done. apply SB_filename.
Qed.

Lemma final_apart q : below SB q = true -> apart SF q.
Proof using Hid Hi Hj.
  intros Hq. apply (boxes_apart (BoxExecute id i j) (BoxScoring id i j)); try done.
  apply (below_component _ "output"); [done|]. by apply (box_path_has_filename (BoxExecute id i j)).
Qed.

(** What is absent from the box after the paths [L] have been written. *)
Definition absent_but (L : list string) (d : Disk) : Prop :=
  forall q, below SB q = true -> q <> SW -> region L q = false -> files d !! q = None.

Lemma absent_step f L e d d' : absent_but L d -> event_safe d e -> event_effect f e d = Done d' ->
  absent_but (targets e ++ L) d'.
Proof.
  intros HL Hs E q Hq Hne Hr. unfold region in Hr. rewrite existsb_app in Hr. apply orb_false_iff in Hr as [H1 H2].
  rewrite (event_keeps f e d d') by done. by apply HL.
Qed.

Lemma absent_plain L d q : absent_but L d -> below SB q = true -> q <> SW -> region L q = false -> plain d q.
Proof. intros HL H1 H2 H3 t. by rewrite HL. Qed.
Lemma apply_events_cons f e es d d' : apply_events f (e :: es) d = Done d' -> exists d1,
  event_effect (f O) e d = Done d1 /\ apply_events (fun i => f (S i)) es d1 = Done d'.
Proof. simpl. destruct (event_effect (f O) e d) as [d1|]; [|done]. by exists d1. Qed.

(** A copied file. *)
Lemma copied from to perms c d d' : event_effect no_faults (EvCopy from to (Some perms)) d = Done d' ->
  (exists n, files d !! from = Some n /\ nd_kind n = Regular c) -> files d !! to = None ->
  exists o, files d' !! to = Some {| nd_kind := Regular c; nd_perms := perms; nd_owner := o |}.
Proof using Type.
  intros [= <-] (n & En & Ek) Hto. destruct (Copy_spec no_faults from to (Some perms) d n c) as (o & _ & ->); try done.
  - by rewrite node_at_plain by (by eapply plain_regular).
  - intros n'. by rewrite Hto.
  - exists o. simpl. by rewrite lookup_insert_eq.
Qed.

Definition is_file (d : Disk) (p c : string) : Prop := exists n, files d !! p = Some n /\ nd_kind n = Regular c.

Section Chain.
Context (judge code input answer meta : string) (jl cl : Compiler) (between : bool).

Abbreviation prog := (SW // ("prog" +:+ ProgramExtension jl)).
Abbreviation source := (SW // ("code" +:+ CodeExtension cl)).
Abbreviation U := (SW // "user_output").
Abbreviation TI := (SW // "td_input").
Abbreviation TO := (SW // "td_output").
Abbreviation T := (SB // "tmp").
Abbreviation ME := (SW // "meta").

Lemma names_ok : component ("prog" +:+ ProgramExtension jl) /\ component ("code" +:+ CodeExtension cl).
Proof using Type. split; [by apply component_prog_extension|by apply component_extension]. Qed.

Lemma prog_apart s : s ∈ ["user_output"; "td_input"; "td_output"; "meta"] -> apart prog (SW // s).
Proof using Type.
  intros Hs. apply SW_apart; [by apply component_prog_extension| |]; repeat (apply elem_of_cons in Hs as [->|Hs]); try done;
    try (by apply elem_of_nil in Hs); by destruct jl.
Qed.

Lemma source_apart s : s ∈ ["user_output"; "td_input"; "td_output"; "meta"] -> apart source (SW // s).
Proof using Type.
  intros Hs. apply SW_apart; [by apply component_extension| |]; repeat (apply elem_of_cons in Hs as [->|Hs]); try done;
    try (by apply elem_of_nil in Hs); by destruct cl.
Qed.

Lemma prog_source : apart prog source.
Proof using Type. apply SW_apart; [apply names_ok..|]. by destruct jl, cl. Qed.

(** The judge's program and the code are in the box, and nothing else. *)
Lemma chain_programs es d d' : fresh_box SB d ->
  apply_events (fun _ => no_faults) ([EvCreateDirs SW (Some perms_all); EvCopy judge prog (Some perms_all);
    EvCopy code source (Some kPerm666)] ++ es) d = Done d' ->
  exists d1, apply_events (fun _ => no_faults) es d1 = Done d' /\ absent_but [source; prog] d1 /\
    mounts d1 = mounts d /\ (forall q, below SB q = false -> files d1 !! q = files d !! q).
Proof using Hid Hi Hj.
  intros [Hf Hm] E. cbn [app] in E. destruct names_ok as [Np Nc].
  assert (HSW : below SB SW = true) by (apply below_workdir, SB_filename).
  apply apply_events_cons in E as (d0 & E0 & E). apply apply_events_cons in E as (d1 & E1 & E).
  apply apply_events_cons in E as (d2 & E2 & E). exists d2. split; [exact E|].
  assert (H0 : absent_but [] d0 /\ mounts d0 = mounts d /\ forall q, below SB q = false -> files d0 !! q = files d !! q).
  { injection E0 as <-. rewrite trim_slash_filename by apply SW_filename.
    assert (Hp : plain d SW) by (intros t; by rewrite Hf). split_and!; [|apply CreateDirs_mounts|].
    - intros q Hq Hne _. rewrite CreateDirs_node by done. by apply Hf.
    - intros q Hq. apply CreateDirs_node; [done|]. intros ->. congruence. }
  destruct H0 as (A0 & M0 & O0).
  assert (P1 : plain d0 prog) by (apply (absent_plain [] d0); [done|by apply SW_below|by apply SW_ne|done]).
  pose proof (absent_step no_faults _ (EvCopy judge prog (Some perms_all)) d0 d1 A0 P1 E1) as A1.
  assert (P2 : plain d1 source).
  { apply (absent_plain [prog] d1); [done|by apply SW_below|by apply SW_ne|]. apply region_false. constructor; [|done]. apply prog_source. }
  pose proof (absent_step no_faults _ (EvCopy code source (Some kPerm666)) d1 d2 A1 P2 E2) as A2. split; [exact A2|]. split.
  - injection E1 as <-. injection E2 as <-. by rewrite !Copy_mounts.
  - intros q Hq. rewrite <- O0 by done. assert (Hx : forall s, component s -> region [SW // s] q = false).
    { intros s Hs. unfold region. simpl. rewrite orb_false_r. apply not_true_is_false. intros Hb.
      rewrite (below_trans SB (SW // s) q) in Hq; [done|by apply SW_below|done]. }
    rewrite (event_keeps no_faults (EvCopy code source (Some kPerm666)) d1 d2 q P2 E2), (event_keeps no_faults (EvCopy judge prog (Some perms_all)) d0 d1 q P1 E1); [done| |]; simpl; by apply Hx.
Qed.
Lemma tmp_filename : has_filename T = true.
Proof using Type. destruct (component_append SB "tmp") as (p' & -> & _); [done|by apply component_has_filename]. Qed.

Definition temp_event : Event :=
  if negb between || (j =? 0) then EvCreateDirs T (Some perms_all)
  else EvMove (ScoringBoxTempdir id i (j - 1) false) T None.

Lemma temp_targets s : component s -> region (targets temp_event) (SW // s) = false /\
  Forall (fun p => p = T \/ (j <> 0 /\ p = ScoringBoxTempdir id i (j - 1) false)) (targets temp_event).
Proof using Hid Hi Hj.
  intros Hs. pose proof tmp_filename as HT. unfold temp_event. destruct (negb between || (j =? 0)) eqn:E; cbn [targets].
  - rewrite trim_slash_filename by done. split; [|constructor; [by left|done]].
    apply region_false. constructor; [by apply tmp_apart|done].
  - apply orb_false_iff in E as [_ Ej]. split; [|constructor; [right; split; [lia|done]|constructor; [by left|done]]].
    apply region_false. constructor; [|constructor; [by apply tmp_apart|done]].
    apply (boxes_apart (BoxScoring id i (j - 1)) (BoxScoring id i j)); [simpl; lia|done| | |].
    + intros [=]. lia.
    + apply (below_component _ "tmp"); [done|]. apply (box_path_has_filename (BoxScoring id i (j - 1))). simpl. lia.
    + by apply SW_below.
Qed.

(** Its names are free before it is written. *)
Lemma programs_apart s : s ∈ ["user_output"; "td_input"; "td_output"; "meta"] -> Forall (fun p => apart p (SW // s)) [source; prog].
Proof using Type. intros Hs. constructor; [by apply source_apart|]. constructor; [by apply prog_apart|done]. Qed.

Lemma final_apart_name s : component s -> apart SF (SW // s).
Proof using Hid Hi Hj. intros Hs. apply final_apart; try done. by apply SW_below. Qed.

Lemma absent_name L d s : absent_but L d -> component s -> Forall (fun p => apart p (SW // s)) L -> files d !! (SW // s) = None.
Proof using Hid Hi Hj. intros HA Hs HL. apply HA; [by apply SW_below|by apply SW_ne|by apply region_false]. Qed.

Lemma absent_plain_name L d s : absent_but L d -> component s -> Forall (fun p => apart p (SW // s)) L -> plain d (SW // s).
Proof using Hid Hi Hj. intros HA Hs HL t. by rewrite (absent_name L d s HA Hs HL). Qed.

(** The output is moved in. *)
Lemma chain_move c d d1 : absent_but [source; prog] d -> is_file d SF c -> no_mount d SF -> no_mount d U ->
  event_effect no_faults (EvMove SF U (Some kPerm666)) d = Done d1 ->
  (exists n, files d1 !! U = Some n /\ nd_kind n = Regular c /\ nd_perms n = kPerm666) /\
  absent_but [SF; U; source; prog] d1 /\
  (forall q, below SB q = false -> below SF q = false -> files d1 !! q = files d !! q).
Proof using Hid Hi Hj.
  intros A0 (n & En & Ek) Hm1 Hm2 E1. assert (NU : component "user_output") by done.
  assert (HU0 : files d !! U = None) by (apply (absent_name _ d _ A0 NU), programs_apart; set_solver).
  assert (P1 : event_safe d (EvMove SF U (Some kPerm666))).
  { split; [intros t; by rewrite HU0|intros _; by eapply plain_regular]. }
  pose proof (Move_spec no_faults SF U (Some kPerm666) d n c En Ek ltac:(intros x; by rewrite HU0) (final_apart_name _ NU) Hm1 Hm2) as Hs.
  assert (A1 := absent_step no_faults _ _ _ _ A0 P1 E1). injection E1 as E1.
  destruct (Move no_faults SF U (Some kPerm666) d) as [ok d1'] eqn:EM. simpl in E1. subst d1'.
  destruct Hs as (Hs & _ & _ & Hok & Hoth & _). split; [by apply Hs, Hok|]. split; [exact A1|].
  intros q Hq Hq'. apply Hoth; [done|]. apply not_true_is_false. intros Hb.
  rewrite (below_trans SB U q) in Hq; [done|by apply SW_below|done].
Qed.

Lemma tmp_below : below SB T = true /\ T <> SW.
Proof using Hid Hi Hj.
  split; [apply below_component; [done|by apply SB_filename]|].
  apply apart_ne, components_apart; try done. by apply SB_filename.
Qed.

(** The directory for temporary files and the file with the meta data. *)
Lemma chain_tail d d1 d2 : absent_but [TO; TI; SF; U; source; prog] d ->
  event_effect no_faults temp_event d = Done d1 -> event_effect no_faults (EvWrite ME meta) d1 = Done d2 ->
  forall s, component s -> s <> "meta" -> files d2 !! (SW // s) = files d !! (SW // s).
Proof using Hid Hi Hj.
  intros A E1 E2 s Hs Hne. destruct tmp_below as [HT HTS]. assert (NME : component "meta") by done.
  assert (Hx : forall s, component s -> apart (SW // s) T) by (intros; by apply apart_sym, tmp_apart).
  assert (H4 : files d !! T = None).
  { apply A; [done|done|]. apply region_false.
    repeat (constructor; [first [by apply Hx | by apply final_apart | apply Hx; apply names_ok]|]). done. }
  assert (P1 : event_safe d temp_event).
  { pose proof tmp_filename as HTf. unfold temp_event. destruct (negb between || (j =? 0)); simpl;
      [rewrite trim_slash_filename by done|split; [|done]]; intros t; by rewrite H4. }
  assert (H5 : files d1 !! ME = None).
  { rewrite (event_keeps no_faults temp_event d d1 ME P1 E1) by (by apply temp_targets).
    apply (absent_name _ d _ A NME).
    repeat (constructor; [first [by apply SW_apart | by apply final_apart_name]|]). apply programs_apart. set_solver. }
  assert (P2 : event_safe d1 (EvWrite ME meta)) by (intros t; by rewrite H5).
  rewrite (event_keeps no_faults (EvWrite ME meta) d1 d2 _ P2 E2).
  - apply (event_keeps no_faults temp_event d d1); [done|done|by apply temp_targets].
  - apply region_false. constructor; [by apply SW_apart|done].
Qed.

Lemma chain_files c d d' : absent_but [source; prog] d -> is_file d SF c -> no_mount d SF -> no_mount d U ->
  apply_events (fun _ => no_faults) [EvMove SF U (Some kPerm666); EvCopy input TI (Some kPerm666);
    EvCopy answer TO (Some kPerm666); temp_event; EvWrite ME meta] d = Done d' ->
  (exists n, files d' !! U = Some n /\ nd_kind n = Regular c /\ nd_perms n = kPerm666) /\
  (forall ci, is_file d input ci -> below SB input = false -> below SF input = false ->
     is_file d' TI ci) /\
  (forall ca, is_file d answer ca -> below SB answer = false -> below SF answer = false ->
     is_file d' TO ca).
Proof using Hid Hi Hj.
  intros A0 HF Hm1 Hm2 E. assert (NTI : component "td_input") by done. assert (NTO : component "td_output") by done.
  apply apply_events_cons in E as (d1 & E1 & E). apply apply_events_cons in E as (d2 & E2 & E).
  apply apply_events_cons in E as (d3 & E3 & E). apply apply_events_cons in E as (d4 & E4 & E).
  apply apply_events_cons in E as (d5 & E5 & E). injection E as <-.
  destruct (chain_move c d d1 A0 HF Hm1 Hm2 E1) as ((nU & EU & KU) & A1 & Hout).
  assert (H2 : Forall (fun p => apart p TI) [SF; U; source; prog]).
  { constructor; [by apply final_apart_name|]. constructor; [by apply SW_apart|]. apply programs_apart. set_solver. }
  pose proof (absent_plain_name _ d1 _ A1 NTI H2) as P2.
  pose proof (absent_step no_faults _ (EvCopy input TI (Some kPerm666)) d1 d2 A1 P2 E2) as A2.
  assert (H3 : Forall (fun p => apart p TO) [TI; SF; U; source; prog]).
  { constructor; [by apply SW_apart|]. constructor; [by apply final_apart_name|]. constructor; [by apply SW_apart|].
    apply programs_apart. set_solver. }
  pose proof (absent_plain_name _ d2 _ A2 NTO H3) as P3.
  pose proof (absent_step no_faults _ (EvCopy answer TO (Some kPerm666)) d2 d3 A2 P3 E3) as A3.
  pose proof (chain_tail d3 d4 d5 A3 E4 E5) as Hlast.
  assert (K2 : forall q, region [TI] q = false -> files d2 !! q = files d1 !! q)
    by (intros q; by apply (event_keeps no_faults (EvCopy input TI (Some kPerm666)) d1 d2)).
  assert (K3 : forall q, region [TO] q = false -> files d3 !! q = files d2 !! q)
    by (intros q; by apply (event_keeps no_faults (EvCopy answer TO (Some kPerm666)) d2 d3)).
  assert (Hne : forall s s', component s -> component s' -> s <> s' -> region [SW // s] (SW // s') = false)
    by (intros; apply region_false; constructor; [by apply SW_apart|done]).
  split_and!.
  - exists nU. split; [|done]. by rewrite Hlast, K3, K2 by (try done; by apply Hne).
  - intros ci (ni & Eni & Kni) Hb Hb'. destruct (copied _ _ _ ci _ _ E2) as [o Eo];
      [exists ni; by rewrite Hout|by apply (absent_name _ d1 _ A1)|].
    exists {| nd_kind := Regular ci; nd_perms := kPerm666; nd_owner := o |}. by rewrite Hlast, K3 by (try done; by apply Hne).
  - intros ca (na & Ena & Kna) Hb Hb'. destruct (copied _ _ _ ca _ _ E3) as [o Eo]; [|by apply (absent_name _ d2 _ A2)|].
    + exists na. split; [|done]. rewrite K2, Hout; try done. apply not_true_is_false. unfold region. simpl. rewrite orb_false_r.
      intros Hx. rewrite (below_trans SB TI answer) in Hb; [done|by apply SW_below|done].
    + exists {| nd_kind := Regular ca; nd_perms := kPerm666; nd_owner := o |}. by rewrite Hlast.
Qed.
End Chain.
End Scoring.

(** The special judge is started with the output of the execution, the input and
    the answer of the test data. *)
Lemma setup_scoring_disk `{PathRoots} `{Config} `{JsonText} headers s d key sr task s' d' c :
  let sub := sr_sub sr in
  let id := submission_internal_id sub in
  let i := tk_subtask task in
  let j := tk_stage task in
  let SB := ScoringBoxPath id i j in
  let SF := ExecuteBoxFinalOutput id i j in
  submission_list s !! key = Some sr -> task_ok id task -> fresh_box SB d -> is_file d SF c -> no_mount d SF ->
  on_disk (fun env => SetupScoring env key task) headers (fun _ => no_faults) s d = Done (true, s', d') ->
  (exists n, files d' !! ScoringBoxUserOutput id i j false = Some n /\ nd_kind n = Regular c /\ nd_perms n = kPerm666) /\
  exists item, testdata sub !! Z.to_nat i = Some item /\
    (forall ci, is_file d (input_file item) ci -> below SB (input_file item) = false -> below SF (input_file item) = false ->
       is_file d' (ScoringBoxTdInput id i j false) ci) /\
    (forall ca, is_file d (answer_file item) ca -> below SB (answer_file item) = false -> below SF (answer_file item) = false ->
       is_file d' (ScoringBoxTdOutput id i j false) ca).
Proof.
  intros sub id i j SB SF Hsr (Hid & Hi & Hj) Hfresh Hc Hm Hrun. unfold on_disk in Hrun.
  destruct (SetupScoring (env_of headers d) key task s) as [[b s1]|] eqn:Es; [|done].
  destruct (apply_events _ _ d) as [d1|] eqn:Ea; [|done]. injection Hrun as -> -> ->.
  destruct (SetupScoring_true _ s key sr task s' Hsr Es) as (item & td & Hitem & _ & _ & _ & _ & _ & _ & ->).
  simpl in Ea. rewrite drop_app_length in Ea. unfold setup_scoring_events in Ea. cbv zeta in Ea. fold sub id i j in Ea.
  assert (Hex : env_exists (env_of headers d) (ExecuteBoxFinalOutput id i j) = true).
  { simpl. unfold exists_on. destruct Hc as (n & En & Ek). rewrite node_at_plain by (by eapply plain_regular).
    fold SF. by rewrite En. }
  rewrite Hex in Ea. apply (chain_programs id i j Hid Hi Hj) in Ea as (d1 & E & A & M & O); [|done].
  assert (HO : forall q, below SB q = false -> files d1 !! q = files d !! q) by exact O.
  assert (HF : below SB SF = false).
  { apply (final_apart id i j Hid Hi Hj). apply below_refl. }
  apply (chain_files id i j Hid Hi Hj _ _ _ (specjudge_lang sub) (lang sub) (judge_between_stages sub) c) in E as (HU & HI & HA).
  - split; [exact HU|]. exists item. split; [exact Hitem|]. split.
    + intros ci (n & En & Ek) Hb Hb'. apply HI; [|done|done]. exists n. by rewrite HO.
    + intros ca (n & En & Ek) Hb Hb'. apply HA; [|done|done]. exists n. by rewrite HO.
  - exact A.
  - destruct Hc as (n & En & Ek). exists n. split; [|done]. fold SF. by rewrite HO.
  - intros m Hmt. rewrite M in Hmt. by apply Hm.
  - intros m Hmt. rewrite M in Hmt. apply not_true_is_false. intros Hb.
    pose proof (fb_mounts _ _ Hfresh m Hmt) as Hx. rewrite (below_trans SB _ _ (SW_below id i j Hid Hi Hj "user_output" ltac:(done)) Hb) in Hx.
    done.
Qed.
