(* ===== verification/ExecuteFiles.v ===== *)
(** * What a program is given

    [SetupExecute] of src/tioj/submission.cpp on a disk: the first stage of a test
    data gets the compiled program and the input, in a directory of its own. *)

From S2P Require Import Prelude Enums Text Paths CNum Scores Data FileOps FilesSpec TaskGraph State Logs Specjudge Push PushGraph Handlers HandlerFacts WorkLoop LoopInv LoopSafe Scenario ScoringSpec Effects EffectsSpec Isolation OutputSpec Links ScoringFiles.

Section Setup.
Context `{PathRoots} `{Config} (env : Env).

(** The program of a stage and its language. *)
Definition stage_program (sub : Submission) (stage : Z) : string * Compiler :=
  let id := submission_internal_id sub in
  if bool_decide (stage ∈ problem_prog_stages sub)
  then (CompileBoxOutput id PROBPROG (problem_prog_lang sub) false, problem_prog_lang sub)
  else (CompileBoxOutput id USERPROG (lang sub) false, lang sub).

(** What a setup that starts the program of the first stage has done. *)
Definition setup_execute_events (sub : Submission) (item : TestdataItem) (task : Task) (size : Z) : list Event :=
  let id := submission_internal_id sub in
  let i := tk_subtask task in
  let j := tk_stage task in
  let W := Workdir (ExecuteBoxPath id i j) in
  let '(compiled, l) := stage_program sub j in
  let strict := sandbox_strict sub in
  [EvCreateDirs W None] ++ (if strict then [] else [EvMountTmpfs W size]) ++
  [EvCopy compiled (ExecuteBoxProgram id i j l false) (Some (ExecuteBoxProgramPerm l strict));
   (if strict then EvCreateDirs (ExecuteBoxTdStrictPath id i j false) (Some perms_owner_all) else EvPermissions W perms_all);
   EvCopy (input_file item) (ExecuteBoxInput id i j strict false) (Some (if strict then perms_owner_rw else kPerm666))].

Lemma SetupExecute_true s key sr task s' : submission_list s !! key = Some sr -> tk_stage task = 0 ->
  SetupExecute env key task s = Done (true, s') ->
  exists item size, testdata (sr_sub sr) !! Z.to_nat (tk_subtask task) = Some item /\
    (sandbox_strict (sr_sub sr) = false -> exists prog_size input_size,
       env_file_size env (stage_program (sr_sub sr) 0).1 = Some prog_size /\
       env_file_size env (input_file item) = Some input_size /\
       size = tmpfs_size prog_size input_size (lim_output item)) /\
    s' = add_events (setup_execute_events (sr_sub sr) item task size) s.
Proof.
  intros Hsr Hst. unfold SetupExecute. unfold mbind at 1, M_bind at 1. rewrite (get_sub_run key s sr Hsr).
  destruct (negb (bool_decide (verdict (sr_result sr) = NUL))); [done|]. cbv zeta. rewrite Hst. unfold mbind at 1, M_bind at 1.
  destruct (vec_at (testdata _) _ s) as [[item s1]|] eqn:Ei; [|done].
  apply vec_at_done in Ei as (-> & _ & Eitem). unfold mbind at 1, M_bind at 1, get at 1.
  destruct (IsCancelled s _ _); [done|]. change (0 <? 0) with false. cbv iota. unfold mbind at 1, M_bind at 1, mret at 1, M_ret at 1. cbv iota beta.
  unfold setup_execute_events, stage_program. rewrite Hst. cbn [Z.eqb].
  set (P := bool_decide (0 ∈ problem_prog_stages (sr_sub sr))). destruct (sandbox_strict (sr_sub sr)).
  - intros Hrun. exists item, 0. split; [done|]. split; [done|].
    destruct P; revert Hrun; unfold mbind, M_bind, emit, modify, mret, M_ret, when; intros [= <-]; by rewrite !add_events_app.
  - unfold when, negb. unfold mbind at 1, M_bind at 1, emit at 1, modify at 1. unfold mbind at 1, M_bind at 1.
    unfold mbind at 1, M_bind at 1. destruct P; simpl fst.
    all: match goal with |- context [or_crash ?o FilesystemError] => destruct o as [ps|] eqn:Eps; [|done] end; simpl or_crash.
    all: unfold mret at 1, M_ret at 1; unfold mbind at 1, M_bind at 1.
    all: match goal with |- context [or_crash ?o FilesystemError] => destruct o as [isz|] eqn:Eis; [|done] end; simpl or_crash.
    all: intros Hrun; exists item, (tmpfs_size ps isz (lim_output item)); split; [done|]; split; [by intros _; exists ps, isz|].
    all: revert Hrun; unfold mbind, M_bind, emit, modify, mret, M_ret; intros [= <-]; by rewrite !add_events_app.
Qed.
End Setup.

(** ** The disk after it *)

Lemma CreateDirs_new f p perms d : files d !! p = None -> create_error f = None -> permissions_error f = None ->
  CreateDirs f p perms d = (true, with_files (<[p := {| nd_kind := Directory; nd_perms := default 493 perms; nd_owner := 0 |}]> (files d)) d).
Proof.
  intros E Hc Hp. unfold CreateDirs, fs_create_directories. rewrite Hc. unfold node_at.
  rewrite resolve_plain by (intros t; by rewrite E). simpl. rewrite E. unfold finish_permissions, fs_permissions.
  destruct perms as [m|]; [|done]. rewrite Hp. unfold change_node. rewrite resolve_plain by (intros t; simpl; by rewrite lookup_insert_eq).
  simpl. rewrite lookup_insert_eq. unfold with_files. simpl. by rewrite insert_insert_eq.
Qed.

Lemma mount_spec f p size d n : files d !! p = Some n -> nd_kind n = Directory -> mount_error f = None ->
  MountTmpfs f p size d = (true,
    {| files := <[p := {| nd_kind := Directory; nd_perms := 1023; nd_owner := 0 |}]> (outside p (files d));
       mounts := {| mt_path := p; mt_options := "size=" +:+ to_string size +:+ "k"; mt_hidden := subtree p (files d) |} :: mounts d |}).
Proof.
  intros E K Hm. unfold MountTmpfs, sys_mount. rewrite Hm, resolve_plain by (intros t; rewrite E; simpl; congruence).
  rewrite E. by destruct n as [[] ? ?].
Qed.

Lemma permissions_spec f p m d n : files d !! p = Some n -> plain d p -> permissions_error f = None ->
  event_effect f (EvPermissions p m) d = Done (with_files (<[p := set_perms m n]> (files d)) d).
Proof. intros E Hp Hf. simpl. unfold fs_permissions, change_node. rewrite Hf, resolve_plain by done. by rewrite E. Qed.

Lemma copy_new from to perms d c : is_file d from c -> files d !! to = None ->
  event_effect no_faults (EvCopy from to (Some perms)) d =
  Done (with_files (<[to := {| nd_kind := Regular c; nd_perms := perms; nd_owner := 0 |}]> (files d)) d).
Proof.
  intros (n & En & Ek) Hto. simpl. destruct (Copy_spec no_faults from to (Some perms) d n c) as (o & Ho & ->); try done.
  - by rewrite node_at_plain by (by eapply plain_regular).
  - intros n'. by rewrite Hto.
  - by rewrite Ho.
Qed.

Section Prepare.
Context `{PathRoots} (id i j : Z) (Hid : 0 <= id) (Hi : 0 <= i) (Hj : 0 <= j) (l : Compiler).

Abbreviation EB := (ExecuteBoxPath id i j).
Abbreviation W := (Workdir EB).
Abbreviation prog := (W // ("prog" +:+ ProgramExtension l)).
Abbreviation TD := (EB // "td").

Lemma EB_filename : has_filename EB = true.
Proof. by apply (box_path_has_filename (BoxExecute id i j)). Qed.

Lemma prog_input : prog <> W // "input".
Proof using Hid Hi Hj.
  apply apart_ne, components_apart; [by apply component_prog_extension|done|by destruct l|apply workdir_has_filename].
Qed.

Lemma TD_filename : has_filename TD = true.
Proof. destruct (component_append EB "td") as (p' & -> & _); [done|by apply component_has_filename]. Qed.

Lemma TD_W : apart TD W.
Proof using Hid Hi Hj. apply components_apart; try done. apply EB_filename. Qed.

Lemma TD_input : apart (TD // "input") W /\ below TD (TD // "input") = true.
Proof using Hid Hi Hj.
  assert (Hb : below TD (TD // "input") = true) by (apply below_component; [done|apply TD_filename]).
  split; [|done]. apply (apart_extend TD); [apply TD_W|done].
Qed.

Lemma W_prog : below W prog = true /\ prog <> W.
Proof using Type.
  assert (Hp : component ("prog" +:+ ProgramExtension l)) by (by apply component_prog_extension).
  split; [apply below_component; [done|apply workdir_has_filename]|]. intros E.
  pose proof (below_component_false W _ Hp (workdir_has_filename EB)) as Hb. by rewrite E, below_refl in Hb.
Qed.

Lemma W_input : below W (W // "input") = true /\ W // "input" <> W.
Proof using Type.
  split; [apply below_component; [done|apply workdir_has_filename]|]. intros E.
  pose proof (below_component_false W "input" ltac:(done) (workdir_has_filename EB)) as Hb. by rewrite E, below_refl in Hb.
Qed.

(** The files the program finds. *)
Record prepared (strict : bool) (size : Z) (c ci : string) (d d' : Disk) : Prop := {
  pr_program : files d' !! prog = Some {| nd_kind := Regular c; nd_perms := ExecuteBoxProgramPerm l strict; nd_owner := 0 |};
  pr_input : files d' !! ExecuteBoxInput id i j strict false =
    Some {| nd_kind := Regular ci; nd_perms := if strict then perms_owner_rw else kPerm666; nd_owner := 0 |};
  pr_dir : files d' !! W = Some {| nd_kind := Directory; nd_perms := if strict then 493 else perms_all; nd_owner := 0 |};
  pr_strict : strict = true -> files d' !! TD = Some {| nd_kind := Directory; nd_perms := perms_owner_all; nd_owner := 0 |};
  pr_nothing_else : forall q, below EB q = true -> q <> W -> q <> prog -> q <> ExecuteBoxInput id i j strict false ->
    (strict = true -> q <> TD) -> files d' !! q = None;
  pr_mount : mounted strict W d' (mounts d);
  pr_limit : strict = false -> exists m, head (mounts d') = Some m /\ mt_options m = "size=" +:+ to_string size +:+ "k";
}.

Lemma prepare_free size compiled input c ci d : fresh_box EB d -> is_file d compiled c -> is_file d input ci ->
  below EB compiled = false -> below EB input = false ->
  exists d', apply_events (fun _ => no_faults) [EvCreateDirs W None; EvMountTmpfs W size;
    EvCopy compiled prog (Some (ExecuteBoxProgramPerm l false)); EvPermissions W perms_all;
    EvCopy input (W // "input") (Some kPerm666)] d = Done d' /\ prepared false size c ci d d'.
Proof using Hid Hi Hj.
  intros [Hf Hm] (nc & Ec & Kc) (ni & Ei & Ki) Hbc Hbi. destruct W_prog as [Bp Np]. destruct W_input as [Bi Ni].
  pose proof prog_input as Npi. assert (BW : below EB W = true) by (apply below_workdir, EB_filename).
  assert (HneW : forall p, below EB p = false -> below W p = false).
  { intros p Hp. apply not_true_is_false. intros Hx. by rewrite (below_trans EB W p) in Hp. }
  assert (Hne : forall p q, below EB p = false -> below EB q = true -> q <> p) by (intros p q Hp Hq ->; congruence).
  assert (BEp : below EB prog = true) by (by apply (below_trans _ W)).
  assert (BEi : below EB (W // "input") = true) by (by apply (below_trans _ W)).
  cbn [apply_events]. unfold event_effect at 1. rewrite trim_slash_filename by apply workdir_has_filename.
  rewrite CreateDirs_new by (try done; by apply Hf). cbn [snd default].
  set (d0 := with_files _ d). unfold event_effect at 1.
  rewrite (mount_spec no_faults W size d0 _ (lookup_insert_eq _ _ _) eq_refl eq_refl). cbn [snd]. set (d1 := {| files := _; mounts := _ |}).
  assert (F1 : forall p, below EB p = false -> files d1 !! p = files d !! p).
  { intros p Hp. pose proof (Hne p W Hp BW). simpl. rewrite lookup_insert_ne, outside_lookup, (HneW p Hp) by done.
    by apply lookup_insert_ne. }
  assert (N1 : forall p, below W p = true -> p <> W -> files d1 !! p = None).
  { intros p Hp Hpw. simpl. rewrite lookup_insert_ne by done. by rewrite outside_lookup, Hp. }
  rewrite (copy_new compiled prog _ d1 c) by (first [exists nc; by rewrite F1 | by apply N1]).
  set (d2 := with_files _ d1). assert (EW : files d2 !! W = Some {| nd_kind := Directory; nd_perms := 1023; nd_owner := 0 |}).
  { simpl. rewrite lookup_insert_ne by done. apply lookup_insert_eq. }
  rewrite (permissions_spec no_faults W perms_all d2 _ EW) by (try done; intros t; by rewrite EW). set (d3 := with_files _ d2).
  rewrite (copy_new input (W // "input") _ d3 ci).
  2: { exists ni. split; [|done]. rewrite <- Ei, <- (F1 input Hbi). simpl.
       pose proof (Hne input W Hbi BW). pose proof (Hne input prog Hbi BEp). by rewrite !lookup_insert_ne by done. }
  2: { simpl. rewrite (lookup_insert_ne _ W), (lookup_insert_ne _ prog) by done. by apply N1. }
  eexists. split; [reflexivity|]. split; cbn [files mounts with_files].
  - rewrite lookup_insert_ne by done. simpl. rewrite lookup_insert_ne by done. apply lookup_insert_eq.
  - apply lookup_insert_eq.
  - rewrite lookup_insert_ne by done. simpl. by rewrite lookup_insert_eq.
  - done.
  - intros q Hq H1 H2 H3 _. simpl in H3. rewrite lookup_insert_ne by done. simpl. rewrite !lookup_insert_ne by done.
    rewrite outside_lookup. destruct (below W q); [done|]. rewrite lookup_insert_ne by done. by apply Hf.
  - simpl. eexists. by split.
  - intros _. eexists. by split.
Qed.
Lemma prepare_strict size compiled input c ci d : fresh_box EB d -> is_file d compiled c -> is_file d input ci ->
  below EB compiled = false -> below EB input = false ->
  exists d', apply_events (fun _ => no_faults) [EvCreateDirs W None;
    EvCopy compiled prog (Some (ExecuteBoxProgramPerm l true)); EvCreateDirs TD (Some perms_owner_all);
    EvCopy input (TD // "input") (Some perms_owner_rw)] d = Done d' /\ prepared true size c ci d d'.
Proof using Hid Hi Hj.
  intros [Hf Hm] (nc & Ec & Kc) (ni & Ei & Ki) Hbc Hbi. destruct W_prog as [Bp Np]. destruct TD_input as [Ai Bi].
  assert (BW : below EB W = true) by (apply below_workdir, EB_filename).
  assert (BTD : below EB TD = true) by (by apply below_component; [|apply EB_filename]).
  assert (Hne : forall p q, below EB p = false -> below EB q = true -> q <> p) by (intros p q Hp Hq ->; congruence).
  assert (BEp : below EB prog = true) by (by apply (below_trans _ W)).
  assert (BEi : below EB (TD // "input") = true) by (by apply (below_trans _ TD)).
  assert (NTW : TD <> W) by (apply apart_ne, TD_W). assert (NiW : TD // "input" <> W) by (by apply apart_ne).
  assert (Ap : apart prog TD) by (apply (apart_extend W); [apply apart_sym, TD_W|done]).
  assert (NpT : prog <> TD) by (by apply apart_ne).
  assert (Npi : prog <> TD // "input") by (apply apart_ne, apart_sym, (apart_extend TD); [by apply apart_sym|done]).
  assert (NiT : TD // "input" <> TD).
  { intros E. pose proof (below_component_false TD "input" ltac:(done) TD_filename) as Hb. by rewrite E, below_refl in Hb. }
  cbn [apply_events]. unfold event_effect at 1. rewrite trim_slash_filename by apply workdir_has_filename.
  rewrite CreateDirs_new by (try done; by apply Hf). cbn [snd default]. set (d0 := with_files _ d).
  assert (F0 : forall p, below EB p = false -> files d0 !! p = files d !! p).
  { intros p Hp. simpl. apply lookup_insert_ne. by apply Hne. }
  rewrite (copy_new compiled prog _ d0 c)
    by (first [exists nc; by rewrite F0 | simpl; rewrite lookup_insert_ne by done; by apply Hf]).
  set (d1 := with_files _ d0). unfold event_effect at 1. rewrite trim_slash_filename by apply TD_filename.
  rewrite CreateDirs_new by (try done; simpl; rewrite !lookup_insert_ne by done; by apply Hf). cbn [snd default]. set (d2 := with_files _ d1).
  rewrite (copy_new input (TD // "input") _ d2 ci).
  2: { exists ni. split; [|done]. rewrite <- Ei, <- (F0 input Hbi). simpl.
       pose proof (Hne input TD Hbi BTD). pose proof (Hne input prog Hbi BEp). by rewrite !lookup_insert_ne by done. }
  2: { simpl. rewrite !lookup_insert_ne by done. by apply Hf. }
  eexists. split; [reflexivity|]. split; cbn [files mounts with_files].
  - rewrite lookup_insert_ne by done. simpl. rewrite lookup_insert_ne by done. apply lookup_insert_eq.
  - apply lookup_insert_eq.
  - rewrite lookup_insert_ne by done. simpl. rewrite !lookup_insert_ne by done. apply lookup_insert_eq.
  - intros _. rewrite lookup_insert_ne by done. apply lookup_insert_eq.
  - intros q Hq H1 H2 H3 H4. specialize (H4 eq_refl). simpl in H3. rewrite lookup_insert_ne by done. simpl.
    rewrite !lookup_insert_ne by done. by apply Hf.
  - done.
  - done.
Qed.
End Prepare.

(** C13: the program of a test data starts in a directory that holds exactly itself
    and its input: when no file operation fails and [SetupExecute] starts the
    first stage, the box holds the compiled program, executable, and the input of the
    test data (in the strict sandbox readable by root only), and no other file; outside
    the strict sandbox the directory is a new tmpfs of the computed size. *)
Theorem execution_prepared `{PathRoots} `{Config} headers s d key sr task s' d' :
  let sub := sr_sub sr in
  let id := submission_internal_id sub in
  let i := tk_subtask task in
  let compiled := (stage_program sub 0).1 in
  submission_list s !! key = Some sr -> tk_stage task = 0 -> 0 <= id -> 0 <= i -> fresh_box (ExecuteBoxPath id i 0) d ->
  on_disk (fun env => SetupExecute env key task) headers (fun _ => no_faults) s d = Done (true, s', d') ->
  exists item size, testdata sub !! Z.to_nat i = Some item /\
    (sandbox_strict sub = false -> exists prog_size input_size, file_size_on d compiled = Some prog_size /\
       file_size_on d (input_file item) = Some input_size /\ size = tmpfs_size prog_size input_size (lim_output item)) /\
    forall c ci, is_file d compiled c -> is_file d (input_file item) ci ->
      below (ExecuteBoxPath id i 0) compiled = false -> below (ExecuteBoxPath id i 0) (input_file item) = false ->
      prepared id i 0 (stage_program sub 0).2 (sandbox_strict sub) size c ci d d'.
Proof.
  intros sub id i compiled Hsr Hst Hid Hi Hfresh Hrun. unfold on_disk in Hrun.
  destruct (SetupExecute (env_of headers d) key task s) as [[b s1]|] eqn:Es; [|done].
  destruct (apply_events _ _ d) as [d1|] eqn:Ea; [|done]. injection Hrun as -> -> ->.
  destruct (SetupExecute_true _ s key sr task s' Hsr Hst Es) as (item & size & Hitem & Hsize & ->).
  exists item, size. split; [exact Hitem|]. split; [exact Hsize|]. intros c ci Hc Hci Hb Hb'.
  cbn [trace add_events] in Ea. rewrite drop_app_length in Ea. unfold setup_execute_events in Ea. rewrite Hst in Ea. fold sub id i in Ea.
  unfold compiled in *. destruct (stage_program sub 0) as [comp l]. cbn [fst snd] in *.
  destruct (sandbox_strict sub) eqn:Estr; cbn [app] in Ea.
  - destruct (prepare_strict id i 0 Hid Hi ltac:(done) l size comp (input_file item) c ci d Hfresh Hc Hci Hb Hb') as (d2 & E2 & Hp).
    unfold ExecuteBoxProgram, ExecuteBoxInput, ExecuteBoxTdStrictPath, BoxRoot in Ea. rewrite E2 in Ea. by injection Ea as <-.
  - destruct (prepare_free id i 0 Hid Hi ltac:(done) l size comp (input_file item) c ci d Hfresh Hc Hci Hb Hb') as (d2 & E2 & Hp).
    unfold ExecuteBoxProgram, ExecuteBoxInput, BoxRoot in Ea. rewrite E2 in Ea. by injection Ea as <-.
Qed.

#[local] Existing Instance sample_roots.
#[local] Existing Instance sample_config.

Definition compiled_disk : Disk := {|
  files := {[ "/td/in" := {| nd_kind := Regular "6 7"; nd_perms := 384; nd_owner := 0 |};
              "/tmp/tioj_box/000007/compile0/workdir/prog" := {| nd_kind := Regular "ELF"; nd_perms := 511; nd_owner := 1000 |} ]};
  mounts := [] |}.

Definition setup_sample : outcome (bool * Judge * Disk) :=
  on_disk (fun env => SetupExecute env 7 (exec_task 0 0)) [] (fun _ => no_faults)
    (sample_state SJ_NORMAL false both_executed) compiled_disk.

Definition after_setup : Judge * Disk :=
  match setup_sample with Done (_, s, d) => (s, d) | Crash _ => (empty_Judge, compiled_disk) end.

Lemma setup_sample_done : setup_sample = Done (true, after_setup.1, after_setup.2).
Proof.
  unfold after_setup. destruct setup_sample as [[[[] s] d]|] eqn:E; [done| |]; vm_compute in E; discriminate.
Qed.

Lemma compiled_fresh : fresh_box (ExecuteBoxPath 7 0 0) compiled_disk.
Proof.
  split; [|intros m Hm; by apply elem_of_nil in Hm]. intros q Hq. unfold compiled_disk. cbn [files].
  rewrite lookup_insert_ne, lookup_singleton_ne; [done|intros <-; vm_compute in Hq; discriminate..].
Qed.

Lemma execution_prepared_witness : exists item size, testdata (sr_sub (sample_record SJ_NORMAL false both_executed)) !! 0%nat = Some item /\
  (is_file compiled_disk (input_file item) "6 7" -> below (ExecuteBoxPath 7 0 0) (input_file item) = false ->
   prepared 7 0 0 GCC_CPP_17 false size "ELF" "6 7" compiled_disk after_setup.2).
Proof.
  destruct (execution_prepared [] (sample_state SJ_NORMAL false both_executed) compiled_disk 7
    (sample_record SJ_NORMAL false both_executed) (exec_task 0 0) after_setup.1 after_setup.2
    ltac:(reflexivity) ltac:(reflexivity) ltac:(simpl; lia) ltac:(simpl; lia) compiled_fresh setup_sample_done)
    as (item & size & Hitem & _ & Hall).
  exists item, size. split; [exact Hitem|]. intros Hi Hb.
  apply (Hall "ELF" "6 7"); [eexists; split; [vm_compute; reflexivity|reflexivity]|exact Hi|vm_compute; reflexivity|exact Hb].
Defined.
