(* ===== verification/FlowSpec.v ===== *)
(** * From the program's output to the judge of it

    What becomes of the file a sandboxed program writes: [FinalizeExecute] takes it
    out of the box, [SetupScoring] puts it before the special judge; while the
    scoring waits, no step of the machine touches it. *)

From S2P Require Import Prelude Enums Text Paths CNum Scores Data FileOps FilesSpec TaskGraph State Logs Specjudge Push PushGraph Handlers HandlerFacts WorkLoop LoopInv LoopSafe Scenario ScoringSpec Effects EffectsSpec Isolation OutputSpec Links Lifecycle LinkSafe DiskInv BoxInv ScoringFiles MachineRun.

(** The file [from] of the first disk, when it is not one of the boxes' own, is the
    file [to] of the second. *)
Definition is_file_to `{PathRoots} (d d' : Disk) (id i j : Z) (from to : string) : Prop :=
  forall c, is_file d from c -> below (ScoringBoxPath id i j) from = false ->
    below (ExecuteBoxFinalOutput id i j) from = false -> is_file d' to c.

Section Flow.
Context `{PathRoots} `{Config} `{JsonText} (kMaxParallel : Z).

(** ** A task that waits *)

Definition waits (s : Judge) (t : Z) : Prop := task_list (graph s) !! t <> None /\ t ∉ handle_tasks s.

(** Any steps of the machine during which [t] waits in the graph. *)
Inductive waits_run (t : Z) : Machine -> Machine -> Prop :=
| waits_refl m : waits (lp_judge (mc_loop m)) t -> waits_run t m m
| waits_step m lab m' m'' : waits (lp_judge (mc_loop m)) t -> machine_step kMaxParallel m lab m' ->
    env_ok m lab m' -> waits_run t m' m'' -> waits_run t m m''.

Lemma waits_first t m m' : waits_run t m m' -> waits (lp_judge (mc_loop m)) t.
Proof. by destruct 1. Qed.

Lemma waits_machine_run t m m' : machine_run kMaxParallel m -> waits_run t m m' -> machine_run kMaxParallel m'.
Proof. intros Hr Hw. induction Hw as [|m lab m1 m2 _ Hs Ho _ IH]; [done|]. apply IH. by eapply run_step. Qed.

(** No task of the graph is [task] of submission [id]. *)
Definition gone (s : Judge) (id : Z) (task : Task) : Prop :=
  forall u e, task_list (graph s) !! u = Some e -> te_submission_internal_id e = id -> te_task e <> task.

Section Steps.
Context (Hpar : 0 < kMaxParallel) (m : Machine) (lab : mlabel) (m' : Machine).
Context (Hl : loop_inv kMaxParallel (mc_loop m)) (Hs : machine_step kMaxParallel m lab m').

Lemma gone_step id task : submission_list (lp_judge (mc_loop m)) !! id <> None -> gone (lp_judge (mc_loop m)) id task ->
  gone (lp_judge (mc_loop m')) id task.
Proof using All.
  intros Hsub Hg u e' Hu Hid. destruct (step_entry kMaxParallel m lab m' u e' Hpar Hl Hs Hu) as [(e & He & E1 & E)|(_ & E & _)].
  - rewrite E1. apply (Hg u e He). congruence.
  - congruence.
Qed.

Lemma entry_step t x : task_list (graph (lp_judge (mc_loop m))) !! t <> None -> entry_task (lp_judge (mc_loop m')) t = Some x ->
  entry_task (lp_judge (mc_loop m)) t = Some x.
Proof using All.
  unfold entry_task. intros Ht. destruct (task_list (graph (lp_judge (mc_loop m'))) !! t) as [e'|] eqn:Ee; [|done]. simpl.
  destruct (step_entry kMaxParallel m lab m' t e' Hpar Hl Hs Ee) as [(e & -> & -> & ->)|(_ & _ & ?)]; done.
Qed.
End Steps.

(** What a finished execution leaves no trace of in the graph. *)
Lemma finish_gone m env h res headers f m' id task : 0 < kMaxParallel -> loop_inv kMaxParallel (mc_loop m) ->
  ids_ok (lp_judge (mc_loop m)) -> running_task (lp_judge (mc_loop m)) h = Some (id, task) ->
  machine_step kMaxParallel m (LJudge (Finish env h res) headers f) m' -> gone (lp_judge (mc_loop m')) id task.
Proof.
  intros Hpar Hl Hi Hrun Hs u e' Hu Hid Ht. destruct (running_known kMaxParallel _ _ _ _ Hl Hi Hrun) as (t & e & sr & Eh & Hk & Eid & Et & _).
  apply step_disk in Hs as (He & _ & Hp & _).
  pose proof (step_advanced kMaxParallel Hpar _ _ _ Hl He Hp eq_refl) as Hadv.
  destruct (sw_entries _ _ (ad_work _ _ _ Hadv) u e' Hu) as (e0 & He0 & E1 & E2).
  assert (u = t) as ->.
  { eapply (sg_uniq _ _ _ (ss_graph _ _ _ (ji_sub _ _ (li_judge _ _ Hl) _ _ (tn_sub _ _ _ _ Hk))));
      [exact He0|congruence|apply (tn_entry _ _ _ _ Hk)|done|congruence]. }
  destruct (ad_task _ _ _ Hadv t Eh) as [[_ (? & ? & [=])]|Hx]. congruence.
Qed.

(** ** The output waits for its judge *)

Section Waiting.
Context (Hpar : 0 < kMaxParallel) (Hroots : roots_ok) (t : Z) (id i j : Z).

(** The scoring [(id, i, j)] waits and its execution is over. *)
Record awaited (m : Machine) : Prop := {
  aw_run : machine_run kMaxParallel m;
  aw_waits : waits (lp_judge (mc_loop m)) t;
  aw_entry : entry_task (lp_judge (mc_loop m)) t = Some (id, score_task i j);
  aw_gone : gone (lp_judge (mc_loop m)) id (exec_task i j);
}.

Lemma awaited_known m : awaited m -> exists e sr, task_known (lp_judge (mc_loop m)) t e sr /\
  te_submission_internal_id e = id /\ te_task e = score_task i j /\ 0 <= id /\ 0 <= i /\ 0 <= j /\ is_int id.
Proof using Hpar Hroots.
  intros [Hr _ He _]. unfold entry_task in He. destruct (task_list _ !! t) as [e|] eqn:Ee; [|done]. injection He as Eid Et.
  pose proof (reachable_inv kMaxParallel Hpar _ (run_reachable _ _ Hr)) as Hl.
  pose proof (dk_ids _ (run_inv kMaxParallel m Hpar Hroots Hr)) as Hi.
  destruct (inv_known _ _ t e (li_judge _ _ Hl) Hi Ee) as [sr Hk]. exists e, sr.
  destruct (task_known_ok _ _ _ _ Hk) as [Hid (_ & Htd & Hst)]. destruct (Hi _ _ (tn_sub _ _ _ _ Hk)) as (_ & Hint & _).
  rewrite Eid, Et in *. by split_and!.
Qed.

(** Nothing that can run owns the box of the execution. *)
Lemma output_spared m t0 e0 : awaited m -> t0 <> t -> task_list (graph (lp_judge (mc_loop m))) !! t0 = Some e0 -> te_indeg e0 = 0 ->
  spares (BoxExecute id i j) (te_submission_internal_id e0) (te_task e0).
Proof using Hpar Hroots.
  intros Ha Hne He0 Hz. destruct (awaited_known m Ha) as (e & sr & Hk & Eid & Et & Hid & Hi0 & Hj0 & _).
  pose proof (reachable_inv kMaxParallel Hpar _ (run_reachable _ _ (aw_run _ Ha))) as Hl. pose proof (li_judge _ _ Hl) as Hj.
  pose proof (dk_ids _ (run_inv kMaxParallel m Hpar Hroots (aw_run _ Ha))) as Hi.
  destruct (decide (te_submission_internal_id e0 = id)) as [E|]; [|by left]. right.
  destruct (inv_known _ _ t0 e0 Hj Hi He0) as [sr0 Hk0]. destruct (task_known_ok _ _ _ _ Hk0) as [_ Hok0].
  assert (Hs0 := tn_sub _ _ _ _ Hk0). assert (Hx0 := tn_expected _ _ _ _ Hk0). rewrite E in *. rewrite <- Eid in E.
  assert (Hn : tk_type (te_task e0) <> SUMMARY).
  { intros Es. unfold expected in Hx0. rewrite Es in Hx0. symmetry in E. apply Hne. symmetry.
    by apply (summary_last _ _ t0 e0 t e Hj He0 Hz Hx0 (tn_entry _ _ _ _ Hk)). }
  split; [done|]. rewrite (task_dirs_boxes (sr_sub sr0)) by done.
  intros (b & Eb & Hb%list_elem_of_In)%list_elem_of_In%in_map_iff.
  assert (Hv : box_valid b).
  { apply elem_of_cons in Hb as [->|Hb]; [|by eapply earlier_valid].
    pose proof (proj1 (task_box_owned _ _ _ _ Hk0)) as Hx. by rewrite E, Eid in Hx. }
  apply (box_path_inj b (BoxExecute id i j) Hv) in Eb; [|done]. subst b.
  pose proof (aw_gone _ Ha t0 e0 He0 ltac:(congruence)) as Hg.
  assert (Hdep : ~ depends_on (sr_sub sr0) (te_task e0) (score_task i j)).
  { rewrite <- Et. apply (depends_gone _ _ t0 e0 t e sr0 Hj He0 Hz (tn_entry _ _ _ _ Hk)); [done|]. by rewrite E, Eid. }
  assert (Hu : te_task e0 = score_task i j -> False).
  { intros Es. apply Hne. eapply (sg_uniq _ _ _ (ss_graph _ _ _ (ji_sub _ _ Hj _ _ Hs0)));
      [exact He0|congruence|apply (tn_entry _ _ _ _ Hk)|done|congruence]. }
  clear -Hb Hg Hdep Hu Hn. unfold task_box, earlier_boxes, depends_on, judging, rank in *.
  destruct (te_task e0) as [[] i0 j0]; simpl in *; try done; rewrite elem_of_cons in Hb.
  - destruct Hb as [Hb|Hb]; [by destruct (CompileSubtask_of_Z i0)|by apply elem_of_nil in Hb].
  - destruct Hb as [[= -> ->]|Hb]; [done|]. destruct (0 <? j0) eqn:E0; [|by apply elem_of_nil in Hb].
    apply list_elem_of_singleton in Hb as [= -> ->]. apply Hdep. do 4 right. split_and!; auto; lia.
  - destruct Hb as [[=]|Hb]. apply elem_of_cons in Hb as [[= -> ->]|Hb]; [done|].
    destruct (0 <? j0); [|by apply elem_of_nil in Hb]. by apply list_elem_of_singleton in Hb.
Qed.

Abbreviation SF := (ExecuteBoxFinalOutput id i j).

(** So a step during which the scoring waits leaves that box alone. *)
Lemma awaited_step m lab m' : awaited m -> machine_step kMaxParallel m lab m' -> env_ok m lab m' ->
  waits (lp_judge (mc_loop m')) t -> entry_task (lp_judge (mc_loop m')) t = Some (id, score_task i j) ->
  awaited m' /\ forall q, below (box_path (BoxExecute id i j)) q = true ->
    files (mc_disk m') !! q = files (mc_disk m) !! q /\
    (forall mt, mt_path mt = q -> (mt ∈ mounts (mc_disk m') <-> mt ∈ mounts (mc_disk m))).
Proof using Hpar Hroots.
  intros Ha Hs Ho Hw' Ht'. destruct (awaited_known m Ha) as (e & sr & Hk & Eid & Et & Hid & Hi0 & Hj0 & _).
  pose proof (run_reachable _ _ (aw_run _ Ha)) as Hr. pose proof (reachable_inv kMaxParallel Hpar _ Hr) as Hl.
  pose proof (run_inv kMaxParallel m Hpar Hroots (aw_run _ Ha)) as Hd. destruct Hw' as [Hp' Hw'].
  split.
  - split; [by eapply run_step, Ho; [apply Ha|]|by split|done|]. apply (gone_step Hpar m lab m'); [done|done| |apply Ha].
    rewrite <- Eid, (tn_sub _ _ _ _ Hk). done.
  - destruct (step_kinds kMaxParallel m lab m' t Hpar Hl (dk_ids _ Hd) Hs Hp') as [Hx|[(h & -> & Eh)|(env & h & hs & f & _ & Hin)]]; [| |done].
    + apply (step_isolated kMaxParallel m lab m'); try done; [apply Hd|by eapply step_follows|].
      intros id' task Hlab. destruct (Hx id' task Hlab) as (t0 & e0 & Hne & He0 & Hz & <- & <-). by eapply output_spared.
    + destruct (aw_waits _ Ha) as [_ Hn]. destruct Hn. by eapply in_handle_tasks.
Qed.

(** All the while. *)
Lemma awaited_kept m m' c : waits_run t m m' -> entry_task (lp_judge (mc_loop m')) t = Some (id, score_task i j) ->
  machine_run kMaxParallel m -> gone (lp_judge (mc_loop m)) id (exec_task i j) ->
  is_file (mc_disk m) SF c -> no_mount (mc_disk m) SF ->
  is_file (mc_disk m') SF c /\ no_mount (mc_disk m') SF.
Proof using Hpar Hroots.
  intros Hrun. assert (Hentry : forall m m', waits_run t m m' -> machine_run kMaxParallel m ->
      entry_task (lp_judge (mc_loop m')) t = Some (id, score_task i j) -> entry_task (lp_judge (mc_loop m)) t = Some (id, score_task i j)).
  { clear m m' Hrun. induction 1 as [|m lab m1 m2 Hw Hs Ho _ IH]; [done|]. intros Hr Ht.
    apply (entry_step Hpar m lab m1); [|done|apply Hw|by apply IH; [eapply run_step|]].
    by eapply reachable_inv, run_reachable. }
  induction Hrun as [|m lab m1 m2 Hw Hs Ho Hrun IH]; intros Ht Hr Hg HF Hm; [done|].
  assert (Hr1 : machine_run kMaxParallel m1) by (by eapply run_step).
  assert (Ha : awaited m).
  { split; try done. apply (entry_step Hpar m lab m1); [by eapply reachable_inv, run_reachable|done|apply Hw|by apply (Hentry m1 m2)]. }
  destruct (awaited_step m lab m1 Ha Hs Ho (waits_first _ _ _ Hrun) (Hentry _ _ Hrun Hr1 Ht)) as [Ha1 Hq].
  destruct (awaited_known m Ha) as (_ & _ & _ & _ & _ & Hid & Hi0 & Hj0 & _).
  pose proof (final_in_box id i j Hid Hi0 Hj0) as Hb. apply IH; try done; [apply Ha1| |].
  - destruct HF as (n & En & Ek). exists n. split; [|done]. by rewrite (proj1 (Hq SF Hb)).
  - intros mt Hin. apply not_true_is_false. intros Hx.
    apply (proj2 (Hq (mt_path mt) ltac:(by eapply below_trans)) mt eq_refl) in Hin. by rewrite (Hm mt Hin) in Hx.
Qed.
End Waiting.

(** ** The steps of the judge *)

Lemma apply_silent f es e d : targets e = [] -> apply_events f (es ++ [e]) d = apply_events f es d.
Proof.
  intros He. rewrite apply_events_app. destruct (apply_events f es d) as [d'|]; [|done]. simpl.
  assert (Hx : event_effect (f (length es + 0)%nat) e d' = Done d') by (by destruct e). by rewrite Hx.
Qed.

Lemma output_no_mount id i j strict d : 0 <= id -> 0 <= i -> 0 <= j -> output_clear id i j d ->
  no_mount d (ExecuteBoxOutput id i j strict false) /\ no_mount d (ExecuteBoxFinalOutput id i j).
Proof.
  intros Hid Hi Hj [_ Hm]. destruct (execute_paths id i j strict Hid Hi Hj) as (_ & HPW & HFW).
  assert (Hx : forall p, below (ExecuteBoxPath id i j) p = true -> below p (Workdir (ExecuteBoxPath id i j)) = false -> no_mount d p).
  { intros p Hp Hpw mt Hin. apply not_true_is_false. intros Hb.
    rewrite (Hm mt Hin (below_trans _ _ _ Hp Hb)) in Hb. congruence. }
  split; apply Hx; [|done| |apply HFW].
  - apply (box_form_below (BoxExecute id i j)); [done|]. unfold ExecuteBoxOutput. destruct strict.
    + right; right. by exists "td", "output".
    + right; right. by exists "workdir", "output".
  - by apply final_in_box.
Qed.

Lemma finish_disk m0 m1 h env res headers id i j sr : let P := ExecuteBoxOutput id i j (sandbox_strict (sr_sub sr)) false in
  let F := ExecuteBoxFinalOutput id i j in 0 < kMaxParallel -> roots_ok -> machine_run kMaxParallel m0 ->
  submission_list (lp_judge (mc_loop m0)) !! id = Some sr ->
  running_task (lp_judge (mc_loop m0)) h = Some (id, exec_task i j) ->
  machine_step kMaxParallel m0 (LJudge (Finish env h res) headers (fun _ => no_faults)) m1 ->
  is_file (mc_disk m1) F (left_output (mc_disk m0) P) /\ no_mount (mc_disk m1) F.
Proof.
  intros P F Hpar Hroots Hr Hsr Hrun Hs. apply step_disk in Hs as (He & Henv & Hp & Hd).
  pose proof (run_inv kMaxParallel m0 Hpar Hroots Hr) as Hdi. pose proof (run_reachable _ _ Hr) as Hreach.
  pose proof (reachable_inv kMaxParallel Hpar _ Hreach) as Hl.
  destruct (running_known kMaxParallel _ _ _ _ Hl (dk_ids _ Hdi) Hrun) as (t & e & sr' & Eh & Hk & Eid & Etask & _).
  destruct (task_known_ok _ _ _ _ Hk) as [Hid (_ & Htd & Hst)]. assert (Hx := tn_expected _ _ _ _ Hk).
  assert (Hn := tn_id _ _ _ _ Hk). assert (Hs' := tn_sub _ _ _ _ Hk). assert (Hent := tn_entry _ _ _ _ Hk).
  pose proof (run_clear kMaxParallel m0 Hpar Hroots Hr t e i j Hent (in_handle_tasks _ _ _ Eh) Etask) as Hc.
  pose proof (finish_no_link m0 Hdi t e sr' Hk (Workdir (ExecuteBoxPath (te_submission_internal_id e) i j))) as Hlw.
  unfold finish_region in Hlw. rewrite Etask in Hlw, Htd, Hst, Hx. cbn [tk_type tk_subtask tk_stage exec_task] in *.
  rewrite Eid in *. simplify_eq. destruct Hx as [Hx _]. cbn [tk_subtask exec_task] in Hx.
  destruct (finish_run (mc_loop m0) env h res (mc_loop m1) t e Eh Hent) as (s1 & Ef & Etr); [by rewrite Etask|done|].
  rewrite Etask in Ef. pose proof (Henv env eq_refl) as ->. set (s0 := set_handle_map _ _) in Ef.
  destruct (output_no_mount (te_submission_internal_id e) i j (sandbox_strict (sr_sub sr)) (mc_disk m0)) as [HPm HFm]; try done.
  destruct (finalize_output headers s0 (mc_disk m0) (te_submission_internal_id e) sr (exec_task i j) res)
    as (s2 & d2 & E2 & EF & EM); try (rewrite Hn; cbn [tk_subtask tk_stage exec_task]); try done.
  { intros n E. by rewrite (oc_final _ _ _ _ Hc) in E. }
  { apply not_link_plain, Hlw. by rewrite orb_comm, bool_decide_true. }
  unfold finalize, on_disk in E2. rewrite Ef in E2. change (trace s0) with (trace (lp_judge (mc_loop m0))) in E2.
  rewrite <- Etr, Hd in E2. injection E2 as <- <-. rewrite Hn in EF. split; [by eexists|].
  intros m Hm. by apply HFm, EM.
Qed.

Lemma dispatch_disk m2 m3 t h env headers id i j c : 0 < kMaxParallel -> roots_ok -> machine_run kMaxParallel m2 ->
  entry_task (lp_judge (mc_loop m2)) t = Some (id, score_task i j) ->
  is_file (mc_disk m2) (ExecuteBoxFinalOutput id i j) c -> no_mount (mc_disk m2) (ExecuteBoxFinalOutput id i j) ->
  machine_step kMaxParallel m2 (LJudge (Dispatch env t h) headers (fun _ => no_faults)) m3 ->
  handle_map (lp_judge (mc_loop m3)) !! h = Some t ->
  is_file (mc_disk m3) (ScoringBoxUserOutput id i j false) c /\
  exists sr item, submission_list (lp_judge (mc_loop m2)) !! id = Some sr /\
    testdata (sr_sub sr) !! Z.to_nat i = Some item /\
    (is_file_to (mc_disk m2) (mc_disk m3) id i j (input_file item) (ScoringBoxTdInput id i j false)) /\
    (is_file_to (mc_disk m2) (mc_disk m3) id i j (answer_file item) (ScoringBoxTdOutput id i j false)).
Proof.
  intros Hpar Hroots Hr Ht HF Hm Hs Hh. pose proof (run_inv kMaxParallel m2 Hpar Hroots Hr) as Hdi.
  pose proof (run_reachable _ _ Hr) as Hreach. pose proof (reachable_inv kMaxParallel Hpar _ Hreach) as Hl.
  assert (Hp3 : task_list (graph (lp_judge (mc_loop m3))) !! t <> None).
  { pose proof (reachable_inv kMaxParallel Hpar _ (step_reachable _ _ _ _ Hreach Hs)) as Hl3.
    destruct (running_entry _ _ t (li_judge _ _ Hl3)) as (e & -> & _); [|done].
    apply elem_of_app. right. by eapply in_handle_tasks. }
  apply step_disk in Hs as (He & Henv & Hp & Hd).
  unfold entry_task in Ht. destruct (task_list (graph (lp_judge (mc_loop m2))) !! t) as [e|] eqn:Ee; [|done].
  injection Ht as Eid Etask. destruct (inv_known _ _ t e (li_judge _ _ Hl) (dk_ids _ Hdi) Ee) as [sr Hk].
  destruct (task_known_ok _ _ _ _ Hk) as [_ Hok]. assert (Hn := tn_id _ _ _ _ Hk). assert (Hsr := tn_sub _ _ _ _ Hk).
  assert (Hfresh : fresh_box (box_path (entry_box e)) (mc_disk m2)).
  { apply (dk_unused _ Hdi t e Ee). apply (queue_waits _ _ _ Hl), He. }
  unfold entry_box in Hfresh. rewrite Eid, Etask in *. cbn in Hfresh.
  destruct (dispatch_run _ (mc_loop m2) env t h (mc_loop m3) e Hl He Ee Hp Hp3) as (s1 & Es & Etr).
  rewrite Eid, Etask in Es, Etr. cbn [SetupTask tk_type score_task] in Es.
  rewrite (Henv env eq_refl) in Es. set (s0 := pop_task t _) in Es.
  assert (Hx : exists es, trace s1 = trace s0 ++ es).
  { destruct (SetupScoring_true _ s0 id sr (score_task i j) s1 Hsr Es) as (? & ? & _ & _ & _ & _ & _ & _ & _ & ->). by eexists. }
  destruct Hx as [es Ees]. change (trace s0) with (trace (lp_judge (mc_loop m2))) in Ees.
  rewrite Etr, Ees, <- (assoc_L (++)), drop_app_length, apply_silent in Hd by done.
  assert (Ho : on_disk (fun env => SetupScoring env id (score_task i j)) headers (fun _ => no_faults) s0 (mc_disk m2) =
    Done (true, s1, mc_disk m3)).
  { unfold on_disk. rewrite Es. change (trace s0) with (trace (lp_judge (mc_loop m2))). by rewrite Ees, drop_app_length, Hd. }
  pose proof (setup_scoring_disk headers s0 (mc_disk m2) id sr (score_task i j) s1 (mc_disk m3) c Hsr) as Hset.
  rewrite Hn in Hset. destruct (Hset Hok Hfresh HF Hm Ho) as ((n & En & Ek & _) & item & Hitem & HI & HA).
  split; [by exists n|]. by exists sr, item.
Qed.

(** C7: the special judge gets what the program has left, in every run of the judge from
    its start: when an execution ends, and later its scoring is dispatched and
    starts the judge, with no failing file operation in these two steps, the
    judge's [user_output] is the regular file the program left as its output, or empty
    when it left none there (a link or a directory counts as none), and its [td_input]
    and [td_output] are the files of the test data at that moment.  Between the
    two steps anything may happen, with any failures, while the scoring waits:
    other tasks of this and other submissions are started, run and finished, other
    submissions are pushed and removed.  Programs may leave any links, except for those
    whose files the judge takes over unchecked ([DiskInv.trusted]: special judges
    between stages and the compiler of a summary program), which are assumed to
    leave none. *)
Theorem judged_output m0 m1 m2 m3 h env res headers t h' env' headers' id i j sr :
  let P := ExecuteBoxOutput id i j (sandbox_strict (sr_sub sr)) false in
  0 < kMaxParallel -> roots_ok -> machine_run kMaxParallel m0 ->
  submission_list (lp_judge (mc_loop m0)) !! id = Some sr ->
  running_task (lp_judge (mc_loop m0)) h = Some (id, exec_task i j) ->
  let finish := LJudge (Finish env h res) headers (fun _ => no_faults) in
  machine_step kMaxParallel m0 finish m1 -> env_ok m0 finish m1 ->
  waits_run t m1 m2 ->
  entry_task (lp_judge (mc_loop m2)) t = Some (id, score_task i j) ->
  machine_step kMaxParallel m2 (LJudge (Dispatch env' t h') headers' (fun _ => no_faults)) m3 ->
  handle_map (lp_judge (mc_loop m3)) !! h' = Some t ->
  is_file (mc_disk m3) (ScoringBoxUserOutput id i j false) (left_output (mc_disk m0) P) /\
  exists sr' item, submission_list (lp_judge (mc_loop m2)) !! id = Some sr' /\
    testdata (sr_sub sr') !! Z.to_nat i = Some item /\
    forall p, below kBoxRoot p = false ->
      (forall c, p = input_file item -> is_file (mc_disk m2) p c -> is_file (mc_disk m3) (ScoringBoxTdInput id i j false) c) /\
      (forall c, p = answer_file item -> is_file (mc_disk m2) p c -> is_file (mc_disk m3) (ScoringBoxTdOutput id i j false) c).
Proof.
  intros P Hpar Hroots Hr Hsr Hrun finish Hs1 Ho1 Hw Ht Hs3 Hh. assert (Hr1 : machine_run kMaxParallel m1) by (by eapply run_step).
  pose proof (reachable_inv kMaxParallel Hpar _ (run_reachable _ _ Hr)) as Hl.
  pose proof (dk_ids _ (run_inv kMaxParallel m0 Hpar Hroots Hr)) as Hi.
  destruct (finish_disk m0 m1 h env res headers id i j sr Hpar Hroots Hr Hsr Hrun Hs1) as [HF1 Hm1].
  pose proof (finish_gone m0 env h res headers _ m1 id _ Hpar Hl Hi Hrun Hs1) as Hg.
  destruct (awaited_kept Hpar Hroots t id i j m1 m2 _ Hw Ht Hr1 Hg HF1 Hm1) as [HF2 Hm2].
  pose proof (waits_machine_run t m1 m2 Hr1 Hw) as Hr2.
  destruct (dispatch_disk m2 m3 t h' env' headers' id i j _ Hpar Hroots Hr2 Ht HF2 Hm2 Hs3 Hh)
    as (HU & sr' & item & Hsr' & Hitem & HI & HA).
  split; [exact HU|]. exists sr', item. split; [done|]. split; [done|]. intros p Hp.
  destruct (running_known kMaxParallel _ _ _ _ Hl Hi Hrun) as (te & e & sr0 & _ & Hk & Eid & Et & _).
  destruct (task_known_ok _ _ _ _ Hk) as [Hid (_ & Hi0 & Hj0)]. rewrite Eid, Et in *. simpl in Hi0, Hj0.
  assert (Hb : below (ScoringBoxPath id i j) p = false /\ below (ExecuteBoxFinalOutput id i j) p = false).
  { split; apply not_true_is_false; intros Hb.
    - rewrite (box_root (BoxScoring id i j) p) in Hp; done.
    - rewrite (box_root (BoxExecute id i j) p) in Hp; try done. eapply below_trans; [by apply final_in_box|done]. }
  destruct Hb as [Hb Hb']. split; intros c -> Hc; [by apply HI|by apply HA].
Qed.
End Flow.

(** ** A run *)

#[local] Existing Instance sample_roots.
#[local] Existing Instance sample_config.
#[local] Existing Instance sample_json.

(** While the scoring waits, the compiler of another submission and another program
    make a file. *)
Definition compile_move : move := MWrite 1 "/tmp/tioj_box/000009/compile0/workdir/prog" (file "ELF").
Definition other_move : move := MOther "/tmp/other" (file "x").
Definition compiled_machine : Machine := next 4 finished_machine compile_move.
Definition later_machine : Machine := next 4 compiled_machine other_move.
Definition score_move : move := MJudge (fun env => Dispatch env 2 0).
Definition judging_machine : Machine := next 4 later_machine score_move.

Lemma score_step : machine_step 4 later_machine (move_label later_machine score_move) judging_machine.
Proof.
  assert (Hp : proper score_move) by (intros env env' E; by inversion E).
  assert (Hs : plays 4 later_machine score_move = true) by (vm_compute; reflexivity).
  exact (proj1 (next_step 4 later_machine score_move Hp Hs)).
Qed.

Definition waitsb (s : Judge) (t : Z) : bool :=
  match task_list (graph s) !! t with Some _ => negb (bool_decide (t ∈ handle_tasks s)) | None => false end.

Lemma waitsb_ok s t : waitsb s t = true -> waits s t.
Proof. unfold waitsb, waits. destruct (task_list _ !! t); [|done]. by rewrite negb_true_iff, bool_decide_eq_false. Qed.

Lemma later_run : waits_run 4 2 finished_machine later_machine.
Proof.
  assert (Hp1 : proper compile_move) by exact I. assert (Hp2 : proper other_move) by exact I.
  assert (Hs1 : plays 4 finished_machine compile_move = true) by (vm_compute; reflexivity).
  assert (Hs2 : plays 4 compiled_machine other_move = true) by (vm_compute; reflexivity).
  assert (W0 : waits (lp_judge (mc_loop finished_machine)) 2) by (apply waitsb_ok; vm_compute; reflexivity).
  assert (W1 : waits (lp_judge (mc_loop compiled_machine)) 2) by (apply waitsb_ok; vm_compute; reflexivity).
  assert (W2 : waits (lp_judge (mc_loop later_machine)) 2) by (apply waitsb_ok; vm_compute; reflexivity).
  destruct (next_step 4 finished_machine compile_move Hp1 Hs1) as [S1 O1].
  destruct (next_step 4 compiled_machine other_move Hp2 Hs2) as [S2 O2].
  exact (waits_step 4 2 _ _ _ _ W0 S1 O1 (waits_step 4 2 _ _ _ _ W1 S2 O2 (waits_refl 4 2 _ W2))).
Qed.

Lemma executing_sub : submission_list (lp_judge (mc_loop executing_machine)) !! 7 =
  Some {| sr_sub := sample; sr_result := empty_SubmissionResult |}.
Proof. vm_compute. reflexivity. Qed.

Lemma judged_output_witness :
  is_file (mc_disk judging_machine) "/tmp/tioj_box/000007/scoring000_00/workdir/user_output" "42 " /\
  exists sr item, testdata (sr_sub sr) !! 0%nat = Some item /\
    (forall c, "/td/ans" = answer_file item -> is_file (mc_disk later_machine) "/td/ans" c ->
      is_file (mc_disk judging_machine) "/tmp/tioj_box/000007/scoring000_00/workdir/td_output" c).
Proof.
  destruct (judged_output 4 executing_machine finished_machine later_machine judging_machine 0
    (env_of [] (mc_disk executing_machine)) exited_ok [] 2 0 (env_of [] (mc_disk later_machine)) [] 7 0 0
    {| sr_sub := sample; sr_result := empty_SubmissionResult |} ltac:(lia) sample_roots_ok executing_run
    executing_sub ltac:(vm_compute; reflexivity) (proj1 finish_step) (proj2 finish_step) later_run
    ltac:(vm_compute; reflexivity) score_step ltac:(vm_compute; reflexivity))
    as (HU & sr & item & _ & Hitem & Hfiles).
  split; [exact HU|]. exists sr, item. split; [exact Hitem|]. exact (proj2 (Hfiles "/td/ans" ltac:(reflexivity))).
Defined.
