(* ===== verification/Connection.v ===== *)
(** * The connection to the server

    [WsClient] (src/websocket.h, websocket.cpp) and [TIOJClient] of
    src/server_io.cpp together with the thread of [RequestLoop]: the flags of the
    connection, the callbacks of the websocket library, and the requests that
    are queued, sent and kept for another attempt. *)

From S2P Require Import Prelude Enums Text CNum Data ServerQueue ServerMessages.
From Stdlib Require Import SpecFloat.

(** The fields of the client, the loop that owns it, and (as a ghost) the requests
    that left on an open connection, oldest first. *)
Record Client := {
  cl_connected : bool;
  cl_close_issued : bool;
  cl_last_ping : spec_float;
  cl_compat : Compat;
  cl_sender : Sender;
  cl_delivered : list Request;
}.

Definition CanSend (c : Client) : bool := cl_connected c && negb (cl_close_issued c).

Definition initial_client : Client := {|
  cl_connected := false; cl_close_issued := false; cl_last_ping := zero_stamp;
  cl_compat := initial_compat; cl_sender := start_sender; cl_delivered := [] |}.

Definition set_sender (s : Sender) (c : Client) : Client := {|
  cl_connected := cl_connected c; cl_close_issued := cl_close_issued c; cl_last_ping := cl_last_ping c;
  cl_compat := cl_compat c; cl_sender := s; cl_delivered := cl_delivered c |}.
Definition set_connection (connected close_issued : bool) (c : Client) : Client := {|
  cl_connected := connected; cl_close_issued := close_issued; cl_last_ping := cl_last_ping c;
  cl_compat := cl_compat c; cl_sender := cl_sender c; cl_delivered := cl_delivered c |}.
Definition set_last_ping (now : spec_float) (c : Client) : Client := {|
  cl_connected := cl_connected c; cl_close_issued := cl_close_issued c; cl_last_ping := now;
  cl_compat := cl_compat c; cl_sender := cl_sender c; cl_delivered := cl_delivered c |}.
Definition set_compat (x : Compat) (c : Client) : Client := {|
  cl_connected := cl_connected c; cl_close_issued := cl_close_issued c; cl_last_ping := cl_last_ping c;
  cl_compat := x; cl_sender := cl_sender c; cl_delivered := cl_delivered c |}.
Definition deliver (r : Request) (c : Client) : Client := {|
  cl_connected := cl_connected c; cl_close_issued := cl_close_issued c; cl_last_ping := cl_last_ping c;
  cl_compat := cl_compat c; cl_sender := cl_sender c; cl_delivered := cl_delivered c ++ [r] |}.

Definition subscribe_request : Request := {|
  is_subscribe := true; is_unique := false; force_pop := false; rq_key := 0; rq_action := ""; rq_body := JNull |}.

(** No message for more than eight seconds. *)
Definition ping_lost (now : spec_float) (c : Client) : bool :=
  CanSend c && SFltb zero_stamp (cl_last_ping c) && SFltb (dbl_of_Z 8) (dbl_sub now (cl_last_ping c)).

(** A failed close throws, so that the flag is set whenever the call returns. *)
Definition Close (c : Client) : Client := set_connection (cl_connected c) true c.

Inductive client_action :=
| Push (req : Request)                     (* PushRequest of any thread *)
| Timer (now : spec_float) (timeout : bool)   (* the predicate of wait_for *)
| Decide (now : spec_float)                (* behind wait_for *)
| Take (now : spec_float)                  (* the next request of the queue *)
| Sent (ok : bool)                         (* Send has returned *)
| Drained
| Opened (now : spec_float)                (* OnOpen_ *)
| Failed                                   (* OnFail_ *)
| Closed                                   (* OnClose_ *)
| Received (now : spec_float) (msg : string). (* OnMessage_ *)

(** A step of the loop or of its queues. *)
Definition sender_does (a : sender_action) (c : Client) : option (outcome Client) :=
  match sender_step (cl_sender c) a with
  | None => None
  | Some (Crash f) => Some (Crash f)
  | Some (Done s) => Some (Done (set_sender s c))
  end.

Definition then_does (a : sender_action) (r : option (outcome Client)) : option (outcome Client) :=
  match r with Some (Done c) => sender_does a c | _ => r end.

Section Client.
Context `{JsonText}.

(** [None] when the action cannot happen; nothing can be sent on a closed
    connection. *)
Definition client_step (c : Client) (a : client_action) : option (outcome Client) :=
  match a with
  | Push req => sender_does (Put req) c
  | Timer now timeout => sender_does (Check_ (CanSend c) now timeout) c
  | Decide now => if ping_lost now c then sender_does ClosePing (Close c) else sender_does StartDrain c
  | Take now => sender_does (Pop now) c
  | Sent ok =>
      match sd_pc (cl_sender c) with
      | Sending req =>
          if ok then if cl_connected c then sender_does SendDone (deliver req c) else None
          else sender_does SendDone c
      | _ => None
      end
  | Drained => sender_does EndDrain c
  | Opened now =>
      if cl_connected c then None
      else
        then_does (Put TryFetchSubmission)
          (sender_does (Put subscribe_request) (set_last_ping now (set_connection true (cl_close_issued c) c)))
  | Failed => if cl_connected c then None else sender_does Resend c
  | Closed => if cl_connected c then sender_does Resend (set_connection false false c) else None
  | Received now msg =>
      if negb (cl_connected c) then None
      else
        let r := sender_does Message (match json_parse msg with Some _ => set_last_ping now c | None => c end) in
        match OnMessage msg with
        | Fetch => then_does (Put TryFetchSubmission) r
        | Welcome _ compat close =>
            match r with
            | Some (Done c) =>
                let c := set_compat compat c in
                Some (Done (if close then Close c else c))
            | _ => r
            end
        | StartSubmission _ | Ignore => r
        end
  end.

Fixpoint client_run (c : Client) (l : list client_action) : option (outcome Client) :=
  match l with
  | [] => Some (Done c)
  | a :: l' =>
      match client_step c a with
      | Some (Done c') => client_run c' l'
      | r => r
      end
  end.
End Client.
