(* ===== verification/ConnectionSpec.v ===== *)
(** * What happens to requests when the connection breaks

    Between two messages of the server every request that has been queued can
    still be sent; the next message forgets those that were sent on a closed
    connection. *)

From S2P Require Import Prelude Enums Text CNum Data ServerQueue ServerMessages Connection.
From Stdlib Require Import SpecFloat.

(** What the queues and the loop hold, but for the unique requests that still
    wait for their interval. *)
Definition in_hand (pc : loop_pc) : list Request := match pc with Sending req => [req] | _ => [] end.
Definition held (s : Sender) : list Request :=
  request_queue (sd_queues s) ++ in_hand (sd_pc s) ++ backup_queue (sd_queues s).
Definition pending (c : Client) : list Request := held (cl_sender c).

(** ** Steps keep what is pending *)

Lemma PushRequest_queues req q :
  request_queue q ⊆+ request_queue (PushRequest req q) /\ backup_queue (PushRequest req q) = backup_queue q.
Proof.
  unfold PushRequest.
  destruct (is_unique req), (force_pop req), (is_subscribe req); repeat case_match; simpl;
    (split; [|done]); first [done | by apply submseteq_inserts_r | by apply submseteq_cons].
Qed.

Lemma PushRequest_unique req q : is_unique req = true -> request_queue (PushRequest req q) = request_queue q.
Proof. intros E. unfold PushRequest. rewrite E. by repeat case_match. Qed.

Lemma check_loop_queues limit unsent q q' : check_loop limit unsent q = Done q' ->
  request_queue q ⊆+ request_queue q' /\ backup_queue q' = backup_queue q.
Proof.
  revert q. induction unsent as [|[ts key] unsent IH]; intros q; simpl; [by intros [= <-]|].
  destruct (SFleb limit ts); [by intros [= <-]|]. destruct (unique_requests q !! key) as [req|]; [|done].
  intros E. apply IH in E as [E1 E2]. simpl in E1, E2. split; [|done].
  etrans; [|exact E1]. apply submseteq_inserts_r. done.
Qed.

Lemma take_request_queues now req rest q :
  request_queue (take_request now req rest q) = rest /\ backup_queue (take_request now req rest q) = backup_queue q.
Proof. unfold take_request. destruct (is_unique req), (force_pop req); by split. Qed.

Lemma sender_step_held s a s' : a <> Message -> sender_step s a = Some (Done s') -> held s ⊆+ held s'.
Proof.
  intros Ha. destruct s as [q pc sent]. unfold held. destruct a; simpl.
  - destruct (PushRequest_queues req q) as [E1 E2].
    destruct pc; try done; intros [= <-]; simpl; rewrite E2; by apply submseteq_app.
  - destruct pc; try done. destruct can_send; [|by destruct timeout; intros [= <-]].
    unfold CheckUniqueRequests. destruct (check_loop _ _ _) as [q'|] eqn:E; [|done].
    apply check_loop_queues in E as [E1 E2]. intros [= <-]. simpl. rewrite E2.
    destruct (_ || _); by apply submseteq_app.
  - destruct pc; try done. by intros [= <-].
  - destruct pc; try done. by intros [= <-].
  - destruct pc; try done. destruct (request_queue q) as [|req rest] eqn:Eq; [done|]. intros [= <-].
    destruct (take_request_queues ts req rest q) as [E1 E2]. cbn [sd_queues sd_pc]. rewrite E1, E2.
    simpl. apply Permutation_submseteq. solve_Permutation.
  - destruct pc; try done. intros [= <-]. simpl. apply Permutation_submseteq. solve_Permutation.
  - destruct pc; try done. destruct (request_queue q) eqn:Eq; [|done]. intros [= <-]. simpl. by rewrite Eq.
  - destruct pc; try done; intros [= <-]; simpl; apply Permutation_submseteq; solve_Permutation.
  - done.
Qed.

Lemma sender_does_pending a c c' : a <> Message -> sender_does a c = Some (Done c') -> pending c ⊆+ pending c'.
Proof.
  intros Ha. unfold sender_does, pending. destruct (sender_step (cl_sender c) a) as [[s|]|] eqn:E; [|done..].
  intros [= <-]. by eapply sender_step_held.
Qed.

Section Client.
Context `{JsonText}.

Definition is_message (a : client_action) : bool := match a with Received _ _ => true | _ => false end.

Lemma then_does_pending a c r c' : a <> Message ->
  (forall c1, r = Some (Done c1) -> pending c ⊆+ pending c1) ->
  then_does a r = Some (Done c') -> pending c ⊆+ pending c'.
Proof.
  intros Ha Hr. unfold then_does. destruct r as [[c1|]|]; [|done..]. intros E.
  etrans; [by apply Hr|]. by eapply sender_does_pending.
Qed.

Lemma client_step_pending c a c' : is_message a = false -> client_step c a = Some (Done c') ->
  pending c ⊆+ pending c'.
Proof.
  intros Ha E. destruct a; simpl in E; try done.
  - by apply sender_does_pending in E.
  - by apply sender_does_pending in E.
  - destruct (ping_lost now c); by apply sender_does_pending in E.
  - by apply sender_does_pending in E.
  - destruct (sd_pc (cl_sender c)) as [| | |req]; try done.
    destruct ok; [destruct (cl_connected c); [|done]|]; by apply sender_does_pending in E.
  - by apply sender_does_pending in E.
  - destruct (cl_connected c); [done|]. eapply then_does_pending; [|clear E|exact E]; [done|].
    intros c1 E. by apply sender_does_pending in E.
  - destruct (cl_connected c); [done|]. by apply sender_does_pending in E.
  - destruct (cl_connected c); [|done]. by apply sender_does_pending in E.
Qed.

Lemma client_run_pending c acts c' : Forall (fun a => is_message a = false) acts ->
  client_run c acts = Some (Done c') -> pending c ⊆+ pending c'.
Proof.
  intros Ha. revert c. induction Ha as [|a acts Ha _ IH]; intros c; simpl; [by intros [= <-]|].
  destruct (client_step c a) as [[c1|]|] eqn:E; [|done..]. intros E'.
  etrans; [by eapply client_step_pending|by apply IH].
Qed.

Lemma message_pending c now msg c' : client_step c (Received now msg) = Some (Done c') ->
  request_queue (sd_queues (cl_sender c)) ++ in_hand (sd_pc (cl_sender c)) ⊆+ pending c'.
Proof.
  simpl. destruct (cl_connected c); [|done]. cbn [negb].
  set (c0 := match json_parse msg with Some _ => _ | None => c end).
  assert (E0 : cl_sender c0 = cl_sender c) by (unfold c0; by destruct (json_parse msg)).
  set (c1 := set_sender {| sd_queues := set_backup_queue [] (sd_queues (cl_sender c0)); sd_pc := sd_pc (cl_sender c0);
                           sd_sent := sd_sent (cl_sender c0) |} c0).
  assert (E1 : sender_does Message c0 = Some (Done c1)).
  { unfold sender_does, c1, sender_step. by destruct (sd_pc (cl_sender c0)). }
  assert (Hc1 : request_queue (sd_queues (cl_sender c)) ++ in_hand (sd_pc (cl_sender c)) ⊆+ pending c1).
  { unfold pending, held, c1. simpl. by rewrite E0, app_nil_r. }
  rewrite E1. destruct (OnMessage msg) as [|version compat close| |].
  - intros E. etrans; [exact Hc1|]. cbn [then_does] in E.
    eapply sender_does_pending; [|exact E]. done.
  - intros [= <-]. destruct close; exact Hc1.
  - intros [= <-]. exact Hc1.
  - intros [= <-]. exact Hc1.
Qed.

(** ** Draining without a connection *)

Definition drain (now : spec_float) (n : nat) : list client_action :=
  concat (repeat [Take now; Sent false] n).

Definition with_queues (q : Queues) (pc : loop_pc) (sent : list Request) (c : Client) : Client :=
  set_sender {| sd_queues := q; sd_pc := pc; sd_sent := sent |} c.

Lemma client_run_app c acts acts' c1 : client_run c acts = Some (Done c1) ->
  client_run c (acts ++ acts') = client_run c1 acts'.
Proof.
  revert c. induction acts as [|a acts IH]; intros c; simpl; [by intros [= ->]|].
  destruct (client_step c a) as [[c2|]|]; [|done..]. apply IH.
Qed.

Lemma client_run_stuck c acts acts' r : client_run c acts = r -> (forall c1, r <> Some (Done c1)) ->
  client_run c (acts ++ acts') = r.
Proof.
  intros <- Hn. revert c Hn. induction acts as [|a acts IH]; intros c Hn; simpl in *; [by destruct (Hn c)|].
  destruct (client_step c a) as [[c2|]|]; [by apply IH|done..].
Qed.

(** A connection is made; and what the loop does itself, sending without success. *)
Definition is_opened (a : client_action) : bool := match a with Opened _ => true | _ => false end.
Definition is_own (a : client_action) : bool :=
  match a with Timer _ _ | Decide _ | Take _ | Sent false | Drained => true | _ => false end.

Lemma drain_run now rs c : cl_connected c = false -> sd_pc (cl_sender c) = Draining ->
  request_queue (sd_queues (cl_sender c)) = rs ->
  exists c', client_run c (drain now (length rs)) = Some (Done c') /\
    cl_connected c' = false /\ cl_delivered c' = cl_delivered c /\ sd_pc (cl_sender c') = Draining /\
    request_queue (sd_queues (cl_sender c')) = [].
Proof.
  revert c. induction rs as [|r rs IH]; intros c Hc Hpc Hq; [by exists c|].
  set (q := take_request now r rs (sd_queues (cl_sender c))).
  set (c1 := set_sender {| sd_queues := set_backup_queue (backup_queue q ++ [r]) q; sd_pc := Draining;
                           sd_sent := sd_sent (cl_sender c) ++ [r] |} c).
  destruct (IH c1) as (c' & E & H1 & H2 & H3 & H4); [done|done| |].
  { done. }
  exists c'. split_and!; [|done..]. rewrite <- E.
  change (drain now (length (r :: rs))) with ([Take now; Sent false] ++ drain now (length rs)).
  apply client_run_app. simpl. unfold sender_does. simpl. rewrite Hpc, Hq. done.
Qed.

(** ** The theorems *)

(** C20: Nothing queued is forgotten between two messages of the server: along
    any run without one (requests are pushed, sent with or without success,
    the connection fails, is closed and opened again) every request in the
    queue, in the hands of the sender or in the backup queue stays in one of
    them. A message forgets at most the backup queue. *)
Theorem pending_until_message c acts c' :
  (Forall (fun a => is_message a = false) acts -> client_run c acts = Some (Done c') ->
     pending c ⊆+ pending c') /\
  (forall now msg, client_step c (Received now msg) = Some (Done c') ->
     request_queue (sd_queues (cl_sender c)) ++ in_hand (sd_pc (cl_sender c)) ⊆+ pending c').
Proof. split; [apply client_run_pending|intros now msg; apply message_pending]. Qed.

(** Without a connection nothing is delivered, and no connection comes by itself. *)
Lemma offline_step c a c' : cl_connected c = false -> is_opened a = false -> client_step c a = Some (Done c') ->
  cl_connected c' = false /\ cl_delivered c' = cl_delivered c.
Proof.
  intros Hc Ha E. assert (Hs : forall b c0 c1, cl_connected c0 = false -> cl_delivered c0 = cl_delivered c ->
      sender_does b c0 = Some (Done c1) -> cl_connected c1 = false /\ cl_delivered c1 = cl_delivered c).
  { intros b c0 c1 H0 H1. unfold sender_does. destruct (sender_step _ b) as [[s1|]|]; [|done..]. by intros [= <-]. }
  destruct a; simpl in E; rewrite ?Hc in E; try done; try (by eapply Hs; [| |exact E]).
  - destruct (ping_lost now c); by eapply Hs; [| |exact E].
  - destruct (sd_pc (cl_sender c)) as [| | |req]; try done. destruct ok; [done|]. by eapply Hs; [| |exact E].
Qed.

Lemma offline_run c acts c' : cl_connected c = false -> Forall (fun a => is_opened a = false) acts ->
  client_run c acts = Some (Done c') -> cl_connected c' = false /\ cl_delivered c' = cl_delivered c.
Proof.
  intros Hc Ha. revert c Hc. induction Ha as [|a acts Ha _ IH]; intros c Hc; simpl; [by intros [= <-]|].
  destruct (client_step c a) as [[c1|]|] eqn:E; [|done..]. intros Er.
  destruct (offline_step c a c1 Hc Ha E) as [H1 H2]. destruct (IH c1 H1 Er) as [? ?]. split; [done|congruence].
Qed.

(** The connection and the first message after the queue has been emptied. *)
Lemma reopened_loses c now msg c' : cl_connected c = false -> OnMessage msg <> Fetch ->
  client_run c [Drained; Opened now; Received now msg] = Some (Done c') ->
  cl_connected c' = true /\ cl_delivered c' = cl_delivered c /\ pending c' = [subscribe_request].
Proof.
  intros Hc Hmsg. simpl. unfold sender_does. simpl.
  destruct (sd_pc (cl_sender c)) eqn:Ep; simpl; try done.
  destruct (request_queue (sd_queues (cl_sender c))) as [|r rest] eqn:Eq; [|done]. simpl. rewrite Hc. simpl.
  set (q := set_backup_queue [] (PushRequest TryFetchSubmission (PushRequest subscribe_request (sd_queues (cl_sender c))))).
  assert (Hq : request_queue q = [subscribe_request]).
  { change (request_queue (PushRequest TryFetchSubmission (PushRequest subscribe_request (sd_queues (cl_sender c)))) = [subscribe_request]).
    rewrite PushRequest_unique by done. simpl. by rewrite Eq. }
  destruct (OnMessage msg) as [|version compat close| |]; [done|..]; destruct (json_parse msg); try destruct close;
    intros [= <-]; (split_and!; [done|done|]);
    change (request_queue q ++ [] ++ [] = [subscribe_request]); by rewrite Hq.
Qed.

(** C39: Requests do not survive an interruption of the connection in which the loop has
    run. While there is no connection, the loop can always empty its queue (its
    timer is enough; nothing tests the connection before it drains); and
    once it has, whatever else has happened in the meantime, the next connection
    with the server's welcome (or any other text that is not a notification) leaves
    only the subscription pending: everything that was pending is lost, although
    nothing has been delivered. *)
Theorem reconnect_loses_requests (c : Client) (now : spec_float) (msg : string) :
  cl_connected c = false -> OnMessage msg <> Fetch ->
  (sd_pc (cl_sender c) = InWait -> exists acts c', client_run c (acts ++ [Drained]) = Some (Done c') /\
     Forall (fun a => is_own a = true) acts) /\
  (forall acts c', Forall (fun a => is_opened a = false) acts ->
     client_run c (acts ++ [Drained; Opened now; Received now msg]) = Some (Done c') ->
     cl_connected c' = true /\ cl_delivered c' = cl_delivered c /\ pending c' = [subscribe_request]).
Proof.
  intros Hc Hmsg. split.
  - intros Hpc. set (rs := request_queue (sd_queues (cl_sender c))).
    set (c1 := set_sender {| sd_queues := sd_queues (cl_sender c); sd_pc := Draining; sd_sent := sd_sent (cl_sender c) |} c).
    assert (E1 : client_run c [Timer now true; Decide now] = Some (Done c1)).
    { simpl. unfold sender_does, CanSend. rewrite Hc. cbn [andb]. simpl. rewrite Hpc.
      unfold ping_lost, CanSend. simpl. by rewrite Hc. }
    destruct (drain_run now rs c1 Hc eq_refl eq_refl) as (c2 & E2 & C2 & D2 & P2 & Q2).
    exists ([Timer now true; Decide now] ++ drain now (length rs)). eexists. split.
    + rewrite <- (assoc_L (++)), (client_run_app _ _ _ _ E1), (client_run_app _ _ _ _ E2). simpl. unfold sender_does. simpl.
      by rewrite P2, Q2.
    + rewrite Forall_app. split; [by repeat constructor|]. unfold drain. clear E2.
      induction (length rs) as [|n IH]; simpl; [done|]. do 2 (constructor; [done|]). exact IH.
  - intros acts c' Ha E. destruct (client_run c acts) as [[c1|]|] eqn:E1.
    + rewrite (client_run_app _ _ _ _ E1) in E. destruct (offline_run c acts c1 Hc Ha E1) as [H1 <-].
      by eapply reopened_loses.
    + exfalso. revert E. by rewrite (client_run_stuck _ _ _ _ E1) by done.
    + exfalso. revert E. by rewrite (client_run_stuck _ _ _ _ E1) by done.
Qed.
End Client.

(** ** A final result while the connection is down *)

#[local] Instance plain_text : JsonText := {|
  json_parse := fun _ => Some (JObj [("type", JStr "welcome"); ("version", JStr "3.6.0")]);
  json_dump := fun _ => "" |}.

Definition late_result : Request := SendStatus 42 "AC".

(** Connected and subscribed; the connection is closed; a result is pushed. *)
Definition before_reconnect : list client_action := [
  Opened zero_stamp; Timer zero_stamp true; Decide zero_stamp; Take zero_stamp; Sent true; Drained;
  Closed; Push late_result].

Definition disconnected : Client :=
  match client_run initial_client before_reconnect with Some (Done c) => c | _ => initial_client end.

Lemma pending_until_message_witness :
  exists c, client_run initial_client before_reconnect = Some (Done c) /\ [late_result] ⊆+ pending c /\
    exists c', client_run c [Timer zero_stamp true; Decide zero_stamp] = Some (Done c') /\ pending c ⊆+ pending c'.
Proof.
  exists disconnected. split; [vm_compute; reflexivity|]. split.
  - assert (E : pending disconnected = [subscribe_request; late_result]) by (vm_compute; reflexivity).
    rewrite E. by apply submseteq_cons.
  - destruct (client_run disconnected [Timer zero_stamp true; Decide zero_stamp]) as [[c'|]|] eqn:E;
      [|vm_compute in E; discriminate E..].
    exists c'. split; [done|].
    apply (pending_until_message disconnected [Timer zero_stamp true; Decide zero_stamp] c'); [by repeat constructor|exact E].
Defined.

Definition offline_actions : list client_action :=
  [Timer zero_stamp true; Decide zero_stamp; Take zero_stamp; Sent false; Take zero_stamp; Sent false].

Lemma reconnect_loses_requests_witness :
  pending disconnected = [subscribe_request; late_result] /\
  exists c', client_run disconnected (offline_actions ++ [Drained; Opened zero_stamp; Received zero_stamp ""]) = Some (Done c') /\
    cl_delivered c' = [subscribe_request] /\ pending c' = [subscribe_request].
Proof.
  split; [vm_compute; reflexivity|].
  destruct (client_run disconnected (offline_actions ++ [Drained; Opened zero_stamp; Received zero_stamp ""])) as [[c'|]|] eqn:E;
    [|vm_compute in E; discriminate E..].
  exists c'. split; [done|].
  destruct (proj2 (reconnect_loses_requests disconnected zero_stamp "" ltac:(vm_compute; reflexivity) ltac:(by vm_compute))
    offline_actions c' ltac:(by repeat constructor) E) as (_ & Hd & Hp).
  split; [by rewrite Hd; vm_compute|exact Hp].
Defined.
