(* ===== verification/TestdataSync.v ===== *)
(** * Keeping the test data up to date

    The part of [DealOneSubmission] (src/server_io.cpp) that compares the test
    data of a submission with the database (src/database.h, database.cpp),
    downloads what changed and updates the files and symbolic links.

    The file system is a map from the locations the code uses to files and
    links; [path_of] gives their paths. *)

From S2P Require Import Prelude Text Paths.

(** ** The database *)

Record Testdata := {
  testdata_id : Z;
  td_problem_id : Z;
  td_order : Z;
  timestamp : Z;
  input_compressed : bool;
  output_compressed : bool;
}.

#[export] Instance Testdata_eq_dec : EqDecision Testdata.
Proof. solve_decision. Defined.

(** The table, by its primary key. *)
Abbreviation database := (gmap Z Testdata).

Definition ProblemTd (problem_id : Z) (db : database) : database :=
  filter (fun kv => td_problem_id kv.2 = problem_id) db.

(** [replace_range]. *)
Definition UpdateTd (td : list Testdata) (db : database) : database :=
  foldl (fun db t => <[testdata_id t := t]> db) db td.

(** ** The file system *)

Inductive td_location :=
| PoolFile (id : Z) (is_input is_temp : bool)
| Linked (problem order : Z) (is_input : bool).

#[export] Instance td_location_eq_dec : EqDecision td_location.
Proof. solve_decision. Defined.

#[export] Instance td_location_countable : Countable td_location.
Proof.
  refine (inj_countable'
    (fun l => match l with PoolFile i a b => inl (i, a, b) | Linked p o a => inr (p, o, a) end)
    (fun x => match x with inl (i, a, b) => PoolFile i a b | inr (p, o, a) => Linked p o a end) _).
  by intros [].
Defined.

Inductive td_node := File (contents : string) | SymlinkTo (l : td_location).

Abbreviation td_files := (gmap td_location td_node).

Section Paths.
Context `{PathRoots}.
Definition path_of (l : td_location) : string :=
  match l with
  | PoolFile id is_input is_temp => TdPoolPath id is_input is_temp
  | Linked problem order is_input => if is_input then TdInput problem order else TdAnswer problem order
  end.
End Paths.

(** What [DownloadFile] returns and leaves in the file for a test data, see
    [Download], and which renames and links fail. *)
Record Outside := {
  served : Z -> bool -> bool * string;
  dirs_fail : Z -> bool;
  move_fails : td_location -> bool;
}.

Section Sync.
Context (o : Outside).

(** ** What has to be done *)

(** [orig_td_count]. *)
Definition orig_count (rows : database) : Z :=
  map_fold (fun _ t n => if n <=? td_order t then td_order t + 1 else n) 0 rows.

Definition needs_download (orig : database) (t : Testdata) : bool :=
  match orig !! testdata_id t with None => true | Some r => negb (timestamp r =? timestamp t) end.
Definition needs_link (orig : database) (t : Testdata) : bool :=
  match orig !! testdata_id t with None => true | Some r => negb (td_order r =? td_order t) end.

Definition to_download (orig : database) (tds : list Testdata) : list Z :=
  map testdata_id (filter (fun t => needs_download orig t = true) tds).
Definition to_update_position (orig : database) (tds : list Testdata) : list (Z * Z) :=
  map (fun t => (td_order t, testdata_id t)) (filter (fun t => needs_link orig t = true) tds).

(** [unordered_map::insert] keeps the first of equal ids. *)
Definition new_meta (tds : list Testdata) : database :=
  foldl (fun m t => match m !! testdata_id t with None => <[testdata_id t := t]> m | Some _ => m end) ∅ tds.

Definition to_delete (orig : database) (tds : list Testdata) : list Z :=
  filter (fun id => new_meta tds !! id = None) (fst <$> map_to_list orig).

(** ** File operations

    The flag is false where the code returns. *)

(** One download, to a temporary file. *)
Definition download_file (id : Z) (is_input : bool) (fs : td_files) : bool * td_files :=
  let '(ok, contents) := served o id is_input in
  (ok, <[PoolFile id is_input true := File contents]> fs).

(** [fs::rename] replaces its target. *)
Definition rename (from to : td_location) (fs : td_files) : bool * td_files :=
  match fs !! from with
  | Some n => if move_fails o to then (false, fs) else (true, <[to := n]> (delete from fs))
  | None => (false, fs)
  end.

(** [fs::create_symlink] fails where there is something. *)
Definition create_symlink (target link : td_location) (fs : td_files) : bool * td_files :=
  match fs !! link with
  | Some _ => (false, fs)
  | None => if move_fails o link then (false, fs) else (true, <[link := SymlinkTo target]> fs)
  end.

(** One after the other, as long as they succeed. *)
Definition and_then (f g : td_files -> bool * td_files) (fs : td_files) : bool * td_files :=
  let '(ok, fs) := f fs in if ok : bool then g fs else (false, fs).
Fixpoint each {A} (f : A -> td_files -> bool * td_files) (l : list A) (fs : td_files) : bool * td_files :=
  match l with
  | [] => (true, fs)
  | x :: l' => and_then (f x) (each f l') fs
  end.

Definition download_one (id : Z) (fs : td_files) : bool * td_files :=
  if dirs_fail o id then (false, fs)
  else and_then (download_file id true) (download_file id false) fs.

Definition rename_one (id : Z) : td_files -> bool * td_files :=
  and_then (rename (PoolFile id true true) (PoolFile id true false))
    (rename (PoolFile id false true) (PoolFile id false false)).

Definition remove_pool (id : Z) (fs : td_files) : td_files :=
  delete (PoolFile id false false) (delete (PoolFile id true false) fs).

Definition link_one (problem : Z) (p : Z * Z) (fs : td_files) : bool * td_files :=
  let '(order, id) := p in
  and_then (create_symlink (PoolFile id true false) (Linked problem order true))
    (create_symlink (PoolFile id false false) (Linked problem order false))
    (delete (Linked problem order false) (delete (Linked problem order true) fs)).

Definition remove_links (problem i : Z) (fs : td_files) : td_files :=
  delete (Linked problem i false) (delete (Linked problem i true) fs).

(** [i] from [td_count] to [orig_td_count - 1]. *)
Definition old_positions (td_count orig_td_count : Z) : list Z :=
  map (Z.add td_count) (map Z.of_nat (seq 0 (Z.to_nat (orig_td_count - td_count)))).

(** The file operations of a submission with the given test data. *)
Definition sync_files (problem : Z) (orig : database) (tds : list Testdata) (fs : td_files) : bool * td_files :=
  and_then (each download_one (to_download orig tds))
    (and_then (each rename_one (to_download orig tds))
      (fun fs =>
        and_then (each (link_one problem) (to_update_position orig tds))
          (fun fs => (true, foldl (fun fs i => remove_links problem i fs) fs
                              (old_positions (Z.of_nat (length tds)) (orig_count orig))))
          (foldl (fun fs id => remove_pool id fs) fs (to_delete orig tds)))) fs.

(** With the update of the database. *)
Definition sync (problem : Z) (tds : list Testdata) (st : database * td_files) : bool * (database * td_files) :=
  let '(db, fs) := st in
  let '(ok, fs) := sync_files problem (ProblemTd problem db) tds fs in
  if ok then (true, (UpdateTd (snd <$> map_to_list (new_meta tds)) db, fs)) else (false, (db, fs)).
End Sync.
