(* ===== verification/Download.v ===== *)
(** * Requests with retries

    [IsSuccess] and [RequestRetryInit] (src/http_utils.h, http_utils.cpp) and
    [DownloadFile] of src/server_io.cpp, which writes what arrives to a file,
    decompressing it on the way if the test data are compressed.

    A request is what the HTTP library does with it: the pieces of the body it
    passes to the receiver, and the status ([None] without a response). When the
    receiver returns [false] the library gives up and returns an error. *)

From S2P Require Import Prelude Text.

Record Attempt := { at_chunks : list string; at_status : option Z }.

Definition IsSuccess (res : option Z) : bool :=
  match res with Some code => (200 <=? code) && (code <? 299) | None => false end.

(** ** Retrying

    [S] is what [init] and the receiver work on; [None] when a request does not
    return. *)
Definition kRetries : nat := 5.

Section Retry.
Context {S : Type} (init : S -> S) (request : nat -> S -> option (S * option Z)).

Fixpoint retry_loop (left i : nat) (s : S) (last_res : option Z) : option (S * option Z) :=
  match left with
  | O => Some (s, last_res)
  | Datatypes.S left' =>
      match request i (init s) with
      | None => None
      | Some (s, res) => if IsSuccess res then Some (s, res) else retry_loop left' (Datatypes.S i) s res
      end
  end.

Definition RequestRetryInit (s : S) : option (S * option Z) := retry_loop kRetries 0 s None.
End Retry.

(** ** Receivers *)

(** [ZSTD_decompressStream] with an output buffer of the recommended size: the
    output, how much input was used, and the context; an error carries no
    output. *)
Class Zstd := {
  dctx : Type;
  createDCtx : dctx;
  decompressStream : dctx -> string -> bool * string * nat * dctx;
}.

(** The pieces passed to a receiver, as long as it returns [true]; the state of the
    receiver is [R]. *)
Fixpoint receive_all {R} (receive : string -> R -> option (bool * R)) (chunks : list string) (r : R)
    : option (bool * R) :=
  match chunks with
  | [] => Some (true, r)
  | c :: chunks' =>
      match receive c r with
      | None => None
      | Some (false, r) => Some (false, r)
      | Some (true, r) => receive_all receive chunks' r
      end
  end.

Definition http_request {R} (receive : string -> R -> option (bool * R)) (attempts : nat -> Attempt) (i : nat) (r : R)
    : option (R * option Z) :=
  match receive_all receive (at_chunks (attempts i)) r with
  | None => None
  | Some (true, r) => Some (r, at_status (attempts i))
  | Some (false, r) => Some (r, None)
  end.

(** [fout.write] *)
Definition receive_plain (data : string) (file : string) : option (bool * string) := Some (true, file +:+ data).

Section Compressed.
Context `{Zstd} (fuel : nat).

(** The loop over one piece of the input. *)
Fixpoint decompress_loop (fuel : nat) (input : string) (r : string * dctx) : option (bool * (string * dctx)) :=
  match fuel with
  | O => None
  | S fuel' =>
      match input with
      | EmptyString => Some (true, r)
      | _ =>
          let '(is_error, output, used, ctx) := decompressStream (snd r) input in
          if is_error then Some (false, (fst r, ctx))
          else decompress_loop fuel' (String.substring used (String.length input - used) input) (fst r +:+ output, ctx)
      end
  end.

Definition receive_compressed (data : string) (r : string * dctx) : option (bool * (string * dctx)) :=
  decompress_loop fuel data r.

(** The context is created once, the file is opened anew for every attempt.
    The status returned and the contents of the file. *)
Definition DownloadFile (compressed : bool) (attempts : nat -> Attempt) (file : string) : option (string * option Z) :=
  if compressed then
    match RequestRetryInit (fun r => ("", snd r)) (http_request receive_compressed attempts) (file, createDCtx) with
    | None => None
    | Some (r, res) => Some (fst r, res)
    end
  else RequestRetryInit (fun _ => "") (http_request receive_plain attempts) file.
End Compressed.

(** ** Which attempt counts *)

(** The first of the attempts from [i] on that succeeds, else the last one. *)
Fixpoint deciding (ok : nat -> bool) (left i : nat) : nat :=
  match left with
  | O => i
  | S O => i
  | S left' => if ok i then i else deciding ok left' (S i)
  end.

Lemma deciding_spec ok left i : (0 < left)%nat ->
  (i <= deciding ok left i < i + left)%nat /\
  (forall j, (i <= j < deciding ok left i)%nat -> ok j = false) /\
  (ok (deciding ok left i) = false -> deciding ok left i = (i + left - 1)%nat).
Proof.
  revert i. induction left as [|left IH]; intros i Hl; [lia|]. simpl. destruct left as [|left].
  { split_and!; intros; lia. }
  destruct (ok i) eqn:E; [split_and!; intros; try lia; congruence|].
  destruct (IH (S i) ltac:(lia)) as (H1 & H2 & H3). split_and!; [lia|lia| |].
  - intros j Hj. destruct (decide (j = i)) as [->|]; [done|]. apply H2. lia.
  - intros Hf. rewrite (H3 Hf). lia.
Qed.

(** A loop whose requests start from scratch leaves what the deciding attempt
    leaves. *)
Lemma retry_loop_fresh {S} (fresh : S) (out : nat -> S) (status : nat -> option Z) request left i s res :
  (forall k, request k fresh = Some (out k, status k)) -> (0 < left)%nat ->
  retry_loop (fun _ => fresh) request left i s res =
    let k := deciding (fun k => IsSuccess (status k)) left i in Some (out k, status k).
Proof.
  intros Hr. revert i s res. induction left as [|left IH]; intros i s res Hl; [lia|]. simpl.
  rewrite Hr. destruct left as [|left].
  - simpl. by destruct (IsSuccess (status i)).
  - destruct (IsSuccess (status i)); [done|]. apply IH. lia.
Qed.

Lemma receive_plain_all chunks file : receive_all receive_plain chunks file = Some (true, file +:+ String.concat "" chunks).
Proof.
  revert file. induction chunks as [|c chunks IH]; intros file; simpl.
  { by rewrite string_app_nil_r. }
  rewrite IH. rewrite string_app_assoc. destruct chunks; simpl; by rewrite ?string_app_nil_r.
Qed.

Definition body (a : Attempt) : string := String.concat "" (at_chunks a).

(** What an uncompressed download leaves: at most five attempts are made, up to the
    first success, and the file has the body of the last one made and nothing of the
    others. *)
Lemma DownloadFile_plain `{Zstd} fuel attempts file : exists k,
  (k < kRetries)%nat /\ (forall j, (j < k)%nat -> IsSuccess (at_status (attempts j)) = false) /\
  (IsSuccess (at_status (attempts k)) = false -> k = (kRetries - 1)%nat) /\
  DownloadFile fuel false attempts file = Some (body (attempts k), at_status (attempts k)).
Proof.
  set (ok k := IsSuccess (at_status (attempts k))).
  destruct (deciding_spec ok kRetries 0) as (H1 & H2 & H3); [unfold kRetries; lia|].
  exists (deciding ok kRetries 0). split_and!; [lia|intros j Hj; apply H2; lia|intros E; rewrite (H3 E); lia|].
  unfold DownloadFile, RequestRetryInit.
  apply (retry_loop_fresh "" (fun k => body (attempts k)) (fun k => at_status (attempts k))); [|unfold kRetries; lia].
  intros k. unfold http_request. by rewrite receive_plain_all.
Qed.

(** What [DealOneSubmission] sees of a download. *)
Definition download_result `{Zstd} (fuel : nat) (compressed : bool) (attempts : nat -> Attempt) : bool * string :=
  match DownloadFile fuel compressed attempts "" with
  | Some (file, res) => (IsSuccess res, file)
  | None => (false, "")
  end.

(** ** Retries of compressed downloads

    A codec of one letter: a frame starts with "Z" and ends with "."; what is
    between is copied. An error is a frame that does not start with "Z". *)
Definition letter_step (in_frame : bool) (input : string) : bool * string * nat * bool :=
  match input with
  | EmptyString => (false, "", 0%nat, in_frame)
  | String c _ =>
      if in_frame then
        if bool_decide (c = "."%char) then (false, "", 1%nat, false) else (false, String c "", 1%nat, true)
      else if bool_decide (c = "Z"%char) then (false, "", 1%nat, true) else (true, "", 0%nat, false)
  end.
#[local] Instance letter_codec : Zstd := {| dctx := bool; createDCtx := false; decompressStream := letter_step |}.

(** The context is not reset: after an attempt that broke off inside a frame, the
    next one continues that frame, and the file gets what is not its contents. *)
Example retry_keeps_context :
  let good := {| at_chunks := ["Zab."]; at_status := Some 200 |} in
  let broken := {| at_chunks := ["Za"]; at_status := None |} in
  DownloadFile 10 true (fun _ => good) "" = Some ("ab", Some 200) /\
  DownloadFile 10 true (fun k => match k with O => broken | _ => good end) "" = Some ("Zab", Some 200).
Proof. vm_compute. done. Qed.

(** A status that means success but is not taken as one. *)
Example IsSuccess_299 : IsSuccess (Some 298) = true /\ IsSuccess (Some 299) = false.
Proof. done. Qed.
