(* ===== verification/SyncSpec.v ===== *)
(** * The test data of a submission are the server's

    After [DealOneSubmission] has updated the test data, every position of the
    problem links to files with the contents the server announced. *)

From S2P Require Import Prelude Text Paths TestdataSync Download.

(** ** Operations on a list, each with a footprint of its own *)

Section Each.
Context {A : Type} (f : A -> td_files -> bool * td_files).
Context (foot : A -> td_location -> Prop) (value : A -> td_files -> td_location -> option td_node).
Context (Hframe : forall x fs fs', f x fs = (true, fs') -> forall l, ~ foot x l -> fs' !! l = fs !! l).
Context (Hvalue : forall x fs fs', f x fs = (true, fs') -> forall l, foot x l -> fs' !! l = value x fs l).
Context (Hlocal : forall x fs fs' l, (forall k, foot x k -> fs' !! k = fs !! k) -> value x fs' l = value x fs l).

Lemma each_spec xs fs fs' : NoDup xs ->
  (forall x y l, x ∈ xs -> y ∈ xs -> foot x l -> foot y l -> x = y) ->
  each f xs fs = (true, fs') ->
  (forall x l, x ∈ xs -> foot x l -> fs' !! l = value x fs l) /\
  (forall l, (forall x, x ∈ xs -> ~ foot x l) -> fs' !! l = fs !! l).
Proof.
  revert fs. induction xs as [|x xs IH]; intros fs Hnd Hdis E; simpl in E.
  { injection E as <-. split; [by intros x l ?%elem_of_nil|done]. }
  unfold and_then in E. destruct (f x fs) as [[|] fs1] eqn:Ex; [|done].
  apply NoDup_cons in Hnd as [Hx Hnd].
  destruct (IH fs1 Hnd ltac:(intros a b l Ha Hb; apply (Hdis a b l); by right) E) as [H1 H2].
  assert (Hother : forall y l, y ∈ xs -> foot y l -> ~ foot x l).
  { intros y l Hy Hfy Hfx. assert (x = y) by (eapply Hdis; [by left|by right|done|done]). by subst. }
  split.
  - intros y l [->|Hy]%elem_of_cons Hl.
    + rewrite H2 by (intros z Hz Hzl; by eapply Hother). by eapply Hvalue.
    + rewrite (H1 y l Hy Hl). apply Hlocal. intros k Hk. eapply Hframe; [done|]. by eapply Hother.
  - intros l Hl. rewrite H2 by (intros y Hy; apply Hl; by right).
    eapply Hframe; [done|]. apply Hl. by left.
Qed.

Lemma each_succeeds (pre : A -> td_files -> Prop) xs fs : NoDup xs -> (forall x, x ∈ xs -> pre x fs) ->
  (forall x fs, x ∈ xs -> pre x fs -> (f x fs).1 = true) ->
  (forall x y fs, x <> y -> pre y fs -> pre y (f x fs).2) -> (each f xs fs).1 = true.
Proof.
  intros Hnd Hpre Hok Hkeep. revert fs Hpre. induction Hnd as [|x xs Hx Hnd IH]; intros fs Hpre; [done|].
  simpl. unfold and_then. pose proof (Hok x fs ltac:(by left) (Hpre x ltac:(by left))) as E.
  pose proof (fun y (H : y ∈ xs) => Hkeep x y fs ltac:(intros ->; done) (Hpre y ltac:(by right))) as Hk.
  destruct (f x fs) as [b fs1]. simpl in E, Hk. subst b. apply IH; [|done]. intros; apply Hok; [by right|done].
Qed.
End Each.

(** Removing: everything else stays. *)
Lemma foldl_frame {A} (g : A -> td_files -> td_files) (foot : A -> td_location -> Prop) xs fs l :
  (forall x fs, x ∈ xs -> ~ foot x l -> g x fs !! l = fs !! l) -> (forall x, x ∈ xs -> ~ foot x l) ->
  foldl (fun fs x => g x fs) fs xs !! l = fs !! l.
Proof.
  revert fs. induction xs as [|x xs IH]; intros fs Hg Hl; [done|]. simpl.
  rewrite IH; [apply Hg; [by left|apply Hl; by left]| |].
  - intros y fs' Hy. apply Hg. by right.
  - intros y Hy. apply Hl. by right.
Qed.

Lemma each_frame {A} (f : A -> td_files -> bool * td_files) (foot : A -> td_location -> Prop) xs fs l :
  (forall x fs, ~ foot x l -> (f x fs).2 !! l = fs !! l) -> (forall x, x ∈ xs -> ~ foot x l) ->
  (each f xs fs).2 !! l = fs !! l.
Proof.
  intros Hf. revert fs. induction xs as [|x xs IH]; intros fs Hl; [done|]. simpl. unfold and_then.
  pose proof (Hf x fs (Hl x ltac:(by left))) as E. destruct (f x fs) as [[|] fs1]; simpl in E; [|done].
  rewrite IH; [done|]. intros y Hy. apply Hl. by right.
Qed.

Section Sync.
Context (o : Outside).

(** ** The operations *)

Definition temp_of (id : Z) (l : td_location) : Prop := exists b, l = PoolFile id b true.
Definition pool_of (id : Z) (l : td_location) : Prop := exists b t, l = PoolFile id b t.
Definition link_of (problem : Z) (p : Z * Z) (l : td_location) : Prop := exists b, l = Linked problem p.1 b.

Definition served_node (id : Z) (l : td_location) : option td_node :=
  match l with PoolFile _ b _ => Some (File (served o id b).2) | Linked _ _ _ => None end.

Lemma download_one_spec id fs fs' : download_one o id fs = (true, fs') ->
  (forall l, ~ temp_of id l -> fs' !! l = fs !! l) /\ (forall l, temp_of id l -> fs' !! l = served_node id l).
Proof.
  unfold download_one. destruct (dirs_fail o id); [done|]. unfold and_then, download_file.
  destruct (served o id true) as [[|] c1] eqn:E1; [|done]. destruct (served o id false) as [ok2 c2] eqn:E2.
  intros [= -> <-]. split.
  - intros l Hl. rewrite !lookup_insert_ne; [done| |]; intros <-; apply Hl; by eexists.
  - intros l [[|] ->]; simpl.
    + rewrite lookup_insert_ne by done. by rewrite lookup_insert_eq, E1.
    + by rewrite lookup_insert_eq, E2.
Qed.

Lemma downloads_spec ids fs fs' : NoDup ids -> each (download_one o) ids fs = (true, fs') ->
  (forall id l, id ∈ ids -> temp_of id l -> fs' !! l = served_node id l) /\
  (forall l, (forall id, id ∈ ids -> ~ temp_of id l) -> fs' !! l = fs !! l).
Proof.
  intros Hnd E. eapply (each_spec (download_one o) temp_of (fun id _ l => served_node id l)); try done.
  - intros x fs0 fs0' Ef. exact (proj1 (download_one_spec _ _ _ Ef)).
  - intros x fs0 fs0' Ef. exact (proj2 (download_one_spec _ _ _ Ef)).
  - intros x y l _ _ [b ->] [b' [= -> _]]. done.
Qed.

Lemma rename_spec from to fs fs' : from <> to -> rename o from to fs = (true, fs') ->
  fs' !! to = fs !! from /\ is_Some (fs !! from) /\ fs' !! from = None /\
  (forall l, l <> from -> l <> to -> fs' !! l = fs !! l).
Proof.
  intros Hne. unfold rename. destruct (fs !! from) as [n|] eqn:E; [|done].
  destruct (move_fails o to); [done|]. intros [= <-]. split_and!.
  - by rewrite lookup_insert_eq.
  - by eexists.
  - rewrite lookup_insert_ne by done. by apply lookup_delete_eq.
  - intros l H1 H2. rewrite lookup_insert_ne, lookup_delete_ne by done. done.
Qed.

Lemma downloads_served ids fs fs' id b : each (download_one o) ids fs = (true, fs') -> id ∈ ids ->
  (served o id b).1 = true.
Proof.
  revert fs. induction ids as [|i ids IH]; intros fs; simpl; [by intros _ ?%elem_of_nil|].
  unfold and_then at 1. destruct (download_one o i fs) as [[|] fs1] eqn:E; [|done].
  intros E' [->|Hid]%elem_of_cons; [|by eapply IH]. revert E.
  unfold download_one, and_then, download_file. destruct (dirs_fail o i); [done|].
  destruct (served o i true) as [[|] c1] eqn:E1; [|done]. destruct (served o i false) as [ok2 c2] eqn:E2.
  intros [= -> _]. destruct b; [by rewrite E1|by rewrite E2].
Qed.

(** The value of a pool file after its temporary file has been renamed. *)
Definition renamed (id : Z) (fs : td_files) (l : td_location) : option td_node :=
  match l with PoolFile _ b false => fs !! PoolFile id b true | _ => None end.

Lemma rename_one_spec id fs fs' : rename_one o id fs = (true, fs') ->
  (forall l, ~ pool_of id l -> fs' !! l = fs !! l) /\ (forall l, pool_of id l -> fs' !! l = renamed id fs l).
Proof.
  unfold rename_one, and_then. destruct (rename o (PoolFile id true true) _ fs) as [[|] fs1] eqn:E1; [|done].
  intros E2. apply rename_spec in E1 as (A1 & _ & A3 & A4); [|done].
  apply rename_spec in E2 as (B1 & _ & B3 & B4); [|done]. split.
  - intros l Hl. rewrite B4, A4; [done|..]; intros ->; apply Hl; by eexists _, _.
  - intros l (b & t & ->). destruct b, t; simpl.
    + by rewrite B4, A3.
    + by rewrite B4, A1.
    + done.
    + rewrite B1. by apply A4.
Qed.

Lemma renames_spec ids fs fs' : NoDup ids -> each (rename_one o) ids fs = (true, fs') ->
  (forall id l, id ∈ ids -> pool_of id l -> fs' !! l = renamed id fs l) /\
  (forall l, (forall id, id ∈ ids -> ~ pool_of id l) -> fs' !! l = fs !! l).
Proof.
  intros Hnd E. eapply (each_spec (rename_one o) pool_of renamed); try done.
  - intros x fs0 fs0' Ef. exact (proj1 (rename_one_spec _ _ _ Ef)).
  - intros x fs0 fs0' Ef. exact (proj2 (rename_one_spec _ _ _ Ef)).
  - intros x fs0 fs0' l Hk. destruct l as [i b [|]|]; [done| |done]. simpl. apply Hk. by eexists _, _.
  - intros x y l _ _ (b & t & ->) (b' & t' & [= -> _ _]). done.
Qed.

Definition link_node (p : Z * Z) (l : td_location) : option td_node :=
  match l with Linked _ _ b => Some (SymlinkTo (PoolFile p.2 b false)) | PoolFile _ _ _ => None end.

Lemma link_one_spec problem p fs fs' : link_one o problem p fs = (true, fs') ->
  (forall l, ~ link_of problem p l -> fs' !! l = fs !! l) /\
  (forall l, link_of problem p l -> fs' !! l = link_node p l).
Proof.
  destruct p as [ord id]. unfold link_one, and_then, create_symlink.
  rewrite lookup_delete_ne, lookup_delete_eq by done.
  destruct (move_fails o (Linked problem ord true)); [done|].
  rewrite lookup_insert_ne, lookup_delete_eq by done.
  destruct (move_fails o (Linked problem ord false)); [done|]. intros [= <-]. split.
  - intros l Hl. rewrite !lookup_insert_ne, !lookup_delete_ne; [done|..]; intros <-; apply Hl; by eexists.
  - intros l [[|] ->]; simpl.
    + rewrite lookup_insert_ne by done. by rewrite lookup_insert_eq.
    + by rewrite lookup_insert_eq.
Qed.

Lemma links_spec problem ps fs fs' : NoDup ps.*1 -> each (link_one o problem) ps fs = (true, fs') ->
  (forall p l, p ∈ ps -> link_of problem p l -> fs' !! l = link_node p l) /\
  (forall l, (forall p, p ∈ ps -> ~ link_of problem p l) -> fs' !! l = fs !! l).
Proof.
  intros Hnd E. eapply (each_spec (link_one o problem) (link_of problem) (fun p _ l => link_node p l)); try done.
  - intros x fs0 fs0' Ef. exact (proj1 (link_one_spec _ _ _ _ Ef)).
  - intros x fs0 fs0' Ef. exact (proj2 (link_one_spec _ _ _ _ Ef)).
  - by eapply NoDup_fmap_1.
  - intros x y l Hx Hy [b ->] [b' [= Eo _]].
    apply list_elem_of_lookup in Hx as [i Hi], Hy as [j Hj]. assert (i = j) as ->; [|congruence].
    eapply (NoDup_lookup _ i j x.1 Hnd); rewrite list_lookup_fmap; [by rewrite Hi|by rewrite Hj, Eo].
Qed.

(** Whether or not they succeed, they touch nothing else. *)
Lemma download_one_frame id fs l : ~ temp_of id l -> (download_one o id fs).2 !! l = fs !! l.
Proof.
  intros Hl. unfold download_one, and_then, download_file. destruct (dirs_fail o id); [done|].
  destruct (served o id true) as [[|] c1], (served o id false) as [ok2 c2]; simpl;
    rewrite ?lookup_insert_ne; try done; intros <-; apply Hl; by eexists.
Qed.

Lemma rename_frame from to fs l : l <> from -> l <> to -> (rename o from to fs).2 !! l = fs !! l.
Proof.
  intros H1 H2. unfold rename. destruct (fs !! from); [|done]. destruct (move_fails o to); [done|]. simpl.
  by rewrite lookup_insert_ne, lookup_delete_ne.
Qed.

Lemma and_then_frame f g fs l :
  (f fs).2 !! l = fs !! l -> (forall fs, (g fs).2 !! l = fs !! l) -> (and_then f g fs).2 !! l = fs !! l.
Proof. unfold and_then. destruct (f fs) as [[|] fs1]; simpl; [|done]. intros E H. by rewrite H. Qed.

Lemma rename_one_frame id fs l : ~ pool_of id l -> (rename_one o id fs).2 !! l = fs !! l.
Proof.
  intros Hl. apply and_then_frame; [|intros fs1]; apply rename_frame; intros ->; apply Hl; by eexists _, _.
Qed.

Lemma create_symlink_frame target link fs l : l <> link -> (create_symlink o target link fs).2 !! l = fs !! l.
Proof.
  intros Hl. unfold create_symlink. destruct (fs !! link); [done|]. destruct (move_fails o link); [done|].
  by apply lookup_insert_ne.
Qed.

Lemma link_one_frame problem p fs l : ~ link_of problem p l -> (link_one o problem p fs).2 !! l = fs !! l.
Proof.
  intros Hl. destruct p as [ord id]. unfold link_one.
  assert (H1 : l <> Linked problem ord true) by (intros ->; apply Hl; by eexists).
  assert (H2 : l <> Linked problem ord false) by (intros ->; apply Hl; by eexists).
  trans (delete (Linked problem ord false) (delete (Linked problem ord true) fs) !! l);
    [|by rewrite !lookup_delete_ne].
  apply and_then_frame; [|intros fs1]; by apply create_symlink_frame.
Qed.

Lemma remove_pools_frame ids fs l : (forall id, id ∈ ids -> ~ pool_of id l) ->
  foldl (fun fs id => remove_pool id fs) fs ids !! l = fs !! l.
Proof.
  intros H. apply (foldl_frame _ pool_of); [|done]. intros id fs0 _ Hl. unfold remove_pool.
  rewrite !lookup_delete_ne; [done|..]; intros <-; apply Hl; by eexists _, _.
Qed.

Lemma remove_links_frame problem js fs l : (forall i b, i ∈ js -> l <> Linked problem i b) ->
  foldl (fun fs i => remove_links problem i fs) fs js !! l = fs !! l.
Proof.
  intros H. apply (foldl_frame _ (fun i l => exists b, l = Linked problem i b)).
  - intros i fs0 _ Hl. unfold remove_links. rewrite !lookup_delete_ne; [done|..]; intros <-; apply Hl; by eexists.
  - intros i Hi [b Hb]. by eapply H.
Qed.

Lemma remove_links_gone problem js fs i b : i ∈ js ->
  foldl (fun fs i => remove_links problem i fs) fs js !! Linked problem i b = None.
Proof.
  revert fs. induction js as [|j js IH]; intros fs Hi; [by apply elem_of_nil in Hi|]. simpl.
  destruct (decide (i ∈ js)) as [H|H]; [by apply IH|].
  apply elem_of_cons in Hi as [->|Hi]; [|done]. rewrite remove_links_frame by (intros k c Hk [= ->]; done).
  unfold remove_links. destruct b; [rewrite lookup_delete_ne by done|]; apply lookup_delete_eq.
Qed.
End Sync.

(** ** The database *)

Lemma inserts_lookup (td : list Testdata) db k :
  (forall t, t ∈ td -> testdata_id t <> k) -> UpdateTd td db !! k = db !! k.
Proof.
  revert db. induction td as [|t td IH]; intros db H; [done|]. unfold UpdateTd in *. simpl.
  rewrite IH by (intros; apply H; by right). apply lookup_insert_ne. apply H. by left.
Qed.

Lemma inserts_lookup_in (td : list Testdata) db t : t ∈ td ->
  (forall t', t' ∈ td -> testdata_id t' = testdata_id t -> t' = t) -> UpdateTd td db !! testdata_id t = Some t.
Proof.
  revert db. induction td as [|u td IH]; intros db Ht Hu; [by apply elem_of_nil in Ht|].
  destruct (decide (t ∈ td)) as [H|H].
  - apply (IH (<[testdata_id u := u]> db)); [done|]. intros; apply Hu; [by right|done].
  - apply elem_of_cons in Ht as [->|Ht]; [|done].
    change (UpdateTd td (<[testdata_id u := u]> db) !! testdata_id u = Some u). rewrite inserts_lookup.
    + by rewrite lookup_insert_eq.
    + intros t' Ht' E. apply H. by rewrite <- (Hu t' ltac:(by right) E).
Qed.

Section NewMeta.
Context (tds : list Testdata) (Hnd : NoDup (testdata_id <$> tds)).

Lemma new_meta_spec id t : new_meta tds !! id = Some t <-> t ∈ tds /\ testdata_id t = id.
Proof.
  unfold new_meta.
  enough (G : forall (m : database), (forall u, u ∈ tds -> m !! testdata_id u = None) ->
    foldl (fun m t => match m !! testdata_id t with None => <[testdata_id t := t]> m | Some _ => m end) m tds !! id
      = Some t <-> (t ∈ tds /\ testdata_id t = id) \/ m !! id = Some t).
  { rewrite G by (intros; apply lookup_empty). rewrite lookup_empty. naive_solver. }
  induction tds as [|u us IH]; intros m Hm; simpl.
  - rewrite elem_of_nil. naive_solver.
  - rewrite Hm by (by left). apply NoDup_cons in Hnd as [Hu Hnd']. rewrite (IH Hnd').
    + rewrite lookup_insert_Some, elem_of_cons. split; [naive_solver|].
      intros [[[->|?] ?]|E]; [naive_solver..|]. right. right. split; [|done].
      intros <-. rewrite Hm in E; [done|by left].
    + intros v Hv. rewrite lookup_insert_ne; [apply Hm; by right|].
      intros E. apply Hu. rewrite E. by apply list_elem_of_fmap_2.
Qed.

Lemma UpdateTd_new_meta db t : t ∈ tds ->
  UpdateTd (snd <$> map_to_list (new_meta tds)) db !! testdata_id t = Some t.
Proof.
  intros Ht.
  assert (Hin : forall u, u ∈ snd <$> map_to_list (new_meta tds) <-> u ∈ tds).
  { intros u. rewrite list_elem_of_fmap. split.
    - intros ([k v] & -> & Hkv%elem_of_map_to_list). by apply new_meta_spec in Hkv as [? _].
    - intros Hu. exists (testdata_id u, u). split; [done|]. apply elem_of_map_to_list. by apply new_meta_spec. }
  apply inserts_lookup_in; [by apply Hin|]. intros t' Ht' E. apply Hin in Ht'.
  apply list_elem_of_lookup in Ht as [i Hi], Ht' as [j Hj]. assert (j = i) as ->; [|congruence].
  eapply (NoDup_lookup _ j i (testdata_id t) Hnd); rewrite list_lookup_fmap; [by rewrite Hj, <- E|by rewrite Hi].
Qed.

Lemma UpdateTd_other db id : (forall t, t ∈ tds -> testdata_id t <> id) ->
  UpdateTd (snd <$> map_to_list (new_meta tds)) db !! id = db !! id.
Proof.
  intros H. apply inserts_lookup. intros t Ht. apply H.
  apply list_elem_of_fmap in Ht as ([k v] & -> & Hkv%elem_of_map_to_list).
  by apply new_meta_spec in Hkv as [? _].
Qed.
End NewMeta.

(** ** One request *)

Lemma ProblemTd_lookup problem db id r :
  ProblemTd problem db !! id = Some r <-> db !! id = Some r /\ td_problem_id r = problem.
Proof. unfold ProblemTd. rewrite map_lookup_filter_Some. done. Qed.

Lemma to_download_elem orig tds id :
  id ∈ to_download orig tds <-> exists t, t ∈ tds /\ testdata_id t = id /\ needs_download orig t = true.
Proof.
  unfold to_download. change (map testdata_id) with (fmap (M := list) testdata_id).
  rewrite list_elem_of_fmap. setoid_rewrite list_elem_of_filter. naive_solver.
Qed.

Lemma to_update_position_elem orig tds p : p ∈ to_update_position orig tds <->
  exists t, t ∈ tds /\ p = (td_order t, testdata_id t) /\ needs_link orig t = true.
Proof.
  unfold to_update_position. change (map (fun t => (td_order t, testdata_id t)))
    with (fmap (M := list) (fun t => (td_order t, testdata_id t))).
  rewrite list_elem_of_fmap. setoid_rewrite list_elem_of_filter. naive_solver.
Qed.

Lemma to_delete_elem orig tds id :
  id ∈ to_delete orig tds <-> is_Some (orig !! id) /\ new_meta tds !! id = None.
Proof.
  unfold to_delete. rewrite list_elem_of_filter, list_elem_of_fmap. split.
  - intros [H ([k v] & -> & E%elem_of_map_to_list)]. by split; [eexists|].
  - intros [[r E] H]. split; [done|]. exists (id, r). split; [done|]. by apply elem_of_map_to_list.
Qed.

Lemma old_positions_elem n m i : i ∈ old_positions n m <-> n <= i < m.
Proof.
  unfold old_positions. rewrite !(list_elem_of_In _ _), in_map_iff. setoid_rewrite in_map_iff.
  setoid_rewrite in_seq. split.
  - intros (z & <- & k & <- & Hk). lia.
  - intros Hi. exists (i - n). split; [lia|]. exists (Z.to_nat (i - n)). lia.
Qed.

(** The locations a request works on. *)
Definition touched (problem : Z) (orig : database) (tds : list Testdata) (l : td_location) : Prop :=
  (exists id, (id ∈ to_download orig tds \/ id ∈ to_delete orig tds) /\ pool_of id l) \/
  (exists p, p ∈ to_update_position orig tds /\ link_of problem p l) \/
  (exists i b, Z.of_nat (length tds) <= i < orig_count orig /\ l = Linked problem i b).

Lemma sync_files_frame o problem orig tds fs l : ~ touched problem orig tds l ->
  (sync_files o problem orig tds fs).2 !! l = fs !! l.
Proof.
  intros Hl. unfold sync_files.
  assert (Hd : forall id, id ∈ to_download orig tds -> ~ pool_of id l)
    by (intros id Hid Hp; apply Hl; left; exists id; auto).
  apply and_then_frame; [|intros fs1; apply and_then_frame; [|intros fs2]].
  - apply (each_frame _ temp_of); [intros x fs0; apply download_one_frame|].
    intros id Hid [b ->]. eapply Hd; [done|]. by eexists _, _.
  - apply (each_frame _ pool_of); [intros x fs0; apply rename_one_frame|done].
  - assert (E : foldl (fun fs id => remove_pool id fs) fs2 (to_delete orig tds) !! l = fs2 !! l).
    { apply remove_pools_frame. intros id Hid Hp. apply Hl. left. exists id. auto. }
    rewrite <- E. apply and_then_frame; [|intros fs3].
    + apply (each_frame _ (link_of problem)); [intros x fs0; apply link_one_frame|].
      intros p Hp Hpl. apply Hl. right. left. by exists p.
    + apply remove_links_frame. intros i b Hi%old_positions_elem ->. apply Hl. right. right. by exists i, b.
Qed.

Lemma sync_files_success o problem orig tds fs fs' : sync_files o problem orig tds fs = (true, fs') ->
  exists fs1 fs2 fs3,
    each (download_one o) (to_download orig tds) fs = (true, fs1) /\
    each (rename_one o) (to_download orig tds) fs1 = (true, fs2) /\
    each (link_one o problem) (to_update_position orig tds)
      (foldl (fun fs id => remove_pool id fs) fs2 (to_delete orig tds)) = (true, fs3) /\
    fs' = foldl (fun fs i => remove_links problem i fs) fs3
            (old_positions (Z.of_nat (length tds)) (orig_count orig)).
Proof.
  unfold sync_files. unfold and_then at 1.
  destruct (each (download_one o) _ fs) as [[|] fs1] eqn:E1; [|done]. unfold and_then at 1.
  destruct (each (rename_one o) _ fs1) as [[|] fs2] eqn:E2; [|done]. unfold and_then at 1.
  destruct (each (link_one o problem) _ _) as [[|] fs3] eqn:E; [|done]. intros [= <-]. by exists fs1, fs2, fs3.
Qed.

(** No request or file operation of this attempt fails. *)
Definition undisturbed (tds : list Testdata) (o : Outside) : Prop :=
  (forall t b, t ∈ tds -> (served o (testdata_id t) b).1 = true) /\
  (forall id, dirs_fail o id = false) /\ (forall l, move_fails o l = false).

Lemma rename_succeeds o from to fs : move_fails o to = false -> is_Some (fs !! from) ->
  (rename o from to fs).1 = true.
Proof. intros E [n En]. unfold rename. by rewrite En, E. Qed.

Lemma rename_one_succeeds o id fs : (forall l, move_fails o l = false) ->
  (forall b, is_Some (fs !! PoolFile id b true)) -> (rename_one o id fs).1 = true.
Proof.
  intros Hm Hp. unfold rename_one, and_then.
  pose proof (rename_succeeds o (PoolFile id true true) (PoolFile id true false) fs (Hm _) (Hp true)) as E.
  destruct (rename o (PoolFile id true true) _ fs) as [b fs1] eqn:E1. simpl in E. subst b.
  apply rename_succeeds; [done|]. apply rename_spec in E1 as (_ & _ & _ & Hf); [|done]. rewrite Hf by done. apply Hp.
Qed.

Lemma link_one_succeeds o problem p fs : (forall l, move_fails o l = false) -> (link_one o problem p fs).1 = true.
Proof.
  intros Hm. destruct p as [ord id]. unfold link_one, and_then, create_symlink.
  rewrite lookup_delete_ne, lookup_delete_eq, Hm by done. by rewrite lookup_insert_ne, lookup_delete_eq, Hm by done.
Qed.

Section Correct.
Context (content : Z -> Z -> bool -> string).

(** What the server delivers is what it announced. *)
Definition honest (tds : list Testdata) (o : Outside) : Prop :=
  forall t b c, t ∈ tds -> served o (testdata_id t) b = (true, c) ->
    c = content (testdata_id t) (timestamp t) b.

Definition pool_right (fs : td_files) (t : Testdata) : Prop :=
  forall b, fs !! PoolFile (testdata_id t) b false = Some (File (content (testdata_id t) (timestamp t) b)).
Definition link_right (problem : Z) (fs : td_files) (t : Testdata) : Prop :=
  forall b, fs !! Linked problem (td_order t) b = Some (SymlinkTo (PoolFile (testdata_id t) b false)).

(** What the code takes to be present is present: the contents of an
    unchanged timestamp, the links of an unchanged position. *)
Definition ready (problem : Z) (tds : list Testdata) (st : database * td_files) : Prop :=
  forall t r, t ∈ tds -> st.1 !! testdata_id t = Some r -> td_problem_id r = problem ->
    (timestamp r = timestamp t -> pool_right st.2 t) /\
    (td_order r = td_order t -> link_right problem st.2 t).

(** The test data of one request, as the parser builds them. *)
Definition announced (problem : Z) (tds : list Testdata) : Prop :=
  NoDup (testdata_id <$> tds) /\
  forall i t, tds !! i = Some t -> td_order t = Z.of_nat i /\ td_problem_id t = problem.

Section Request.
Context (problem : Z) (tds : list Testdata) (Htds : announced problem tds).

Lemma announced_id t u : t ∈ tds -> u ∈ tds -> testdata_id t = testdata_id u -> t = u.
Proof.
  intros [i Hi]%list_elem_of_lookup [j Hj]%list_elem_of_lookup E. assert (i = j) as ->; [|congruence].
  eapply (NoDup_lookup _ i j (testdata_id t) (proj1 Htds)); rewrite list_lookup_fmap; [by rewrite Hi|by rewrite Hj, E].
Qed.

Lemma announced_order t u : t ∈ tds -> u ∈ tds -> td_order t = td_order u -> t = u.
Proof.
  intros [i Hi]%list_elem_of_lookup [j Hj]%list_elem_of_lookup E.
  destruct (proj2 Htds _ _ Hi) as [E1 _], (proj2 Htds _ _ Hj) as [E2 _].
  assert (i = j) as -> by lia. congruence.
Qed.

Lemma announced_bound t : t ∈ tds -> 0 <= td_order t < Z.of_nat (length tds) /\ td_problem_id t = problem.
Proof.
  intros [i Hi]%list_elem_of_lookup. destruct (proj2 Htds _ _ Hi) as [E ?].
  apply lookup_lt_Some in Hi. split; [lia|done].
Qed.

Lemma NoDup_map_filter {B} (f : Testdata -> B) (P : Testdata -> Prop) `{!forall t, Decision (P t)} l :
  NoDup (f <$> l) -> NoDup (f <$> filter P l).
Proof. intros Hl. eapply sublist_NoDup; [|apply fmap_sublist, sublist_filter]. done. Qed.

Lemma orders_NoDup : NoDup (td_order <$> tds).
Proof.
  apply NoDup_alt. intros i j x. rewrite !list_lookup_fmap.
  intros (t & Hi & ->)%fmap_Some (u & Hj & E)%fmap_Some.
  destruct (proj2 Htds _ _ Hi) as [E1 _], (proj2 Htds _ _ Hj) as [E2 _]. lia.
Qed.

Lemma to_download_NoDup orig : NoDup (to_download orig tds).
Proof. apply (NoDup_map_filter testdata_id (fun t => needs_download orig t = true)). apply Htds. Qed.

Lemma to_update_position_NoDup orig : NoDup (to_update_position orig tds).*1.
Proof.
  replace (to_update_position orig tds).*1
    with (td_order <$> filter (fun t => needs_link orig t = true) tds).
  - apply (NoDup_map_filter td_order (fun t => needs_link orig t = true)). apply orders_NoDup.
  - unfold to_update_position.
    induction (filter (fun t => needs_link orig t = true) tds) as [|t l IH]; [done|]. simpl. by f_equal.
Qed.

Lemma announced_kept orig t : t ∈ tds -> testdata_id t ∉ to_delete orig tds.
Proof.
  intros Ht [_ E]%to_delete_elem.
  rewrite (proj2 (new_meta_spec tds (proj1 Htds) _ t) (conj Ht eq_refl)) in E. done.
Qed.

Lemma pool_untouched orig t b : t ∈ tds -> needs_download orig t = false ->
  ~ touched problem orig tds (PoolFile (testdata_id t) b false).
Proof.
  intros Ht Hn [(id & Hid & b' & x & [= <- _ _])|[(p & _ & b' & [=])|(i & b' & _ & [=])]].
  destruct Hid as [(u & Hu & E & Hd)%to_download_elem|Hid]; [|by eapply announced_kept].
  rewrite (announced_id u t Hu Ht E) in Hd. congruence.
Qed.

Lemma link_untouched orig t b : t ∈ tds -> needs_link orig t = false ->
  ~ touched problem orig tds (Linked problem (td_order t) b).
Proof.
  intros Ht Hn [(id & _ & b' & x & [=])|[(p & Hp & b' & [= E _])|(i & b' & Hi & [= E _])]].
  - apply to_update_position_elem in Hp as (u & Hu & -> & Hl). simpl in E.
    rewrite (announced_order u t Hu Ht (eq_sym E)) in Hl. congruence.
  - pose proof (announced_bound t Ht). lia.
Qed.

Lemma row_unchanged db t r : db !! testdata_id t = Some r -> td_problem_id r = problem ->
  needs_download (ProblemTd problem db) t = negb (timestamp r =? timestamp t) /\
  needs_link (ProblemTd problem db) t = negb (td_order r =? td_order t).
Proof.
  intros E Hr. assert (Eo : ProblemTd problem db !! testdata_id t = Some r) by by apply ProblemTd_lookup.
  unfold needs_download, needs_link. by rewrite Eo.
Qed.

(** What is right stays right, whether or not the request succeeds. *)
Lemma ready_files o db fs : ready problem tds (db, fs) ->
  ready problem tds (db, (sync_files o problem (ProblemTd problem db) tds fs).2).
Proof.
  intros H t r Ht E Hr. simpl in E. destruct (H t r Ht E Hr) as [Hp Hl]. simpl in Hp, Hl.
  destruct (row_unchanged db t r E Hr) as [En El]. split; intros Eq b; simpl; rewrite sync_files_frame.
  - by apply Hp.
  - apply pool_untouched; [done|]. rewrite En, Eq, Z.eqb_refl. done.
  - by apply Hl.
  - apply link_untouched; [done|]. rewrite El, Eq, Z.eqb_refl. done.
Qed.

Lemma ready_unless db t : t ∈ tds -> forall fs, ready problem tds (db, fs) ->
  (needs_download (ProblemTd problem db) t = false -> pool_right fs t) /\
  (needs_link (ProblemTd problem db) t = false -> link_right problem fs t).
Proof.
  intros Ht fs H. unfold needs_download, needs_link.
  destruct (ProblemTd problem db !! testdata_id t) as [r|] eqn:E; [|done].
  apply ProblemTd_lookup in E as [E Hr]. destruct (H t r Ht E Hr) as [Hp Hl].
  split; intros Hn%negb_false_iff%Z.eqb_eq; auto.
Qed.

(** A request that succeeds leaves the files as announced. *)
Lemma sync_files_right o db fs fs' : honest tds o -> ready problem tds (db, fs) ->
  sync_files o problem (ProblemTd problem db) tds fs = (true, fs') ->
  (forall t, t ∈ tds -> pool_right fs' t /\ link_right problem fs' t) /\
  (forall i b, Z.of_nat (length tds) <= i < orig_count (ProblemTd problem db) -> fs' !! Linked problem i b = None).
Proof.
  intros Ho H E. set (orig := ProblemTd problem db) in *.
  pose proof (fun l => sync_files_frame o problem orig tds fs l) as Hframe. rewrite E in Hframe. simpl in Hframe.
  apply sync_files_success in E as (fs1 & fs2 & fs3 & E1 & E2 & E3 & ->).
  destruct (downloads_spec o _ _ _ (to_download_NoDup orig) E1) as [D _].
  destruct (renames_spec o _ _ _ (to_download_NoDup orig) E2) as [R _].
  destruct (links_spec o _ _ _ _ (to_update_position_NoDup orig) E3) as [L Lf].
  split; [|intros i b Hi; by apply remove_links_gone, old_positions_elem].
  intros t Ht. destruct (ready_unless db t Ht fs H) as [Hp Hl]. split; intros b.
  - destruct (needs_download orig t) eqn:En; [|rewrite Hframe; [by apply Hp|by apply pool_untouched]].
    assert (Hin : testdata_id t ∈ to_download orig tds) by (apply to_download_elem; by exists t).
    rewrite remove_links_frame by done. rewrite Lf by (by intros p _ [b' [=]]).
    rewrite remove_pools_frame.
    2: { intros id Hid (b' & x & [= <- _ _]). by eapply announced_kept. }
    rewrite (R _ _ Hin) by (by eexists _, _). simpl. rewrite (D _ _ Hin) by (by eexists). simpl.
    pose proof (downloads_served o _ _ _ _ b E1 Hin) as Ec.
    destruct (served o (testdata_id t) b) as [ok c] eqn:Es. simpl in Ec. subst ok. simpl. by rewrite (Ho t b c Ht Es).
  - destruct (needs_link orig t) eqn:En; [|rewrite Hframe; [by apply Hl|by apply link_untouched]].
    rewrite remove_links_frame.
    2: { intros i b' Hi%old_positions_elem [= E _]. pose proof (announced_bound t Ht). lia. }
    rewrite (L (td_order t, testdata_id t)); [done|apply to_update_position_elem; by exists t|by eexists].
Qed.

Lemma ready_sync o st : honest tds o -> ready problem tds st -> ready problem tds (sync o problem tds st).2.
Proof.
  intros Ho H. destruct st as [db fs]. unfold sync.
  pose proof (ready_files o db fs H) as Hr.
  destruct (sync_files o problem (ProblemTd problem db) tds fs) as [[|] fs'] eqn:E; [|done].
  destruct (sync_files_right o db fs fs' Ho H E) as [Hok _]. intros t r Ht _ _. simpl. by split; intros _; apply Hok.
Qed.

Lemma ready_attempts os st : Forall (honest tds) os -> ready problem tds st ->
  ready problem tds (foldl (fun st o => (sync o problem tds st).2) st os).
Proof.
  intros Hos. revert st. induction Hos as [|o os Ho Hos IH]; intros st H; [done|]. simpl.
  apply IH. by apply ready_sync.
Qed.

Lemma sync_succeeds o st : undisturbed tds o -> (sync o problem tds st).1 = true.
Proof.
  intros (Hs & Hd & Hm). destruct st as [db fs]. unfold sync, sync_files.
  set (orig := ProblemTd problem db).
  assert (E1 : (each (download_one o) (to_download orig tds) fs).1 = true).
  { apply (each_succeeds _ (fun _ _ => True)); [apply to_download_NoDup|done| |done].
    intros id fs0 (t & Ht & <- & _)%to_download_elem _. unfold download_one, and_then, download_file.
    rewrite Hd. pose proof (Hs t true Ht) as E1. pose proof (Hs t false Ht) as E2.
    destruct (served o (testdata_id t) true) as [ok1 c1], (served o (testdata_id t) false) as [ok2 c2].
    simpl in E1, E2. by subst. }
  unfold and_then. destruct (each (download_one o) _ fs) as [b fs1] eqn:ED. simpl in E1. subst b.
  destruct (downloads_spec o _ _ _ (to_download_NoDup orig) ED) as [D _].
  assert (E2 : (each (rename_one o) (to_download orig tds) fs1).1 = true).
  { apply (each_succeeds _ (fun id fs => forall b, is_Some (fs !! PoolFile id b true))); [apply to_download_NoDup| | |].
    - intros id Hid b. rewrite (D id _ Hid ltac:(by eexists)). simpl.
      by eexists.
    - intros id fs0 _ Hp. by apply rename_one_succeeds.
    - intros x y fs0 Hne Hp b. rewrite rename_one_frame; [done|]. intros (b' & t & [= E _ _]). done. }
  destruct (each (rename_one o) _ fs1) as [b fs2]. simpl in E2. subst b.
  match goal with |- context [each (link_one o problem) ?l ?fs] => assert (E3 : (each (link_one o problem) l fs).1 = true) end.
  { apply (each_succeeds _ (fun _ _ => True)); [|done| |done].
    - apply (NoDup_fmap_1 fst), to_update_position_NoDup.
    - intros p fs0 _ _. by apply link_one_succeeds. }
  match goal with |- context [each (link_one o problem) ?l ?fs] => destruct (each (link_one o problem) l fs) as [b fs3] end.
  simpl in E3. by subst b.
Qed.

Lemma other_untouched db t l : (forall u, u ∈ tds -> testdata_id u <> testdata_id t) ->
  (forall r, db !! testdata_id t = Some r -> td_problem_id r <> problem) ->
  pool_of (testdata_id t) l -> ~ touched problem (ProblemTd problem db) tds l.
Proof.
  intros Hno Hr (b & x & ->) [(id & Hid & b' & y & [= <- _ _])|[(p & _ & b' & [=])|(i & b' & _ & [=])]].
  destruct Hid as [(u & Hu & E & _)%to_download_elem|[[r E] _]%to_delete_elem]; [by eapply Hno|].
  apply ProblemTd_lookup in E as [E Ep]. by eapply Hr.
Qed.
End Request.
End Correct.

(** ** The theorem *)

(** C18: The synchronisation of test data. Start from a state in which what the
    database records as present is present, let any number of requests with
    the same announced test data be made, each of which may fail at any
    download, rename or link or succeed, and then one more. Without a
    failure it succeeds; and when it succeeds, every test data is recorded
    with its new position and timestamp, its pool files have the announced
    contents, its position links to them, positions beyond the last are gone,
    every later request that announces no removed test data again finds a
    state it can start from, and the test data of other problems are as
    they were. *)
Theorem sync_right content problem tds os o st0 :
  announced problem tds -> Forall (honest content tds) (os ++ [o]) -> ready content problem tds st0 ->
  let st := foldl (fun st o => (sync o problem tds st).2) st0 os in
  (undisturbed tds o -> (sync o problem tds st).1 = true) /\
  forall st', sync o problem tds st = (true, st') ->
    (forall t, t ∈ tds -> st'.1 !! testdata_id t = Some t /\ pool_right content st'.2 t /\ link_right problem st'.2 t) /\
    (forall i b, Z.of_nat (length tds) <= i < orig_count (ProblemTd problem st.1) ->
      st'.2 !! Linked problem i b = None) /\
    (forall tds2, (forall t, t ∈ tds2 -> is_Some (st'.1 !! testdata_id t) -> testdata_id t ∈ testdata_id <$> tds) ->
      ready content problem tds2 st') /\
    (forall problem2 tds2, problem2 <> problem ->
      (forall t, t ∈ tds2 -> testdata_id t ∉ testdata_id <$> tds) ->
      ready content problem2 tds2 st -> ready content problem2 tds2 st').
Proof.
  intros Htds [Hos Ho]%Forall_app H0. apply Forall_cons in Ho as [Ho _].
  pose proof (ready_attempts content problem tds Htds os st0 Hos H0) as H.
  cbv zeta. generalize dependent (foldl (fun st o => (sync o problem tds st).2) st0 os). intros st H.
  split; [by apply sync_succeeds|]. intros st'.
  destruct st as [db fs]. unfold sync.
  destruct (sync_files o problem (ProblemTd problem db) tds fs) as [[|] fs'] eqn:E; [|done]. intros [= <-]. simpl.
  destruct (sync_files_right content problem tds Htds o db fs fs' Ho H E) as [Hok Hgone].
  split_and!; [|done| |].
  - intros t Ht. split; [apply UpdateTd_new_meta; [apply Htds|done]|by apply Hok].
  - intros tds2 Hin t r Ht Er _. simpl in *.
    pose proof (Hin t Ht ltac:(by eexists)) as (u & Eu & Hu)%list_elem_of_fmap.
    rewrite Eu, (UpdateTd_new_meta tds (proj1 Htds) db u Hu) in Er. injection Er as <-.
    destruct (Hok u Hu) as [Hp Hl]. split; intros Eq b.
    + rewrite Eu, <- Eq. apply Hp.
    + rewrite Eu, <- Eq. apply Hl.
  - intros problem2 tds2 Hne Hno H2 t r Ht Er Hr. simpl in *.
    assert (Hno' : forall u, u ∈ tds -> testdata_id u <> testdata_id t).
    { intros u Hu Eq. apply (Hno t Ht). rewrite <- Eq. by apply list_elem_of_fmap_2. }
    rewrite (UpdateTd_other tds (proj1 Htds) db _ Hno') in Er.
    destruct (H2 t r Ht Er Hr) as [Hp Hl]. simpl in *.
    pose proof (fun l => sync_files_frame o problem (ProblemTd problem db) tds fs l) as Hf. rewrite E in Hf. simpl in Hf.
    split; intros Eq b; rewrite Hf.
    + by apply Hp.
    + eapply other_untouched; [done| |by eexists _, _]. intros r' Er'. congruence.
    + by apply Hl.
    + intros [(id & _ & b' & x & [=])|[(p & _ & b' & [= E' _ _])|(i & b' & _ & [= E' _ _])]]; congruence.
Qed.

(** With the retries of [DownloadFile], a server is honest when every response
    with status 2xx carries the announced contents; broken attempts do not
    matter. *)
Lemma downloads_honest `{Zstd} content tds fuel (net : Z -> bool -> nat -> Attempt) dirs moves :
  (forall t b k, t ∈ tds -> IsSuccess (at_status (net (testdata_id t) b k)) = true ->
     body (net (testdata_id t) b k) = content (testdata_id t) (timestamp t) b) ->
  honest content tds {| served := fun id b => download_result fuel false (net id b);
                        dirs_fail := dirs; move_fails := moves |}.
Proof.
  intros Hnet t b c Ht. simpl. unfold download_result.
  destruct (DownloadFile_plain fuel (net (testdata_id t) b) "") as (k & _ & _ & _ & ->).
  intros [= Hok <-]. by apply Hnet.
Qed.

(** A problem with three test data; one is deleted, one gets new contents and
    the positions are exchanged. The first attempt fails while linking. *)
Definition demo_content (id ts : Z) (is_input : bool) : string :=
  (pretty id +:+ "@" +:+ pretty ts +:+ if is_input then "in" else "out")%string.
Definition demo_row (id order ts : Z) : Testdata :=
  {| testdata_id := id; td_problem_id := 7; td_order := order; timestamp := ts;
     input_compressed := false; output_compressed := false |}.
Definition demo_tds : list Testdata := [demo_row 2 0 11; demo_row 1 1 10].
Definition demo_outside (fails : bool) : Outside :=
  {| served := fun id b => (true, demo_content id (if id =? 1 then 10 else 11) b);
     dirs_fail := fun _ => false;
     move_fails := fun l => match l with Linked _ 1 _ => fails | _ => false end |}.
Definition demo_rows : list Testdata := [demo_row 1 0 10; demo_row 2 1 10; demo_row 3 2 10].
Definition demo_files : td_files :=
  list_to_map (concat (map (fun r =>
    [ (PoolFile (testdata_id r) true false, File (demo_content (testdata_id r) (timestamp r) true));
      (PoolFile (testdata_id r) false false, File (demo_content (testdata_id r) (timestamp r) false));
      (Linked 7 (td_order r) true, SymlinkTo (PoolFile (testdata_id r) true false));
      (Linked 7 (td_order r) false, SymlinkTo (PoolFile (testdata_id r) false false)) ]) demo_rows)).
Definition demo_state : database * td_files := (UpdateTd demo_rows ∅, demo_files).

Lemma demo_announced : announced 7 demo_tds.
Proof.
  split; [by apply (bool_decide_unpack _); vm_compute|].
  intros [|[|[|i]]] t E; simpl in E; by simplify_eq.
Qed.

Lemma demo_honest fails : honest demo_content demo_tds (demo_outside fails).
Proof.
  intros t b c Ht E. unfold demo_tds in Ht.
  rewrite !elem_of_cons, elem_of_nil in Ht. destruct Ht as [->|[->|[]]]; simpl in E; by injection E as <-.
Qed.

Lemma demo_ready : ready demo_content 7 demo_tds demo_state.
Proof.
  intros t r Ht E _. unfold demo_tds in Ht.
  rewrite !elem_of_cons, elem_of_nil in Ht. destruct Ht as [->|[->|[]]].
  - assert (r = demo_row 2 1 10) as -> by (vm_compute in E; by injection E). by split.
  - assert (r = demo_row 1 0 10) as -> by (vm_compute in E; by injection E).
    split; [|done]. intros _ [|]; vm_compute; reflexivity.
Qed.

Lemma sync_right_witness :
  let st := (sync (demo_outside true) 7 demo_tds demo_state).2 in
  (sync (demo_outside true) 7 demo_tds demo_state).1 = false /\
  (sync (demo_outside false) 7 demo_tds st).1 = true /\
  (sync (demo_outside false) 7 demo_tds st).2.2 !! Linked 7 1 true = Some (SymlinkTo (PoolFile 1 true false)).
Proof.
  cbv zeta.
  assert (Hu : undisturbed demo_tds (demo_outside false)).
  { split_and!; [done|done|]. by intros [|p [|[]|] b]. }
  set (st := (sync (demo_outside true) 7 demo_tds demo_state).2).
  pose proof (sync_right demo_content 7 demo_tds [demo_outside true] (demo_outside false) demo_state demo_announced
    ltac:(repeat constructor; apply demo_honest) demo_ready) as [H1 H2].
  change (undisturbed demo_tds (demo_outside false) -> (sync (demo_outside false) 7 demo_tds st).1 = true) in H1.
  split; [by vm_compute|]. split; [by apply H1|]. specialize (H1 Hu).
  destruct (sync (demo_outside false) 7 demo_tds st) as [b st'] eqn:E. simpl in H1. subst b.
  specialize (H2 st' E).
  destruct H2 as (Hok & _). apply (Hok (demo_row 1 1 10)). right. left.
Defined.

(** Rows of removed test data stay in the table: when one is announced again
    with the old timestamp, it is not downloaded although its file is gone. *)
Example removed_then_announced_again :
  let without := [demo_row 2 0 10] in
  let again := [demo_row 2 0 10; demo_row 1 1 10] in
  let o := {| served := fun id b => (true, demo_content id 10 b); dirs_fail := fun _ => false;
              move_fails := fun _ => false |} in
  let '(ok1, st1) := sync o 7 without demo_state in
  let '(ok2, st2) := sync o 7 again st1 in
  ok1 = true /\ ok2 = true /\ st2.2 !! Linked 7 1 true = Some (SymlinkTo (PoolFile 1 true false)) /\
  st2.2 !! PoolFile 1 true false = None.
Proof. vm_compute. done. Qed.
