(* ===== verification/Locks.v ===== *)
(** * The locks of the test data

    [TdFileLock] of src/paths.cpp, and the three places that take its locks: the setups
    of an execution and of a scoring (src/tioj/submission.cpp), which copy the
    files of a test data, and [DealOneSubmission] (src/server_io.cpp), which replaces
    them.  Threads are sequences of file operations, interleaved one operation at
    a time. *)

From S2P Require Import Prelude Text Paths TestdataSync SyncSpec.

(** ** Threads *)

(** What is left of a thread: taking and releasing a lock, or an operation on the
    files, which may give what it has read and decides how the thread goes on. *)
Inductive prog :=
| PEnd
| PLock (p : Z) (next : prog)
| PUnlock (p : Z) (next : prog)
| PStep (f : td_files -> td_files) (o : td_files -> list (option string)) (next : td_files -> prog).

Record thread := { th_prog : prog; th_read : list (option string) }.

(** The mutexes by problem: the holder, if there is one. *)
Abbreviation mutex_map := (gmap Z (option Z)).

Record System := { sy_files : td_files; sy_mutexes : mutex_map; sy_threads : gmap Z thread }.

(** [TdFileLock::operator[]] creates a mutex where there is none. *)
Definition td_file_lock (id : Z) (ms : mutex_map) : mutex_map :=
  match ms !! id with Some _ => ms | None => <[id := None]> ms end.

(** The next operation of the thread [t]; [None] when it waits or has ended. *)
Definition run_thread (t : Z) (st : System) : option System :=
  th ← sy_threads st !! t;
  match th_prog th with
  | PEnd => None
  | PLock p next =>
      let ms := td_file_lock p (sy_mutexes st) in
      match ms !! p with
      | Some None => Some {| sy_files := sy_files st; sy_mutexes := <[p := Some t]> ms;
                             sy_threads := <[t := {| th_prog := next; th_read := th_read th |}]> (sy_threads st) |}
      | _ => None
      end
  | PUnlock p next => Some {| sy_files := sy_files st; sy_mutexes := <[p := None]> (sy_mutexes st);
                              sy_threads := <[t := {| th_prog := next; th_read := th_read th |}]> (sy_threads st) |}
  | PStep f o next =>
      let fs := sy_files st in
      Some {| sy_files := f fs; sy_mutexes := sy_mutexes st;
              sy_threads := <[t := {| th_prog := next fs; th_read := th_read th ++ o fs |}]> (sy_threads st) |}
  end.

Definition sys_step (st st' : System) : Prop := exists t, run_thread t st = Some st'.

(** ** What the threads of the judge do *)

(** The contents of a file, through its link. *)
Definition read_td (l : td_location) (fs : td_files) : option string :=
  match fs !! l with
  | Some (File c) => Some c
  | Some (SymlinkTo l') => match fs !! l' with Some (File c) => Some c | _ => None end
  | None => None
  end.

Definition copy_td (l : td_location) (next : prog) : prog := PStep id (fun fs => [read_td l fs]) (fun _ => next).

(** [SetupExecute], in both sandboxes. *)
Definition copy_input (problem i : Z) (next : prog) : prog :=
  PLock problem (copy_td (Linked problem i true) (PUnlock problem next)).

(** [SetupScoring]. *)
Definition copy_both (problem i : Z) (next : prog) : prog :=
  PLock problem (copy_td (Linked problem i true) (copy_td (Linked problem i false) (PUnlock problem next))).

(** Operations that may fail; what follows the first failure. *)
Fixpoint attempt (ops : list (td_files -> bool * td_files)) (failed next : prog) : prog :=
  match ops with
  | [] => next
  | op :: ops' => PStep (fun fs => (op fs).2) (fun _ => []) (fun fs => if (op fs).1 then attempt ops' failed next else failed)
  end.

Section Update.
Context (o : Outside).

Definition remove_op (l : td_location) (fs : td_files) : bool * td_files := (true, delete l fs).

(** The single operations of the update. *)
Definition download_ops (orig : database) (tds : list Testdata) : list (td_files -> bool * td_files) :=
  concat (map (fun id => [(fun fs => if dirs_fail o id then (false, fs) else download_file o id true fs);
                          download_file o id false]) (to_download orig tds)).

Definition update_ops (problem : Z) (orig : database) (tds : list Testdata) : list (td_files -> bool * td_files) :=
  concat (map (fun id => [rename o (PoolFile id true true) (PoolFile id true false);
                          rename o (PoolFile id false true) (PoolFile id false false)]) (to_download orig tds)) ++
  concat (map (fun id => [remove_op (PoolFile id true false); remove_op (PoolFile id false false)]) (to_delete orig tds)) ++
  concat (map (fun p : Z * Z => [remove_op (Linked problem p.1 true); remove_op (Linked problem p.1 false);
                         create_symlink o (PoolFile p.2 true false) (Linked problem p.1 true);
                         create_symlink o (PoolFile p.2 false false) (Linked problem p.1 false)])
    (to_update_position orig tds)) ++
  concat (map (fun i => [remove_op (Linked problem i true); remove_op (Linked problem i false)])
    (old_positions (Z.of_nat (length tds)) (orig_count orig))).

Definition update (problem : Z) (orig : database) (tds : list Testdata) (next : prog) : prog :=
  attempt (download_ops orig tds) next
    (PLock problem (attempt (update_ops problem orig tds) (PUnlock problem next) (PUnlock problem next))).

(** ** One after the other they are [sync_files] *)

Definition run_ops : list (td_files -> bool * td_files) -> td_files -> bool * td_files := each (fun op => op).

Lemma run_ops_app ops ops' fs : run_ops (ops ++ ops') fs = and_then (run_ops ops) (run_ops ops') fs.
Proof using.
  revert fs. induction ops as [|op ops IH]; intros fs; [done|]. unfold run_ops, and_then in *. simpl. unfold and_then.
  destruct (op fs) as [[] fs']; [|done]. apply IH.
Qed.

Lemma run_ops_each {A} (g : A -> list (td_files -> bool * td_files)) (h : A -> td_files -> bool * td_files) l fs :
  (forall x fs, run_ops (g x) fs = h x fs) -> run_ops (concat (map g l)) fs = each h l fs.
Proof using.
  intros Hg. revert fs. induction l as [|x l IH]; intros fs; [done|]. simpl. rewrite run_ops_app. unfold and_then.
  rewrite Hg. destruct (h x fs) as [[] fs']; [apply IH|done].
Qed.

Lemma run_ops_fold {A} (g : A -> list (td_files -> bool * td_files)) (h : A -> td_files -> td_files) l fs :
  (forall x fs, run_ops (g x) fs = (true, h x fs)) ->
  run_ops (concat (map g l)) fs = (true, foldl (fun fs x => h x fs) fs l).
Proof using.
  intros Hg. revert fs. induction l as [|x l IH]; intros fs; [done|]. simpl. rewrite run_ops_app. unfold and_then.
  rewrite Hg. apply IH.
Qed.

Lemma and_then_pure (f : td_files -> bool * td_files) g h fs : (forall fs, f fs = (true, h fs)) -> and_then f g fs = g (h fs).
Proof using. intros Hf. unfold and_then. by rewrite Hf. Qed.

Lemma update_is_sync problem orig tds fs :
  run_ops (download_ops orig tds ++ update_ops problem orig tds) fs = sync_files o problem orig tds fs.
Proof using Type.
  unfold sync_files. rewrite run_ops_app. unfold and_then at 1 2. unfold download_ops.
  rewrite (run_ops_each _ (download_one o)).
  2: { intros x fs1. unfold run_ops, download_one, download_file, each, and_then. destruct (dirs_fail o x); [done|].
       by destruct (served o x true) as [[] ?], (served o x false) as [[] ?]. }
  destruct (each (download_one o) _ fs) as [[] fs1]; [|done].
  unfold update_ops. rewrite run_ops_app. unfold and_then at 1 2. rewrite (run_ops_each _ (rename_one o)).
  2: { intros x fs2. unfold run_ops, rename_one, each, and_then.
       destruct (rename o (PoolFile x true true) _ fs2) as [[] fs3]; [|done].
       by destruct (rename o (PoolFile x false true) _ fs3) as [[] fs4]. }
  destruct (each (rename_one o) _ fs1) as [[] fs2]; [|done].
  rewrite run_ops_app. unfold and_then at 1. rewrite (run_ops_fold _ remove_pool) by done.
  rewrite run_ops_app. unfold and_then at 1 2. rewrite (run_ops_each _ (link_one o problem)).
  2: { intros [order id] fs3. unfold run_ops, link_one, each, and_then, remove_op. simpl.
       destruct (create_symlink o (PoolFile id true false) _ _) as [[] fs4]; [|done].
       by destruct (create_symlink o (PoolFile id false false) _ fs4) as [[] fs5]. }
  match goal with |- context [each (link_one o problem) ?l ?x] => destruct (each (link_one o problem) l x) as [[] fs3] end; [|done].
  by rewrite (run_ops_fold _ (remove_links problem)).
Qed.
End Update.
