(* ===== verification/LocksSpec.v ===== *)
(** * What the locks of the test data guarantee

    Threads that work on the files of a problem only while they hold its lock: such
    a system never gets stuck, and what a scoring copies, input and answer, is what
    both files were at one moment at which no thread was working on them. *)

From S2P Require Import Prelude Text Paths TestdataSync SyncSpec Locks.

Section Discipline.
(** The problem of each test data. *)
Context (owner : Z -> Z).

(** The files the lock of the problem [p] protects; temporary files need none. *)
Definition region_of (p : Z) (l : td_location) : Prop :=
  match l with Linked q _ _ => q = p | PoolFile id _ false => owner id = p | PoolFile _ _ true => False end.

Definition links_own (fs : td_files) : Prop := forall p i b l, fs !! Linked p i b = Some (SymlinkTo l) -> region_of p l.

(** A thread holding at most the lock [h] that works on protected files only with
    their lock, and holds one lock at a time. *)
Inductive disciplined : option Z -> prog -> Prop :=
| d_end : disciplined None PEnd
| d_lock p q : disciplined (Some p) q -> disciplined None (PLock p q)
| d_unlock p q : disciplined None q -> disciplined (Some p) (PUnlock p q)
| d_step h f o next :
    (forall fs p l, region_of p l -> h <> Some p -> f fs !! l = fs !! l) ->
    (forall fs, links_own fs -> links_own (f fs)) ->
    (forall fs, disciplined h (next fs)) -> disciplined h (PStep f o next).

Lemma copy_td_disciplined h l next : disciplined h next -> disciplined h (copy_td l next).
Proof. intros. by apply d_step. Qed.

Lemma copy_input_disciplined p i next : disciplined None next -> disciplined None (copy_input p i next).
Proof. intros. by apply d_lock, copy_td_disciplined, d_unlock. Qed.

Lemma copy_both_disciplined p i next : disciplined None next -> disciplined None (copy_both p i next).
Proof. intros. by apply d_lock, copy_td_disciplined, copy_td_disciplined, d_unlock. Qed.

(** An operation of a thread that holds [h]. *)
Definition op_ok (h : option Z) (op : td_files -> bool * td_files) : Prop :=
  (forall fs p l, region_of p l -> h <> Some p -> (op fs).2 !! l = fs !! l) /\
  (forall fs, links_own fs -> links_own (op fs).2).

Lemma attempt_disciplined h ops failed next : Forall (op_ok h) ops -> disciplined h failed -> disciplined h next ->
  disciplined h (attempt ops failed next).
Proof.
  intros Hops Hf Hn. induction Hops as [|op ops [H1 H2] _ IH]; [done|]. apply d_step; [done|done|].
  intros fs. by destruct (op fs).1.
Qed.

Lemma remove_ok problem l : region_of problem l -> op_ok (Some problem) (remove_op l).
Proof.
  intros Hl. split; simpl.
  - intros fs p l' Hl' Hp. apply lookup_delete_ne. intros <-. apply Hp. f_equal.
    destruct l as [id b []|q i b]; simpl in *; [done|congruence..].
  - intros fs Hf p i b l' [_ E]%lookup_delete_Some. by eapply Hf.
Qed.

Section Update.
Context (o : Outside) (problem : Z) (orig : database) (tds : list Testdata).
Context (Hown : forall id, id ∈ to_download orig tds ++ to_delete orig tds ++ (to_update_position orig tds).*2 -> owner id = problem).

Lemma download_file_ok id b : op_ok None (download_file o id b).
Proof using Type.
  split; unfold download_file; intros fs; destruct (served o id b) as [ok c]; simpl.
  - intros p l Hl _. apply lookup_insert_ne. intros <-. done.
  - intros Hf p i b' l E. rewrite lookup_insert_ne in E by done. by eapply Hf.
Qed.

Lemma rename_ok id b : owner id = problem -> op_ok (Some problem) (rename o (PoolFile id b true) (PoolFile id b false)).
Proof using Type.
  intros Hid. split; unfold rename; intros fs.
  - intros p l Hl Hp. destruct (fs !! PoolFile id b true) as [n|]; [|done]. destruct (move_fails o _); [done|]. simpl.
    rewrite lookup_insert_ne, lookup_delete_ne; [done|intros <-; done|intros <-; apply Hp; simpl in Hl; congruence].
  - intros Hf. destruct (fs !! PoolFile id b true) as [n|]; [|done]. destruct (move_fails o _); [done|]. simpl.
    intros p i b' l E. rewrite lookup_insert_ne, lookup_delete_ne in E by done. by eapply Hf.
Qed.

Lemma create_symlink_ok id i b : owner id = problem ->
  op_ok (Some problem) (create_symlink o (PoolFile id b false) (Linked problem i b)).
Proof using Type.
  intros Hid. split; unfold create_symlink; intros fs.
  - intros p l Hl Hp. destruct (fs !! Linked problem i b); [done|]. destruct (move_fails o _); [done|]. simpl.
    apply lookup_insert_ne. intros <-. apply Hp. simpl in Hl. congruence.
  - intros Hf. destruct (fs !! Linked problem i b); [done|]. destruct (move_fails o _); [done|]. simpl.
    intros p i' b' l [[E1 E2]|[_ E]]%lookup_insert_Some; [|by eapply Hf]. injection E2 as <-. injection E1 as <- _ _. done.
Qed.

Lemma download_ops_ok : Forall (op_ok None) (download_ops o orig tds).
Proof using Type.
  apply Forall_concat, Forall_map, Forall_true. intros id. constructor; [|constructor; [apply download_file_ok|done]].
  destruct (dirs_fail o id); [by split|apply download_file_ok].
Qed.

Lemma update_ops_ok : Forall (op_ok (Some problem)) (update_ops o problem orig tds).
Proof using Hown.
  unfold update_ops. rewrite !Forall_app. split_and!; apply Forall_concat, Forall_map, Forall_forall.
  - intros id Hid. assert (owner id = problem) by (apply Hown; set_solver). simpl.
    repeat (constructor; [by apply rename_ok|]). done.
  - intros id Hid. assert (owner id = problem) by (apply Hown; set_solver). simpl.
    repeat (constructor; [by apply remove_ok|]). done.
  - intros [i id] Hp. assert (owner id = problem).
    { apply Hown. apply elem_of_app. right. apply elem_of_app. right. apply list_elem_of_fmap. by exists (i, id). }
    simpl. do 2 (constructor; [by apply remove_ok|]). do 2 (constructor; [by apply create_symlink_ok|]). done.
  - intros i _. simpl. do 2 (constructor; [by apply remove_ok|]). done.
Qed.

Lemma update_disciplined next : disciplined None next -> disciplined None (update o problem orig tds next).
Proof using Hown.
  intros Hn. apply attempt_disciplined; [apply download_ops_ok|done|]. apply d_lock.
  apply attempt_disciplined; [apply update_ops_ok|by apply d_unlock..].
Qed.
End Update.
(** ** The invariant of the system *)

Definition holds (st : System) (p t : Z) : Prop := sy_mutexes st !! p = Some (Some t).

Record sys_ok (st : System) : Prop := {
  so_threads : forall t th, sy_threads st !! t = Some th ->
    exists h, disciplined h (th_prog th) /\ forall p, h = Some p <-> holds st p t;
  so_holders : forall p t, holds st p t -> is_Some (sy_threads st !! t);
  so_links : links_own (sy_files st);
}.

Lemma td_file_lock_holds id ms p t : td_file_lock id ms !! p = Some (Some t) <-> ms !! p = Some (Some t).
Proof using Type.
  clear owner. unfold td_file_lock. destruct (ms !! id) as [x|] eqn:E; [done|]. destruct (decide (p = id)) as [->|Hne].
  - rewrite lookup_insert_eq, E. naive_solver.
  - by rewrite lookup_insert_ne.
Qed.

(** The state after a step of the thread [t]. *)
Lemma run_thread_spec t st st' : run_thread t st = Some st' -> exists th th',
  sy_threads st !! t = Some th /\ sy_threads st' = <[t := th']> (sy_threads st) /\
  ((exists p, th_prog th = PLock p (th_prog th') /\ th_read th' = th_read th /\ sy_files st' = sy_files st /\
     (forall u, ~ holds st p u) /\ (forall q u, holds st' q u <-> (q = p /\ u = t) \/ (q <> p /\ holds st q u))) \/
   (exists p, th_prog th = PUnlock p (th_prog th') /\ th_read th' = th_read th /\ sy_files st' = sy_files st /\
     (forall q u, holds st' q u <-> q <> p /\ holds st q u)) \/
   (exists f o next, th_prog th = PStep f o next /\ th_prog th' = next (sy_files st) /\
     th_read th' = th_read th ++ o (sy_files st) /\ sy_files st' = f (sy_files st) /\ forall q u, holds st' q u <-> holds st q u)).
Proof using Type.
  clear owner. unfold run_thread. destruct (sy_threads st !! t) as [th|] eqn:Et; [|done]. simpl. destruct (th_prog th) as [|p q|p q|f o next] eqn:Ep; [done|..].
  - destruct (td_file_lock p (sy_mutexes st) !! p) as [[u|]|] eqn:Em; [done| |done]. intros [= <-]. eexists th, _. split; [done|].
    split; [done|]. left. exists p. split_and!; try done.
    + intros u Hu. unfold holds in Hu. apply (td_file_lock_holds p) in Hu. congruence.
    + intros q0 u. unfold holds. simpl. destruct (decide (q0 = p)) as [->|Hne].
      * rewrite lookup_insert_eq. naive_solver.
      * rewrite lookup_insert_ne, td_file_lock_holds by done. naive_solver.
  - intros [= <-]. eexists th, _. split; [done|]. split; [done|]. right; left. exists p. split_and!; try done.
    intros q0 u. unfold holds. simpl. destruct (decide (q0 = p)) as [->|Hne].
    + rewrite lookup_insert_eq. naive_solver.
    + rewrite lookup_insert_ne by done. naive_solver.
  - intros [= <-]. eexists th, _. split; [done|]. split; [done|]. right; right. by exists f, o, next.
Qed.

Lemma step_ok st st' : sys_ok st -> sys_step st st' -> sys_ok st'.
Proof using Type.
  intros [Ht Hh Hl] [t Hs]. apply run_thread_spec in Hs as (th & th' & Et & Ets & Hcase).
  destruct (Ht t th Et) as (h & Hd & Hhold).
  assert (Hlook : forall u x, sy_threads st' !! u = Some x -> (u = t /\ x = th') \/ (u <> t /\ sy_threads st !! u = Some x)).
  { intros u x. rewrite Ets. intros [[-> <-]|[Hne E]]%lookup_insert_Some; auto. }
  assert (His : forall u, is_Some (sy_threads st !! u) -> is_Some (sy_threads st' !! u)).
  { intros u [x E]. rewrite Ets. destruct (decide (u = t)) as [->|Hne]; [rewrite lookup_insert_eq; by eexists|].
    rewrite lookup_insert_ne by done. by eexists. }
  destruct Hcase as [(p & Ep & _ & Ef & Hfree & Hm)|[(p & Ep & _ & Ef & Hm)|(f & o & next & Ep & En & _ & Ef & Hm)]]; rewrite Ep in Hd; inversion Hd; subst.
  - split; [|intros q u [[-> ->]|[_ Hq]]%Hm; apply His; [by eexists|by eapply Hh]|by rewrite Ef].
    intros u x [[-> ->]|[Hne E]]%Hlook.
    + exists (Some p). split; [done|]. intros q. rewrite Hm. split; [intros [= ->]; by left|].
      intros [[-> _]|[_ Hq]]; [done|]. by apply Hhold in Hq.
    + destruct (Ht u x E) as (h & Hdu & Hhu). exists h. split; [done|]. intros q. rewrite Hm, Hhu. split; [|naive_solver].
      intros Hq. right. split; [|done]. intros ->. by apply (Hfree u).
  - split; [|intros q u [_ Hq]%Hm; by apply His, (Hh q)|by rewrite Ef]. intros u x [[-> ->]|[Hne E]]%Hlook.
    + exists None. split; [done|]. intros q. rewrite Hm. split; [done|]. intros [Hq Hq']. apply Hhold in Hq'. congruence.
    + destruct (Ht u x E) as (h & Hdu & Hhu). exists h. split; [done|]. intros q. rewrite Hm, Hhu. split; [|naive_solver].
      intros Hq. split; [|done]. intros ->. assert (Hp : holds st p t) by (by apply Hhold). unfold holds in *. congruence.
  - split; [|intros q u Hq%Hm; by apply His, (Hh q)|rewrite Ef; by auto]. intros u x [[-> ->]|[Hne E]]%Hlook.
    + exists h. split; [by rewrite En|]. intros q. by rewrite Hm.
    + destruct (Ht u x E) as (h' & Hdu & Hhu). exists h'. split; [done|]. intros q. by rewrite Hm.
Qed.

Lemma steps_ok st st' : sys_ok st -> rtc sys_step st st' -> sys_ok st'.
Proof using Type. intros Hok Hs. induction Hs; [done|]. by eapply IHHs, step_ok. Qed.

(** A thread without the lock leaves the protected files. *)
Lemma step_frame st st' t p l : sys_ok st -> run_thread t st = Some st' -> region_of p l ->
  (exists u, u <> t /\ holds st p u) -> sy_files st' !! l = sy_files st !! l.
Proof using Type.
  intros [Ht _ _] Hs Hl (u & Hne & Hu). apply run_thread_spec in Hs as (th & th' & Et & _ & Hcase).
  destruct (Ht t th Et) as (h & Hd & Hhold).
  destruct Hcase as [(q & _ & _ & -> & _)|[(q & _ & _ & -> & _)|(f & o & next & Ep & _ & _ & -> & _)]]; [done|done|].
  rewrite Ep in Hd. inversion Hd; subst. match goal with Hf : forall fs p l, region_of p l -> _ |- _ => apply (Hf _ p); [done|] end. intros ->.
  assert (Hx : holds st p t) by (by apply Hhold). unfold holds in *. congruence.
Qed.
(** ** Reading a pair *)

(** No thread is between taking and releasing the lock. *)
Definition unlocked (st : System) (p : Z) : Prop := forall u, ~ holds st p u.

Definition same_region (p : Z) (fs fs' : td_files) : Prop := forall l, region_of p l -> fs' !! l = fs !! l.

Lemma read_same p i b fs fs' : links_own fs -> same_region p fs fs' ->
  read_td (Linked p i b) fs' = read_td (Linked p i b) fs.
Proof using Type.
  intros Hl Hs. unfold read_td. rewrite Hs by done. destruct (fs !! Linked p i b) as [[c|l]|] eqn:E; [done| |done].
  rewrite Hs; [done|]. by eapply Hl.
Qed.

(** How far the thread [t] has come with [copy_both p i next], since [st0]. *)
Inductive phase (st0 : System) (t p i : Z) (next : prog) (rd : list (option string)) (st : System) : Prop :=
| ph_before : sy_threads st !! t = Some {| th_prog := copy_both p i next; th_read := rd |} -> phase st0 t p i next rd st
| ph_locked st1 : rtc sys_step st0 st1 -> rtc sys_step st1 st -> sys_ok st1 -> unlocked st1 p ->
    same_region p (sy_files st1) (sy_files st) ->
    sy_threads st !! t = Some {| th_prog := copy_td (Linked p i true) (copy_td (Linked p i false) (PUnlock p next)); th_read := rd |} ->
    phase st0 t p i next rd st
| ph_input st1 : rtc sys_step st0 st1 -> rtc sys_step st1 st -> sys_ok st1 -> unlocked st1 p ->
    same_region p (sy_files st1) (sy_files st) ->
    sy_threads st !! t = Some {| th_prog := copy_td (Linked p i false) (PUnlock p next);
      th_read := rd ++ [read_td (Linked p i true) (sy_files st1)] |} ->
    phase st0 t p i next rd st
| ph_both st1 q more : rtc sys_step st0 st1 -> rtc sys_step st1 st -> unlocked st1 p ->
    sy_threads st !! t = Some {| th_prog := q;
      th_read := rd ++ [read_td (Linked p i true) (sy_files st1); read_td (Linked p i false) (sy_files st1)] ++ more |} ->
    phase st0 t p i next rd st.

Lemma other_thread u t st st' : run_thread u st = Some st' -> t <> u -> sy_threads st' !! t = sy_threads st !! t.
Proof using Type. intros (th & th' & _ & -> & _)%run_thread_spec Hne. by apply lookup_insert_ne. Qed.

(** A thread that is reading holds the lock. *)
Inductive reading (p : Z) : prog -> Prop :=
| rd_unlock next : reading p (PUnlock p next)
| rd_copy l next : reading p next -> reading p (copy_td l next).

Lemma reading_holds st t p th : sys_ok st -> sy_threads st !! t = Some th -> reading p (th_prog th) -> holds st p t.
Proof using Type.
  intros Hok Et Hr. destruct (so_threads _ Hok t th Et) as (h & Hd & Hh). apply Hh. clear Hh Et.
  revert Hd. induction Hr as [next|l next _ IH]; intros Hd; inversion Hd; subst; [done|].
  apply IH. match goal with Hn : forall fs, disciplined _ _ |- _ => apply (Hn ∅) end.
Qed.

(** While a thread reads, the others leave what it reads. *)
Lemma reading_stable st st' u t p th fs : sys_ok st -> run_thread u st = Some st' -> u <> t ->
  sy_threads st !! t = Some th -> reading p (th_prog th) -> same_region p fs (sy_files st) -> same_region p fs (sy_files st').
Proof using Type.
  intros Hok Hs Hne Et Hr Hsame l Hl. rewrite <- (Hsame l Hl). apply (step_frame st st' u p l Hok Hs Hl).
  exists t. split; [done|]. by apply (reading_holds st t p th).
Qed.

Lemma phase_step st0 t p i next rd st st' : rtc sys_step st0 st -> sys_ok st -> phase st0 t p i next rd st -> sys_step st st' ->
  phase st0 t p i next rd st'.
Proof using Type.
  intros Hst Hok Hph [u Hu]. assert (Hstep : sys_step st st') by (by exists u).
  assert (Hnext : forall st1, rtc sys_step st1 st -> rtc sys_step st1 st') by (intros st1 Hr; by eapply rtc_r).
  destruct (decide (t = u)) as [<-|Hne].
  - apply run_thread_spec in Hu as (th & th' & Et & Ets & Hcase).
    assert (E' : sy_threads st' !! t = Some th') by (rewrite Ets; apply lookup_insert_eq). destruct th' as [q' r'].
    destruct Hph as [E|st1 H1 H2 Ho1 Hu1 Hs1 E|st1 H1 H2 Ho1 Hu1 Hs1 E|st1 q more H1 H2 Hu1 E]; rewrite E in Et; injection Et as <-;
      simpl in Hcase.
    + destruct Hcase as [(p' & [= <- <-] & -> & Ef & Hfree & _)|[(p' & [=] & _)|(f & o & n & [=] & _)]].
      apply (ph_locked st0 t p i next rd st' st); try done; [by apply rtc_once|]. intros l _. by rewrite Ef.
    + destruct Hcase as [(p' & [=] & _)|[(p' & [=] & _)|(f & o & n & [= <- <- <-] & -> & -> & Ef & _)]].
      apply (ph_input st0 t p i next rd st' st1); try done; [by apply Hnext|by rewrite Ef|].
      rewrite E'. by rewrite (read_same p i true _ _ (so_links _ Ho1) Hs1).
    + destruct Hcase as [(p' & [=] & _)|[(p' & [=] & _)|(f & o & n & [= <- <- <-] & -> & -> & Ef & _)]].
      apply (ph_both st0 t p i next rd st' st1 (PUnlock p next) []); try done; [by apply Hnext|].
      rewrite E'. by rewrite (read_same p i false _ _ (so_links _ Ho1) Hs1), <- (assoc_L (++)).
    + assert (Hr : exists m, r' = (rd ++ [read_td (Linked p i true) (sy_files st1); read_td (Linked p i false) (sy_files st1)] ++ more) ++ m).
      { destruct Hcase as [(p' & _ & -> & _)|[(p' & _ & -> & _)|(f & o & n & _ & _ & -> & _)]];
          [exists []; by rewrite app_nil_r|exists []; by rewrite app_nil_r|by eexists]. }
      destruct Hr as [m ->]. apply (ph_both st0 t p i next rd st' st1 q' (more ++ m)); try done; [by apply Hnext|].
      rewrite E'. by rewrite <- !(assoc_L (++)).
  - pose proof (other_thread u t st st' Hu Hne) as Eo. assert (Hne' : u <> t) by done.
    destruct Hph as [E|st1 H1 H2 Ho1 Hu1 Hs1 E|st1 H1 H2 Ho1 Hu1 Hs1 E|st1 q more H1 H2 Hu1 E].
    + apply ph_before. by rewrite Eo.
    + apply (ph_locked st0 t p i next rd st' st1); try done; [by apply Hnext| |by rewrite Eo].
      apply (reading_stable st st' u t p _ _ Hok Hu Hne' E); [|done]. repeat constructor.
    + apply (ph_input st0 t p i next rd st' st1); try done; [by apply Hnext| |by rewrite Eo].
      apply (reading_stable st st' u t p _ _ Hok Hu Hne' E); [|done]. repeat constructor.
    + apply (ph_both st0 t p i next rd st' st1 q more); try done; [by apply Hnext|by rewrite Eo].
Qed.
(** ** The judge and the server *)

Inductive job :=
| JInput (p i : Z)                                                        (* SetupExecute *)
| JBoth (p i : Z)                                                         (* SetupScoring *)
| JUpdate (o : Outside) (p : Z) (orig : database) (tds : list Testdata).  (* DealOneSubmission *)

Definition job_prog (j : job) (next : prog) : prog :=
  match j with
  | JInput p i => copy_input p i next
  | JBoth p i => copy_both p i next
  | JUpdate o p orig tds => update o p orig tds next
  end.

Definition jobs_prog (js : list job) : prog := foldr job_prog PEnd js.

Definition start (jobs : gmap Z (list job)) (fs : td_files) : System := {|
  sy_files := fs; sy_mutexes := ∅; sy_threads := (fun js => {| th_prog := jobs_prog js; th_read := [] |}) <$> jobs |}.

(** An update works on test data of its problem. *)
Definition owned (j : job) : Prop :=
  match j with
  | JUpdate _ p orig tds =>
      forall id, id ∈ to_download orig tds ++ to_delete orig tds ++ (to_update_position orig tds).*2 -> owner id = p
  | _ => True
  end.

Lemma jobs_disciplined js : Forall owned js -> disciplined None (jobs_prog js).
Proof using Type.
  induction 1 as [|j js Hj _ IH]; [apply d_end|]. destruct j; simpl; [by apply copy_input_disciplined|by apply copy_both_disciplined|].
  by apply update_disciplined.
Qed.

Lemma start_ok jobs fs : (forall t js, jobs !! t = Some js -> Forall owned js) -> links_own fs -> sys_ok (start jobs fs).
Proof using Type.
  intros Hj Hl. split; [|intros p t Hx; unfold holds in Hx; simpl in Hx; by rewrite lookup_empty in Hx|done].
  intros t th Et. simpl in Et. rewrite lookup_fmap in Et. destruct (jobs !! t) as [js|] eqn:E; [|done]. injection Et as <-.
  exists None. split; [by apply jobs_disciplined, (Hj t)|]. intros p. split; [done|]. unfold holds. simpl. by rewrite lookup_empty.
Qed.

(** C40: the locks of the test data cannot block the judge: in every state that threads
    of the judge and of the server can reach together, as long as a thread has
    something left to do, some thread can go on. *)
Theorem locks_progress jobs fs st : (forall t js, jobs !! t = Some js -> Forall owned js) -> links_own fs ->
  rtc sys_step (start jobs fs) st -> (exists t th, sy_threads st !! t = Some th /\ th_prog th <> PEnd) ->
  exists st', sys_step st st'.
Proof using Type.
  intros Hj Hl Hr (t & th & Et & Hn). pose proof (steps_ok _ _ (start_ok jobs fs Hj Hl) Hr) as Hok.
  assert (Hgo : forall u x, sy_threads st !! u = Some x ->
    match th_prog x with PEnd => False | PLock p _ => unlocked st p | _ => True end -> exists st', sys_step st st').
  { intros u x Eu Hx. unfold sys_step, run_thread. destruct (th_prog x) as [|p q|p q|f o next] eqn:Ep; [done|..].
    - assert (Em : td_file_lock p (sy_mutexes st) !! p = Some None).
      { pose proof (td_file_lock_holds p (sy_mutexes st) p) as Hh. unfold td_file_lock in *.
        destruct (sy_mutexes st !! p) as [[v|]|] eqn:Em; [|done|apply lookup_insert_eq]. by destruct (Hx v). }
      eexists _, u. rewrite Eu. simpl. rewrite Ep. simpl. by rewrite Em.
    - eexists _, u. rewrite Eu. simpl. by rewrite Ep.
    - eexists _, u. rewrite Eu. simpl. by rewrite Ep. }
  destruct (th_prog th) as [|p q|p q|f o next] eqn:Ep; [done| |by apply (Hgo t th Et); rewrite Ep..].
  destruct (sy_mutexes st !! p) as [[v|]|] eqn:Em.
  - destruct (so_holders _ Hok p v Em) as [x Ex]. apply (Hgo v x Ex). destruct (so_threads _ Hok v x Ex) as (h & Hd & Hh).
    assert (h = Some p) as -> by (by apply Hh). by inversion Hd.
  - apply (Hgo t th Et). rewrite Ep. intros u Hu. unfold holds in Hu. congruence.
  - apply (Hgo t th Et). rewrite Ep. intros u Hu. unfold holds in Hu. congruence.
Qed.

(** C14: a scoring gets an input and an answer that belong together: however the
    threads of the judge and of the server are interleaved, the two files that
    [SetupScoring] copies under the lock of its problem are what both were at one
    moment, since it was about to take the lock, at which no thread was in the
    middle of updating the problem's test data. *)
Theorem pair_consistent jobs fs st st' t p i next rd q a b more :
  (forall t js, jobs !! t = Some js -> Forall owned js) -> links_own fs -> rtc sys_step (start jobs fs) st ->
  sy_threads st !! t = Some {| th_prog := copy_both p i next; th_read := rd |} -> rtc sys_step st st' ->
  sy_threads st' !! t = Some {| th_prog := q; th_read := rd ++ a :: b :: more |} ->
  exists st1, rtc sys_step st st1 /\ rtc sys_step st1 st' /\ unlocked st1 p /\
    a = read_td (Linked p i true) (sy_files st1) /\ b = read_td (Linked p i false) (sy_files st1).
Proof using Type.
  intros Hj Hl Hr Et Hs Et'. pose proof (steps_ok _ _ (start_ok jobs fs Hj Hl) Hr) as Hok.
  assert (Hph : phase st t p i next rd st').
  { apply (rtc_ind_r (R := sys_step) (phase st t p i next rd) st); [by apply ph_before| |done]. intros st1 st2 Hs1 Hs2 Hph.
    apply (phase_step st t p i next rd st1 st2); [done|by eapply steps_ok|done|done]. }
  destruct Hph as [E|st1 H1 H2 Ho1 Hu1 Hs1 E|st1 H1 H2 Ho1 Hu1 Hs1 E|st1 q' more' H1 H2 Hu1 E]; rewrite E in Et'.
  - injection Et' as _ Er. apply (f_equal length) in Er. rewrite length_app in Er. simpl in Er. lia.
  - injection Et' as _ Er. apply (f_equal length) in Er. rewrite length_app in Er. simpl in Er. lia.
  - injection Et' as _ Er. apply (f_equal length) in Er. rewrite !length_app in Er. simpl in Er. lia.
  - injection Et' as _ Er. apply app_inv_head in Er. injection Er as <- <- _. by exists st1.
Qed.
End Discipline.

(** ** Runs *)

Fixpoint run_schedule (ts : list Z) (st : System) : option System :=
  match ts with
  | [] => Some st
  | t :: ts' => match run_thread t st with Some st' => run_schedule ts' st' | None => None end
  end.

Lemma run_schedule_steps ts st st' : run_schedule ts st = Some st' -> rtc sys_step st st'.
Proof.
  revert st. induction ts as [|t ts IH]; intros st; simpl; [by intros [= <-]|].
  destruct (run_thread t st) as [st1|] eqn:E; [|done]. intros Hr. eapply rtc_l; [by exists t|by apply IH].
Qed.

(** The judge executes and scores the first test data of problem 7 while the server
    replaces it by another one. *)
Definition racing_jobs (o : Outside) : gmap Z (list job) :=
  {[ 0 := [JInput 7 0; JBoth 7 0]; 1 := [JUpdate o 7 (ProblemTd 7 demo_state.1) demo_tds] ]}.

Definition racing (o : Outside) : System := start (racing_jobs o) demo_state.2.

Definition reads_of (st : option System) (t : Z) : list (option string) :=
  match st with Some st => match sy_threads st !! t with Some th => th_read th | None => [] end | None => [] end.

(** The program ran on the old input and its output is judged with the new input and
    answer: the lock is not held from the one to the other. *)
Example versions_mixed :
  reads_of (run_schedule ([0; 0; 0] ++ repeat 1 18 ++ [0; 0; 0; 0]) (racing (demo_outside false))) 0 =
  [Some "1@10in"; Some "2@11in"; Some "2@11out"].
Proof. vm_compute. reflexivity. Qed.

(** An update that fails between the two links of a position releases the lock with the
    new input in place and no answer. *)
Example half_updated :
  let o := {| served := served (demo_outside false); dirs_fail := fun _ => false;
              move_fails := fun l => match l with Linked _ 0 false => true | _ => false end |} in
  reads_of (run_schedule (repeat 1 12 ++ [0; 0; 0; 0; 0; 0; 0]) (racing o)) 0 = [Some "2@11in"; Some "2@11in"; None].
Proof. vm_compute. reflexivity. Qed.

(** A scoring against an update that waits for the lock. *)
Lemma racing_owned o t js : racing_jobs o !! t = Some js -> Forall (owned (fun _ => 7)) js.
Proof.
  unfold racing_jobs. intros [[_ <-]|[_ [_ <-]%lookup_singleton_Some]]%lookup_insert_Some; repeat constructor.
Qed.

Lemma racing_links : links_own (fun _ => 7) demo_state.2.
Proof.
  set (check := fun (k : td_location) n => match k, n with
    | Linked p _ _, SymlinkTo (PoolFile _ _ temp) => negb temp && (p =? 7)
    | Linked _ _ _, SymlinkTo _ => false | _, _ => true end).
  assert (Hall : map_Forall (fun k n => check k n = true) demo_state.2)
    by (apply (bool_decide_unpack _); vm_compute; reflexivity).
  intros p i b l E. specialize (Hall _ _ E). simpl in Hall. destruct l as [id b' temp|]; [|done].
  apply andb_true_iff in Hall as [Ht Hp%Z.eqb_eq]. by destruct temp.
Qed.

Definition reading_system : System :=
  default (racing (demo_outside false)) (run_schedule [0; 0; 0] (racing (demo_outside false))).
Definition scored_system : System :=
  default reading_system (run_schedule [1; 1; 0; 0; 0; 0; 1] reading_system).

Lemma schedule_reached ts st d : bool_decide (is_Some (run_schedule ts st)) = true ->
  rtc sys_step st (default d (run_schedule ts st)).
Proof.
  intros [st' E]%bool_decide_eq_true. rewrite E. by apply (run_schedule_steps ts).
Qed.

Lemma reading_reached : rtc sys_step (racing (demo_outside false)) reading_system.
Proof. apply schedule_reached. vm_compute. reflexivity. Qed.

Lemma scored_reached : rtc sys_step reading_system scored_system.
Proof. apply schedule_reached. vm_compute. reflexivity. Qed.

Lemma locks_progress_witness : exists st', sys_step reading_system st'.
Proof.
  apply (locks_progress (fun _ => 7) (racing_jobs (demo_outside false)) demo_state.2 reading_system (racing_owned _) racing_links reading_reached).
  exists 0, {| th_prog := copy_both 7 0 PEnd; th_read := [Some "1@10in"] |}. split; [vm_compute; reflexivity|discriminate].
Defined.

Lemma pair_consistent_witness : exists st1, rtc sys_step reading_system st1 /\ unlocked st1 7 /\
  Some "1@10in" = read_td (Linked 7 0 true) (sy_files st1) /\ Some "1@10out" = read_td (Linked 7 0 false) (sy_files st1).
Proof.
  destruct (pair_consistent (fun _ => 7) (racing_jobs (demo_outside false)) demo_state.2 reading_system scored_system 0 7 0 PEnd [Some "1@10in"] PEnd
    (Some "1@10in") (Some "1@10out") [] (racing_owned _) racing_links reading_reached
    ltac:(vm_compute; reflexivity) scored_reached ltac:(vm_compute; reflexivity)) as (st1 & H1 & _ & H2 & H3 & H4).
  exists st1. by split_and!.
Defined.
