(* ===== verification/ServerSubmit.v ===== *)
(** * Receiving a submission

    [DealOneSubmission] and [OneSubmissionThread] of src/server_io.cpp, with
    [TempDirectory] and [GetUniqueSubmissionInternalId] (utils.cpp): from the JSON
    document of the server to [PushSubmission]. The synchronisation of test data
    in the middle of it is [TestdataSync.sync]. *)

From S2P Require Import Prelude Enums Text Paths Data State TestdataSync Base64 Push Handlers WorkLoop ServerQueue ServerMessages.
From Stdlib Require Import SpecFloat.

(** ** Reading JSON values

    The conversions of the JSON library: [None] is its [type_error]. *)
Class JsonGet := {
  get_int : json -> option Z;            (* get<int> *)
  get_long : json -> option Z;           (* get<long>, get<int64_t> *)
  get_bool : json -> option bool;
  get_string : json -> option string;
  get_int_set : json -> option (gset Z); (* get<std::set<int>> *)
  get_strings : json -> option (list string);
  get_int_range j z : get_int j = Some z -> is_int z;
  get_int_set_range j s z : get_int_set j = Some s -> z ∈ s -> is_int z;
}.

(** The result of reading: a value, [return false] or an exception (which
    [OneSubmissionThread] turns into [false]), or a value cast to an
    enumeration that does not have it. *)
Inductive parsed (A : Type) := Good (a : A) | Refused | UnknownEnum.
Arguments Good {A} _.
Arguments Refused {A}.
Arguments UnknownEnum {A}.

#[export] Instance parsed_ret : MRet parsed := fun A a => Good a.
#[export] Instance parsed_bind : MBind parsed := fun A B f m =>
  match m with Good a => f a | Refused => Refused | UnknownEnum => UnknownEnum end.

Definition or_refuse {A} (o : option A) : parsed A := match o with Some a => Good a | None => Refused end.
Definition or_unknown {A} (o : option A) : parsed A := match o with Some a => Good a | None => UnknownEnum end.
Definition require (b : bool) : parsed unit := if b then Good tt else Refused.

(** [j[key].get<T>()]. *)
Definition field {A} (get : json -> option A) (j : json) (key : string) : parsed A :=
  or_refuse (x ← json_index j key; get x).

(** [j.value<T>(key, default)]: throws on anything but an object. *)
Definition value {A} (get : json -> option A) (j : json) (key : string) (default : A) : parsed A :=
  match j with
  | JObj fields => match assoc_find key fields with Some x => or_refuse (get x) | None => Good default end
  | _ => Refused
  end.

(** The elements [j[0]], ..., [j[j.size() - 1]]. *)
Definition items (j : json) : parsed (list json) :=
  match j with
  | JArr l => Good l
  | JNull | JObj [] => Good []
  | _ => Refused
  end.

(** What [for (auto& x : j)] visits. *)
Definition iterate (j : json) : list json :=
  match j with
  | JArr l => l
  | JObj fields => map snd fields
  | JNull => []
  | _ => [j]
  end.

(** [data.empty()]. *)
Definition json_empty (j : json) : bool :=
  match j with JNull | JArr [] | JObj [] => true | _ => false end.

Definition SpecjudgeType_of_int (z : Z) : option SpecjudgeType :=
  match z with
  | 0 => Some SJ_NORMAL | 1 => Some SPECJUDGE_OLD | 2 => Some SPECJUDGE_NEW
  | 3 => Some SPECJUDGE_POLYGON | 4 => Some SPECJUDGE_KATTIS | 5 => Some SJ_SKIP
  | _ => None
  end.
Definition InterlibType_of_int (z : Z) : option InterlibType :=
  match z with 0 => Some INTERLIB_NONE | 1 => Some INTERLIB_INCLUDE | _ => None end.
Definition SummaryType_of_int (z : Z) : option SummaryType :=
  match z with 0 => Some SUMMARY_NONE | 1 => Some SUMMARY_CUSTOM | _ => None end.

(** ** The temporary directory

    The files of a [TempDirectory], as name and contents. *)
Inductive temp_name := UserCodePath | ProbProgPath | SpecjudgePath | InterlibPath | InterlibImplPath | SummaryPath.

#[export] Instance temp_name_eq_dec : EqDecision temp_name.
Proof. solve_decision. Defined.

Definition temp_basename (n : temp_name) : string :=
  match n with
  | UserCodePath => "code" | ProbProgPath => "probprog" | SpecjudgePath => "sjcode"
  | InterlibPath => "interlib" | InterlibImplPath => "interlib_impl" | SummaryPath => "summary"
  end.

Section Parse.
Context `{PathRoots} `{JsonGet} (HASKELL_PROCESS_LIMIT : Z).

(** ** The parts of the document *)

Record SubmissionPart := {
  sp_submission_id : Z; sp_contest_id : Z; sp_priority : Z; sp_lang : Compiler;
  sp_time : Z; sp_skip_group : bool; sp_code : string }.

Definition parse_submission (data : json) : parsed SubmissionPart :=
  submission_id ← field get_int data "submission_id";
  contest_id ← field get_int data "contest_id";
  priority ← field get_long data "priority";
  compiler ← field get_string data "compiler";
  time ← field get_long data "time";
  skip_group ← value get_bool data "skip_group" false;
  code ← field get_string data "code_base64";
  mret {| sp_submission_id := submission_id; sp_contest_id := contest_id; sp_priority := priority;
          sp_lang := GetCompiler compiler; sp_time := time; sp_skip_group := skip_group;
          sp_code := OutputBase64 code |}.

Definition parse_user (user : json) : parsed (Z * string * string) :=
  id ← field get_int user "id";
  name ← field get_string user "name";
  nickname ← field get_string user "nickname";
  mret (id, name, nickname).

Record StagePart := {
  st_problem_id : Z; st_strict : bool; st_stages : Z; st_prog_stages : gset Z;
  st_prog_lang : Compiler; st_files : list (temp_name * string) }.

Definition parse_stages (problem : json) : parsed StagePart :=
  id ← field get_int problem "id";
  strict ← field get_bool problem "strict_mode";
  num ← field get_int problem "num_stages";
  let stages := Z.min (Z.max num 1) 32 in
  prog ← value get_int_set problem "problem_prog_stages" ∅;
  _ ← require (forallb (fun s => negb ((s <? 0) || (stages <=? s))) (elements prog));
  '(lang, files) ←
    (if bool_decide (prog = ∅) then mret (GCC_CPP_17, [])
     else
       lang ← field get_string problem "problem_prog_compiler";
       code ← field get_string problem "problem_prog_code";
       mret (GetCompiler lang, [(ProbProgPath, code)]));
  mret {| st_problem_id := id; st_strict := strict; st_stages := stages; st_prog_stages := prog;
          st_prog_lang := lang; st_files := files |}.

Record JudgePart := {
  jp_specjudge : SpecjudgeType; jp_interlib : InterlibType; jp_summary : SummaryType;
  jp_scoring_args : list string; jp_specjudge_lang : Compiler; jp_between : bool;
  jp_compile_args : string; jp_abnormally : bool; jp_re_as_wa : bool;
  jp_summary_lang : Compiler; jp_files : list (temp_name * string) }.

(** [judge_between_stages], the languages and so on keep what the constructor
    sets where nothing is read. *)
Definition parse_judges (problem : json) : parsed JudgePart :=
  sj ← field get_int problem "specjudge_type";
  specjudge ← or_unknown (SpecjudgeType_of_int sj);
  '(args, lang, between, compile_args, abnormally, re_as_wa, files) ←
    (if bool_decide (specjudge = SJ_NORMAL) then
       args ← field get_strings problem "default_scoring_args";
       mret (args, GCC_CPP_17, false, "", false, true, [])
     else
       lang ← field get_string problem "specjudge_compiler";
       between ← field get_bool problem "judge_between_stages";
       code ← field get_string problem "sjcode";
       compile_args ← field get_string problem "specjudge_compile_args";
       abnormally ← value get_bool problem "judge_abnormally_terminated"
                      (bool_decide (specjudge = SPECJUDGE_NEW));
       re_as_wa ← value get_bool problem "judge_re_as_wa" true;
       mret ([], GetCompiler lang, between, compile_args, abnormally, re_as_wa, [(SpecjudgePath, code)]));
  il ← field get_int problem "interlib_type";
  interlib ← or_unknown (InterlibType_of_int il);
  files_interlib ←
    (if bool_decide (interlib = INTERLIB_NONE) then mret []
     else
       header ← field get_string problem "interlib";
       impl ← field get_string problem "interlib_impl";
       mret [(InterlibPath, header); (InterlibImplPath, impl)]);
  sm ← value get_int problem "summary_type" 0;
  summary ← or_unknown (SummaryType_of_int sm);
  '(summary_lang, files_summary) ←
    (if bool_decide (summary = SUMMARY_NONE) then mret (GCC_CPP_17, [])
     else
       lang ← field get_string problem "summary_compiler";
       code ← field get_string problem "summary_code";
       mret (GetCompiler lang, [(SummaryPath, code)]));
  mret {| jp_specjudge := specjudge; jp_interlib := interlib; jp_summary := summary;
          jp_scoring_args := args; jp_specjudge_lang := lang; jp_between := between;
          jp_compile_args := compile_args; jp_abnormally := abnormally; jp_re_as_wa := re_as_wa;
          jp_summary_lang := summary_lang; jp_files := files ++ files_interlib ++ files_summary |}.

(** Limits below 0 mean none; for Haskell, the address space limit becomes one of
    resident memory. *)
Definition haskell_limits (lang : Compiler) (vss rss : Z) : Z * Z :=
  if bool_decide (lang = HASKELL) && (0 <? vss)
  then (0, if rss =? 0 then vss else Z.min vss rss)
  else (vss, rss).

Definition parse_testdata (lang : Compiler) (problem i : Z) (td_item : json) : parsed (Testdata * TestdataItem) :=
  id ← field get_int td_item "id";
  updated_at ← field get_long td_item "updated_at";
  input_compressed ← value get_bool td_item "input_compressed" false;
  output_compressed ← value get_bool td_item "output_compressed" false;
  time ← field get_long td_item "time";
  vss ← field get_long td_item "vss";
  rss ← field get_long td_item "rss";
  output ← field get_long td_item "output";
  verdict_ignore ← field get_bool td_item "verdict_ignore";
  let '(vss, rss) := haskell_limits lang (Z.max vss 0) (Z.max rss 0) in
  mret ({| testdata_id := id; td_problem_id := problem; td_order := i; timestamp := updated_at;
           input_compressed := input_compressed; output_compressed := output_compressed |},
        {| input_file := TdInput problem i; answer_file := TdAnswer problem i;
           lim_vss := vss; lim_rss := rss; lim_output := Z.max output 0; lim_time := time;
           ignore_verdict := verdict_ignore; td_groups := [] |}).

(** The loop from index [i] on. *)
Fixpoint parse_all_testdata (lang : Compiler) (problem i : Z) (tds : list json)
    : parsed (list Testdata * list TestdataItem) :=
  match tds with
  | [] => mret ([], [])
  | td :: tds' =>
      '(t, lim) ← parse_testdata lang problem i td;
      '(ts, lims) ← parse_all_testdata lang problem (i + 1) tds';
      mret (t :: ts, lim :: lims)
  end.

(** [td_groups.push_back(g)]. *)
Definition join_group (g : Z) (item : TestdataItem) : TestdataItem := {|
  input_file := input_file item; answer_file := answer_file item; lim_vss := lim_vss item;
  lim_rss := lim_rss item; lim_output := lim_output item; lim_time := lim_time item;
  ignore_verdict := ignore_verdict item; td_groups := td_groups item ++ [g] |}.

Fixpoint parse_positions (g : Z) (positions : list json) (testdata : list TestdataItem)
    : parsed (list TestdataItem) :=
  match positions with
  | [] => mret testdata
  | td_pos :: positions' =>
      p ← or_refuse (get_int td_pos);
      _ ← require (negb ((p <? 0) || (Z.of_nat (length testdata) <=? p)));
      parse_positions g positions' (alter (join_group g) (Z.to_nat p) testdata)
  end.

(** The groups from [g] on: the test data and the scores. *)
Fixpoint parse_tasks (g : Z) (tasks : list json) (testdata : list TestdataItem)
    : parsed (list TestdataItem * list Z) :=
  match tasks with
  | [] => mret (testdata, [])
  | item :: tasks' =>
      positions ← or_refuse (json_index item "positions");
      testdata ← parse_positions g (iterate positions) testdata;
      score ← field get_long item "score";
      '(testdata, scores) ← parse_tasks (g + 1) tasks' testdata;
      mret (testdata, score :: scores)
  end.

Record Received := { rc_sub : Submission; rc_tds : list Testdata; rc_files : list (temp_name * string) }.

(** What is parsed before any file is downloaded. The internal id, the reporter and
    [remove_submission] are set at the end. *)
Definition parse (data : json) : parsed Received :=
  _ ← require (negb (json_empty data));
  p ← parse_submission data;
  user ← or_refuse (json_index data "user");
  '(submitter, name, nickname) ← parse_user user;
  problem ← or_refuse (json_index data "problem");
  s ← parse_stages problem;
  j ← parse_judges problem;
  td ← or_refuse (json_index data "td");
  tds ← items td;
  '(tds, testdata) ← parse_all_testdata (sp_lang p) (st_problem_id s) 0 tds;
  tasks ← or_refuse (json_index data "tasks");
  tasks ← items tasks;
  '(testdata, scores) ← parse_tasks 0 tasks testdata;
  mret {|
    rc_sub := {|
      submission_internal_id := 0; submission_id := sp_submission_id p; contest_id := sp_contest_id p;
      priority := sp_priority p; submission_time := sp_time p; submitter_id := submitter;
      submitter_name := name; submitter_nickname := nickname; lang := sp_lang p;
      problem_id := st_problem_id s; specjudge_type := jp_specjudge j; interlib_type := jp_interlib j;
      summary_type := jp_summary j; specjudge_lang := jp_specjudge_lang j;
      summary_lang := jp_summary_lang j; problem_prog_lang := st_prog_lang s;
      user_compile_args := ""; specjudge_compile_args := jp_compile_args j;
      problem_prog_compile_args := ""; stages := st_stages s; problem_prog_stages := st_prog_stages s;
      judge_between_stages := jp_between j; judge_abnormally_terminated := jp_abnormally j;
      specjudge_re_as_wa := jp_re_as_wa j; sandbox_strict := st_strict s;
      process_limit := if bool_decide (sp_lang p = HASKELL) then Z.max 1 HASKELL_PROCESS_LIMIT else 1;
      default_scoring_args := jp_scoring_args j; testdata := testdata; group_score := scores;
      skip_group := sp_skip_group p;
      reporter := {| ReportStartCompiling := false; ReportOverallResult := false; ReportScoringResult := false;
                     ReportCEMessage := false; ReportJCEMessage := false; ReportFinalized := false |};
      report_intermediate_stage := false; remove_submission := true |};
    rc_tds := tds;
    rc_files := (UserCodePath, sp_code p) :: st_files s ++ jp_files j |}.
End Parse.

(** ** The server side of the client *)

Record Server := {
  sv_seq : Z;                       (* submission_internal_id_seq *)
  sv_database : database;
  sv_td_files : td_files;
  sv_code : gmap string string;     (* the files of the submissions, by path *)
  sv_loop : Loop;                   (* the judge *)
  sv_receiving : Z;                 (* receiving_submission_id *)
}.

Definition set_td (db : database) (fs : td_files) (st : Server) : Server := {|
  sv_seq := sv_seq st; sv_database := db; sv_td_files := fs; sv_code := sv_code st;
  sv_loop := sv_loop st; sv_receiving := sv_receiving st |}.
Definition set_receiving (id : Z) (st : Server) : Server := {|
  sv_seq := sv_seq st; sv_database := sv_database st; sv_td_files := sv_td_files st; sv_code := sv_code st;
  sv_loop := sv_loop st; sv_receiving := id |}.
Definition with_loop (l : Loop) (st : Server) : Server := {|
  sv_seq := sv_seq st; sv_database := sv_database st; sv_td_files := sv_td_files st; sv_code := sv_code st;
  sv_loop := l; sv_receiving := sv_receiving st |}.

Definition GetUniqueSubmissionInternalId (st : Server) : Z * Server :=
  (sv_seq st + 1,
   {| sv_seq := sv_seq st + 1; sv_database := sv_database st; sv_td_files := sv_td_files st;
      sv_code := sv_code st; sv_loop := sv_loop st; sv_receiving := sv_receiving st |}).

(** The callbacks [server_reporter] has. *)
Definition server_callbacks : Reporter := {|
  ReportStartCompiling := true; ReportOverallResult := true; ReportScoringResult := true;
  ReportCEMessage := false; ReportJCEMessage := false; ReportFinalized := true |}.

Definition finalize (id : Z) (s : Submission) : Submission := {|
  submission_internal_id := id; submission_id := submission_id s;
  contest_id := contest_id s; priority := priority s; submission_time := submission_time s;
  submitter_id := submitter_id s; submitter_name := submitter_name s;
  submitter_nickname := submitter_nickname s; lang := lang s; problem_id := problem_id s;
  specjudge_type := specjudge_type s; interlib_type := interlib_type s;
  summary_type := summary_type s; specjudge_lang := specjudge_lang s;
  summary_lang := summary_lang s; problem_prog_lang := problem_prog_lang s;
  user_compile_args := user_compile_args s; specjudge_compile_args := specjudge_compile_args s;
  problem_prog_compile_args := problem_prog_compile_args s; stages := stages s;
  problem_prog_stages := problem_prog_stages s; judge_between_stages := judge_between_stages s;
  judge_abnormally_terminated := judge_abnormally_terminated s;
  specjudge_re_as_wa := specjudge_re_as_wa s; sandbox_strict := sandbox_strict s;
  process_limit := process_limit s; default_scoring_args := default_scoring_args s;
  testdata := testdata s; group_score := group_score s; skip_group := skip_group s;
  reporter := server_callbacks; report_intermediate_stage := report_intermediate_stage s;
  remove_submission := true |}.

(** What the outside does while a submission is dealt with: the requests and
    files of the test data, [mkdtemp], and [Move], whose failures are ignored. *)
Record Dealing := { dl_td : Outside; dl_tempdir : bool; dl_move : temp_name -> bool }.

Section Deal.
Context `{PathRoots} `{Config} `{JsonText} `{JsonGet} (HASKELL_PROCESS_LIMIT : Z).

(** Which files are moved where. *)
Definition code_moves (sub : Submission) : list (temp_name * string) :=
  let id := submission_internal_id sub in
  [(UserCodePath, SubmissionUserCode id)] ++
  (if bool_decide (specjudge_type sub = SJ_NORMAL) then [] else [(SpecjudgePath, SubmissionJudgeCode id)]) ++
  (if bool_decide (interlib_type sub = INTERLIB_NONE) then []
   else [(InterlibPath, SubmissionInterlibCode id); (InterlibImplPath, SubmissionInterlibImplCode id)]) ++
  (if bool_decide (summary_type sub = SUMMARY_NONE) then [] else [(SummaryPath, SubmissionSummaryCode id)]) ++
  (if bool_decide (problem_prog_stages sub = ∅) then [] else [(ProbProgPath, SubmissionProblemProgCode id)]).

Definition temp_file (files : list (temp_name * string)) (n : temp_name) : option string :=
  snd <$> List.find (fun f => bool_decide (f.1 = n)) files.

Definition move_code (d : Dealing) (files : list (temp_name * string)) (sub : Submission)
    (code : gmap string string) : gmap string string :=
  foldl (fun code '(n, path) =>
    match temp_file files n with
    | Some contents => if dl_move d n then <[path := contents]> code else code
    | None => code
    end) code (code_moves sub).

(** The result, the requests sent and the new state. *)
Definition DealOneSubmission (d : Dealing) (c : Compat) (data : json) (st : Server)
    : outcome (bool * list Request * Server) :=
  if negb (dl_tempdir d) then Done (false, [], st)
  else
    match parse HASKELL_PROCESS_LIMIT data with
    | Refused => Done (false, [], st)
    | UnknownEnum => Crash BadEnum
    | Good r =>
        let '(ok, (db, fs)) := sync (dl_td d) (problem_id (rc_sub r)) (rc_tds r) (sv_database st, sv_td_files st) in
        let st := set_td db fs st in
        if negb ok then Done (false, [], st)
        else
          let '(id, st) := GetUniqueSubmissionInternalId st in
          let sub := finalize id (rc_sub r) in
          let code := move_code d (rc_files r) sub (sv_code st) in
          match PushSubmission sub 0 (lp_judge (sv_loop st)) with
          | Crash f => Crash f
          | Done (_, s) =>
              Done (true, if waiting_to_queued c then [] else [SendStatus (submission_id sub) "queued"],
                {| sv_seq := sv_seq st; sv_database := sv_database st; sv_td_files := sv_td_files st;
                   sv_code := code;
                   sv_loop := {| lp_judge := s; lp_running := lp_running (sv_loop st); lp_pc := lp_pc (sv_loop st) |};
                   sv_receiving := sv_receiving st |})
          end
    end.

(** *** [OneSubmissionThread]

    Its two parts that hold [judge_mtx]: up to [DealOneSubmission], with the
    [submission_id] to go on with, and from there on. In between, the work loop may
    run. *)

Definition data_at_int (data : json) (key : string) : option Z :=
  match data with JObj fields => x ← assoc_find key fields; get_int x | _ => None end.

Definition thread_begin (kMaxQueue : Z) (c : Compat) (data : json) (st : Server)
    : list Request * option Z * Server :=
  match data_at_int data "submission_id" with
  | None => ([TryFetchSubmission], None, st)
  | Some submission_id =>
      let queue_size := CurrentSubmissionQueueSize (lp_judge (sv_loop st)) in
      if kMaxQueue <=? queue_size then ([SendStatus submission_id (WaitingVerdict c)], None, st)
      else (if queue_size + 1 <? kMaxQueue then [TryFetchSubmission] else [], Some submission_id,
            set_receiving submission_id st)
  end.

Definition thread_end (d : Dealing) (c : Compat) (submission_id : Z) (data : json) (st : Server)
    : outcome (list Request * Server) :=
  match DealOneSubmission d c data st with
  | Crash f => Crash f
  | Done (result, requests, st) =>
      let st := set_receiving (-1) st in
      if result then Done (requests, st)
      else Done (requests ++ [SendStatus submission_id (VerdictToAbr JE); TryFetchSubmission], st)
  end.

(** *** The system

    The thread that holds [judge_mtx] (there is at most one) together with the
    work loop. [PushSubmission] needs [task_mtx], which the loop holds while
    [Busy]. *)
Record System := { sy_server : Server; sy_dealing : option (Z * json) }.

Inductive system_step (kMaxParallel kMaxQueue : Z) : System -> System -> Prop :=
| sy_work st l' ph a : is_push a = false -> enabled kMaxParallel (sv_loop st) a ->
    perform (sv_loop st) a = Done l' ->
    system_step kMaxParallel kMaxQueue {| sy_server := st; sy_dealing := ph |}
      {| sy_server := with_loop l' st; sy_dealing := ph |}
| sy_begin st c data reqs next st' : thread_begin kMaxQueue c data st = (reqs, next, st') ->
    system_step kMaxParallel kMaxQueue {| sy_server := st; sy_dealing := None |}
      {| sy_server := st'; sy_dealing := (fun id => (id, data)) <$> next |}
| sy_end st d c id data reqs st' : lp_pc (sv_loop st) <> Busy ->
    thread_end d c id data st = Done (reqs, st') ->
    system_step kMaxParallel kMaxQueue {| sy_server := st; sy_dealing := Some (id, data) |}
      {| sy_server := st'; sy_dealing := None |}.

(** At the start, the judge is empty; the database and files are what
    earlier runs left. [receiving_submission_id] has no initialiser and is 0. *)
Definition initial_system (db : database) (fs : td_files) (code : gmap string string) : System := {|
  sy_server := {| sv_seq := 0; sv_database := db; sv_td_files := fs; sv_code := code;
                  sv_loop := initial; sv_receiving := 0 |};
  sy_dealing := None |}.

Inductive system_reachable (kMaxParallel kMaxQueue : Z) : System -> Prop :=
| sr_initial db fs code : system_reachable kMaxParallel kMaxQueue (initial_system db fs code)
| sr_step s s' : system_reachable kMaxParallel kMaxQueue s -> system_step kMaxParallel kMaxQueue s s' ->
    system_reachable kMaxParallel kMaxQueue s'.
End Deal.
