(* ===== verification/SubmitSpec.v ===== *)
(** * What a received submission is

    The parser of src/server_io.cpp admits only submissions the judge can be
    given, and the server side as a whole only drives the judge in ways the
    work loop expects. *)

From S2P Require Import Prelude Enums Text Paths Scores Data State TestdataSync Base64 Push PushBuild PushRows PushGraph Handlers WorkLoop LoopInv LoopSafe Scenario ServerQueue ServerMessages ServerSubmit SyncSpec.
From Stdlib Require Import SpecFloat.

(** ** Inverting the reader *)

Lemma parsed_bind_Good {A B} (m : parsed A) (f : A -> parsed B) b :
  m ≫= f = Good b -> exists a, m = Good a /\ f a = Good b.
Proof. destruct m; try done. intros E. by exists a. Qed.

Lemma or_refuse_Good {A} (o : option A) a : or_refuse o = Good a -> o = Some a.
Proof. destruct o; by intros [= ->]. Qed.

Lemma or_unknown_Good {A} (o : option A) a : or_unknown o = Good a -> o = Some a.
Proof. destruct o; by intros [= ->]. Qed.

Lemma require_Good b u : require b = Good u -> b = true.
Proof. by destruct b. Qed.

Lemma field_Good {A} (get : json -> option A) j key a :
  field get j key = Good a -> exists x, json_index j key = Some x /\ get x = Some a.
Proof.
  intros E%or_refuse_Good. destruct (json_index j key) as [x|]; [|done]. by exists x.
Qed.

Lemma value_Good {A} (get : json -> option A) j key d a :
  value get j key d = Good a -> a = d \/ exists x, get x = Some a.
Proof.
  unfold value. destruct j; try done. destruct (assoc_find key fields) as [x|].
  - intros E%or_refuse_Good. right. by exists x.
  - intros [= ->]. by left.
Qed.

(** Opens every reader of a hypothesis [_ = Good _]. *)
Ltac open_parse :=
  repeat match goal with
  | H : mbind _ _ = Good _ |- _ =>
      let E := fresh "E" in apply parsed_bind_Good in H as (? & E & H)
  | H : Good _ = Good _ |- _ => injection H as <-
  | H : mret _ = Good _ |- _ => injection H as <-
  | H : or_refuse _ = Good _ |- _ => apply or_refuse_Good in H
  | H : or_unknown _ = Good _ |- _ => apply or_unknown_Good in H
  | H : require _ = Good _ |- _ => apply require_Good in H
  | H : (let '(_, _) := ?x in _) = Good _ |- _ => let E := fresh "E" in destruct x eqn:E
  end.

Section Parse.
Context `{PathRoots} `{JsonGet} (HASKELL_PROCESS_LIMIT : Z).

(** ** The parts *)

Lemma field_int j key z : field get_int j key = Good z -> is_int z.
Proof. intros (x & _ & E)%field_Good. by eapply get_int_range. Qed.

Lemma parse_submission_typed data p : parse_submission data = Good p ->
  is_int (sp_submission_id p) /\ is_int (sp_contest_id p).
Proof.
  unfold parse_submission. intros E. open_parse. simpl. by split; eapply field_int.
Qed.

Lemma parse_stages_typed problem s : parse_stages problem = Good s ->
  is_int (st_problem_id s) /\ 1 <= st_stages s <= 32 /\
  (forall j, j ∈ st_prog_stages s -> 0 <= j < st_stages s).
Proof.
  unfold parse_stages. intros E. open_parse. simpl. split; [by eapply field_int|]. split; [lia|].
  intros j Hj.
  match goal with R : forallb _ _ = true |- _ => rewrite forallb_forall in R; specialize (R j) end.
  match goal with
  | R : List.In _ _ -> _ |- _ =>
      rewrite <- list_elem_of_In, elem_of_elements in R; specialize (R Hj);
      apply negb_true_iff, orb_false_iff in R as [?%Z.ltb_ge ?%Z.leb_gt]
  end.
  lia.
Qed.

(** Test data [i] of a problem, before the groups are known. *)
Definition item_ok (lang : Compiler) (problem i : Z) (item : TestdataItem) : Prop :=
  input_file item = TdInput problem i /\ answer_file item = TdAnswer problem i /\
  0 <= lim_vss item /\ 0 <= lim_rss item /\ 0 <= lim_output item /\ (lang = HASKELL -> lim_vss item = 0).

Lemma haskell_limits_ok lang vss rss v r : haskell_limits lang vss rss = (v, r) -> 0 <= vss -> 0 <= rss ->
  0 <= v /\ 0 <= r /\ (lang = HASKELL -> v = 0).
Proof.
  unfold haskell_limits. intros E Hv Hr. destruct (bool_decide_reflect (lang = HASKELL)) as [->|Hne]; cbn [andb] in E.
  - destruct (0 <? vss) eqn:E0; injection E as <- <-; [|apply Z.ltb_ge in E0; split_and!; intros; lia].
    split_and!; [lia| |done]. destruct (rss =? 0); lia.
  - injection E as <- <-. done.
Qed.

Lemma parse_testdata_typed lang problem i j t item : parse_testdata lang problem i j = Good (t, item) ->
  td_order t = i /\ td_problem_id t = problem /\ is_int (testdata_id t) /\
  item_ok lang problem i item /\ td_groups item = [].
Proof.
  unfold parse_testdata. intros E. open_parse. simplify_eq. simpl.
  match goal with R : haskell_limits _ _ _ = _ |- _ => apply haskell_limits_ok in R as (? & ? & ?); [|lia..] end.
  split_and!; [done..|by eapply field_int| |done]. repeat split; simpl; done || lia.
Qed.

Lemma parse_all_testdata_typed lang problem i js ts items :
  parse_all_testdata lang problem i js = Good (ts, items) ->
  length ts = length js /\ length items = length js /\
  (forall k t, ts !! k = Some t -> td_order t = i + Z.of_nat k /\ td_problem_id t = problem) /\
  (forall k item, items !! k = Some item -> item_ok lang problem (i + Z.of_nat k) item /\ td_groups item = []).
Proof.
  revert i ts items. induction js as [|j js IH]; intros i ts items; simpl.
  - intros [= <- <-]. done.
  - intros E. open_parse. simplify_eq.
    match goal with R : parse_all_testdata _ _ _ _ = _ |- _ => destruct (IH _ _ _ R) as (L1 & L2 & Ht & Hi) end.
    match goal with R : parse_testdata _ _ _ _ = _ |- _ => apply parse_testdata_typed in R as (T1 & T2 & _ & T3 & T4) end.
    simpl. split_and!; [lia|lia| |].
    + intros [|k] u Hu; simpl in Hu; [injection Hu as <-; split; [lia|done]|].
      destruct (Ht k u Hu). split; [lia|done].
    + intros [|k] u Hu; simpl in Hu; [injection Hu as <-; by rewrite Z.add_0_r|].
      replace (i + Z.of_nat (S k)) with (i + 1 + Z.of_nat k) by lia. by apply Hi.
Qed.

(** ** Groups *)

(** How often a group mentions test data [k]. *)
Definition mentions (k : nat) (positions : list json) : nat :=
  length (filter (fun j => get_int j = Some (Z.of_nat k)) positions).

Fixpoint groups_of (k : nat) (g : Z) (tasks : list json) : list Z :=
  match tasks with
  | [] => []
  | task :: tasks' =>
      replicate (mentions k (iterate (default JNull (json_index task "positions")))) g ++ groups_of k (g + 1) tasks'
  end.

Definition add_groups (gs : list Z) (item : TestdataItem) : TestdataItem := {|
  input_file := input_file item; answer_file := answer_file item; lim_vss := lim_vss item;
  lim_rss := lim_rss item; lim_output := lim_output item; lim_time := lim_time item;
  ignore_verdict := ignore_verdict item; td_groups := td_groups item ++ gs |}.

Lemma add_groups_nil item : add_groups [] item = item.
Proof. destruct item. unfold add_groups. simpl. by rewrite app_nil_r. Qed.

Lemma add_groups_app a b item : add_groups b (add_groups a item) = add_groups (a ++ b) item.
Proof. destruct item. unfold add_groups. simpl. by rewrite (assoc_L (++)). Qed.

Lemma parse_positions_spec g ps items items' : parse_positions g ps items = Good items' ->
  length items' = length items /\
  forall k, items' !! k = add_groups (replicate (mentions k ps) g) <$> items !! k.
Proof.
  revert items. induction ps as [|j ps IH]; intros items; simpl; intros E; open_parse.
  - split; [done|]. intros k. destruct (items !! k); simpl; [by rewrite add_groups_nil|done].
  - destruct (IH _ E) as [L Hk]. rewrite length_alter in L. split; [done|]. intros k. rewrite Hk.
    match goal with R : negb _ = true |- _ =>
      apply negb_true_iff, orb_false_iff in R as [?%Z.ltb_ge ?%Z.leb_gt] end.
    unfold mentions. rewrite filter_cons. destruct (decide (get_int j = Some (Z.of_nat k))) as [Ek|Ek].
    + assert (Z.to_nat x = k) as -> by (simplify_eq; lia). rewrite list_lookup_alter_eq.
      destruct (items !! k) as [item|]; [|done]. cbn [fmap option_fmap option_map].
      change (join_group g item) with (add_groups [g] item). by rewrite add_groups_app.
    + rewrite list_lookup_alter_ne; [done|]. intros <-. apply Ek. rewrite Z2Nat.id by lia. done.
Qed.

Lemma parse_tasks_spec g tasks items items' scores : parse_tasks g tasks items = Good (items', scores) ->
  length items' = length items /\ length scores = length tasks /\
  forall k, items' !! k = add_groups (groups_of k g tasks) <$> items !! k.
Proof.
  revert g items items' scores. induction tasks as [|t tasks IH]; intros g items items' scores; simpl.
  - intros [= <- <-]. split_and!; [done..|]. intros k. destruct (items !! k); simpl; [by rewrite add_groups_nil|done].
  - intros E. open_parse. simplify_eq.
    match goal with R : parse_positions _ _ _ = _ |- _ => apply parse_positions_spec in R as [L1 P1] end.
    match goal with R : parse_tasks _ _ _ = _ |- _ => apply IH in R as (L2 & L3 & P2) end.
    split_and!; [lia|simpl; lia|]. intros k. rewrite P2, P1.
    match goal with R : json_index _ _ = _ |- _ => rewrite R end. simpl.
    destruct (items !! k); simpl; [by rewrite add_groups_app|done].
Qed.

Lemma groups_of_range k g tasks h : h ∈ groups_of k g tasks -> g <= h < g + Z.of_nat (length tasks).
Proof.
  revert g. induction tasks as [|t tasks IH]; intros g; simpl; [by intros ?%elem_of_nil|].
  intros [Hh|Hh]%elem_of_app; [apply elem_of_replicate in Hh as [-> _]; lia|]. specialize (IH _ Hh). lia.
Qed.

(** ** The submission *)

(** What the judge may rely on, see [push_ok]. *)
Record well_formed (sub : Submission) : Prop := {
  wf_ids : is_int (submission_id sub) /\ is_int (contest_id sub) /\ is_int (problem_id sub);
  wf_stages : 1 <= stages sub <= 32;
  wf_prog : forall j, j ∈ problem_prog_stages sub -> 0 <= j < stages sub;
  wf_items : forall i item, testdata sub !! i = Some item ->
    item_ok (lang sub) (problem_id sub) (Z.of_nat i) item /\
    forall g, g ∈ td_groups item -> 0 <= g < Z.of_nat (length (group_score sub));
}.

Lemma parse_well_formed data r : parse HASKELL_PROCESS_LIMIT data = Good r ->
  well_formed (rc_sub r) /\
  length (rc_tds r) = length (testdata (rc_sub r)) /\
  (forall i t, rc_tds r !! i = Some t -> td_order t = Z.of_nat i /\ td_problem_id t = problem_id (rc_sub r)) /\
  exists j tasks, json_index data "tasks" = Some j /\ items j = Good tasks /\
    length (group_score (rc_sub r)) = length tasks /\
    forall i item, testdata (rc_sub r) !! i = Some item -> td_groups item = groups_of i 0 tasks.
Proof.
  unfold parse. intros E. open_parse. simplify_eq. simpl.
  repeat match goal with
  | R : parse_submission _ = _ |- _ => apply parse_submission_typed in R as (I1 & I2)
  | R : parse_stages _ = _ |- _ => apply parse_stages_typed in R as (I3 & S1 & S2)
  | R : parse_all_testdata _ _ _ _ = _ |- _ => apply parse_all_testdata_typed in R as (L1 & L2 & T1 & T2)
  | R : parse_tasks _ _ _ = _ |- _ => apply parse_tasks_spec in R as (L3 & L4 & G)
  end.
  assert (Hitem : forall i item, l1 !! i = Some item ->
    item_ok (sp_lang x0) (st_problem_id x4) (Z.of_nat i) item /\ td_groups item = groups_of i 0 x10).
  { intros i item Hi. rewrite G in Hi. apply fmap_Some in Hi as (item0 & H0' & ->).
    destruct (T2 i item0 H0') as [Hok Hg]. split; [apply Hok|]. simpl. by rewrite Hg. }
  split; [|split; [lia|split; [exact T1|by exists x9, x10; split_and!; [..|apply Hitem]]]].
  split; simpl; [done..|].
  intros i item Hi. destruct (Hitem i item Hi) as [Hok Hg]. split; [done|].
  intros g Hin. rewrite Hg in Hin. apply groups_of_range in Hin. lia.
Qed.
End Parse.

(** ** The judge in the server *)

Lemma own_step_submissions `{PathRoots} `{Config} `{JsonText} kMaxParallel (Hpar : 0 < kMaxParallel) l a l' :
  loop_inv kMaxParallel l -> enabled kMaxParallel l a -> is_push a = false -> perform l a = Done l' ->
  dom (submission_list (lp_judge l')) ⊆ dom (submission_list (lp_judge l)).
Proof.
  intros Hl He Ha Hp.
  assert (Hq : quiet (lp_judge l) (lp_judge l') \/ finished (lp_judge l) (lp_judge l')).
  { destruct a; try done; try (injection Hp as <-; by left).
    - pose proof (dispatch_inv kMaxParallel Hpar l env t handle Hl He) as Hd. rewrite Hp in Hd. apply Hd.
    - pose proof (finish_inv kMaxParallel Hpar l env handle res Hl He) as Hd. rewrite Hp in Hd. apply Hd. }
  intros k. rewrite !elem_of_dom. destruct Hq as [Hq|(key & sr & r & F1 & F2 & _)].
  - pose proof (qu_list _ _ Hq k) as E. destruct (submission_list (lp_judge l') !! k); [|by intros [? ?]].
    destruct (submission_list (lp_judge l) !! k); [by eexists|done].
  - specialize (F2 k). destruct (submission_list (lp_judge l') !! k); [|by intros [? ?]].
    case_decide; [done|]. destruct (submission_list (lp_judge l) !! k); [by eexists|done].
Qed.

Lemma with_stages_same n s : stages s = n -> with_stages n s = s.
Proof. intros <-. by destruct s. Qed.

Lemma push_finalized `{PathRoots} s id sub : well_formed sub -> is_int id ->
  submission_list s !! id = None -> push_ok s (finalize id sub).
Proof.
  intros [_ W2 W3 W4] Hid Hfresh. split; simpl; [done..| |].
  - intros j Hj. specialize (W3 j Hj). lia.
  - intros item g [i Hi]%list_elem_of_lookup Hg. by apply (W4 i item Hi).
Qed.

Section System.
Context `{PathRoots} `{Config} `{JsonText} `{JsonGet}.
Context (HASKELL_PROCESS_LIMIT kMaxParallel kMaxQueue : Z) (Hpar : 0 < kMaxParallel) (Hqueue : 0 <= kMaxQueue).

Abbreviation submissions st := (submission_list (lp_judge (sv_loop st))).

Record server_inv (s : System) : Prop := {
  si_loop : reachable kMaxParallel (sv_loop (sy_server s));
  si_seq : 0 <= sv_seq (sy_server s);
  si_keys : forall k, k ∈ dom (submissions (sy_server s)) -> k <= sv_seq (sy_server s);
  si_size : Z.of_nat (size (submissions (sy_server s))) <= kMaxQueue;
  si_dealing : is_Some (sy_dealing s) -> Z.of_nat (size (submissions (sy_server s))) < kMaxQueue;
}.

Lemma smaller_size {A} (m m' : gmap Z A) : dom m' ⊆ dom m -> Z.of_nat (size m') <= Z.of_nat (size m).
Proof. intros Hd. rewrite <- !size_dom. apply subseteq_size in Hd. lia. Qed.

(** The result of dealing with a submission. *)
Definition dealt (c : Compat) (id : Z) (data : json) (st : Server) (reqs : list Request) (st' : Server) : Prop :=
  (exists r, parse HASKELL_PROCESS_LIMIT data = Good r /\
     well_formed (rc_sub r) /\
     sv_seq st' = sv_seq st + 1 /\
     submissions st' = <[sv_seq st + 1 := {| sr_sub := finalize (sv_seq st + 1) (rc_sub r);
                                             sr_result := empty_SubmissionResult |}]> (submissions st) /\
     reachable kMaxParallel (sv_loop st') /\
     reqs = if waiting_to_queued c then [] else [SendStatus (submission_id (rc_sub r)) "queued"]) \/
  (sv_seq st' = sv_seq st /\ sv_loop st' = sv_loop st /\
   reqs = [SendStatus id "JE"; TryFetchSubmission]).

Lemma thread_end_dealt d c id data st :
  reachable kMaxParallel (sv_loop st) -> 0 <= sv_seq st -> sv_seq st + 1 < 2 ^ 31 ->
  (forall k, k ∈ dom (submissions st) -> k <= sv_seq st) -> lp_pc (sv_loop st) <> Busy ->
  match thread_end HASKELL_PROCESS_LIMIT d c id data st with
  | Crash f => f = BadEnum /\ parse HASKELL_PROCESS_LIMIT data = UnknownEnum
  | Done (reqs, st') => dealt c id data st reqs st' /\ sv_receiving st' = -1
  end.
Proof.
  intros Hr Hs Hbound Hkeys Hpc. unfold thread_end, DealOneSubmission.
  destruct (dl_tempdir d); cbn [negb]; [|split; [right; done|done]].
  destruct (parse HASKELL_PROCESS_LIMIT data) as [r| |] eqn:Ep; [|split; [right; done|done]|done].
  destruct (sync _ _ _ _) as [[|] [db fs]]; cbn [negb]; [|split; [right; done|done]].
  simpl. destruct (parse_well_formed _ _ _ Ep) as [Hwf _].
  assert (Hpush : push_ok (lp_judge (sv_loop st)) (finalize (sv_seq st + 1) (rc_sub r))).
  { apply push_finalized; [done|unfold in_signed; lia|].
    apply not_elem_of_dom. intros Hk%Hkeys. lia. }
  assert (He : enabled kMaxParallel (sv_loop st) (Push_ (finalize (sv_seq st + 1) (rc_sub r)) 0)).
  { split; [|done]. destruct (lp_pc (sv_loop st)); [by left|done|by right]. }
  pose proof (reachable_inv kMaxParallel Hpar _ Hr) as Hl.
  destruct (PushSubmission_spec _ _ _ 0 (li_judge _ _ Hl) Hpush) as [[_ ?]|[_ (s' & Eq & Ha)]]; [lia|].
  rewrite Eq. split; [|done]. left. exists r. split_and!; [done..| | |done].
  - simpl. rewrite (ac_list _ _ _ _ Ha). unfold clamped. rewrite with_stages_same; [done|].
    simpl. pose proof (wf_stages _ Hwf). lia.
  - simpl. eapply reach_step; [exact Hr|exact He|]. simpl. unfold run. rewrite Eq. by rewrite Z.add_0_r.
Qed.

Lemma thread_end_seq d c id data st reqs st' :
  thread_end HASKELL_PROCESS_LIMIT d c id data st = Done (reqs, st') ->
  (sv_seq st' = sv_seq st /\ sv_loop st' = sv_loop st) \/ sv_seq st' = sv_seq st + 1.
Proof.
  unfold thread_end, DealOneSubmission. destruct (dl_tempdir d); cbn [negb]; [|intros [= _ <-]; by left].
  destruct (parse _ data) as [r| |]; [|intros [= _ <-]; by left|done].
  destruct (sync _ _ _ _) as [[|] [db fs]]; cbn [negb]; [|intros [= _ <-]; by left].
  simpl. destruct (PushSubmission _ _ _) as [[? ?]|]; [|done]. intros [= _ <-]. by right.
Qed.

Lemma thread_begin_spec c data st reqs next st' : thread_begin kMaxQueue c data st = (reqs, next, st') ->
  sv_loop st' = sv_loop st /\ sv_seq st' = sv_seq st /\
  (is_Some next -> Z.of_nat (size (submissions st)) < kMaxQueue).
Proof.
  unfold thread_begin, CurrentSubmissionQueueSize. destruct (data_at_int data _); [|intros [= _ <- <-]; by split_and!; [..|intros []]].
  destruct (Z.leb_spec kMaxQueue (Z.of_nat (size (submissions st)))); intros [= _ <- <-]; (split_and!; [done..|]); [by intros []|done].
Qed.

Lemma reachable_server_inv s : system_reachable HASKELL_PROCESS_LIMIT kMaxParallel kMaxQueue s ->
  sv_seq (sy_server s) < 2 ^ 31 -> server_inv s.
Proof.
  induction 1 as [db fs code|s s' Hs IH Hstep]; intros Hb.
  { split; simpl; try done. apply reach_initial. }
  destruct Hstep as [st l' ph a Ha He Hp|st c data reqs next st' Eb|st d c id data reqs st' Hpc Ee]; simpl in *.
  - destruct (IH Hb) as [I1 I2 I3 I4 I5]. simpl in *.
    pose proof (own_step_submissions kMaxParallel Hpar _ _ _ (reachable_inv _ Hpar _ I1) He Ha Hp) as Hd.
    pose proof (smaller_size _ _ Hd). split; simpl; [by eapply reach_step|done| |lia|].
    + intros k Hk. apply I3. by apply Hd.
    + intros Hph. specialize (I5 Hph). lia.
  - destruct (thread_begin_spec _ _ _ _ _ _ Eb) as (El & Eq & Hn).
    rewrite Eq in Hb. destruct (IH Hb) as [I1 I2 I3 I4 _]. simpl in *.
    split; simpl; rewrite ?El, ?Eq; [done..|]. intros [x Hx]. apply Hn. by destruct next.
  - assert (Hcase : sv_seq st + 1 < 2 ^ 31 \/ (sv_seq st' = sv_seq st /\ sv_loop st' = sv_loop st)).
    { destruct (thread_end_seq _ _ _ _ _ _ _ Ee) as [?|Eq]; [by right|left; lia]. }
    destruct (IH ltac:(destruct (thread_end_seq _ _ _ _ _ _ _ Ee) as [[? _]|?]; lia)) as [I1 I2 I3 I4 I5].
    simpl in *. specialize (I5 ltac:(by eexists)).
    assert (Hsame : sv_seq st' = sv_seq st /\ sv_loop st' = sv_loop st ->
      server_inv {| sy_server := st'; sy_dealing := None |}).
    { intros [Eq El]. split; simpl; by rewrite ?El, ?Eq. }
    destruct Hcase as [Hlt|?]; [|by apply Hsame].
    pose proof (thread_end_dealt d c id data st I1 I2 Hlt I3 Hpc) as Hd. rewrite Ee in Hd.
    destruct Hd as [[(r & _ & _ & Eq & El & Hr & _)|(Eq & El & _)] _]; [|by apply Hsame].
    split; simpl; [done|lia| | |done].
    + intros k. rewrite El, dom_insert, elem_of_union, elem_of_singleton, Eq. intros [->|Hk]; [lia|].
      specialize (I3 k Hk). lia.
    + rewrite El, map_size_insert. destruct (submissions st !! _); simpl; lia.
Qed.
End System.

(** C17: What the server sends is either refused or well typed. A parsed
    submission has [int] identifiers, 1 to 32 stages, problem-program stages among
    them, limits that are not negative (and no limit of the address space for
    Haskell), groups that all have a score; it satisfies what [PushSubmission]
    asks of its caller for every fresh internal id; its test data carry the
    positions and files that the synchronisation links; and test data [i]
    belongs to exactly the groups whose positions mention [i]. *)
Theorem parse_typed `{PathRoots} `{JsonGet} HASKELL_PROCESS_LIMIT data r :
  parse HASKELL_PROCESS_LIMIT data = Good r ->
  let sub := rc_sub r in
  well_formed sub /\
  (forall s id, is_int id -> submission_list s !! id = None -> push_ok s (finalize id sub)) /\
  (NoDup (testdata_id <$> rc_tds r) -> announced (problem_id sub) (rc_tds r)) /\
  (forall i item, testdata sub !! i = Some item ->
     input_file item = path_of (Linked (problem_id sub) (Z.of_nat i) true) /\
     answer_file item = path_of (Linked (problem_id sub) (Z.of_nat i) false) /\
     is_Some (rc_tds r !! i)) /\
  exists j tasks, json_index data "tasks" = Some j /\ items j = Good tasks /\
    length (group_score sub) = length tasks /\
    forall i item, testdata sub !! i = Some item -> td_groups item = groups_of i 0 tasks.
Proof.
  intros (Hwf & Hlen & Htds & Hgroups)%parse_well_formed. cbv zeta. split_and!; [done| |done| |done].
  - intros s id Hid Hfresh. by apply push_finalized.
  - intros i item Hi. destruct (wf_items _ Hwf i item Hi) as [(E1 & E2 & _) _]. split_and!; [done..|].
    apply lookup_lt_is_Some. rewrite Hlen. by eapply lookup_lt_Some.
Qed.

(** C4: The server side drives the judge as the work loop expects: whatever
    documents arrive and whatever fails while they are dealt with, the judge
    inside the server is always in a state reachable by the work loop's own
    steps and admissible pushes (so everything proved of those states
    holds), and the queue never exceeds [kMaxQueue] although its size is only
    checked before a submission is parsed. Dealing with a submission either
    pushes it under the next internal id or sends JE and asks for another; only a
    document with an unknown enumeration value leaves the model. *)
Theorem server_refines_loop `{PathRoots} `{Config} `{JsonText} `{JsonGet}
    HASKELL_PROCESS_LIMIT kMaxParallel kMaxQueue s : 0 < kMaxParallel -> 0 <= kMaxQueue ->
  system_reachable HASKELL_PROCESS_LIMIT kMaxParallel kMaxQueue s -> sv_seq (sy_server s) < 2 ^ 31 - 1 ->
  let st := sy_server s in
  reachable kMaxParallel (sv_loop st) /\
  CurrentSubmissionQueueSize (lp_judge (sv_loop st)) <= kMaxQueue /\
  forall id data d c, sy_dealing s = Some (id, data) -> lp_pc (sv_loop st) <> Busy ->
    match thread_end HASKELL_PROCESS_LIMIT d c id data st with
    | Crash f => f = BadEnum /\ parse HASKELL_PROCESS_LIMIT data = UnknownEnum
    | Done (reqs, st') =>
        dealt HASKELL_PROCESS_LIMIT kMaxParallel c id data st reqs st' /\ sv_receiving st' = -1
    end.
Proof.
  intros Hpar Hqueue Hs Hb. cbv zeta.
  destruct (reachable_server_inv HASKELL_PROCESS_LIMIT kMaxParallel kMaxQueue Hpar Hqueue s Hs ltac:(lia)) as [I1 I2 I3 I4 I5].
  split_and!; [done|done|]. intros id data d c _ Hpc. by apply thread_end_dealt; try lia.
Qed.

(** ** An example *)

(** Conversions as the JSON library documents them, for integers and texts. *)
Definition plain_int (j : json) : option Z := match j with JInt z => Some (to_int z) | JBool b => Some (Z.b2z b) | _ => None end.
Definition plain_ints (j : json) : option (gset Z) :=
  match j with JArr l => list_to_set <$> mapM plain_int l | _ => None end.

Lemma plain_int_range j z : plain_int j = Some z -> is_int z.
Proof.
  destruct j; simpl; try done; intros [= <-].
  - unfold in_signed. destruct b; simpl; lia.
  - by apply wrap_signed_range.
Qed.

#[local] Instance plain_get : JsonGet.
Proof.
  refine {|
    get_int := plain_int;
    get_long := fun j => match j with JInt z => Some (to_long z) | _ => None end;
    get_bool := fun j => match j with JBool b => Some b | _ => None end;
    get_string := fun j => match j with JStr s => Some s | _ => None end;
    get_int_set := plain_ints;
    get_strings := fun j => match j with
      | JArr l => mapM (fun x => match x with JStr s => Some s | _ => None end) l | _ => None end |}.
  - apply plain_int_range.
  - unfold plain_ints. intros j s z. destruct j; try done.
    destruct (mapM plain_int l) as [zs|] eqn:E; [|done]. intros [= <-] Hz%elem_of_list_to_set.
    apply mapM_Some in E. apply list_elem_of_lookup in Hz as [i Hi].
    destruct (Forall2_lookup_r _ _ _ _ _ E Hi) as (x & _ & Hx). by eapply plain_int_range.
Defined.

#[local] Existing Instance sample_roots.
#[local] Existing Instance sample_config.
#[local] Existing Instance sample_json.

Definition sample_td (id : Z) : json := JObj [
  ("id", JInt id); ("updated_at", JInt 10); ("time", JInt 1000000); ("vss", JInt 65536); ("rss", JInt (-1));
  ("output", JInt 0); ("verdict_ignore", JBool false)].
Definition sample_document : json := JObj [
  ("submission_id", JInt 42); ("contest_id", JInt 0); ("priority", JInt 5); ("compiler", JStr "haskell");
  ("time", JInt 1); ("code_base64", JStr "aGk=");
  ("user", JObj [("id", JInt 3); ("name", JStr "a"); ("nickname", JStr "b")]);
  ("problem", JObj [("id", JInt 7); ("strict_mode", JBool true); ("num_stages", JInt 99);
    ("problem_prog_stages", JArr [JInt 31]); ("problem_prog_compiler", JStr "c++17"); ("problem_prog_code", JStr "p");
    ("specjudge_type", JInt 0); ("default_scoring_args", JArr [JStr "strict"]); ("interlib_type", JInt 0)]);
  ("td", JArr [sample_td 1; sample_td 2]);
  ("tasks", JArr [JObj [("positions", JArr [JInt 0; JInt 1]); ("score", JInt 60)];
                  JObj [("positions", JArr [JInt 1]); ("score", JInt 40)]])].

Definition sample_received : parsed Received := parse 2 sample_document.

Lemma parse_typed_witness : exists r, parse 2 sample_document = Good r /\ well_formed (rc_sub r) /\
  stages (rc_sub r) = 32 /\ map td_groups (testdata (rc_sub r)) = [[0]; [0; 1]] /\
  map (fun i => (lim_vss i, lim_rss i)) (testdata (rc_sub r)) = [(0, 65536); (0, 65536)].
Proof.
  destruct (parse 2 sample_document) as [r| |] eqn:E; [|vm_compute in E; done|vm_compute in E; done].
  exists r. split; [done|]. split; [apply (parse_typed 2 sample_document r E)|].
  vm_compute in E. injection E as <-. done.
Defined.

Definition sample_dealing : Dealing := {|
  dl_td := {| served := fun _ _ => (true, "x"); dirs_fail := fun _ => false; move_fails := fun _ => false |};
  dl_tempdir := true; dl_move := fun _ => true |}.

Definition sample_begun : System := {|
  sy_server := set_receiving 42 (sy_server (initial_system ∅ ∅ ∅)); sy_dealing := Some (42, sample_document) |}.

Lemma sample_begun_reachable : system_reachable 2 4 20 sample_begun.
Proof.
  eapply sr_step; [apply (sr_initial 2 4 20 ∅ ∅ ∅)|].
  apply (sy_begin 2 4 20 _ initial_compat sample_document [TryFetchSubmission] (Some 42)). reflexivity.
Qed.

Lemma sample_thread_end :
  match thread_end 2 sample_dealing initial_compat 42 sample_document (sy_server sample_begun) with
  | Done (reqs, st') => Some (reqs, sv_code st' !! "/tmp/tioj_submissions/000001/prog")
  | Crash _ => None
  end = Some ([], Some "hi").
Proof. vm_compute. reflexivity. Qed.

Lemma server_refines_loop_witness :
  exists st', thread_end 2 sample_dealing initial_compat 42 sample_document (sy_server sample_begun) = Done ([], st') /\
    sv_seq st' = 1 /\ reachable 4 (sv_loop st') /\
    sv_code st' !! "/tmp/tioj_submissions/000001/prog" = Some "hi".
Proof.
  destruct (server_refines_loop 2 4 20 sample_begun ltac:(lia) ltac:(lia) sample_begun_reachable ltac:(simpl; lia))
    as (_ & _ & Hd).
  specialize (Hd 42 sample_document sample_dealing initial_compat eq_refl ltac:(done)).
  pose proof sample_thread_end as Hc. revert Hc Hd.
  destruct (thread_end 2 sample_dealing initial_compat 42 sample_document (sy_server sample_begun)) as [[reqs st']|f]; [|done].
  intros [= -> Ecode] [[(r & _ & _ & Eq & _ & Hr & _)|(_ & _ & [=])] _].
  exists st'. by split_and!.
Defined.

(** [receiving_submission_id] starts as 0, not -1: until the first submission is
    received, submission 0 is reported as received. *)
Example zero_reported_received :
  GetReceivedSubmissionID (sv_receiving (sy_server (initial_system ∅ ∅ ∅))) empty_Judge = [0].
Proof. reflexivity. Qed.
