(* ===== verification/Settings.v ===== *)
(** * Configuration

    src/main.cpp: the configuration file ([ParseConfig]), the command line
    ([ParseArgs]) and what [main] does before it starts the two threads. The
    readers of the ini file and of the command line are third-party: the former
    is an interface, the latter gives a record of what was found. *)

From S2P Require Import Prelude Text CNum Cpuset.
From Stdlib Require Import SpecFloat.

(** [ini[""][key] | default]: the value of [key] converted to the type of the
    default, which is the result when the key is absent. *)
Class Ini := {
  ini_has : string -> bool;
  ini_string : string -> string -> string;
  ini_int : string -> Z -> Z;
  ini_long : string -> Z -> Z;
  ini_double : string -> spec_float -> spec_float;
  ini_string_absent k d : ini_has k = false -> ini_string k d = d;
  ini_int_absent k d : ini_has k = false -> ini_int k d = d;
  ini_long_absent k d : ini_has k = false -> ini_long k d = d;
  ini_double_absent k d : ini_has k = false -> ini_double k d = d;
}.

(** The global variables. *)
Record Settings := {
  box_root : string;
  submission_root : string;
  testdata_root : string;
  parallel : Z;
  pinned_cpus : gset Z;
  max_rss : Z;              (* KiB *)
  max_output : Z;
  max_queue : Z;            (* size_t *)
  time_multiplier : spec_float;
  tioj_url : string;
  tioj_key : string;
  to_lock : bool;
}.

(** Their initial values; [data_dir] is fixed when the program is built. *)
Definition initial_settings (data_dir : string) : Settings := {|
  box_root := "/tmp/tioj_box"; submission_root := "/tmp/tioj_submissions"; testdata_root := data_dir;
  parallel := 1; pinned_cpus := ∅; max_rss := 2 * 1024 * 1024; max_output := 1 * 1024 * 1024;
  max_queue := 20; time_multiplier := dbl_of_Z 1; tioj_url := ""; tioj_key := ""; to_lock := true |}.

Section Settings.
Context (nprocs : Z).

(** [None]: the exception. *)
Definition SetPinnedCPU (cpu_str : string) : option (gset Z) := CpusetParse cpu_str nprocs.

Definition nonempty_or (s d : string) : string := if bool_decide (s = "") then d else s.

(** [file]: whether the file can be opened. *)
Definition ParseConfig `{Ini} (file : bool) (s : Settings) : option Settings :=
  if negb file then None
  else
    let parallel := ini_int "parallel" (parallel s) in
    match SetPinnedCPU (ini_string "pinned_cpus" "none") with
    | None => None
    | Some cpus =>
        let max_rss := to_long (ini_long "max_rss_per_task_mb" (Z.quot (max_rss s) 1024) * 1024) in
        Some {|
          box_root := nonempty_or (ini_string "box_root" "") (box_root s);
          submission_root := nonempty_or (ini_string "submission_root" "") (submission_root s);
          testdata_root := nonempty_or (ini_string "testdata_root" "") (testdata_root s);
          parallel := parallel;
          pinned_cpus := cpus;
          max_rss := max_rss;
          max_output := to_long (ini_long "max_output_per_task_mb" (Z.quot max_rss 1024) * 1024);
          max_queue := wrap_unsigned 64 (ini_int "max_submission_queue_size" (to_int (parallel + 2)));
          time_multiplier := ini_double "time_multiplier" (time_multiplier s);
          tioj_url := ini_string "tioj_url" (tioj_url s);
          tioj_key := ini_string "tioj_key" (tioj_key s);
          to_lock := to_lock s |}
    end.

(** What the parser of the command line found. *)
Record Args := {
  arg_error : bool;
  arg_version : bool;
  arg_verbosity : Z;
  arg_parallel : option Z;
  arg_time_multiplier : option spec_float;
  arg_no_lock : bool;
  arg_pinned_cpus : option string;
}.

Inductive log_level := LogWarn | LogInfo | LogDebug.
Definition level_of (verbosity : Z) : log_level :=
  if verbosity =? 0 then LogWarn else if verbosity =? 1 then LogInfo else LogDebug.

Inductive parsed_args := Exit (code : Z) | Parsed (s : Settings) (level : log_level) (warn : bool).

(** The remark that there are fewer CPUs than parallel tasks. *)
Definition too_few_cpus (s : Settings) : bool :=
  negb (bool_decide (size (pinned_cpus s) = 0%nat)) && (Z.of_nat (size (pinned_cpus s)) <? parallel s).

Definition override_settings (a : Args) (cpus : gset Z) (s : Settings) : Settings := {|
  box_root := box_root s; submission_root := submission_root s; testdata_root := testdata_root s;
  parallel := default (parallel s) (arg_parallel a); pinned_cpus := cpus;
  max_rss := max_rss s; max_output := max_output s; max_queue := max_queue s;
  time_multiplier := default (time_multiplier s) (arg_time_multiplier a);
  tioj_url := tioj_url s; tioj_key := tioj_key s; to_lock := negb (arg_no_lock a) |}.

Definition ParseArgs `{Ini} (a : Args) (file : bool) (s : Settings) : parsed_args :=
  if arg_error a then Exit 1
  else if arg_version a then Exit 0
  else
    match ParseConfig file s with
    | None => Exit 1
    | Some s =>
        match (match arg_pinned_cpus a with Some str => SetPinnedCPU str | None => Some (pinned_cpus s) end) with
        | None => Exit 1
        | Some cpus =>
            let s := override_settings a cpus s in
            Parsed s (level_of (arg_verbosity a)) (too_few_cpus s)
        end
    end.

(** [open] and [fcntl] in [LockFile]. *)
Definition LockFile (opened locked : bool) : bool := if negb opened then false else locked.

Inductive main_result := Returns (code : Z) | Runs (s : Settings) (level : log_level).

(** Up to the start of [ServerWorkLoop] and [WorkLoop]. *)
Definition main `{Ini} (a : Args) (file : bool) (data_dir : string) (euid : Z) (opened locked : bool) : main_result :=
  match ParseArgs a file (initial_settings data_dir) with
  | Exit code => Returns code
  | Parsed s level _ =>
      if negb (euid =? 0) then Returns 1
      else if to_lock s && negb (LockFile opened locked) then Returns 1
      else Runs s level
  end.

(** ** Properties *)

(** The settings without a configuration. With an empty file the program
    runs one task at a time with 2 GiB of memory and the roots it was built with;
    but a task may write 2 GiB (the bound of memory is taken as default, not that of
    output) and the queue takes 3 submissions ([parallel + 2]), where the README
    says 1024 MiB and 20. *)
Theorem ParseConfig_defaults `{Ini} data_dir : (forall k, ini_has k = false) ->
  exists s, ParseConfig true (initial_settings data_dir) = Some s /\
    parallel s = 1 /\ max_rss s = 2048 * 1024 /\ pinned_cpus s = ∅ /\ time_multiplier s = dbl_of_Z 1 /\
    box_root s = "/tmp/tioj_box" /\ submission_root s = "/tmp/tioj_submissions" /\ testdata_root s = data_dir /\
    max_output s = 2048 * 1024 /\ max_queue s = 3.
Proof.
  intros Hno. unfold ParseConfig. cbn [negb].
  rewrite !ini_string_absent, !ini_int_absent, !ini_long_absent, !ini_double_absent by apply Hno.
  eexists. split; [reflexivity|]. by split_and!.
Qed.

(** What the work loop is proved for. *)
Definition settings_ok (s : Settings) : Prop := 0 < parallel s /\ 0 <= max_queue s.

Lemma ParseConfig_queue `{Ini} file s s' : ParseConfig file s = Some s' -> 0 <= max_queue s' < 2 ^ 64.
Proof.
  unfold ParseConfig. destruct file; [|done]. cbn [negb]. destruct (SetPinnedCPU _); [|done].
  intros [= <-]. cbn [max_queue]. unfold wrap_unsigned. apply Z.mod_pos_bound. lia.
Qed.

(** A started program has the configuration of the file but for what the command
    line replaces; [-p] changes neither the queue nor the output limit that were
    computed from the file. *)
Lemma main_runs `{Ini} a file data_dir euid opened locked s level :
  main a file data_dir euid opened locked = Runs s level ->
  euid = 0 /\ (arg_no_lock a = true \/ (opened = true /\ locked = true)) /\
  exists c cpus, ParseConfig file (initial_settings data_dir) = Some c /\ s = override_settings a cpus c /\
    max_queue s = max_queue c /\ 0 <= max_queue s < 2 ^ 64.
Proof.
  unfold main, ParseArgs. destruct (arg_error a), (arg_version a); try done.
  destruct (ParseConfig file _) as [c|] eqn:Ec; [|done].
  destruct (match arg_pinned_cpus a with Some _ => _ | None => _ end) as [cpus|]; [|done].
  destruct (Z.eqb_spec euid 0) as [->|]; [|done]. cbn [negb to_lock override_settings].
  destruct (arg_no_lock a) eqn:En; cbn [negb andb].
  - intros [= <- <-]. split_and!; [done|by left|]. exists c, cpus. split_and!; [done..| |]; apply ParseConfig_queue in Ec; simpl; lia.
  - unfold LockFile. destruct opened, locked; try done. cbn [negb]. intros [= <- <-].
    split_and!; [done|by right|]. exists c, cpus. split_and!; [done..| |]; apply ParseConfig_queue in Ec; simpl; lia.
Qed.

End Settings.

(** *** An empty file, and one with some keys *)

Definition empty_ini : Ini.
Proof.
  refine {| ini_has := fun _ => false; ini_string := fun _ d => d; ini_int := fun _ d => d;
            ini_long := fun _ d => d; ini_double := fun _ d => d |}; done.
Defined.

Lemma ParseConfig_defaults_witness :
  exists s, ParseConfig (H := empty_ini) 4 true (initial_settings "/d") = Some s /\ max_output s = 2097152 /\ max_queue s = 3.
Proof.
  destruct (ParseConfig_defaults (H := empty_ini) 4 "/d" (fun _ => eq_refl)) as (s & E & _ & _ & _ & _ & _ & _ & _ & Eo & Eq).
  exists s. by split_and!.
Defined.

(** [parallel = 4] in the file, [-p 10 --pinned-cpus 0-3] on the command line. *)
Definition parallel_ini : Ini.
Proof.
  refine {| ini_has := fun k => bool_decide (k = "parallel"); ini_string := fun _ d => d;
            ini_int := fun k d => if bool_decide (k = "parallel") then 4 else d;
            ini_long := fun _ d => d; ini_double := fun _ d => d |}; try done.
  intros k d E. by rewrite E.
Defined.

Example parallel_override :
  let a := {| arg_error := false; arg_version := false; arg_verbosity := 1; arg_parallel := Some 10;
              arg_time_multiplier := None; arg_no_lock := true; arg_pinned_cpus := Some "0-3" |} in
  match main (H := parallel_ini) 8 a true "/d" 0 false false with
  | Runs s level => (parallel s, max_queue s, size (pinned_cpus s), too_few_cpus s, level) = (10, 6, 4%nat, true, LogInfo)
  | Returns _ => False
  end.
Proof. vm_compute. reflexivity. Qed.
